(* ===== verification/_CoqProject ===== *)
-Q . S2P
Prelude.v
Memory.v
X86.v
Paging.v
Config.v
ApiBuild.v
Info.v
Elf.v
FrameAllocator.v
Level4.v
Entropy.v
LoadKernel.v
LoadKernelProofs.v
LoadSegments.v
PageTables.v
SetUp.v
SetUpProofs.v
BootInfoProofs.v
LoadAndSwitch.v
Api.v
Disk.v
Fat.v
FatProofs.v
Stage2.v
E820.v
BiosCommon.v
Vesa.v
BootSector.v
Cpu.v
ProtectedMode.v
Stage3.v
Framebuffer.v
Screen.v
Logger.v
Stage2Start.v
Stage4.v
BootChain.v
Uefi.v
UefiBoot.v
UefiSample.v
DiskImage.v
FatFormat.v
DiskImageProofs.v
ImageBoot.v
ImageFiles.v
DiskImageSample.v
ImageFilesSample.v
ImageChain.v
ImageChainSample.v
