(* ===== verification/Prelude.v ===== *)
(** * A verification of the bootloader

    The program is an x86-64 bootloader: a chain of stages that takes a machine
    from its firmware to the entry point of a kernel, and a host library that
    writes the disk images the chain is started from. This library models it in
    Rocq, definition by definition, and proves that the parts do their work and
    fit together. Paths are relative to the root of the repository.

    ** The parts of the program and the files that model them

    The common loader (crate common), used by the BIOS and the UEFI path:
    - [FrameAllocator] (common/src/legacy_memory_region.rs and both
      memory_descriptor.rs): [LegacyFrameAllocator], the memory map of the boot
      information, and the two implementations of [LegacyMemoryRegion].
    - [Level4] (level_4_entries.rs): which of the 512 top-level page table
      entries are free, and the choice of addresses, at random with ASLR.
      [Entropy] (entropy.rs): the seed of the random numbers.
    - [Elf], [LoadKernel] (load_kernel.rs): loading the segments of an ELF file,
      bss, relocations, copy-on-write, RELRO. [LoadKernelProofs] has the loops and
      single operations, [LoadSegments] the whole of [load_segments].
    - [SetUp] (lib.rs, gdt.rs): [set_up_mappings], [create_boot_info] and
      [switch_to_kernel], with proofs in [SetUpProofs] and [BootInfoProofs].
      [LoadAndSwitch] composes everything: [load_and_switch_to_kernel].
    - [Framebuffer], [Logger] (framebuffer.rs, logger.rs, serial.rs and the crate
      common/config): text output and the boot configuration file.

    The interface to kernels (crate api):
    - [Config] (config.rs): the configuration and its wire format, [ApiBuild]
      (build.rs): the functions generated for it; [Info]
      (info.rs): the boot information and its memory layout; [Api] (lib.rs,
      info.rs): what [entry_point!] puts into a kernel, slices and [Optional].

    The BIOS path (crates under bios):
    - [BootSector] (boot_sector): loads the second stage.
    - [Disk] (stage-2/src/disk.rs, dap.rs), [Fat] with [FatProofs] (fat.rs),
      [Stage2] (file loading), [E820] (memory_map.rs), [Vesa] (vesa.rs),
      [ProtectedMode] (protected_mode.rs), [Stage2Start] (the function [start]).
    - [Stage3] (stage-3) with the processor of [Cpu]; [Screen] (screen.rs of
      stages 2 and 3).
    - [BiosCommon] (bios/common): the data the stages hand on. [Stage4]
      (stage-4): from there to the arguments of the common loader.
    - [BootChain]: the second and the fourth stage composed.

    The UEFI path (crate uefi): [Uefi] models main.rs, [UefiBoot] has the
    properties, [UefiSample] a machine on which they are run.

    The host library (src/): [DiskImage] models lib.rs, mbr.rs, gpt.rs, fat.rs,
    file_data_source.rs and the two front ends; [FatFormat] has the format of the
    volumes that fatfs writes, [DiskImageProofs] has the
    properties of the images, [ImageBoot] starts a written image with the boot
    sector of [BootSector], [ImageFiles] goes on to the second stage and the files
    in memory, [ImageChain] to the fourth stage and the kernel loader;
    [DiskImageSample], [ImageFilesSample] and [ImageChainSample] have the concrete
    instances.

    Shared: this file; [Memory] (bytes of an address space); [X86], [Paging] and
    [PageTables], the interfaces to the x86_64 crate.

    ** How code is translated

    - A fallible computation is a [res]: [Ret], [Err] (a [Result]'s error) or
      [Panic]. The loader crates are built with overflow checks, so their
      arithmetic is [+[w]], [*[w]] and [-!], which panic; the boot sector is
      built without and wraps ([wrap_u]). [returns m Q] says that [m] returns
      and the result satisfies [Q]: there is no panic, no error, no divergence.
    - Integers are [Z] with their width ([is_uint]); memory is a function from
      addresses to bytes; a slice is a list; mutable state is passed explicitly.
    - Code that is not in the repository is a class of operations with a class of
      laws, one field per documented behaviour: the crates x86_64, xmas_elf,
      rand, uart_16550, noto_sans_mono_bitmap, serde_json, rsdp, mbr_nostd, uefi,
      mbrman, gpt and fatfs; the BIOS services; the UEFI firmware; the processor;
      the host's file system. The theorems are proved from the laws; each class
      has a concrete instance with which the witnesses are evaluated. The
      components of the repository meet the interfaces of each other:
      [FrameAllocator] is an instance of [FrameSourceLaws], [DiskAccess] of
      [ReadSeekLaws].
    - Loops are folds or structural recursion where the source iterates over a
      collection. Three loops take fuel: reading sectors (one step per sector,
      computed from the request), the clusters of a file and the descriptors or
      modes of the BIOS (an argument; the theorems hold for every fuel above
      the length of the chain or list, so the result does not depend on it).
      [try_load_file_terminates] bounds the chain by the size of the volume.

    ** What the theorems show

    - From the image to the kernel. [built_image_loads]: on a disk with
      an image of the builder the boot sector loads the second stage, and that the
      kernel and the other files, with the bytes they have on the host. The code
      reads [DISK_BUFFER] whole, so the disk must go on behind the image; the
      volume must have less than 32 MiB, a label without spaces, and no name that
      the driver confuses with that of a stage ([build_ok], [boots_from]). Of
      fatfs only the format of the volume is assumed, not that the driver reads it.
      [built_image_reaches_loader]: so it goes on up to the kernel loader, which gets
      the kernel, the ramdisk and the configuration of the host, and frames
      that are not occupied by them. [first_stage_loads_second_stage],
      [start_loads_and_reports], [enter_protected_mode_calls_stage_3],
      [start_enters_long_mode], [boot_chain]: each stage enters the next with what
      it needs, and what is read from the disk is what reaches the loader.
      [uefi_hands_over] is the same for the UEFI path. [load_and_switch_boots]:
      the loader then enters the kernel at its entry point, with its image, stack,
      boot information and all mappings in place.
    - The kernel's image. [load_segments_correct] and the properties of its
      steps: file bytes, zeros, relocations, page flags; the file is not written.
    - Memory. The frame allocator gives out exactly the usable frames, each once;
      the memory map of the boot information is a sorted disjoint cover in which
      what is marked usable is free; virtual ranges are disjoint.
    - Formats. Configuration, FAT entries, directory entries, partition tables,
      memory map: what is written is what is read. [FatFormat] has the documented
      format of FAT12 and FAT16 volumes and shows that the driver of the second
      stage reads it, up to 32 MiB: [large_fat16_volume_panics].
    - Output. A character on the framebuffer changes its cell and no other pixel;
      the third stage's screen is equivalent to a terminal; the serial port
      receives exactly the lines that pass the level filter.
    - Where the code departs from its comments, or a corner case goes wrong, the
      behaviour of the code is what is proved (for example
      [new_ignores_fixed_ramdisk], [uefi_loader_data_reported_usable],
      [create_uefi_tftp_folder_correct]).

    ** What is not modelled, and why

    - build.rs and the build scripts of the stages: they run cargo, objcopy and
      the linker.
    - src/disk_image.rs is not part of any crate.
    - Panic handlers, halt loops, racy cells (one processor, no interrupts), the
      start-up assembly of the boot sector, and test code.
    - Log messages inside of the loader, and the screen output of the second and
      third stage in the composition of the stages: the writers themselves are
      modelled.
    - The boot information is a value that is handed over with the address of its
      frames: that it is written there, field by field, by the compiler is not
      modelled; [Info] has its memory layout.
    - The text of error messages is kept where it is a constant of the source;
      the host's state after an error is not described. *)
From stdpp Require Export base tactics list numbers strings sets sorting.
From stdpp Require Import options.

(** ** The outcome of a Rust computation

    [Ret] is a normal return, [Err] the [Err(&'static str)] of a
    [Result<_, &'static str>], [Panic] a panic: a failed assertion, an
    arithmetic overflow (the loader crates are built with
    [overflow-checks = true]), an out-of-range index or an [unwrap] of
    nothing. [?] is the monadic bind, which propagates both. *)
Inductive res (A : Type) : Type :=
  | Ret (a : A)
  | Err (e : string)
  | Panic (e : string).
Arguments Ret {_} _.
Arguments Err {_} _.
Arguments Panic {_} _.

#[export] Instance res_ret : MRet res := @Ret.
#[export] Instance res_bind : MBind res := λ A B f m,
  match m with Ret a => f a | Err e => Err e | Panic e => Panic e end.
#[export] Instance res_fmap : FMap res := λ A B f m,
  match m with Ret a => Ret (f a) | Err e => Err e | Panic e => Panic e end.

#[export] Instance res_eq_dec `{EqDecision A} : EqDecision (res A).
Proof. solve_decision. Defined.

Declare Scope boot_scope.
Delimit Scope boot_scope with boot.
#[global] Open Scope boot_scope.
#[global] Open Scope Z_scope.

(** [assert!(b, msg)] *)
Definition assert_ (b : bool) (msg : string) : res unit :=
  if b then Ret () else Panic msg.

(** [o.unwrap()] / [o.expect(msg)] on an [Option] *)
Definition expect_some {A} (o : option A) (msg : string) : res A :=
  match o with Some a => Ret a | None => Panic msg end.

(** [r.unwrap()] / [r.expect(msg)] on a [Result]: an [Err] becomes a panic. *)
Definition expect_ok {A} (m : res A) (msg : string) : res A :=
  match m with Err e => Panic (msg +:+ ": " +:+ e) | m => m end.

(** [o.ok_or(msg)] *)
Definition ok_or {A} (o : option A) (msg : string) : res A :=
  match o with Some a => Ret a | None => Err msg end.

Definition is_ret {A} (m : res A) : bool :=
  match m with Ret _ => true | _ => false end.

(** ** Postconditions

    [returns m Q]: [m] returns a value that satisfies [Q] (total correctness:
    neither an error nor a panic). [safe m Q]: [m] does not panic, and a returned
    value satisfies [Q]; an [Err] is allowed. *)
Definition returns {A} (m : res A) (Q : A → Prop) : Prop :=
  match m with Ret a => Q a | _ => False end.
Definition safe {A} (m : res A) (Q : A → Prop) : Prop :=
  match m with Ret a => Q a | Err _ => True | Panic _ => False end.

Lemma returns_ret {A} (a : A) (Q : A → Prop) : Q a → returns (Ret a) Q.
Proof. done. Qed.
Lemma returns_bind {A B} (m : res A) (f : A → res B) P (Q : B → Prop) :
  returns m P → (∀ a, P a → returns (f a) Q) → returns (m ≫= f) Q.
Proof. destruct m; cbn; naive_solver. Qed.
Lemma returns_mono {A} (m : res A) (P Q : A → Prop) :
  returns m P → (∀ a, P a → Q a) → returns m Q.
Proof. destruct m; cbn; naive_solver. Qed.
Lemma returns_expect_ok {A} (m : res A) msg Q : returns m Q → returns (expect_ok m msg) Q.
Proof. by destruct m. Qed.
Lemma returns_alt {A} (m : res A) Q : returns m Q ↔ ∃ a, m = Ret a ∧ Q a.
Proof. destruct m; cbn; naive_solver. Qed.
Lemma returns_eq {A} (m : res A) a (Q : A → Prop) : m = Ret a → Q a → returns m Q.
Proof. by intros ->. Qed.

Lemma safe_ret {A} (a : A) (Q : A → Prop) : Q a → safe (Ret a) Q.
Proof. done. Qed.
Lemma safe_err {A} e (Q : A → Prop) : safe (Err e) Q.
Proof. done. Qed.
Lemma safe_bind {A B} (m : res A) (f : A → res B) P (Q : B → Prop) :
  safe m P → (∀ a, P a → safe (f a) Q) → safe (m ≫= f) Q.
Proof. destruct m; cbn; naive_solver. Qed.
Lemma safe_mono {A} (m : res A) (P Q : A → Prop) :
  safe m P → (∀ a, P a → Q a) → safe m Q.
Proof. destruct m; cbn; naive_solver. Qed.
Lemma safe_ret_inv {A} (m : res A) (Q : A → Prop) a : safe m Q → m = Ret a → Q a.
Proof. by intros ? ->. Qed.
Lemma safe_no_panic {A} (m : res A) (Q : A → Prop) e : safe m Q → m ≠ Panic e.
Proof. by intros ? ->. Qed.
Lemma returns_safe {A} (m : res A) (Q : A → Prop) : returns m Q → safe m Q.
Proof. by destruct m. Qed.

(** ** Inversion of the monad *)
Lemma bind_ret_inv {A B} (m : res A) (f : A → res B) b :
  (m ≫= f) = Ret b ↔ ∃ a, m = Ret a ∧ f a = Ret b.
Proof. destruct m; cbn; naive_solver. Qed.

Lemma some_bind {A B} (f : A → option B) a : (Some a ≫= f) = f a.
Proof. done. Qed.
Lemma ret_bind {A B} (f : A → res B) a : (Ret a ≫= f) = f a.
Proof. done. Qed.

Lemma assert_ret_inv b msg u : assert_ b msg = Ret u ↔ b = true.
Proof. destruct b, u; cbn; naive_solver. Qed.

Lemma expect_some_ret_inv {A} (o : option A) msg a :
  expect_some o msg = Ret a ↔ o = Some a.
Proof. destruct o; cbn; naive_solver. Qed.

Lemma expect_ok_ret_inv {A} (m : res A) msg a :
  expect_ok m msg = Ret a ↔ m = Ret a.
Proof. destruct m; cbn; naive_solver. Qed.

Lemma ok_or_ret_inv {A} (o : option A) msg a : ok_or o msg = Ret a ↔ o = Some a.
Proof. destruct o; cbn; naive_solver. Qed.

Ltac inv_res_step :=
  match goal with
  | H : Ret _ = Ret _ |- _ => injection H; clear H; intros
  | H : Panic _ = Ret _ |- _ => discriminate H
  | H : Err _ = Ret _ |- _ => discriminate H
  | H : mret _ = Ret _ |- _ => injection H; clear H; intros
  | H : (_ ≫= _) = Ret _ |- _ =>
      let x := fresh "x" in let E := fresh "E" in
      apply bind_ret_inv in H; destruct H as (x & E & H); cbn beta in H
  | H : match ?x with (_, _) => _ end = Ret _ |- _ => destruct x
  | H : assert_ _ _ = Ret _ |- _ => apply assert_ret_inv in H
  | H : expect_some _ _ = Ret _ |- _ => apply expect_some_ret_inv in H
  | H : expect_ok _ _ = Ret _ |- _ => apply expect_ok_ret_inv in H
  | H : ok_or _ _ = Ret _ |- _ => apply ok_or_ret_inv in H
  | H : (_, _) = (_, _) |- _ => injection H; clear H; intros
  | H : Some _ = Some _ |- _ => injection H; clear H; intros
  end.
(** Decomposes every hypothesis that says a computation returned. *)
Ltac inv_res := repeat inv_res_step; subst.

(** ** Machine integers: a [w]-bit unsigned value is a [Z] in [0, 2^w) *)
Definition is_uint (w x : Z) : Prop := 0 ≤ x < 2 ^ w.
#[export] Instance is_uint_dec w x : Decision (is_uint w x).
Proof. unfold is_uint. apply _. Defined.

(** Checked arithmetic, [overflow-checks = true]. *)
Definition add_u (w a b : Z) : res Z :=
  if a + b <? 2 ^ w then Ret (a + b) else Panic "attempt to add with overflow".
Definition sub_u (a b : Z) : res Z :=
  if b <=? a then Ret (a - b) else Panic "attempt to subtract with overflow".
Definition mul_u (w a b : Z) : res Z :=
  if a * b <? 2 ^ w then Ret (a * b) else Panic "attempt to multiply with overflow".
Definition div_u (a b : Z) : res Z :=
  if b =? 0 then Panic "attempt to divide by zero" else Ret (a / b).
Definition rem_u (a b : Z) : res Z :=
  if b =? 0 then Panic "attempt to calculate the remainder with a divisor of zero"
  else Ret (a mod b).
(** [x as uW], and wrapping arithmetic ([overflow-checks = false]). *)
Definition wrap_u (w x : Z) : Z := x mod 2 ^ w.
(** [uW::try_from(x)] *)
Definition try_from_u (w x : Z) : option Z := if (0 <=? x) && (x <? 2 ^ w) then Some x else None.

Notation "a +[ w ] b" := (add_u w a b)
  (at level 50, w at level 200, left associativity, format "a  +[ w ]  b") : boot_scope.
Notation "a *[ w ] b" := (mul_u w a b)
  (at level 40, w at level 200, left associativity, format "a  *[ w ]  b") : boot_scope.
Notation "a -! b" := (sub_u a b) (at level 50, left associativity) : boot_scope.

Lemma add_u_ret_inv w a b c : add_u w a b = Ret c ↔ c = a + b ∧ a + b < 2 ^ w.
Proof. unfold add_u. destruct (Z.ltb_spec (a + b) (2 ^ w)); naive_solver lia. Qed.
Lemma sub_u_ret_inv a b c : sub_u a b = Ret c ↔ c = a - b ∧ b ≤ a.
Proof. unfold sub_u. destruct (Z.leb_spec b a); naive_solver lia. Qed.
Lemma mul_u_ret_inv w a b c : mul_u w a b = Ret c ↔ c = a * b ∧ a * b < 2 ^ w.
Proof. unfold mul_u. destruct (Z.ltb_spec (a * b) (2 ^ w)); naive_solver lia. Qed.
Lemma div_u_ret_inv a b c : div_u a b = Ret c ↔ c = a / b ∧ b ≠ 0.
Proof. unfold div_u. destruct (Z.eqb_spec b 0); naive_solver lia. Qed.
Lemma rem_u_ret_inv a b c : rem_u a b = Ret c ↔ c = a mod b ∧ b ≠ 0.
Proof. unfold rem_u. destruct (Z.eqb_spec b 0); naive_solver lia. Qed.
Lemma try_from_u_Some w x y : try_from_u w x = Some y ↔ y = x ∧ is_uint w x.
Proof.
  unfold try_from_u, is_uint.
  destruct (Z.leb_spec 0 x), (Z.ltb_spec x (2 ^ w)); cbn; naive_solver lia.
Qed.

Lemma add_u_ok w a b : a + b < 2 ^ w → add_u w a b = Ret (a + b).
Proof. intros. apply add_u_ret_inv. done. Qed.
Lemma sub_u_ok a b : b ≤ a → sub_u a b = Ret (a - b).
Proof. intros. apply sub_u_ret_inv. done. Qed.
Lemma mul_u_ok w a b : a * b < 2 ^ w → mul_u w a b = Ret (a * b).
Proof. intros. apply mul_u_ret_inv. done. Qed.
Lemma div_u_ok a b : b ≠ 0 → div_u a b = Ret (a / b).
Proof. intros. apply div_u_ret_inv. done. Qed.
Lemma rem_u_ok a b : b ≠ 0 → rem_u a b = Ret (a mod b).
Proof. intros. apply rem_u_ret_inv. done. Qed.
Lemma try_from_u_ok w x : is_uint w x → try_from_u w x = Some x.
Proof. intros. apply try_from_u_Some. done. Qed.

(** Steps through the checked operations of a returning computation. *)
Ltac inv_arith :=
  repeat (inv_res_step ||
    match goal with
    | H : add_u _ _ _ = Ret _ |- _ => apply add_u_ret_inv in H; destruct H
    | H : sub_u _ _ = Ret _ |- _ => apply sub_u_ret_inv in H; destruct H
    | H : mul_u _ _ _ = Ret _ |- _ => apply mul_u_ret_inv in H; destruct H
    | H : div_u _ _ = Ret _ |- _ => apply div_u_ret_inv in H; destruct H
    | H : rem_u _ _ = Ret _ |- _ => apply rem_u_ret_inv in H; destruct H
    | H : try_from_u _ _ = Some _ |- _ => apply try_from_u_Some in H; destruct H
    end); subst.

Create HintDb boot discriminated.
#[export] Hint Resolve add_u_ok sub_u_ok mul_u_ok div_u_ok rem_u_ok : boot.

(** ** Slices *)
(** [slice.split_at(n)], and [split_array_ref::<N>] which wraps it. *)
Definition split_at {A} (n : nat) (s : list A) : res (list A * list A) :=
  if decide (n ≤ length s)%nat then Ret (take n s, drop n s)
  else Panic "assertion failed: mid <= self.len()".

(** [s[lo..hi]] *)
Definition slice_range {A} (s : list A) (lo hi : nat) : res (list A) :=
  if decide (lo ≤ hi ∧ hi ≤ length s)%nat then Ret (take (hi - lo) (drop lo s))
  else Panic "slice index out of range".

(** [s[i]] *)
Definition index {A} (s : list A) (i : nat) : res A :=
  expect_some (s !! i) "index out of bounds".

Lemma split_at_app {A} n (a b : list A) :
  length a = n → split_at n (a ++ b) = Ret (a, b).
Proof.
  intros <-. unfold split_at. rewrite decide_True by (rewrite length_app; lia).
  by rewrite take_app_length, drop_app_length.
Qed.

Lemma split_at_ret_inv {A} n (s a b : list A) :
  split_at n s = Ret (a, b) ↔ s = a ++ b ∧ length a = n.
Proof.
  split.
  - unfold split_at. case_decide; intros; inv_res.
    split; [by rewrite take_drop | rewrite length_take; lia].
  - intros [-> ?]. by apply split_at_app.
Qed.

Lemma slice_range_ret_inv {A} (s r : list A) lo hi :
  slice_range s lo hi = Ret r ↔
  (lo ≤ hi ∧ hi ≤ length s)%nat ∧ r = take (hi - lo) (drop lo s).
Proof. unfold slice_range. case_decide; naive_solver. Qed.

Lemma split_at_safe {A} n (s : list A) :
  (n ≤ length s)%nat →
  safe (split_at n s) (λ '(a, b), s = a ++ b ∧ length a = n ∧ length b = length s - n)%nat.
Proof.
  intros. unfold split_at. rewrite decide_True by done. cbn.
  rewrite take_drop, length_take, length_drop. split_and!; [done | lia | done].
Qed.

(** ** Bytes and little-endian encodings *)
Definition byte_ok (b : Z) : Prop := 0 ≤ b < 256.
#[export] Instance byte_ok_dec b : Decision (byte_ok b).
Proof. unfold byte_ok. apply _. Defined.

(** [x.to_le_bytes()] of an [n]-byte integer *)
Fixpoint le_bytes (n : nat) (x : Z) : list Z :=
  match n with
  | O => []
  | S n => x mod 256 :: le_bytes n (x / 256)
  end.

(** [uN::from_le_bytes(bs)] *)
Fixpoint le_num (bs : list Z) : Z :=
  match bs with
  | [] => 0
  | b :: bs => b + 256 * le_num bs
  end.

Lemma length_le_bytes n x : length (le_bytes n x) = n.
Proof. revert x. induction n; cbn; auto. Qed.

Lemma le_bytes_ok n x : Forall byte_ok (le_bytes n x).
Proof.
  revert x. induction n; cbn; constructor; auto.
  unfold byte_ok. apply Z.mod_pos_bound. lia.
Qed.

Lemma le_num_le_bytes n x : 0 ≤ x < 256 ^ Z.of_nat n → le_num (le_bytes n x) = x.
Proof.
  revert x. induction n as [|n IH]; intros x Hx; cbn [le_bytes le_num].
  - cbn in Hx. lia.
  - rewrite Nat2Z.inj_succ, Z.pow_succ_r in Hx by lia.
    rewrite IH by (split; [apply Z.div_pos | apply Z.div_lt_upper_bound]; lia).
    pose proof (Z.div_mod x 256). lia.
Qed.

Lemma le_num_bound bs : Forall byte_ok bs → 0 ≤ le_num bs < 256 ^ Z.of_nat (length bs).
Proof.
  induction 1 as [|b bs Hb _ IH]; cbn [le_num length]; [cbn; lia|].
  rewrite Nat2Z.inj_succ, Z.pow_succ_r by lia. unfold byte_ok in Hb. lia.
Qed.

Lemma le_bytes_le_num bs : Forall byte_ok bs → le_bytes (length bs) (le_num bs) = bs.
Proof.
  induction 1 as [|b bs Hb _ IH]; cbn [le_num length le_bytes]; [done|].
  unfold byte_ok in Hb. f_equal.
  - rewrite Z.mul_comm, Z_mod_plus_full. by apply Z.mod_small.
  - rewrite Z.mul_comm, Z.div_add by lia. rewrite (Z.div_small b) by lia. done.
Qed.

#[export] Hint Resolve length_le_bytes le_bytes_ok : boot.

(** ** Alignment *)
Definition align_down (a n : Z) : Z := a - a mod n.
Definition align_up (a n : Z) : Z := align_down (a + (n - 1)) n.

Lemma align_down_le a n : 0 < n → align_down a n ≤ a.
Proof. unfold align_down. intros. pose proof (Z.mod_pos_bound a n). lia. Qed.
Lemma align_down_gt a n : 0 < n → a < align_down a n + n.
Proof. unfold align_down. intros. pose proof (Z.mod_pos_bound a n). lia. Qed.
Lemma align_down_mod a n : 0 < n → align_down a n mod n = 0.
Proof.
  intros. unfold align_down. rewrite Zminus_mod_idemp_r, Z.sub_diag. apply Z.mod_0_l. lia.
Qed.
Lemma align_down_id a n : a mod n = 0 → align_down a n = a.
Proof. unfold align_down. lia. Qed.
Lemma align_down_nonneg a n : 0 < n → 0 ≤ a → 0 ≤ align_down a n.
Proof. intros. unfold align_down. pose proof (Z.mod_le a n). lia. Qed.
Lemma align_down_mono a b n : 0 < n → a ≤ b → align_down a n ≤ align_down b n.
Proof.
  intros. unfold align_down.
  rewrite !Z.mod_eq by lia. pose proof (Z.div_le_mono a b n). nia.
Qed.
Lemma aligned_le_align_down a b n : 0 < n → a mod n = 0 → a ≤ b → a ≤ align_down b n.
Proof. intros. rewrite <- (align_down_id a n) by done. by apply align_down_mono. Qed.
Lemma align_up_bounds a n : 0 < n → a ≤ align_up a n < a + n ∧ align_up a n mod n = 0.
Proof.
  intros. unfold align_up. pose proof (align_down_le (a + (n - 1)) n).
  pose proof (align_down_gt (a + (n - 1)) n). pose proof (align_down_mod (a + (n - 1)) n). lia.
Qed.
#[export] Hint Resolve align_down_le align_down_gt align_down_mod align_down_nonneg : boot.

(** ** Loops: [for x in l { a = f(a, x) }] *)
Fixpoint foldM {A B} (f : A → B → res A) (a : A) (l : list B) : res A :=
  match l with
  | [] => Ret a
  | x :: l => a ← f a x; foldM f a l
  end.

(** The invariant rule: [P i a] holds of the accumulator before the [i]-th element. *)
Lemma foldM_returns {A B} (f : A → B → res A) (P : list B → A → Prop) l a :
  P [] a →
  (∀ l1 x l2 a, l = l1 ++ x :: l2 → P l1 a → returns (f a x) (P (l1 ++ [x]))) →
  returns (foldM f a l) (P l).
Proof.
  intros Hini HS. enough (∀ l2 l1 a, l = l1 ++ l2 → P l1 a → returns (foldM f a l2) (P l)) as Hgen.
  { apply (Hgen l []); done. }
  clear a Hini. induction l2 as [|x l2 IH]; intros l1 a -> Ha; cbn [foldM].
  - rewrite app_nil_r in *. done.
  - eapply returns_bind; [by eapply HS|]. intros a' Ha'. apply (IH (l1 ++ [x])); [|done].
    by rewrite <- app_assoc.
Qed.

Lemma foldM_safe {A B} (f : A → B → res A) (P : list B → A → Prop) l a :
  P [] a →
  (∀ l1 x l2 a, l = l1 ++ x :: l2 → P l1 a → safe (f a x) (P (l1 ++ [x]))) →
  safe (foldM f a l) (P l).
Proof.
  intros Hini HS. enough (∀ l2 l1 a, l = l1 ++ l2 → P l1 a → safe (foldM f a l2) (P l)) as Hgen.
  { apply (Hgen l []); done. }
  clear a Hini. induction l2 as [|x l2 IH]; intros l1 a -> Ha; cbn [foldM].
  - rewrite app_nil_r in *. done.
  - eapply safe_bind; [by eapply HS|]. intros a' Ha'. apply (IH (l1 ++ [x])); [|done].
    by rewrite <- app_assoc.
Qed.

Lemma foldM_app {A B} (f : A → B → res A) a l1 l2 :
  foldM f a (l1 ++ l2) = (a ← foldM f a l1; foldM f a l2).
Proof. revert a. induction l1 as [|x l1 IH]; intros; cbn; [done|]. destruct (f a x); cbn; auto. Qed.

Lemma elem_of_snoc {A} (x y : A) l : x ∈ l ++ [y] ↔ x ∈ l ∨ x = y.
Proof. by rewrite elem_of_app, list_elem_of_singleton. Qed.
Lemma elem_of_middle {A} (x : A) l1 l2 : x ∈ l1 ++ x :: l2.
Proof. apply elem_of_app. right. by left. Qed.

(** ** Sums over lists of naturals, for counting arguments *)
Lemma sum_list_with_at_most_one {A} (P : A → Prop) `{!∀ x, Decision (P x)} (k : nat) l :
  (∀ l1 x l2 y l3, l = l1 ++ x :: l2 ++ y :: l3 → P x → P y → False) →
  (sum_list_with (λ x, if decide (P x) then k else 0) l ≤ k)%nat.
Proof.
  induction l as [|x l IH]; intros Hone; cbn; [lia|]. case_decide as Hx.
  - enough (sum_list_with (λ x, if decide (P x) then k else 0) l = 0)%nat by lia.
    assert (Forall (λ y, ¬ P y) l) as Hl.
    { apply Forall_forall. intros y [l2 [l3 ->]]%list_elem_of_split Hy.
      by apply (Hone [] x l2 y l3). }
    clear IH Hone. induction Hl; cbn; [done|]. by rewrite decide_False.
  - cbn. apply IH. intros l1 y l2 z l3 ->. apply (Hone (x :: l1) y l2 z l3). done.
Qed.
