(* ===== verification/Memory.v ===== *)
(** * Physical memory

    Code that works on raw pointers reads and writes the bytes of an
    identity-mapped memory; its contents are a function from addresses to
    bytes. *)
From S2P Require Import Prelude.

Module Memory.

(** [core::slice::from_raw_parts(a, n)], and writing a slice at an address *)
Definition mem_read (mem : Z → Z) (a : Z) (n : Z) : list Z := (λ i, mem (a + i)) <$> seqZ 0 n.
Definition mem_write (mem : Z → Z) (a : Z) (bs : list Z) : Z → Z := λ x,
  if (a <=? x) && (x <? a + Z.of_nat (length bs))
  then default 0 (bs !! Z.to_nat (x - a)) else mem x.

Lemma mem_write_out mem a bs x :
  ¬ (a ≤ x < a + Z.of_nat (length bs)) → mem_write mem a bs x = mem x.
Proof.
  intros Hx. unfold mem_write.
  destruct (Z.leb_spec a x), (Z.ltb_spec x (a + Z.of_nat (length bs))); cbn; lia || done.
Qed.
Lemma mem_write_in mem a bs x :
  a ≤ x < a + Z.of_nat (length bs) → Some (mem_write mem a bs x) = bs !! Z.to_nat (x - a).
Proof.
  intros Hx. unfold mem_write.
  destruct (Z.leb_spec a x), (Z.ltb_spec x (a + Z.of_nat (length bs))); try lia. cbn.
  destruct (lookup_lt_is_Some_2 bs (Z.to_nat (x - a))) as [b ->]; [lia|done].
Qed.
Lemma length_mem_read mem a n : length (mem_read mem a n) = Z.to_nat n.
Proof. unfold mem_read. by rewrite length_fmap, length_seqZ. Qed.
Lemma mem_read_lookup mem a n i : (i < Z.to_nat n)%nat →
  mem_read mem a n !! i = Some (mem (a + Z.of_nat i)).
Proof. intros. unfold mem_read. rewrite list_lookup_fmap, lookup_seqZ_lt by lia. done. Qed.
Lemma mem_copy mem a n b x : 0 ≤ n → b ≤ x < b + n →
  mem_write mem b (mem_read mem a n) x = mem (a + (x - b)).
Proof.
  intros Hn Hx. enough (Some (mem_write mem b (mem_read mem a n) x) = Some (mem (a + (x - b)))) by congruence.
  rewrite mem_write_in by (rewrite length_mem_read; lia).
  rewrite mem_read_lookup by lia. do 2 f_equal. lia.
Qed.
Lemma mem_zero mem a n x : a ≤ x < a + Z.of_nat n → mem_write mem a (replicate n 0) x = 0.
Proof.
  intros Hx. enough (Some (mem_write mem a (replicate n 0) x) = Some 0) by congruence.
  rewrite mem_write_in by (rewrite length_replicate; lia). apply lookup_replicate_2. lia.
Qed.

Lemma mem_write_nil mem a x : mem_write mem a [] x = mem x.
Proof. apply mem_write_out. cbn. lia. Qed.

(** Two writes next to each other are one. *)
Lemma mem_write_app mem a bs1 bs2 x :
  mem_write (mem_write mem a bs1) (a + Z.of_nat (length bs1)) bs2 x = mem_write mem a (bs1 ++ bs2) x.
Proof.
  destruct (decide (a + Z.of_nat (length bs1) ≤ x < a + Z.of_nat (length bs1) + Z.of_nat (length bs2))).
  - enough (∀ b b' : Z, Some b = Some b' → b = b') as Hinj.
    { apply Hinj. rewrite !mem_write_in by (rewrite ?length_app; lia).
      rewrite lookup_app_r by lia. f_equal. lia. }
    by intros ?? [= ->].
  - rewrite mem_write_out by done.
    destruct (decide (a ≤ x < a + Z.of_nat (length bs1))).
    + enough (∀ b b' : Z, Some b = Some b' → b = b') as Hinj.
      { apply Hinj. rewrite !mem_write_in by (rewrite ?length_app; lia).
        by rewrite lookup_app_l by lia. }
      by intros ?? [= ->].
    + rewrite !mem_write_out by (rewrite ?length_app; lia). done.
Qed.

Lemma mem_read_app mem a n m : 0 ≤ n → 0 ≤ m →
  mem_read mem a (n + m) = mem_read mem a n ++ mem_read mem (a + n) m.
Proof.
  intros Hn Hm. apply list_eq. intros i. destruct (decide (i < Z.to_nat n)%nat).
  - rewrite lookup_app_l by (rewrite length_mem_read; lia). by rewrite !mem_read_lookup by lia.
  - rewrite lookup_app_r by (rewrite length_mem_read; lia). rewrite length_mem_read.
    destruct (decide (i < Z.to_nat (n + m))%nat).
    + rewrite !mem_read_lookup by lia. do 2 f_equal. lia.
    + rewrite !lookup_ge_None_2 by (rewrite length_mem_read; lia). done.
Qed.

(** Reading back what was written. *)
Lemma mem_read_write mem a bs b n : a ≤ b → 0 ≤ n → b + n ≤ a + Z.of_nat (length bs) →
  mem_read (mem_write mem a bs) b n = take (Z.to_nat n) (drop (Z.to_nat (b - a)) bs).
Proof.
  intros Hb Hn Hl. apply list_eq. intros i. destruct (decide (i < Z.to_nat n)%nat).
  - rewrite mem_read_lookup, mem_write_in by lia. rewrite lookup_take_lt, lookup_drop by lia.
    f_equal. lia.
  - rewrite !lookup_ge_None_2; [done|rewrite length_take, length_drop; lia|rewrite length_mem_read; lia].
Qed.

Lemma mem_read_slice mem a n b m : 0 ≤ b → 0 ≤ m → b + m ≤ n →
  take (Z.to_nat m) (drop (Z.to_nat b) (mem_read mem a n)) = mem_read mem (a + b) m.
Proof.
  intros Hb Hm Hn. apply list_eq. intros i. destruct (decide (i < Z.to_nat m)%nat).
  - rewrite lookup_take_lt, lookup_drop, !mem_read_lookup by lia. do 2 f_equal. lia.
  - rewrite !lookup_ge_None_2; [done|rewrite length_mem_read; lia|].
    rewrite length_take, length_drop, length_mem_read. lia.
Qed.

Lemma mem_read_shift f a b n : mem_read (λ x, f (b + x)) a n = mem_read f (b + a) n.
Proof. unfold mem_read. apply list_fmap_ext. intros i x _. f_equal. lia. Qed.

Lemma mem_read_ext mem mem' a n : (∀ x, a ≤ x < a + n → mem' x = mem x) →
  mem_read mem' a n = mem_read mem a n.
Proof.
  intros Hx. unfold mem_read. apply list_fmap_ext. intros i y Hi%list_elem_of_lookup_2%elem_of_seqZ.
  apply Hx. lia.
Qed.

End Memory.
