(* ===== verification/X86.v ===== *)
(** * The interface to the [x86_64] crate

    The loader does all its address arithmetic through the [x86_64] crate
    ([VirtAddr], [PhysAddr], [Page], [PhysFrame]), which is not part of the
    repository. Its operations are the fields of the class [X86]; what the
    loader relies on is stated in [X86Laws], one field per documented behaviour
    (the doc comments and trait contracts of the crate). [x86_ref] is a concrete
    implementation that satisfies the laws; the witnesses compute with it.

    Addresses, pages and frames are represented by the [u64] value of the
    address, or of the start address. *)
From S2P Require Import Prelude.

Module X86.

(** A canonical virtual address: bits 48 to 63 are copies of bit 47. *)
Definition canonical (a : Z) : Prop := 0 ≤ a < 2 ^ 47 ∨ 2 ^ 64 - 2 ^ 47 ≤ a < 2 ^ 64.
#[global] Instance canonical_dec a : Decision (canonical a).
Proof. unfold canonical. apply _. Defined.

(** The canonical address with the given low 48 bits, and the position of an
    address among the [2^48] canonical ones. *)
Definition sign_extend (a : Z) : Z := if a <? 2 ^ 47 then a else a + (2 ^ 64 - 2 ^ 48).
Definition virt_rank (a : Z) : Z := a mod 2 ^ 48.

(** A physical address: at most 52 bits. *)
Definition phys_ok (a : Z) : Prop := 0 ≤ a < 2 ^ 52.
#[global] Instance phys_ok_dec a : Decision (phys_ok a).
Proof. unfold phys_ok. apply _. Defined.

Definition Size4KiB : Z := 4096.
Definition Size2MiB : Z := 4096 * 512.

Class X86 : Type := {
  (** [VirtAddr::new], [VirtAddr + u64], [VirtAddr - u64] *)
  virt_new : Z → res Z;
  virt_add : Z → Z → res Z;
  virt_sub : Z → Z → res Z;
  (** [VirtAddr::p4_index] and [Page::p4_index] *)
  p4_index : Z → Z;
  (** [Page::<Size4KiB>::containing_address] *)
  page_containing : Z → Z;
  (** [VirtAddr::try_new] *)
  virt_try_new : Z → option Z;
  (** [Step::forward_checked] and [Step::steps_between] on [VirtAddr] *)
  virt_forward : Z → Z → option Z;
  virt_steps_between : Z → Z → option Z;
  (** [Page + u64], and the pages of [Page::range_inclusive] and of [a..=b] *)
  page_add : Z → Z → res Z;
  page_range_inclusive : Z → Z → list Z;
  (** [Step::forward_checked] and [Step::backward_checked] on pages *)
  page_forward : Z → Z → option Z;
  page_backward : Z → Z → option Z;
  (** [Page::from_page_table_indices_1gib(p4, p3).start_address()] *)
  page_from_indices_1gib : Z → Z → Z;
  (** [PageTableIndex::new] *)
  page_table_index : Z → res Z;
  (** [PhysAddr::new], [PhysAddr + u64], [PhysAddr - u64] *)
  phys_new : Z → res Z;
  phys_add : Z → Z → res Z;
  phys_sub : Z → Z → res Z;
  (** [PhysFrame::<Size4KiB>::containing_address] and [PhysFrame + u64] *)
  frame_containing : Z → Z;
  frame_add : Z → Z → res Z;
  (** the frames of [PhysFrame::range_inclusive] *)
  frame_range_inclusive : Z → Z → list Z;
}.

(** [n] pages or frames from [a] on. *)
Definition pages_from (a n : Z) : list Z := (λ i, a + i * 4096) <$> seqZ 0 n.

Class X86Laws (X : X86) : Prop := {
  (** "creates a new canonical virtual address; performs sign extension of bit
      47; panics if bits 48 to 64 contain data" *)
  virt_new_canonical a : canonical a → virt_new a = Ret a;
  virt_new_extend a : 2 ^ 47 ≤ a < 2 ^ 48 → virt_new a = Ret (sign_extend a);
  virt_new_invalid a : is_uint 64 a → 2 ^ 48 ≤ a → ¬ canonical a →
    ∃ e, virt_new a = Panic e;
  (** the sum and difference are taken on the [u64] values (an overflow panics)
      and made an address with [VirtAddr::new] *)
  virt_add_new a n : canonical a → 0 ≤ n → a + n < 2 ^ 64 →
    virt_add a n = virt_new (a + n);
  virt_add_overflow a n : canonical a → 0 ≤ n → 2 ^ 64 ≤ a + n →
    ∃ e, virt_add a n = Panic e;
  virt_sub_new a n : canonical a → 0 ≤ n ≤ a → virt_sub a n = virt_new (a - n);
  virt_sub_overflow a n : canonical a → a < n → ∃ e, virt_sub a n = Panic e;
  (** "the 9-bit level 4 page table index": bits 39 to 47 *)
  p4_index_bits a : canonical a → p4_index a = a / 2 ^ 39 mod 512;
  (** "the page that contains the given virtual address" *)
  page_containing_spec a : canonical a → page_containing a = align_down a 4096;
  (** "fails if bits 48 to 64 contain data" *)
  virt_try_new_canonical a : canonical a → virt_try_new a = Some a;
  virt_try_new_extend a : 2 ^ 47 ≤ a < 2 ^ 48 → virt_try_new a = Some (sign_extend a);
  virt_try_new_invalid a : is_uint 64 a → 2 ^ 48 ≤ a → ¬ canonical a → virt_try_new a = None;
  (** stepping over addresses follows the order of the canonical ones *)
  virt_forward_spec a n : canonical a → 0 ≤ n →
    virt_forward a n =
      if virt_rank a + n <? 2 ^ 48 then Some (sign_extend (virt_rank a + n)) else None;
  virt_steps_between_spec a b : canonical a → canonical b → a ≤ b →
    virt_steps_between a b = Some (virt_rank b - virt_rank a);
  (** the sum is taken on the start address with [VirtAddr + u64] *)
  page_add_ok p n : canonical p → p mod 4096 = 0 → 0 ≤ n → canonical (p + n * 4096) →
    page_add p n = Ret (p + n * 4096);
  (** "a range of pages, inclusive [end]" *)
  page_range_inclusive_spec p q : canonical p → canonical q →
    p mod 4096 = 0 → q mod 4096 = 0 →
    page_range_inclusive p q =
      sign_extend <$> pages_from (virt_rank p) ((virt_rank q - virt_rank p) / 4096 + 1);
  (** stepping over pages follows the order of the canonical addresses (it skips
      the non-canonical gap) and fails at the ends of the address space *)
  page_forward_spec p n : canonical p → 0 ≤ n →
    page_forward p n =
      if virt_rank p + n * 4096 <? 2 ^ 48
      then Some (sign_extend (virt_rank p + n * 4096)) else None;
  page_backward_spec p n : canonical p → 0 ≤ n →
    page_backward p n =
      if n * 4096 <=? virt_rank p
      then Some (sign_extend (virt_rank p - n * 4096)) else None;
  (** "the 1GiB memory page with the specified page table indices" *)
  page_from_indices_1gib_spec i j : 0 ≤ i < 512 → 0 ≤ j < 512 →
    page_from_indices_1gib i j = sign_extend (i * 2 ^ 39 + j * 2 ^ 30);
  (** "panics if the given value is >= 512" *)
  page_table_index_ok i : 0 ≤ i < 512 → page_table_index i = Ret i;
  page_table_index_invalid i : 512 ≤ i → ∃ e, page_table_index i = Panic e;
  (** "creates a new physical address; panics if a bit in the range 52 to 64 is
      set" *)
  phys_new_ok a : phys_ok a → phys_new a = Ret a;
  phys_new_invalid a : 2 ^ 52 ≤ a → ∃ e, phys_new a = Panic e;
  phys_add_ok a n : phys_ok a → 0 ≤ n → a + n < 2 ^ 52 → phys_add a n = Ret (a + n);
  phys_add_overflow a n : phys_ok a → 2 ^ 52 ≤ a + n → ∃ e, phys_add a n = Panic e;
  phys_sub_ok a n : phys_ok a → 0 ≤ n ≤ a → phys_sub a n = Ret (a - n);
  phys_sub_overflow a n : phys_ok a → a < n → ∃ e, phys_sub a n = Panic e;
  (** "the frame that contains the given physical address" *)
  frame_containing_spec a : phys_ok a → frame_containing a = align_down a 4096;
  frame_add_ok f n : phys_ok f → 0 ≤ n → f + n * 4096 < 2 ^ 52 →
    frame_add f n = Ret (f + n * 4096);
  frame_add_overflow f n : phys_ok f → 2 ^ 52 ≤ f + n * 4096 →
    ∃ e, frame_add f n = Panic e;
  (** "a range of physical memory frames, inclusive the upper bound" *)
  frame_range_inclusive_spec f g : phys_ok f → phys_ok g → f mod 4096 = 0 → g mod 4096 = 0 →
    frame_range_inclusive f g = pages_from f ((g - f) / 4096 + 1);
}.

(** ** A concrete implementation *)
Definition ref_virt_new (a : Z) : res Z :=
  if decide (canonical a) then Ret a
  else if a <? 2 ^ 48 then Ret (sign_extend a) else Panic "invalid virtual address".
Definition ref_phys (a : Z) : res Z :=
  if decide (phys_ok a) then Ret a else Panic "invalid physical address".

#[global] Instance x86_ref : X86 := {|
  virt_new := ref_virt_new;
  virt_add a n := a ← a +[64] n; ref_virt_new a;
  virt_sub a n := a ← a -! n; ref_virt_new a;
  p4_index a := a / 2 ^ 39 mod 512;
  page_containing a := align_down a 4096;
  virt_try_new a :=
    if decide (canonical a) then Some a
    else if a <? 2 ^ 48 then Some (sign_extend a) else None;
  virt_forward a n :=
    if virt_rank a + n <? 2 ^ 48 then Some (sign_extend (virt_rank a + n)) else None;
  virt_steps_between a b := if a <=? b then Some (virt_rank b - virt_rank a) else None;
  page_add p n := a ← p +[64] (n * 4096); ref_virt_new a;
  page_range_inclusive p q :=
    sign_extend <$> pages_from (virt_rank p) ((virt_rank q - virt_rank p) / 4096 + 1);
  page_forward p n :=
    if virt_rank p + n * 4096 <? 2 ^ 48
    then Some (sign_extend (virt_rank p + n * 4096)) else None;
  page_backward p n :=
    if n * 4096 <=? virt_rank p
    then Some (sign_extend (virt_rank p - n * 4096)) else None;
  page_from_indices_1gib i j := sign_extend (i * 2 ^ 39 + j * 2 ^ 30);
  page_table_index i := if i <? 512 then Ret i else Panic "index must be < 512";
  phys_new := ref_phys;
  phys_add a n := ref_phys (a + n);
  phys_sub a n := a ← a -! n; ref_phys a;
  frame_containing a := align_down a 4096;
  frame_add f n := ref_phys (f + n * 4096);
  frame_range_inclusive f g := pages_from f ((g - f) / 4096 + 1);
|}.

#[global] Instance x86_ref_laws : X86Laws x86_ref.
Proof.
  split; cbn; unfold ref_virt_new, ref_phys, canonical, phys_ok, is_uint; intros;
    rewrite ?add_u_ok, ?sub_u_ok by lia; cbn; try done;
    repeat first
      [ rewrite decide_True by lia | rewrite decide_False by lia
      | match goal with |- context [?a <=? ?b] => destruct (Z.leb_spec a b) end
      | match goal with |- context [?a <? ?b] => destruct (Z.ltb_spec a b) end ];
    try lia; try done; eauto.
  all: unfold add_u, sub_u;
    repeat match goal with
    | |- context [?a <? ?b] => destruct (Z.ltb_spec a b)
    | |- context [?a <=? ?b] => destruct (Z.leb_spec a b)
    end; cbn; try lia; eauto.
Qed.

(** ** Facts about canonical addresses *)
Section Facts.
Context `{HX : X86Laws}.

Lemma virt_rank_low a : 0 ≤ a < 2 ^ 48 → virt_rank a = a.
Proof. intros. apply Z.mod_small. lia. Qed.

Lemma virt_rank_high a : 2 ^ 64 - 2 ^ 48 ≤ a < 2 ^ 64 → virt_rank a = a - (2 ^ 64 - 2 ^ 48).
Proof.
  intros. unfold virt_rank. symmetry. apply Z.mod_unique with (q := 2 ^ 16 - 1); lia.
Qed.

Lemma sign_extend_canonical a : 0 ≤ a < 2 ^ 48 → canonical (sign_extend a).
Proof. unfold sign_extend, canonical. destruct (Z.ltb_spec a (2 ^ 47)); lia. Qed.

Lemma virt_rank_sign_extend a : 0 ≤ a < 2 ^ 48 → virt_rank (sign_extend a) = a.
Proof.
  intros. unfold sign_extend. destruct (Z.ltb_spec a (2 ^ 47)).
  - by apply virt_rank_low.
  - rewrite virt_rank_high; lia.
Qed.

Lemma sign_extend_virt_rank a : canonical a → sign_extend (virt_rank a) = a.
Proof.
  intros [?|?].
  - rewrite virt_rank_low by lia. unfold sign_extend. destruct (Z.ltb_spec a (2 ^ 47)); lia.
  - rewrite virt_rank_high by lia. unfold sign_extend.
    destruct (Z.ltb_spec (a - (2 ^ 64 - 2 ^ 48)) (2 ^ 47)); lia.
Qed.

Lemma virt_rank_bound a : 0 ≤ virt_rank a < 2 ^ 48.
Proof. apply Z.mod_pos_bound. lia. Qed.

(** The level 4 index of an address is its rank divided by 512 GiB. *)
Lemma p4_index_rank a : canonical a → p4_index a = virt_rank a / 2 ^ 39.
Proof.
  intros Ha. rewrite p4_index_bits by done. unfold virt_rank.
  change (2 ^ 48) with (2 ^ 39 * 512). rewrite Z.rem_mul_r by lia.
  rewrite (Z.mul_comm (2 ^ 39)), Z.div_add by lia.
  rewrite (Z.div_small (a mod 2 ^ 39)); [done|]. apply Z.mod_pos_bound. lia.
Qed.

Lemma p4_index_bound a : canonical a → 0 ≤ p4_index a < 512.
Proof. intros. rewrite p4_index_bits by done. apply Z.mod_pos_bound. lia. Qed.

Lemma virt_new_ret a : is_uint 64 a → a < 2 ^ 48 ∨ canonical a →
  ∃ v, virt_new a = Ret v ∧ canonical v ∧ virt_rank v = virt_rank a.
Proof.
  intros Hu [Ha|Ha]; [|eauto using virt_new_canonical].
  unfold is_uint in Hu. destruct (decide (a < 2 ^ 47)).
  - exists a. split; [apply virt_new_canonical|split; [|done]]; unfold canonical; lia.
  - exists (sign_extend a). rewrite virt_new_extend by lia.
    rewrite virt_rank_sign_extend, virt_rank_low by lia.
    split_and!; [done | apply sign_extend_canonical; lia | done].
Qed.

Lemma virt_new_ret_inv a v : is_uint 64 a → virt_new a = Ret v →
  canonical v ∧ virt_rank v = virt_rank a.
Proof.
  intros Hu H. destruct (decide (canonical a)) as [Hc|Hc].
  - rewrite virt_new_canonical in H by done. by inv_res.
  - destruct (decide (a < 2 ^ 48)).
    + destruct (virt_new_ret a) as (v' & E & ? & ?); [done|by left|].
      rewrite H in E. by inv_res.
    + destruct (virt_new_invalid a) as [e E]; [done|lia|done|]. congruence.
Qed.

End Facts.

End X86.
