(* ===== verification/Paging.v ===== *)
(** * Page tables and frame allocation as the loader sees them

    The loader is generic in [M: MapperAllSizes + Translate] and
    [F: FrameAllocator<Size4KiB>], traits of the [x86_64] crate. They are the
    classes [Mapper] and [FrameSource]; [MapperLaws] and [FrameSourceLaws] state
    the contracts of the traits. [FrameAllocator.v] discharges [FrameSourceLaws]
    for the loader's own allocator; the page table code itself is part of the
    crate, [mapper_ref] is a reference implementation that meets the contract. *)
From stdpp Require Import gmap relations.
From S2P Require Import Prelude X86.
Import X86.

Module Paging.

(** ** [PageTableFlags]: the bits of an entry *)
Definition PRESENT : Z := Z.shiftl 1 0.
Definition WRITABLE : Z := Z.shiftl 1 1.
Definition BIT_9 : Z := Z.shiftl 1 9.
Definition NO_EXECUTE : Z := Z.shiftl 1 63.

(** [a | b], [a & !b] and [a.contains(b)] *)
Definition flags_or (a b : Z) : Z := Z.lor a b.
Definition flags_without (a b : Z) : Z := Z.ldiff a b.
Definition flags_contains (a b : Z) : bool := Z.land a b =? b.

Lemma flag_bit k j : 0 ≤ k → 0 ≤ j → Z.testbit (Z.shiftl 1 k) j = (j =? k).
Proof.
  intros. rewrite Z.shiftl_1_l. destruct (Z.eqb_spec j k) as [->|].
  - by apply Z.pow2_bits_true.
  - apply Z.pow2_bits_false. lia.
Qed.
Lemma flags_contains_bit fl k : 0 ≤ k → flags_contains fl (Z.shiftl 1 k) = Z.testbit fl k.
Proof.
  intros Hk. unfold flags_contains. apply eq_true_iff_eq. rewrite Z.eqb_eq. split.
  - intros Hl. assert (Z.testbit (Z.land fl (Z.shiftl 1 k)) k = true) as Ht
      by (rewrite Hl, flag_bit by lia; lia).
    rewrite Z.land_spec in Ht. by apply andb_prop in Ht as [? _].
  - intros Ht. apply Z.bits_inj'. intros j Hj. rewrite Z.land_spec, flag_bit by lia.
    destruct (Z.eqb_spec j k) as [->|]; [by rewrite Ht|by rewrite andb_false_r].
Qed.
Lemma flags_or_bit fl k j : 0 ≤ k → 0 ≤ j →
  Z.testbit (flags_or fl (Z.shiftl 1 k)) j = Z.testbit fl j || (j =? k).
Proof. intros. unfold flags_or. by rewrite Z.lor_spec, flag_bit. Qed.
Lemma flags_without_bit fl k j : 0 ≤ k → 0 ≤ j →
  Z.testbit (flags_without fl (Z.shiftl 1 k)) j = Z.testbit fl j && negb (j =? k).
Proof. intros. unfold flags_without. by rewrite Z.ldiff_spec, flag_bit. Qed.
Lemma flags_or_id fl k : 0 ≤ k → Z.testbit fl k = true → flags_or fl (Z.shiftl 1 k) = fl.
Proof.
  intros Hk Ht. apply Z.bits_inj'. intros j Hj. rewrite flags_or_bit by lia.
  destruct (Z.eqb_spec j k) as [->|]; [by rewrite Ht|by rewrite orb_false_r].
Qed.
Lemma flags_without_id fl k : 0 ≤ k → Z.testbit fl k = false → flags_without fl (Z.shiftl 1 k) = fl.
Proof.
  intros Hk Ht. apply Z.bits_inj'. intros j Hj. rewrite flags_without_bit by lia.
  destruct (Z.eqb_spec j k) as [->|]; [by rewrite Ht|by rewrite andb_true_r].
Qed.

(** ** Frame allocation *)

(** [FrameAllocator<Size4KiB>::allocate_frame] *)
Class FrameSource (F : Type) := allocate_frame : F → res (option Z * F).

(** [fresh f x]: the frame [x] can still be handed out by [f]. *)
Class FrameSourceLaws (F : Type) {A : FrameSource F} := {
  source_inv : F → Prop;
  fresh : F → Z → Prop;
  fresh_ok f x : source_inv f → fresh f x →
    x mod 4096 = 0 ∧ 0 ≤ x ∧ x + 4096 < 2 ^ 52;
  allocate_frame_some f x : source_inv f → fresh f x →
    returns (allocate_frame f) (λ '(o, f'), ∃ fr,
      o = Some fr ∧ fresh f fr ∧ source_inv f' ∧ ∀ y, fresh f' y ↔ fresh f y ∧ y ≠ fr);
}.

(** At least [n] frames are left. *)
Definition supply `{FrameSourceLaws F} (f : F) (n : nat) : Prop :=
  ∃ l, NoDup l ∧ length l = n ∧ Forall (fresh f) l.

Lemma supply_le `{FrameSourceLaws F} f n m : (m ≤ n)%nat → supply f n → supply f m.
Proof.
  intros Hm (l & Hd & <- & Hl). exists (take m l). split_and!.
  - eapply sublist_NoDup; [done|apply sublist_take].
  - rewrite length_take. lia.
  - by apply Forall_take.
Qed.

Lemma supply_allocate `{FrameSourceLaws F} (f : F) n :
  source_inv f → supply f (S n) →
  returns (allocate_frame f) (λ '(o, f'), ∃ fr,
    o = Some fr ∧ fresh f fr ∧ source_inv f' ∧ supply f' n ∧
    ∀ y, fresh f' y ↔ fresh f y ∧ y ≠ fr).
Proof.
  intros Hi (l & Hd & Hlen & Hl). destruct l as [|x l]; [done|].
  eapply returns_mono.
  { apply (allocate_frame_some f x); [done|]. by apply Forall_cons in Hl as []. }
  intros [o f'] (fr & -> & Hfr & Hi' & Hf'). exists fr. split_and!; try done.
  apply (supply_le _ (length (filter (λ y, y ≠ fr) (x :: l)))).
  - clear Hl Hi Hi' Hf' Hfr.
    enough (∀ k : list Z, NoDup k → (length k ≤ S (length (filter (λ y, y ≠ fr) k)))%nat) as Hk
      by (specialize (Hk _ Hd); lia).
    induction k as [|y k IH]; intros Hk; [cbn; lia|]. apply NoDup_cons in Hk as [Hy Hk].
    rewrite filter_cons. case_decide as Hne; [cbn; specialize (IH Hk); lia|].
    subst y. cbn. apply le_n_S.
    clear IH Hk Hlen Hd. induction k as [|z k IH]; [done|].
    apply not_elem_of_cons in Hy as [Hz Hy]. rewrite filter_cons, decide_True by done.
    cbn. specialize (IH Hy). lia.
  - exists (filter (λ y, y ≠ fr) (x :: l)). split_and!; [by apply NoDup_filter|done|].
    apply Forall_forall. intros y [Hne Hy]%list_elem_of_filter. apply Hf'.
    rewrite Forall_forall in Hl. auto.
Qed.

(** A call of [allocate_frame]: all that code that is given an allocator can do with it. *)
Definition alloc_step `{FrameSource F} (f f' : F) : Prop := ∃ o, allocate_frame f = Ret (o, f').

(** ** Page tables *)

(** [MappedFrame] and [TranslateResult] *)
Inductive MappedFrame :=
  | MappedSize4KiB (frame : Z)
  | MappedSize2MiB (frame : Z)
  | MappedSize1GiB (frame : Z).
Inductive TranslateResult :=
  | Mapped (frame : MappedFrame) (offset : Z) (flags : Z)
  | NotMapped
  | InvalidFrameAddress (addr : Z).

(** The operations on 4 KiB pages; [None] is an [Err]. Mapping a page takes the frames
    of new tables from the allocator. *)
Class Mapper (M : Type) := {
  translate : M → Z → TranslateResult;
  translate_page : M → Z → option Z;
  map_to : ∀ {F} `{!FrameSource F}, M → F → Z → Z → Z → res (option (M * F));
  unmap : M → Z → option (Z * M);
  update_flags : M → Z → Z → option M;
}.

(** A page table that maps 4 KiB pages only, seen as the finite map [view] from pages to
    frames and flags. [mappable] are the pages that a client may map: with it, the invariant can
    say which parts of the table are untouched. *)
Class MapperLaws (M : Type) {P : Mapper M} := {
  mapper_inv : M → Prop;
  view : M → gmap Z (Z * Z);
  mappable : Z → Prop;
  view_mappable m p : mapper_inv m → is_Some (view m !! p) → mappable p;
  translate_spec m a : mapper_inv m → canonical a →
    translate m a =
      match view m !! align_down a 4096 with
      | Some (fr, fl) => Mapped (MappedSize4KiB fr) (a mod 4096) fl
      | None => NotMapped
      end;
  translate_page_spec m p : mapper_inv m → canonical p → p mod 4096 = 0 →
    translate_page m p = fst <$> view m !! p;
  (** a page that is not mapped yet can be mapped to a frame when the frames for the
      three lower table levels can be allocated *)
  map_to_ok `{!FrameSource F, !FrameSourceLaws F} m f p fr fl : mapper_inv m →
    source_inv f → canonical p → p mod 4096 = 0 → fr mod 4096 = 0 → Z.testbit fl 0 = true →
    view m !! p = None → mappable p → supply f 3 →
    ∃ m' f', map_to m f p fr fl = Ret (Some (m', f')) ∧
      mapper_inv m' ∧ view m' = <[p := (fr, fl)]> (view m) ∧
      source_inv f' ∧ (∀ y, fresh f' y → fresh f y) ∧ (∀ n, supply f (n + 3) → supply f' n) ∧
      rtc alloc_step f f';
  unmap_ok m p fr fl : mapper_inv m → canonical p → p mod 4096 = 0 → view m !! p = Some (fr, fl) →
    ∃ m', unmap m p = Some (fr, m') ∧ mapper_inv m' ∧ view m' = delete p (view m);
  update_flags_ok m p fr fl fl' : mapper_inv m → canonical p → p mod 4096 = 0 →
    view m !! p = Some (fr, fl) → Z.testbit fl' 0 = true →
    ∃ m', update_flags m p fl' = Some m' ∧ mapper_inv m' ∧ view m' = <[p := (fr, fl')]> (view m);
}.

(** ** Reference implementations *)
#[global] Instance mapper_ref : Mapper (gmap Z (Z * Z)) := {|
  translate m a :=
    match m !! align_down a 4096 with
    | Some (fr, fl) => Mapped (MappedSize4KiB fr) (a mod 4096) fl
    | None => NotMapped
    end;
  translate_page m p := fst <$> m !! p;
  map_to _ _ m f p fr fl :=
    Ret (match m !! p with
         | None => Some (<[p := (fr, fl)]> m, f)
         | Some _ => None
         end);
  unmap m p := (λ '(fr, _), (fr, delete p m)) <$> m !! p;
  update_flags m p fl := (λ '(fr, _), <[p := (fr, fl)]> m) <$> m !! p;
|}.
#[global] Instance mapper_ref_laws : MapperLaws (gmap Z (Z * Z)).
Proof.
  refine {| mapper_inv m := True; view m := m; mappable _ := True |}; cbn; try done.
  - intros F ?? m f p fr fl _ Hi _ _ _ _ -> _ Hs. eexists _, _. split_and!; try done.
    intros n. apply supply_le. lia.
  - intros m p fr fl _ _ _ ->. eauto.
  - intros m p fr fl fl' _ _ _ -> _. eauto.
Defined.

(** The frames [next], [next + 4096], ... below [limit]. *)
Record Bump := mkBump { next : Z; limit : Z }.
#[global] Instance bump_source : FrameSource Bump := λ b,
  Ret (if next b + 4096 <=? limit b
       then (Some (next b), mkBump (next b + 4096) (limit b)) else (None, b)).
#[global] Instance bump_laws : FrameSourceLaws Bump.
Proof.
  refine {| source_inv b := next b mod 4096 = 0 ∧ 0 ≤ next b ∧ limit b < 2 ^ 52;
            fresh b x := x mod 4096 = 0 ∧ next b ≤ x ∧ x + 4096 ≤ limit b |}; cbn.
  - intros b x ? ?. lia.
  - intros [n l] x (Hn & H0 & Hl) (Hx & Hnx & Hxl). cbn in *. unfold allocate_frame, bump_source.
    cbn. destruct (Z.leb_spec (n + 4096) l); [|lia]. exists n. cbn. split_and!; try done; try lia.
    + rewrite <- (Z_mod_plus_full n 1 4096) in Hn. by rewrite Z.mul_1_l in Hn.
    + intros y. split; [lia|]. intros [(Hy & ? & ?) Hne]. split_and!; try done.
      apply Z.mod_divide in Hn as [q ->], Hy as [r ->]; lia.
Defined.

End Paging.
