(* ===== verification/Config.v ===== *)
(** * The bootloader configuration and its wire format (api/src/config.rs)

    [BootloaderConfig] is written by the kernel's [entry_point!] macro into the
    [.bootloader-config] ELF section ([serialize]) and read back by the
    bootloader ([deserialize]). Integers are [Z] values of their Rust width
    ([config_ok]); the byte arrays are lists of bytes. The [concat_i_j]
    functions that api/build.rs generates are list concatenation. *)
From S2P Require Import Prelude.

Module Config.

(** ** Data *)
Record ApiVersion := mkApiVersion {
  version_major : Z;
  version_minor : Z;
  version_patch : Z;
  pre_release : bool;
}.

Inductive Mapping :=
  | Dynamic
  | FixedAddress (addr : Z).

Record Mappings := mkMappings {
  kernel_stack : Mapping;
  boot_info : Mapping;
  framebuffer : Mapping;
  physical_memory : option Mapping;
  page_table_recursive : option Mapping;
  aslr : bool;
  dynamic_range_start : option Z;
  dynamic_range_end : option Z;
  ramdisk_memory : Mapping;
}.

Record FrameBuffer := mkFrameBuffer {
  minimum_framebuffer_height : option Z;
  minimum_framebuffer_width : option Z;
}.

Record BootloaderConfig := mkConfig {
  version : ApiVersion;
  mappings : Mappings;
  kernel_stack_size : Z;
  frame_buffer : FrameBuffer;
}.

#[global] Instance ApiVersion_eq_dec : EqDecision ApiVersion.
Proof. solve_decision. Defined.
#[global] Instance Mapping_eq_dec : EqDecision Mapping.
Proof. solve_decision. Defined.
#[global] Instance Mappings_eq_dec : EqDecision Mappings.
Proof. solve_decision. Defined.
#[global] Instance FrameBuffer_eq_dec : EqDecision FrameBuffer.
Proof. solve_decision. Defined.
#[global] Instance BootloaderConfig_eq_dec : EqDecision BootloaderConfig.
Proof. solve_decision. Defined.

(** The values a Rust [BootloaderConfig] can hold. *)
Definition mapping_ok (m : Mapping) : Prop :=
  match m with Dynamic => True | FixedAddress a => is_uint 64 a end.
Definition opt_ok {A} (P : A → Prop) (o : option A) : Prop :=
  match o with None => True | Some a => P a end.
Definition version_ok (v : ApiVersion) : Prop :=
  is_uint 16 (version_major v) ∧ is_uint 16 (version_minor v) ∧
  is_uint 16 (version_patch v).
Definition mappings_ok (m : Mappings) : Prop :=
  mapping_ok (kernel_stack m) ∧ mapping_ok (boot_info m) ∧
  mapping_ok (framebuffer m) ∧ opt_ok mapping_ok (physical_memory m) ∧
  opt_ok mapping_ok (page_table_recursive m) ∧
  opt_ok (is_uint 64) (dynamic_range_start m) ∧
  opt_ok (is_uint 64) (dynamic_range_end m) ∧ mapping_ok (ramdisk_memory m).
Definition frame_buffer_ok (f : FrameBuffer) : Prop :=
  opt_ok (is_uint 64) (minimum_framebuffer_height f) ∧
  opt_ok (is_uint 64) (minimum_framebuffer_width f).
Definition config_ok (c : BootloaderConfig) : Prop :=
  version_ok (version c) ∧ mappings_ok (mappings c) ∧
  is_uint 64 (kernel_stack_size c) ∧ frame_buffer_ok (frame_buffer c).

(** ** Constants and defaults *)
Definition UUID : list Z :=
  [0x74; 0x3C; 0xA9; 0x61; 0x09; 0x36; 0x46; 0xA0; 0xBB; 0x55; 0x5C; 0x15;
   0x89; 0x15; 0x25; 0x3D].
Definition SERIALIZED_LEN : nat := 124.

Definition Mapping_new_default : Mapping := Dynamic.

Definition Mappings_new_default : Mappings :=
  {| kernel_stack := Mapping_new_default;
     boot_info := Mapping_new_default;
     framebuffer := Mapping_new_default;
     physical_memory := None;
     page_table_recursive := None;
     aslr := false;
     dynamic_range_start := None;
     dynamic_range_end := None;
     ramdisk_memory := Mapping_new_default |}.

Definition FrameBuffer_new_default : FrameBuffer :=
  {| minimum_framebuffer_height := None; minimum_framebuffer_width := None |}.

(** [ApiVersion::new_default] takes its numbers from the [version_info.rs] that
    the build generates, so the version is an argument. *)
Definition BootloaderConfig_new_default (version_info : ApiVersion) : BootloaderConfig :=
  {| kernel_stack_size := 80 * 1024;
     version := version_info;
     mappings := Mappings_new_default;
     frame_buffer := FrameBuffer_new_default |}.

(** ** Serialization *)
(** [b as u8] *)
Definition bool_byte (b : bool) : Z := if b then 1 else 0.

Definition Mapping_serialize (m : Mapping) : list Z :=
  match m with
  | Dynamic => replicate 9 0
  | FixedAddress addr => [1] ++ le_bytes 8 addr
  end.

Definition serialize (c : BootloaderConfig) : list Z :=
  let v := version c in
  let m := mappings c in
  let f := frame_buffer c in
  let one := le_bytes 2 (version_major v) ++ le_bytes 2 (version_minor v) in
  let two := le_bytes 2 (version_patch v) ++ [bool_byte (pre_release v)] in
  let ver := one ++ two in
  let buf := UUID ++ ver in
  let buf := buf ++ le_bytes 8 (kernel_stack_size c) in
  let buf := buf ++ Mapping_serialize (kernel_stack m) in
  let buf := buf ++ Mapping_serialize (boot_info m) in
  let buf := buf ++ Mapping_serialize (framebuffer m) in
  let buf := buf ++
    match physical_memory m with
    | None => replicate 10 0
    | Some m => [1] ++ Mapping_serialize m
    end in
  let buf := buf ++
    match page_table_recursive m with
    | None => replicate 10 0
    | Some m => [1] ++ Mapping_serialize m
    end in
  let buf := buf ++ [bool_byte (aslr m)] in
  let buf := buf ++
    match dynamic_range_start m with
    | None => replicate 9 0
    | Some addr => [1] ++ le_bytes 8 addr
    end in
  let buf := buf ++
    match dynamic_range_end m with
    | None => replicate 9 0
    | Some addr => [1] ++ le_bytes 8 addr
    end in
  let buf := buf ++ Mapping_serialize (ramdisk_memory m) in
  let buf := buf ++
    match minimum_framebuffer_height f with
    | None => replicate 9 0
    | Some addr => [1] ++ le_bytes 8 addr
    end in
  buf ++
    match minimum_framebuffer_width f with
    | None => replicate 9 0
    | Some addr => [1] ++ le_bytes 8 addr
    end.

(** ** Deserialization *)
(** [split_array_ref::<N>] *)
Definition split_array_ref (n : nat) (s : list Z) : res (list Z * list Z) := split_at n s.

Definition Mapping_deserialize (serialized : list Z) : res Mapping :=
  '(variant, s) ← split_array_ref 1 serialized;
  '(addr, s) ← split_array_ref 8 s;
  if negb (bool_decide (s = [])) then Err "invalid mapping format" else
  match variant with
  | [0] => if decide (addr = replicate 8 0) then Ret Dynamic
           else Err "invalid mapping value"
  | [1] => Ret (FixedAddress (le_num addr))
  | _ => Err "invalid mapping value"
  end.

(** The [match .._some { [0] if .. == [0; 9] => None, [1] => Some(..?), _ => Err }]
    of the optional mappings. *)
Definition opt_mapping (some s : list Z) (msg : string) : res (option Mapping) :=
  match some with
  | [0] => if decide (s = replicate 9 0) then Ret None else Err msg
  | [1] => m ← Mapping_deserialize s; Ret (Some m)
  | _ => Err msg
  end.

(** The same [match] for the optional integers. *)
Definition opt_u64 (some s : list Z) (msg : string) : res (option Z) :=
  match some with
  | [0] => if decide (s = replicate 8 0) then Ret None else Err msg
  | [1] => Ret (Some (le_num s))
  | _ => Err msg
  end.

(** The two [match]es on a flag byte ([pre] and [alsr]). *)
Definition flag_byte (b : list Z) (msg : string) : res bool :=
  match b with
  | [0] => Ret false
  | [1] => Ret true
  | _ => Err msg
  end.

Definition deserialize_version (s : list Z) : res (ApiVersion * list Z) :=
  '(major, s) ← split_array_ref 2 s;
  '(minor, s) ← split_array_ref 2 s;
  '(patch, s) ← split_array_ref 2 s;
  '(pre, s) ← split_array_ref 1 s;
  pre ← flag_byte pre "invalid pre version";
  Ret ({| version_major := le_num major;
          version_minor := le_num minor;
          version_patch := le_num patch;
          pre_release := pre |}, s).

Definition deserialize_mappings (s : list Z) : res (Mappings * list Z) :=
  '(kernel_stack, s) ← split_array_ref 9 s;
  '(boot_info, s) ← split_array_ref 9 s;
  '(framebuffer, s) ← split_array_ref 9 s;
  '(physical_memory_some, s) ← split_array_ref 1 s;
  '(physical_memory, s) ← split_array_ref 9 s;
  '(page_table_recursive_some, s) ← split_array_ref 1 s;
  '(page_table_recursive, s) ← split_array_ref 9 s;
  '(alsr, s) ← split_array_ref 1 s;
  '(dynamic_range_start_some, s) ← split_array_ref 1 s;
  '(dynamic_range_start, s) ← split_array_ref 8 s;
  '(dynamic_range_end_some, s) ← split_array_ref 1 s;
  '(dynamic_range_end, s) ← split_array_ref 8 s;
  '(ramdisk_memory, s) ← split_array_ref 9 s;
  kernel_stack ← Mapping_deserialize kernel_stack;
  boot_info ← Mapping_deserialize boot_info;
  framebuffer ← Mapping_deserialize framebuffer;
  physical_memory ← opt_mapping physical_memory_some physical_memory
    "invalid phys memory value";
  page_table_recursive ← opt_mapping page_table_recursive_some page_table_recursive
    "invalid page table recursive value";
  aslr ← flag_byte alsr "invalid aslr value";
  dynamic_range_start ← opt_u64 dynamic_range_start_some dynamic_range_start
    "invalid dynamic range start value";
  dynamic_range_end ← opt_u64 dynamic_range_end_some dynamic_range_end
    "invalid dynamic range end value";
  ramdisk_memory ← Mapping_deserialize ramdisk_memory;
  Ret ({| kernel_stack := kernel_stack;
          boot_info := boot_info;
          framebuffer := framebuffer;
          physical_memory := physical_memory;
          page_table_recursive := page_table_recursive;
          aslr := aslr;
          dynamic_range_start := dynamic_range_start;
          dynamic_range_end := dynamic_range_end;
          ramdisk_memory := ramdisk_memory |}, s).

Definition deserialize_frame_buffer (s : list Z) : res (FrameBuffer * list Z) :=
  '(min_framebuffer_height_some, s) ← split_array_ref 1 s;
  '(min_framebuffer_height, s) ← split_array_ref 8 s;
  '(min_framebuffer_width_some, s) ← split_array_ref 1 s;
  '(min_framebuffer_width, s) ← split_array_ref 8 s;
  h ← opt_u64 min_framebuffer_height_some min_framebuffer_height
    "minimum_framebuffer_height invalid";
  w ← opt_u64 min_framebuffer_width_some min_framebuffer_width
    "minimum_framebuffer_width invalid";
  Ret ({| minimum_framebuffer_height := h; minimum_framebuffer_width := w |}, s).

Definition deserialize (serialized : list Z) : res BootloaderConfig :=
  if negb (length serialized =? SERIALIZED_LEN)%nat then Err "invalid len" else
  let s := serialized in
  '(uuid, s) ← split_array_ref 16 s;
  if negb (bool_decide (uuid = UUID)) then Err "invalid UUID" else
  '(version, s) ← deserialize_version s;
  '(kernel_stack_size, s) ← split_array_ref 8 s;
  '(mappings, s) ← deserialize_mappings s;
  '(frame_buffer, s) ← deserialize_frame_buffer s;
  if negb (bool_decide (s = [])) then Err "unexpected rest" else
  Ret {| version := version;
         kernel_stack_size := le_num kernel_stack_size;
         mappings := mappings;
         frame_buffer := frame_buffer |}.

(** ** The wire format, field by field *)

Definition opt_flag {A} (o : option A) : list Z :=
  match o with None => [0] | Some _ => [1] end.
Definition u64_payload (o : option Z) : list Z :=
  match o with None => replicate 8 0 | Some a => le_bytes 8 a end.
Definition mapping_payload (o : option Mapping) : list Z :=
  match o with None => replicate 9 0 | Some m => Mapping_serialize m end.

Lemma length_Mapping_serialize m : length (Mapping_serialize m) = 9%nat.
Proof. destruct m; cbn [Mapping_serialize]; [done|]. by rewrite length_app, length_le_bytes. Qed.
Lemma length_opt_flag {A} (o : option A) : length (opt_flag o) = 1%nat.
Proof. by destruct o. Qed.
Lemma length_u64_payload o : length (u64_payload o) = 8%nat.
Proof. destruct o; cbn [u64_payload]; [apply length_le_bytes | done]. Qed.
Lemma length_mapping_payload o : length (mapping_payload o) = 9%nat.
Proof. destruct o; cbn [mapping_payload]; [apply length_Mapping_serialize | done]. Qed.

Definition version_bytes (v : ApiVersion) : list Z :=
  le_bytes 2 (version_major v) ++ le_bytes 2 (version_minor v) ++
  le_bytes 2 (version_patch v) ++ [bool_byte (pre_release v)].
Definition mappings_bytes (m : Mappings) : list Z :=
  Mapping_serialize (kernel_stack m) ++ Mapping_serialize (boot_info m) ++
  Mapping_serialize (framebuffer m) ++
  opt_flag (physical_memory m) ++ mapping_payload (physical_memory m) ++
  opt_flag (page_table_recursive m) ++ mapping_payload (page_table_recursive m) ++
  [bool_byte (aslr m)] ++
  opt_flag (dynamic_range_start m) ++ u64_payload (dynamic_range_start m) ++
  opt_flag (dynamic_range_end m) ++ u64_payload (dynamic_range_end m) ++
  Mapping_serialize (ramdisk_memory m).
Definition frame_buffer_bytes (f : FrameBuffer) : list Z :=
  opt_flag (minimum_framebuffer_height f) ++ u64_payload (minimum_framebuffer_height f) ++
  opt_flag (minimum_framebuffer_width f) ++ u64_payload (minimum_framebuffer_width f).

(** The buffer [serialize] builds from the left is the fields in order. *)
Lemma serialize_fields c :
  serialize c = UUID ++ version_bytes (version c) ++ le_bytes 8 (kernel_stack_size c) ++
    mappings_bytes (mappings c) ++ frame_buffer_bytes (frame_buffer c).
Proof.
  destruct c as [v [? ? ? pm ptr ? rs re ?] ? [h w]].
  unfold serialize, version_bytes, mappings_bytes, frame_buffer_bytes.
  cbn [version mappings kernel_stack_size frame_buffer kernel_stack boot_info framebuffer
    physical_memory page_table_recursive aslr dynamic_range_start dynamic_range_end
    ramdisk_memory minimum_framebuffer_height minimum_framebuffer_width].
  rewrite <- !app_assoc.
  by destruct pm, ptr, rs, re, h, w.
Qed.

Lemma length_serialize c : length (serialize c) = SERIALIZED_LEN.
Proof.
  rewrite serialize_fields. unfold version_bytes, mappings_bytes, frame_buffer_bytes.
  rewrite !length_app, !length_le_bytes, !length_Mapping_serialize, !length_opt_flag,
    !length_u64_payload, !length_mapping_payload. done.
Qed.

(** *** Reading back a field *)
Lemma Mapping_roundtrip m : mapping_ok m → Mapping_deserialize (Mapping_serialize m) = Ret m.
Proof.
  destruct m as [|a]; [done|]. intros Ha. unfold Mapping_deserialize.
  cbn [Mapping_serialize]. unfold split_array_ref.
  rewrite (split_at_app 1 [1]) by done. cbn [mbind res_bind].
  rewrite <- (app_nil_r (le_bytes 8 a)), split_at_app by apply length_le_bytes.
  cbn [mbind res_bind negb bool_decide]. rewrite le_num_le_bytes; [done|].
  by unfold mapping_ok, is_uint in Ha.
Qed.

Lemma opt_mapping_roundtrip o msg :
  opt_ok mapping_ok o → opt_mapping (opt_flag o) (mapping_payload o) msg = Ret o.
Proof.
  destruct o; cbn [opt_ok opt_flag opt_mapping mapping_payload]; intros; [|done].
  by rewrite Mapping_roundtrip.
Qed.

Lemma opt_u64_roundtrip o msg :
  opt_ok (is_uint 64) o → opt_u64 (opt_flag o) (u64_payload o) msg = Ret o.
Proof.
  destruct o; cbn [opt_ok opt_flag opt_u64 u64_payload]; intros; [|done].
  by rewrite le_num_le_bytes.
Qed.

Lemma flag_byte_roundtrip b msg : flag_byte [bool_byte b] msg = Ret b.
Proof. by destruct b. Qed.

Ltac split_inv :=
  repeat match goal with
  | x : (list Z * list Z)%type |- _ => destruct x
  | E : split_array_ref _ _ = Ret (_, _) |- _ =>
      let Hl := fresh "Hl" in apply split_at_ret_inv in E as [-> Hl]
  | H : Forall byte_ok (_ ++ _) |- _ => apply Forall_app in H as [? ?]
  end.

(** *** What a successfully read field says about its bytes *)
Lemma Mapping_deserialize_inv bs m :
  Forall byte_ok bs → Mapping_deserialize bs = Ret m →
  bs = Mapping_serialize m ∧ mapping_ok m.
Proof.
  intros Hb H. unfold Mapping_deserialize in H.
  inv_res. split_inv. rename l into variant, l1 into addr, l2 into s'.
  case_bool_decide; [subst s' | discriminate]. cbn [negb] in H.
  destruct variant as [|v [|? ?]]; try discriminate.
  rewrite app_nil_r in *.
  destruct v as [|[]|]; try discriminate.
  - case_decide; [subst|discriminate]. by inv_res.
  - inv_res. cbn [Mapping_serialize mapping_ok].
    assert (length addr = 8%nat) as Ha by done.
    pose proof (le_num_bound addr ltac:(done)) as Hn. rewrite Ha in Hn. split; [|done].
    by rewrite <- Ha, le_bytes_le_num.
Qed.

Lemma opt_mapping_inv some bs o msg :
  Forall byte_ok bs → opt_mapping some bs msg = Ret o →
  some = opt_flag o ∧ bs = mapping_payload o ∧ opt_ok mapping_ok o.
Proof.
  intros Hb H. destruct some as [|v [|? ?]]; try discriminate.
  all: destruct v as [|[]|]; try discriminate; cbn [opt_mapping] in H.
  - case_decide; [subst|discriminate]. by inv_res.
  - inv_res. apply Mapping_deserialize_inv in E as [-> ?]; done.
Qed.

Lemma opt_u64_inv some bs o msg :
  Forall byte_ok bs → length bs = 8%nat → opt_u64 some bs msg = Ret o →
  some = opt_flag o ∧ bs = u64_payload o ∧ opt_ok (is_uint 64) o.
Proof.
  intros Hb Hl H. destruct some as [|v [|? ?]]; try discriminate.
  all: destruct v as [|[]|]; try discriminate; cbn [opt_u64] in H.
  - case_decide; [subst|discriminate]. by inv_res.
  - inv_res. cbn [opt_flag u64_payload opt_ok]. rewrite <- Hl.
    rewrite le_bytes_le_num by done. split_and!; [done..|].
    pose proof (le_num_bound bs Hb) as Hn. by rewrite Hl in Hn.
Qed.

Lemma flag_byte_inv bs b msg : flag_byte bs msg = Ret b → bs = [bool_byte b].
Proof.
  destruct bs as [|v [|? ?]]; try discriminate.
  all: destruct v as [|[]|]; try discriminate; cbn [flag_byte]; intros; by inv_res.
Qed.

Lemma u16_inv bs : Forall byte_ok bs → length bs = 2%nat →
  le_bytes 2 (le_num bs) = bs ∧ is_uint 16 (le_num bs).
Proof.
  intros Hb Hl. rewrite <- Hl at 1. split; [by apply le_bytes_le_num|].
  pose proof (le_num_bound bs Hb) as Hn. by rewrite Hl in Hn.
Qed.

(** *** The three blocks of [deserialize] *)
Ltac read_field :=
  rewrite split_at_app by
    first [ done | apply length_le_bytes | apply length_Mapping_serialize
          | apply length_opt_flag | apply length_u64_payload | apply length_mapping_payload ];
  cbn [mbind res_bind].

Lemma deserialize_version_bytes v s :
  version_ok v → deserialize_version (version_bytes v ++ s) = Ret (v, s).
Proof.
  intros (H1 & H2 & H3). unfold deserialize_version, version_bytes, split_array_ref.
  rewrite <- !app_assoc. do 4 read_field. rewrite flag_byte_roundtrip. cbn [mbind res_bind].
  rewrite !le_num_le_bytes by done. by destruct v.
Qed.

Lemma deserialize_mappings_bytes m s :
  mappings_ok m → deserialize_mappings (mappings_bytes m ++ s) = Ret (m, s).
Proof.
  intros (H1 & H2 & H3 & H4 & H5 & H6 & H7 & H8).
  unfold deserialize_mappings, mappings_bytes, split_array_ref.
  rewrite <- !app_assoc. do 13 read_field.
  rewrite !Mapping_roundtrip, !opt_mapping_roundtrip, flag_byte_roundtrip, !opt_u64_roundtrip
    by done.
  by destruct m.
Qed.

Lemma deserialize_frame_buffer_bytes f s :
  frame_buffer_ok f → deserialize_frame_buffer (frame_buffer_bytes f ++ s) = Ret (f, s).
Proof.
  intros (H1 & H2). unfold deserialize_frame_buffer, frame_buffer_bytes, split_array_ref.
  rewrite <- !app_assoc. do 4 read_field. rewrite !opt_u64_roundtrip by done. by destruct f.
Qed.

Lemma deserialize_version_inv s v s' :
  Forall byte_ok s → deserialize_version s = Ret (v, s') →
  s = version_bytes v ++ s' ∧ version_ok v.
Proof.
  intros Hb H. unfold deserialize_version in H. inv_res. split_inv.
  apply flag_byte_inv in E3 as ->.
  unfold version_bytes, version_ok. cbn [version_major version_minor version_patch pre_release].
  rewrite <- !app_assoc.
  repeat match goal with
  | H : Forall byte_ok ?l, Hl : length ?l = 2%nat |- _ =>
      let Q := fresh in let R := fresh in destruct (u16_inv l H Hl) as [Q R]; rewrite Q; clear Q H
  end.
  done.
Qed.

Lemma deserialize_mappings_inv s m s' :
  Forall byte_ok s → deserialize_mappings s = Ret (m, s') →
  s = mappings_bytes m ++ s' ∧ mappings_ok m.
Proof.
  intros Hb H. unfold deserialize_mappings in H. inv_res. split_inv.
  repeat match goal with
  | E : flag_byte _ _ = Ret _ |- _ => apply flag_byte_inv in E as ->
  | E : Mapping_deserialize _ = Ret _ |- _ =>
      apply Mapping_deserialize_inv in E as [-> ?]; [|done]
  | E : opt_mapping _ _ _ = Ret _ |- _ =>
      apply opt_mapping_inv in E as (-> & -> & ?); [|done]
  | E : opt_u64 _ _ _ = Ret _ |- _ =>
      apply opt_u64_inv in E as (-> & -> & ?); [|done|done]
  end.
  unfold mappings_bytes, mappings_ok.
  cbn [kernel_stack boot_info framebuffer
    physical_memory page_table_recursive aslr dynamic_range_start dynamic_range_end
    ramdisk_memory].
  by rewrite <- !app_assoc.
Qed.

Lemma deserialize_frame_buffer_inv s f s' :
  Forall byte_ok s → deserialize_frame_buffer s = Ret (f, s') →
  s = frame_buffer_bytes f ++ s' ∧ frame_buffer_ok f.
Proof.
  intros Hb H. unfold deserialize_frame_buffer in H. inv_res. split_inv.
  repeat match goal with
  | E : opt_u64 _ _ _ = Ret _ |- _ =>
      apply opt_u64_inv in E as (-> & -> & ?); [|done|done]
  end.
  unfold frame_buffer_bytes, frame_buffer_ok.
  cbn [minimum_framebuffer_height minimum_framebuffer_width].
  by rewrite <- !app_assoc.
Qed.

(** *** No slice is ever split out of range *)
Ltac safe_split :=
  eapply safe_bind; [apply split_at_safe; lia | intros [? ?] (-> & ? & ?)].

Lemma flag_byte_safe bs msg : safe (flag_byte bs msg) (λ _, True).
Proof. destruct bs as [|[|[]|] [|? ?]]; done. Qed.

Lemma Mapping_deserialize_safe bs : length bs = 9%nat →
  safe (Mapping_deserialize bs) (λ _, True).
Proof.
  intros. unfold Mapping_deserialize, split_array_ref. do 2 safe_split.
  destruct (negb _); [done|]. destruct l as [|[|[]|] [|? ?]]; try done. by case_decide.
Qed.

Lemma opt_mapping_safe some bs msg : length bs = 9%nat →
  safe (opt_mapping some bs msg) (λ _, True).
Proof.
  intros. destruct some as [|[|[]|] [|? ?]]; try done; cbn [opt_mapping].
  - by case_decide.
  - eapply safe_bind; [by apply Mapping_deserialize_safe | done].
Qed.

Lemma opt_u64_safe some bs msg : safe (opt_u64 some bs msg) (λ _, True).
Proof.
  destruct some as [|[|[]|] [|? ?]]; try done; cbn [opt_u64]. by case_decide.
Qed.

Ltac safe_field :=
  eapply safe_bind;
  [ first [ apply flag_byte_safe | apply opt_u64_safe
          | apply Mapping_deserialize_safe; done | apply opt_mapping_safe; done ] | intros ? _ ].

Lemma deserialize_version_safe s : (7 ≤ length s)%nat →
  safe (deserialize_version s) (λ '(_, s'), length s' = length s - 7)%nat.
Proof.
  intros. unfold deserialize_version, split_array_ref. do 4 safe_split. safe_field.
  apply safe_ret. rewrite !length_app in *. lia.
Qed.

Lemma deserialize_mappings_safe s : (84 ≤ length s)%nat →
  safe (deserialize_mappings s) (λ '(_, s'), length s' = length s - 75)%nat.
Proof.
  intros. unfold deserialize_mappings, split_array_ref. do 13 safe_split. do 9 safe_field.
  apply safe_ret. rewrite !length_app in *. lia.
Qed.

Lemma deserialize_frame_buffer_safe s : (18 ≤ length s)%nat →
  safe (deserialize_frame_buffer s) (λ _, True).
Proof.
  intros. unfold deserialize_frame_buffer, split_array_ref. do 4 safe_split. by do 2 safe_field.
Qed.


(** ** Correctness of the wire format *)

Lemma deserialize_serialize_spec c : config_ok c → deserialize (serialize c) = Ret c.
Proof.
  intros (Hv & Hm & Hs & Hf). unfold deserialize. rewrite length_serialize.
  cbn [Nat.eqb negb SERIALIZED_LEN]. rewrite serialize_fields. unfold split_array_ref.
  rewrite split_at_app by done. cbn [mbind res_bind].
  rewrite bool_decide_eq_true_2 by done. cbn [negb].
  rewrite deserialize_version_bytes by done. cbn [mbind res_bind].
  rewrite split_at_app by apply length_le_bytes. cbn [mbind res_bind].
  rewrite deserialize_mappings_bytes by done. cbn [mbind res_bind].
  rewrite <- (app_nil_r (frame_buffer_bytes _)), deserialize_frame_buffer_bytes by done.
  cbn [mbind res_bind bool_decide negb]. rewrite le_num_le_bytes by done. by destruct c.
Qed.

(** C14: a configuration survives the trip through the ELF section: for every
    configuration value a Rust program can hold, [deserialize] applied to the
    [serialize]d bytes returns exactly that configuration. *)
Theorem deserialize_serialize c :
  config_ok c → deserialize (serialize c) = Ret c.
Proof. apply deserialize_serialize_spec. Qed.

Definition sample_config : BootloaderConfig :=
  {| version := {| version_major := 0; version_minor := 11; version_patch := 4;
                   pre_release := false |};
     mappings :=
       {| kernel_stack := FixedAddress 0xf00000000; boot_info := Dynamic;
          framebuffer := Dynamic; physical_memory := Some Dynamic;
          page_table_recursive := None; aslr := true;
          dynamic_range_start := Some 0xffff800000000000; dynamic_range_end := None;
          ramdisk_memory := Dynamic |};
     kernel_stack_size := 100 * 1024;
     frame_buffer := FrameBuffer_new_default |}.

Lemma deserialize_serialize_witness :
  deserialize (serialize sample_config) = Ret sample_config.
Proof. apply deserialize_serialize. vm_compute. intuition discriminate. Defined.

(** C31: the accepted byte strings are exactly the serialized configurations:
    whatever [deserialize] accepts is the [serialize]d form of the value it
    returns, and that value fits its Rust types. So no two byte strings are
    read as the same configuration (in particular, nonzero padding after an
    absent option or a [Dynamic] mapping is refused). *)
Theorem deserialize_canonical bs c :
  Forall byte_ok bs → deserialize bs = Ret c → serialize c = bs ∧ config_ok c.
Proof.
  intros Hb H. unfold deserialize in H.
  destruct (length bs =? SERIALIZED_LEN)%nat; [|discriminate]. cbn [negb] in H. inv_res.
  split_inv. case_bool_decide; [subst|discriminate]. cbn [negb] in H. inv_res.
  apply deserialize_version_inv in E as [-> ?]; [|done]. split_inv.
  apply deserialize_mappings_inv in E1 as [-> ?]; [|done]. split_inv.
  apply deserialize_frame_buffer_inv in E2 as [-> ?]; [|done].
  case_bool_decide; [subst|discriminate]. cbn [negb] in H. inv_res.
  rewrite serialize_fields. cbn [version mappings kernel_stack_size frame_buffer].
  assert (length l1 = 8%nat) as H8 by done. pose proof (le_num_bound l1 ltac:(done)) as Hn.
  rewrite app_nil_r. split.
  - by rewrite <- H8, le_bytes_le_num.
  - rewrite H8 in Hn. done.
Qed.

Lemma deserialize_canonical_witness :
  serialize sample_config = serialize sample_config ∧ config_ok sample_config.
Proof. apply deserialize_canonical; [by apply (bool_decide_unpack _); vm_compute | by vm_compute]. Defined.

(** reading a configuration section never panics, whatever bytes it holds
    (any length, any content): the result is a configuration or an error
    message, so a foreign or truncated section is reported, not crashed on. *)
Theorem deserialize_never_panics bs e : deserialize bs ≠ Panic e.
Proof.
  apply (safe_no_panic _ (λ _, True)). unfold deserialize, split_array_ref.
  destruct (Nat.eqb_spec (length bs) SERIALIZED_LEN) as [Hl|]; [|done]. cbn [negb].
  unfold SERIALIZED_LEN in Hl. safe_split. destruct (negb _); [done|].
  eapply safe_bind; [apply deserialize_version_safe; lia | intros [v s1] ?].
  safe_split.
  eapply safe_bind; [apply deserialize_mappings_safe; lia | intros [m s2] ?].
  eapply safe_bind; [apply deserialize_frame_buffer_safe; lia | intros [f s3] _].
  by destruct (negb _).
Qed.

End Config.
