(* ===== verification/ApiBuild.v ===== *)
(** * The generated part of the api crate (api/build.rs)

    The build script generates functions [concat_i_j] on arrays, one for each pair
    of lengths it lists, and the version numbers, which it parses from the
    environment of the build. Arrays are vectors here; the function for a pair
    exists only if the pair is listed. [serialize] in [Config] writes [++] for
    these functions. *)
From stdpp Require Import vector.
From S2P Require Import Prelude Config.

Module ApiBuild.

(** ** The generated functions *)
Definition combinations : list (nat * nat) :=
  [(1, 8); (1, 9); (2, 1); (2, 2); (4, 3); (16, 7); (23, 8); (31, 9); (40, 9); (49, 9); (58, 10); (68, 10);
   (78, 1); (79, 9); (88, 9); (97, 9); (106, 9); (115, 9)]%nat.
(** The function for a pair of lengths was generated. *)
Class Generated (i j : nat) : Prop := generated : bool_decide ((i, j) ∈ combinations) = true.
#[global] Hint Extern 0 (Generated _ _) => (vm_compute; reflexivity) : typeclass_instances.

(** [[a[0], .., a[i-1], b[0], .., b[j-1]]] *)
Definition concat (i j : nat) `{Generated i j} (a : vec Z i) (b : vec Z j) : vec Z (i + j) :=
  fun_to_vec (λ idx, a !!! idx) +++ fun_to_vec (λ idx, b !!! idx).

(** ** The version *)

(** [str::parse::<u16>] *)
Fixpoint parse_digits (acc : Z) (s : string) : option Z :=
  match s with
  | EmptyString => Some acc
  | String c s =>
      let d := Z.of_nat (Ascii.nat_of_ascii c) - 48 in
      if (0 <=? d) && (d <=? 9) && (acc * 10 + d <? 2 ^ 16) then parse_digits (acc * 10 + d) s else None
  end.
Definition parse_u16 (s : string) : option Z :=
  match s with
  | EmptyString => None
  | String c rest =>
      if Ascii.eqb c (Ascii.ascii_of_nat 43) then match rest with EmptyString => None | _ => parse_digits 0 rest end
      else parse_digits 0 s
  end.
(** The generated constants, from the variables [CARGO_PKG_VERSION_*] *)
Definition version_info (major minor patch pre : string) : res Config.ApiVersion :=
  version_major ← expect_some (parse_u16 major) "called `Result::unwrap()` on an `Err` value";
  version_minor ← expect_some (parse_u16 minor) "called `Result::unwrap()` on an `Err` value";
  version_patch ← expect_some (parse_u16 patch) "called `Result::unwrap()` on an `Err` value";
  let pre_release := negb (bool_decide (pre = EmptyString)) in
  Ret (Config.mkApiVersion version_major version_minor version_patch pre_release).

(** The version of a release, and one that does not fit. *)
Example version_info_release : version_info "0" "11" "4" "" = Ret (Config.mkApiVersion 0 11 4 false).
Proof. reflexivity. Qed.
Example version_info_large : ∃ msg, version_info "65536" "11" "4" "alpha.1" = Panic msg.
Proof. by eexists. Qed.

(** A generated function appends the bytes of its arguments. *)
Lemma fun_to_vec_id {A n} (v : vec A n) : fun_to_vec (λ i, v !!! i) = v.
Proof. apply vec_eq. intros i. by rewrite lookup_fun_to_vec. Qed.
Lemma concat_list i j `{Generated i j} a b : vec_to_list (concat i j a b) = vec_to_list a ++ vec_to_list b.
Proof. unfold concat. by rewrite !fun_to_vec_id, vec_to_list_app. Qed.
End ApiBuild.
