(* ===== verification/Info.v ===== *)
(** * The boot information passed to the kernel (api/src/info.rs) *)
From S2P Require Import Prelude Config.

Module Info.

Inductive MemoryRegionKind :=
  | Usable
  | Bootloader
  | UnknownUefi (tag : Z)
  | UnknownBios (tag : Z).

Record MemoryRegion := mkRegion {
  start : Z;
  end_ : Z;
  kind : MemoryRegionKind;
}.

Definition MemoryRegion_empty : MemoryRegion :=
  {| start := 0; end_ := 0; kind := Bootloader |}.

Inductive PixelFormat :=
  | Rgb
  | Bgr
  | U8
  | Unknown (red_position green_position blue_position : Z).

Record FrameBufferInfo := mkFrameBufferInfo {
  byte_len : Z;
  width : Z;
  height : Z;
  pixel_format : PixelFormat;
  bytes_per_pixel : Z;
  stride : Z;
}.

Record FrameBuffer := mkFrameBuffer {
  buffer_start : Z;
  info : FrameBufferInfo;
}.

Record TlsTemplate := mkTlsTemplate {
  start_addr : Z;
  file_size : Z;
  mem_size : Z;
}.

(** [Optional<T>]: the FFI-safe copy of [Option<T>] and the [From] impls. *)
Inductive Optional (T : Type) :=
  | OSome (v : T)
  | ONone.
Arguments OSome {_} _.
Arguments ONone {_}.

Definition Optional_from {T} (v : option T) : Optional T :=
  match v with Some v => OSome v | None => ONone end.
Definition Optional_into_option {T} (o : Optional T) : option T :=
  match o with OSome v => Some v | ONone => None end.

#[global] Instance MemoryRegionKind_eq_dec : EqDecision MemoryRegionKind.
Proof. solve_decision. Defined.
#[global] Instance MemoryRegion_eq_dec : EqDecision MemoryRegion.
Proof. solve_decision. Defined.
#[global] Instance PixelFormat_eq_dec : EqDecision PixelFormat.
Proof. solve_decision. Defined.
#[global] Instance TlsTemplate_eq_dec : EqDecision TlsTemplate.
Proof. solve_decision. Defined.

(** [MemoryRegions] is a pointer and a length to a slice: here the slice. *)
Record BootInfo := mkBootInfo {
  api_version : Config.ApiVersion;
  memory_regions : list MemoryRegion;
  framebuffer : Optional FrameBuffer;
  physical_memory_offset : Optional Z;
  recursive_index : Optional Z;
  rsdp_addr : Optional Z;
  tls_template : Optional TlsTemplate;
  ramdisk_addr : Optional Z;
  ramdisk_len : Z;
  kernel_addr : Z;
  kernel_len : Z;
  kernel_image_offset : Z;
  test_sentinel : Z;
}.

Definition BootInfo_new (version_info : Config.ApiVersion)
    (memory_regions : list MemoryRegion) : BootInfo :=
  {| api_version := version_info;
     memory_regions := memory_regions;
     framebuffer := ONone;
     physical_memory_offset := ONone;
     recursive_index := ONone;
     rsdp_addr := ONone;
     tls_template := ONone;
     ramdisk_addr := ONone;
     ramdisk_len := 0;
     kernel_addr := 0;
     kernel_len := 0;
     kernel_image_offset := 0;
     test_sentinel := 0 |}.

(** ** Physical memory as a set of labelled ranges *)

(** [a] is a byte of the region. *)
Definition in_region (a : Z) (r : MemoryRegion) : Prop := start r ≤ a < end_ r.
#[global] Instance in_region_dec a r : Decision (in_region a r).
Proof. unfold in_region. apply _. Defined.

Lemma Optional_into_from {T} (o : option T) : Optional_into_option (Optional_from o) = o.
Proof. by destruct o. Qed.

(** ** Memory layout ([core::alloc::Layout] and [#[repr(C)]])

    The boot code allocates the [BootInfo] struct and the memory map behind it
    with [Layout::new::<BootInfo>()], [Layout::array::<MemoryRegion>(n)] and
    [extend]; the layouts of the two [repr(C)] types follow the C rules. *)
Record Layout := mkLayout { size : Z; align : Z }.

(** [l1.extend(l2)]: the combined layout and the offset of the second part; fails
    when the size exceeds [isize::MAX]. *)
Definition Layout_extend (l1 l2 : Layout) : res (Layout * Z) :=
  let offset := align_up (size l1) (align l2) in
  if offset + size l2 <? 2 ^ 63 then
    Ret (mkLayout (offset + size l2) (Z.max (align l1) (align l2)), offset)
  else Err "LayoutError".

(** [Layout::array::<T>(n)] for the layout of [T] *)
Definition Layout_array (t : Layout) (n : Z) : res Layout :=
  if n * size t <? 2 ^ 63 then Ret (mkLayout (n * size t) (align t)) else Err "LayoutError".

(** A [repr(C)] struct: the fields in order, each at its alignment, then padded. *)
Definition struct_layout (fields : list Layout) : Layout :=
  let l := foldl (λ acc f, mkLayout (align_up (size acc) (align f) + size f)
                             (Z.max (align acc) (align f))) (mkLayout 0 1) fields in
  mkLayout (align_up (size l) (align l)) (align l).

(** A [repr(C)] enum with fields: a C [int] tag and the union of the variants. *)
Definition enum_layout (variants : list Layout) : Layout :=
  let u := foldr (λ v acc, mkLayout (Z.max (size v) (size acc)) (Z.max (align v) (align acc)))
             (mkLayout 0 1) variants in
  struct_layout [mkLayout 4 4; mkLayout (align_up (size u) (align u)) (align u)].

Definition uint_layout (bytes : Z) : Layout := mkLayout bytes bytes.
Definition ApiVersion_layout : Layout :=
  struct_layout [uint_layout 2; uint_layout 2; uint_layout 2; uint_layout 1].
Definition MemoryRegions_layout : Layout := struct_layout [uint_layout 8; uint_layout 8].
Definition MemoryRegionKind_layout : Layout := enum_layout [uint_layout 4].
Definition MemoryRegion_layout : Layout :=
  struct_layout [uint_layout 8; uint_layout 8; MemoryRegionKind_layout].
Definition PixelFormat_layout : Layout :=
  enum_layout [struct_layout [uint_layout 1; uint_layout 1; uint_layout 1]].
Definition FrameBufferInfo_layout : Layout :=
  struct_layout [uint_layout 8; uint_layout 8; uint_layout 8; PixelFormat_layout;
                 uint_layout 8; uint_layout 8].
Definition FrameBuffer_layout : Layout :=
  struct_layout [uint_layout 8; FrameBufferInfo_layout].
Definition TlsTemplate_layout : Layout :=
  struct_layout [uint_layout 8; uint_layout 8; uint_layout 8].
Definition Optional_layout (t : Layout) : Layout := enum_layout [t].
Definition BootInfo_layout : Layout :=
  struct_layout
    [ ApiVersion_layout; MemoryRegions_layout; Optional_layout FrameBuffer_layout;
      Optional_layout (uint_layout 8); Optional_layout (uint_layout 2);
      Optional_layout (uint_layout 8); Optional_layout TlsTemplate_layout;
      Optional_layout (uint_layout 8); uint_layout 8; uint_layout 8; uint_layout 8;
      uint_layout 8; uint_layout 8 ].

(** The combined layout of a [BootInfo] and [n] memory regions. *)
Definition boot_info_and_regions (n : Z) : res (Layout * Z) :=
  a ← expect_ok (Layout_array MemoryRegion_layout n) "unwrap";
  expect_ok (Layout_extend BootInfo_layout a) "unwrap".

Example boot_info_layout_values :
  MemoryRegion_layout = mkLayout 24 8 ∧ BootInfo_layout = mkLayout 216 8.
Proof. split; by vm_compute. Qed.

Lemma boot_info_and_regions_ok n : 0 ≤ n < 2 ^ 32 →
  boot_info_and_regions n = Ret (mkLayout (216 + n * 24) 8, 216).
Proof.
  intros Hn. unfold boot_info_and_regions, Layout_array, Layout_extend.
  destruct boot_info_layout_values as [-> ->]. cbn [size align].
  destruct (Z.ltb_spec (n * 24) (2 ^ 63)); [|lia]. cbn [expect_ok mbind res_bind size align].
  change (align_up 216 8) with 216. destruct (Z.ltb_spec (216 + n * 24) (2 ^ 63)); [done|lia].
Qed.

End Info.
