(* ===== verification/Elf.v ===== *)
(** * What the loader reads of the kernel's ELF file

    Parsing is done by the [xmas_elf] crate, which is not part of the repository:
    a program header is the record of the values its accessor methods return.
    Also here: [VirtualAddressOffset] (common/src/load_kernel.rs), by which the
    addresses of the file are moved to their place in virtual memory. *)
From S2P Require Import Prelude.

Module Elf.

(** [xmas_elf::program::Type] *)
Inductive Type_ :=
  | Null
  | Load
  | Dynamic
  | Interp
  | Note
  | ShLib
  | Phdr
  | Tls
  | GnuRelro
  | OsSpecific (n : Z)
  | ProcessorSpecific (n : Z).

#[global] Instance Type_eq_dec : EqDecision Type_.
Proof. solve_decision. Defined.

Record ProgramHeader := mkProgramHeader {
  get_type : res Type_;
  offset : Z;
  virtual_addr : Z;
  file_size : Z;
  mem_size : Z;
  align : Z;
  is_execute : bool;
  is_write : bool;
}.

(** The fields of a 64-bit program header are [u64]s. *)
Definition ph_ok (h : ProgramHeader) : Prop :=
  is_uint 64 (offset h) ∧ is_uint 64 (virtual_addr h) ∧ is_uint 64 (file_size h) ∧
  is_uint 64 (mem_size h) ∧ is_uint 64 (align h).

(** [xmas_elf::header::Type] *)
Inductive FileType :=
  | FNone
  | FRelocatable
  | FExecutable
  | FSharedObject
  | FCore
  | FProcessorSpecific (n : Z).

(** The entries of a [PT_DYNAMIC] segment ([xmas_elf::dynamic]), with the results of
    their accessors; the tags the loader does not distinguish are [OtherTag]. *)
Inductive Tag :=
  | Rela
  | RelaSize
  | RelaEnt
  | OtherTag.

Record Dynamic64 := mkDynamic64 {
  get_tag : res Tag;
  get_ptr : res Z;
  get_val : res Z;
}.

Inductive SegmentData :=
  | DataDynamic64 (data : list Dynamic64)
  | DataOther.

(** [xmas_elf::ElfFile]: the address of its bytes, and what its accessors return. *)
Record ElfFile := mkElfFile {
  input_addr : Z;
  input_len : Z;
  file_type : FileType;
  entry_point : Z;
  program_iter : list ProgramHeader;
  (** [program::sanity_check], [header::sanity_check] and [ProgramHeader::get_data] *)
  program_sanity_check : ProgramHeader → res unit;
  header_sanity_check : res unit;
  get_data : ProgramHeader → res SegmentData;
}.

(** [xmas_elf::sections::Rela<u64>], as its accessors decode the 24 bytes of one. *)
Class RelaFormat : Type := {
  rela_get_offset : list Z → Z;
  rela_get_symbol_table_index : list Z → Z;
  rela_get_type : list Z → Z;
  rela_get_addend : list Z → Z;
}.
(** The layout of an [Elf64_Rela] in the ELF specification: [r_offset], [r_info] (the
    symbol index above the 32-bit type) and [r_addend], little-endian. *)
Class RelaLaws (R : RelaFormat) : Prop := {
  rela_offset_spec bs : rela_get_offset bs = le_num (take 8 bs);
  rela_symbol_spec bs : rela_get_symbol_table_index bs = le_num (take 4 (drop 12 bs));
  rela_type_spec bs : rela_get_type bs = le_num (take 4 (drop 8 bs));
  rela_addend_spec bs : rela_get_addend bs = le_num (take 8 (drop 16 bs));
}.
#[global] Instance rela_ref : RelaFormat := {|
  rela_get_offset bs := le_num (take 8 bs);
  rela_get_symbol_table_index bs := le_num (take 4 (drop 12 bs));
  rela_get_type bs := le_num (take 4 (drop 8 bs));
  rela_get_addend bs := le_num (take 8 (drop 16 bs));
|}.
#[global] Instance rela_ref_laws : RelaLaws rela_ref.
Proof. done. Qed.

(** ** [VirtualAddressOffset]: an [i128] *)
Definition VirtualAddressOffset : Type := Z.
Definition VirtualAddressOffset_new (o : Z) : VirtualAddressOffset := o.
Definition VirtualAddressOffset_zero : VirtualAddressOffset := VirtualAddressOffset_new 0.

(** [impl Add<u64> for VirtualAddressOffset]: the [i128] addition is checked and the
    sum must be a [u64]. *)
Definition vao_add (o : VirtualAddressOffset) (n : Z) : res Z :=
  let sum := o + n in
  s ← expect_some (if (- 2 ^ 127 <=? sum) && (sum <? 2 ^ 127) then Some sum else None)
        "called `Option::unwrap()` on a `None` value";
  expect_some (try_from_u 64 s) "called `Result::unwrap()` on an `Err` value".

Lemma vao_add_ret_inv o n v : vao_add o n = Ret v ↔ v = o + n ∧ is_uint 64 (o + n).
Proof.
  unfold vao_add, is_uint. split.
  - intros Hv. inv_arith. destruct (_ && _); [|discriminate]. by inv_arith.
  - intros [-> ?]. destruct (Z.leb_spec (- 2 ^ 127) (o + n)), (Z.ltb_spec (o + n) (2 ^ 127));
      cbn; try lia. by rewrite try_from_u_ok.
Qed.

Lemma vao_add_ok o n : is_uint 64 (o + n) → vao_add o n = Ret (o + n).
Proof. intros. by apply vao_add_ret_inv. Qed.

End Elf.
