(* ===== verification/FrameAllocator.v ===== *)
(** * The physical frame allocator and the memory map
      (common/src/legacy_memory_region.rs)

    [LegacyFrameAllocator] hands out 4 KiB frames from the usable regions of the
    firmware's memory map, and finally turns the map into the
    [MemoryRegion] slice of the boot information. The iterator over the map is
    the list of the descriptors it still yields; the trait
    [LegacyMemoryRegion] is a class with the BIOS and UEFI descriptors as
    instances. *)
From stdpp Require Import relations sorting.
From S2P Require Import Prelude Config X86 Paging Info.
Import X86.
Local Open Scope Z_scope.

Module FrameAllocator.

(** [trait LegacyMemoryRegion]; [start] and [len] can panic ([PhysAddr::new], a
    multiplication). *)
Class LegacyMemoryRegion (D : Type) := {
  start : D → res Z;
  len : D → res Z;
  kind : D → Info.MemoryRegionKind;
  usable_after_bootloader_exit : D → bool;
}.

(** [sort] and [sort_unstable_by_key] of a memory map *)
Definition by_key {A} (key : A → Z) (a b : A) : Prop := key a ≤ key b.
#[global] Instance by_key_dec {A} (key : A → Z) : RelDecision (by_key key).
Proof. intros a b. unfold by_key. apply _. Defined.
Definition sort_by_key {A} (key : A → Z) (l : list A) : list A := merge_sort (by_key key) l.
#[local] Instance by_key_trans {A} (key : A → Z) : Transitive (by_key key).
Proof. unfold by_key. intros ???. lia. Qed.
#[local] Instance by_key_total {A} (key : A → Z) : Total (by_key key).
Proof. unfold by_key. intros ??. lia. Qed.
Lemma sort_by_key_perm {A} (key : A → Z) l : sort_by_key key l ≡ₚ l.
Proof. apply merge_sort_Permutation. Qed.

(** The default method [is_empty]. *)
Definition region_is_empty `{LegacyMemoryRegion D} (d : D) : res bool :=
  l ← len d; Ret (l =? 0).

Record LegacyFrameAllocator (D : Type) := mkAllocator {
  original : list D;
  memory_map : list D;
  current_descriptor : option D;
  next_frame : Z;
}.
Arguments mkAllocator {_} _ _ _ _.
Arguments original {_} _.
Arguments memory_map {_} _.
Arguments current_descriptor {_} _.
Arguments next_frame {_} _.

Section Model.
Context `{X : X86} {D : Type} `{LegacyMemoryRegion D}.
Abbreviation allocator := (LegacyFrameAllocator D).

Definition set_next_frame (self : allocator) (f : Z) : allocator :=
  mkAllocator (original self) (memory_map self) (current_descriptor self) f.
Definition set_current (self : allocator) (o : option D) : allocator :=
  mkAllocator (original self) (memory_map self) o (next_frame self).
Definition set_memory_map (self : allocator) (m : list D) : allocator :=
  mkAllocator (original self) m (current_descriptor self) (next_frame self).

Definition new_starting_at (frame : Z) (memory_map : list D) : allocator :=
  {| original := memory_map;
     memory_map := memory_map;
     current_descriptor := None;
     next_frame := frame |}.

Definition new (memory_map : list D) : res allocator :=
  a ← phys_new 0x1000;
  let start_frame := frame_containing a in
  Ret (new_starting_at start_frame memory_map).

Definition allocate_frame_from_descriptor (self : allocator) (descriptor : D) :
    res (option Z * allocator) :=
  start_addr ← start descriptor;
  let start_frame := frame_containing start_addr in
  l ← len descriptor;
  end_addr ← phys_add start_addr l;
  last ← phys_sub end_addr 1;
  let end_frame := frame_containing last in
  let self := if next_frame self <? start_frame then set_next_frame self start_frame
              else self in
  if next_frame self <=? end_frame then
    let ret := next_frame self in
    f ← frame_add (next_frame self) 1;
    Ret (Some ret, set_next_frame self f)
  else Ret (None, self).

(** [self.original.len()] and [is_empty] *)
Definition allocator_len (self : allocator) : nat := length (original self).
Definition allocator_is_empty (self : allocator) : bool := (allocator_len self =? 0)%nat.

(** [.map(|r| r.start() + r.len()).max().unwrap()] *)
Definition region_end (d : D) : res Z :=
  s ← start d; l ← len d; phys_add s l.
Definition max_phys_addr (self : allocator) : res Z :=
  m ← foldM (λ acc d, e ← region_end d;
              Ret (Some (match acc with None => e | Some m => Z.max m e end)))
        None (original self);
  expect_some m "called `Option::unwrap()` on a `None` value".

(** The [while let Some(descriptor) = self.memory_map.next()] loop of
    [allocate_frame]; [m] is what the iterator still yields. *)
Fixpoint next_descriptor (self : allocator) (m : list D) : res (option Z * allocator) :=
  match m with
  | [] => Ret (None, set_memory_map self [])
  | descriptor :: m =>
      let self := set_memory_map self m in
      if negb (bool_decide (kind descriptor = Info.Usable)) then next_descriptor self m else
      '(o, self) ← allocate_frame_from_descriptor self descriptor;
      match o with
      | Some frame => Ret (Some frame, set_current self (Some descriptor))
      | None => next_descriptor self m
      end
  end.

Definition allocate_frame (self : allocator) : res (option Z * allocator) :=
  match current_descriptor self with
  | Some current_descriptor =>
      '(o, self) ← allocate_frame_from_descriptor self current_descriptor;
      match o with
      | Some frame => Ret (Some frame, self)
      | None =>
          let self := set_current self None in
          next_descriptor self (memory_map self)
      end
  | None => next_descriptor self (memory_map self)
  end.

(** [regions] is the initialised prefix [regions[..next_index]] of a slice with
    [capacity] entries. *)
Definition add_region (capacity : nat) (region : Info.MemoryRegion)
    (regions : list Info.MemoryRegion) : res (list Info.MemoryRegion) :=
  if Info.start region =? Info.end_ region then Ret regions else
  if decide (length regions < capacity)%nat then Ret (regions ++ [region])
  else Panic "cannot add region: no more free entries in memory map".

(** One iteration of the loop of [construct_memory_map]. *)
Definition construct_step (self : allocator) (capacity : nat)
    (kernel_slice_start kernel_slice_len : Z)
    (regions : list Info.MemoryRegion) (descriptor : D) : res (list Info.MemoryRegion) :=
  dstart ← start descriptor;
  l ← len descriptor;
  end_ ← phys_add dstart l;
  let next_free := next_frame self in
  '(start, kind, regions) ←
    match kind descriptor with
    | Info.Usable =>
        if end_ <=? next_free then Ret (dstart, Info.Bootloader, regions)
        else if next_free <=? dstart then Ret (dstart, Info.Usable, regions)
        else
          let used_region :=
            {| Info.start := dstart; Info.end_ := next_free;
               Info.kind := Info.Bootloader |} in
          regions ← add_region capacity used_region regions;
          Ret (next_free, Info.Usable, regions)
    | other =>
        if usable_after_bootloader_exit descriptor then Ret (dstart, Info.Usable, regions)
        else Ret (dstart, other, regions)
    end;
  let region := {| Info.start := start; Info.end_ := end_; Info.kind := kind |} in
  kernel_slice_end ← kernel_slice_start +[64] kernel_slice_len;
  if bool_decide (Info.kind region = Info.Usable)
     && (kernel_slice_start <? Info.end_ region) && (Info.start region <? kernel_slice_end)
  then
    assert_ (Info.start region <=? kernel_slice_start)
      "region overlaps with kernel, but kernel begins before region";;
    assert_ (kernel_slice_end <=? Info.end_ region)
      "region overlaps with kernel, but region ends before kernel";;
    let before_kernel :=
      {| Info.start := Info.start region; Info.end_ := kernel_slice_start;
         Info.kind := Info.kind region |} in
    let kernel :=
      {| Info.start := kernel_slice_start; Info.end_ := kernel_slice_end;
         Info.kind := Info.Bootloader |} in
    let after_kernel :=
      {| Info.start := kernel_slice_end; Info.end_ := Info.end_ region;
         Info.kind := Info.kind region |} in
    regions ← add_region capacity before_kernel regions;
    regions ← add_region capacity kernel regions;
    add_region capacity after_kernel regions
  else add_region capacity region regions.

Definition construct_memory_map (self : allocator) (capacity : nat)
    (kernel_slice_start kernel_slice_len : Z) : res (list Info.MemoryRegion) :=
  foldM (construct_step self capacity kernel_slice_start kernel_slice_len) []
    (original self).

End Model.

(** ** Well-formed memory maps *)
Section Spec.
Context `{HX : X86Laws} {D : Type} `{LegacyMemoryRegion D}.
Abbreviation allocator := (LegacyFrameAllocator D).

Definition dstart (d : D) : Z := match start d with Ret a => a | _ => 0 end.
Definition dlen (d : D) : Z := match len d with Ret a => a | _ => 0 end.
Definition dend (d : D) : Z := dstart d + dlen d.

(** A nonempty region that ends below the last frame of the 52-bit physical
    address space. *)
Definition wf_desc (d : D) : Prop :=
  start d = Ret (dstart d) ∧ len d = Ret (dlen d) ∧
  0 ≤ dstart d ∧ 0 < dlen d ∧ dend d ≤ 2 ^ 52 - 4096.

Definition usable (d : D) : Prop := kind d = Info.Usable.

(** The first and last frame that contain a byte of the region. *)
Definition first_frame (d : D) : Z := align_down (dstart d) 4096.
Definition last_frame (d : D) : Z := align_down (dend d - 1) 4096.
Definition frame_of (f : Z) (d : D) : Prop :=
  f mod 4096 = 0 ∧ first_frame d ≤ f ≤ last_frame d.

(** The frames of the usable regions of a map. *)
Definition usable_frame (ds : list D) (f : Z) : Prop :=
  ∃ d, d ∈ ds ∧ usable d ∧ frame_of f d.

(** A map sorted by start address whose regions do not overlap. *)
Definition sorted_map (ds : list D) : Prop :=
  StronglySorted (λ d1 d2, dend d1 ≤ dstart d2) ds.

(** A map in any order whose regions do not overlap. *)
Record unordered_map (ds : list D) : Prop := {
  um_wf : Forall wf_desc ds;
  um_nodup : NoDup ds;
  um_disjoint d1 d2 : d1 ∈ ds → d2 ∈ ds → d1 ≠ d2 → dend d1 ≤ dstart d2 ∨ dend d2 ≤ dstart d1;
}.

#[export] Instance unordered_map_proper : Proper ((≡ₚ) ==> iff) unordered_map.
Proof.
  assert (∀ ds ds', ds ≡ₚ ds' → unordered_map ds → unordered_map ds') as H0.
  { intros ds ds' Hp [Hw Hn Hd]. split; [by rewrite <- Hp|by rewrite <- Hp|]. intros d1 d2. rewrite <- Hp. apply Hd. }
  intros ds ds' Hp. split; by apply H0.
Qed.
#[export] Instance usable_frame_proper : Proper ((≡ₚ) ==> (=) ==> iff) usable_frame.
Proof. intros ds ds' Hp f ? <-. unfold usable_frame. by setoid_rewrite Hp. Qed.

Lemma sort_by_key_sorted key ds : (∀ d, d ∈ ds → key d = dstart d) → unordered_map ds →
  sorted_map (sort_by_key key ds).
Proof.
  intros Hk Hu. pose proof (StronglySorted_merge_sort (by_key key) ds) as Hs. fold (sort_by_key key ds) in Hs.
  rewrite <- (sort_by_key_perm key ds) in Hu.
  assert (∀ d, d ∈ sort_by_key key ds → key d = dstart d) as Hk' by (intros d; rewrite sort_by_key_perm; apply Hk).
  clear Hk. destruct Hu as [Hw Hn Hd]. unfold sorted_map. induction Hs as [|d l Hs IH Hlt]; constructor.
  - apply IH; [by inversion Hw|by inversion Hn| |]; intros; [apply Hd|apply Hk']; by try right.
  - rewrite Forall_forall in *. intros d2 H2. apply NoDup_cons in Hn as [Hnin _].
    destruct (Hd d d2) as [?|?]; [by left|by right|by intros ->|done|].
    specialize (Hlt d2 H2). unfold by_key in Hlt. rewrite !Hk' in Hlt by (by left || by right).
    destruct (Hw d2 ltac:(by right)) as (_ & _ & _ & ? & _). unfold dend in *. lia.
Qed.

Lemma first_le_last d : wf_desc d → first_frame d ≤ last_frame d.
Proof. intros (_ & _ & ? & ? & _). apply align_down_mono; unfold dend; lia. Qed.

Lemma last_le_first d1 d2 : dend d1 ≤ dstart d2 → last_frame d1 ≤ first_frame d2.
Proof. intros. apply align_down_mono; lia. Qed.

Lemma last_frame_phys d : wf_desc d → 0 ≤ last_frame d < 2 ^ 52 - 4096.
Proof.
  intros (_ & _ & ? & ? & ?). unfold last_frame, dend in *.
  pose proof (align_down_le (dstart d + dlen d - 1) 4096).
  pose proof (align_down_nonneg (dstart d + dlen d - 1) 4096). lia.
Qed.

(** What holds of an allocator between two calls: the descriptors the iterator has
    passed are used up, except the current one. *)
Record alloc_inv (self : allocator) : Prop := {
  ai_wf : Forall wf_desc (original self);
  ai_aligned : next_frame self mod 4096 = 0;
  ai_phys : phys_ok (next_frame self);
  ai_passed : ∃ passed, original self = passed ++ memory_map self ∧
    (∀ d, d ∈ passed → usable d →
       current_descriptor self = Some d ∨ last_frame d < next_frame self) ∧
    (∀ d, current_descriptor self = Some d → d ∈ passed ∧ usable d);
}.

Lemma new_starting_at_inv f ds :
  Forall wf_desc ds → f mod 4096 = 0 → phys_ok f → alloc_inv (new_starting_at f ds).
Proof. intros. split; cbn; try done. exists []. split_and!; [done|set_solver|done]. Qed.

(** *** One descriptor *)
Lemma allocate_from_spec (self : allocator) d :
  wf_desc d → phys_ok (next_frame self) →
  allocate_frame_from_descriptor self d =
    let f := Z.max (next_frame self) (first_frame d) in
    Ret (if f <=? last_frame d then (Some f, set_next_frame self (f + 4096))
         else (None, self)).
Proof.
  intros Hwf Hn. pose proof (first_le_last d Hwf). pose proof (last_frame_phys d Hwf).
  pose proof Hwf as (Hs & Hl & ? & ? & ?). unfold dend in *.
  unfold allocate_frame_from_descriptor. rewrite Hs. cbn [mbind res_bind].
  rewrite Hl. cbn [mbind res_bind].
  rewrite phys_add_ok by (unfold phys_ok; lia). cbn [mbind res_bind].
  rewrite phys_sub_ok by (unfold phys_ok; lia). cbn [mbind res_bind].
  rewrite !frame_containing_spec by (unfold phys_ok; lia).
  fold (first_frame d). change (align_down _ 4096) with (last_frame d).
  unfold phys_ok in Hn. cbn zeta.
  destruct (Z.ltb_spec (next_frame self) (first_frame d)); cbn [next_frame set_next_frame].
  - rewrite Z.max_r by lia. destruct (Z.leb_spec (first_frame d) (last_frame d)); [|lia].
    rewrite frame_add_ok; [done|..]; unfold phys_ok; lia.
  - rewrite Z.max_l by lia. destruct (Z.leb_spec (next_frame self) (last_frame d)); [|done].
    rewrite frame_add_ok; [done|..]; unfold phys_ok; lia.
Qed.

(** *** The search for the next descriptor *)
Definition exhausted (ds : list D) (f : Z) : Prop :=
  ∀ d, d ∈ ds → usable d → last_frame d < f.

(** The frame [f] comes from the first descriptor of [m] that still has one. *)
Definition found (n : Z) (m : list D) (f : Z) (self' : allocator) : Prop :=
  ∃ m1 d m2, m = m1 ++ d :: m2 ∧ exhausted m1 n ∧ usable d ∧
    f = Z.max n (first_frame d) ∧ f ≤ last_frame d ∧
    memory_map self' = m2 ∧ current_descriptor self' = Some d ∧ next_frame self' = f + 4096.

Lemma exhausted_snoc ds d f :
  exhausted ds f → (usable d → last_frame d < f) → exhausted (ds ++ [d]) f.
Proof. intros H1 H2 d'. rewrite elem_of_app, list_elem_of_singleton. naive_solver. Qed.

Lemma found_cons n d m f self' :
  (usable d → last_frame d < n) → found n m f self' → found n (d :: m) f self'.
Proof.
  intros Hd (m1 & d' & m2 & -> & Hm & Hr). exists (d :: m1), d', m2.
  split_and!; [done| |apply Hr..].
  intros x [->|?]%elem_of_cons; [done | by apply Hm].
Qed.

Lemma next_descriptor_spec m : ∀ self : allocator,
  Forall wf_desc m → phys_ok (next_frame self) → current_descriptor self = None →
  returns (next_descriptor self m) (λ '(o, self'),
    original self' = original self ∧
    match o with
    | Some f => found (next_frame self) m f self'
    | None => exhausted m (next_frame self) ∧ self' = set_memory_map self []
    end).
Proof.
  induction m as [|d m IH]; intros self Hwf Hn Hc; cbn [next_descriptor].
  { split; [done|]. split; [intros ? []%elem_of_nil | done]. }
  inversion_clear Hwf as [|? ? Hd Hm].
  case_bool_decide as Hk; cbn [negb].
  - rewrite allocate_from_spec by done. cbn [mbind res_bind next_frame set_memory_map].
    destruct (Z.leb_spec (Z.max (next_frame self) (first_frame d)) (last_frame d)).
    + cbn. split; [done|]. exists [], d, m. split_and!; try done. intros ? []%elem_of_nil.
    + pose proof (first_le_last d Hd). eapply returns_mono; [by apply IH|].
      intros [[f|] self']; cbn [original next_frame set_memory_map]; intros (? & Ho).
      * split; [done|]. apply found_cons; [lia | done].
      * destruct Ho as [Ho ->]. split; [done|]. split; [|done].
        intros x [->|?]%elem_of_cons; [lia | by apply Ho].
  - eapply returns_mono; [by apply IH|].
    intros [[f|] self']; cbn [original next_frame set_memory_map]; intros (? & Ho).
    + split; [done|]. by apply found_cons.
    + destruct Ho as [Ho ->]. split; [done|]. split; [|done].
      intros x [->|?]%elem_of_cons; [done | by apply Ho].
Qed.

(** *** One allocation *)
Definition frame_post (self : allocator) (o : option Z) (self' : allocator) : Prop :=
  match o with
  | Some f => ∃ d, d ∈ original self ∧ usable d ∧ frame_of f d ∧
      next_frame self ≤ f ∧ next_frame self' = f + 4096 ∧
      (sorted_map (original self) →
       ∀ g, usable_frame (original self) g → next_frame self ≤ g → f ≤ g)
  | None => exhausted (original self) (next_frame self) ∧ next_frame self' = next_frame self
  end.

Lemma sorted_map_app_le ds1 d1 ds2 d2 :
  sorted_map (ds1 ++ ds2) → d1 ∈ ds1 → d2 ∈ ds2 → last_frame d1 ≤ first_frame d2.
Proof. intros Hs H1 H2. apply last_le_first. by eapply StronglySorted_app_1_elem_of in Hs. Qed.

Lemma frame_max_aligned n d : n mod 4096 = 0 → Z.max n (first_frame d) mod 4096 = 0.
Proof.
  intros. destruct (Z.max_spec n (first_frame d)) as [[_ ->]|[_ ->]]; [|done].
  by apply align_down_mod.
Qed.

(** The allocator after a frame was taken from [d], which follows [passed]. *)
Lemma taken_inv (self self' : allocator) passed d m2 f :
  alloc_inv self → original self = passed ++ d :: m2 → usable d →
  exhausted passed (next_frame self) → f = Z.max (next_frame self) (first_frame d) →
  f ≤ last_frame d → original self' = original self → memory_map self' = m2 →
  current_descriptor self' = Some d → next_frame self' = f + 4096 →
  alloc_inv self' ∧ frame_post self (Some f) self'.
Proof.
  intros [Hwf Ha Hp _] Ho Hu He Hf Hl Hor Hm Hc Hn.
  assert (wf_desc d) as Hd. { eapply Forall_forall; [done|]. rewrite Ho. set_solver. }
  pose proof (last_frame_phys d Hd). unfold phys_ok in Hp.
  pose proof (frame_max_aligned _ d Ha) as Hfa. rewrite <- Hf in Hfa.
  split; [split|].
  - by rewrite Hor.
  - rewrite Hn, <- Zplus_mod_idemp_l, Hfa. done.
  - unfold phys_ok. rewrite Hn. lia.
  - exists (passed ++ [d]). rewrite Hor, Ho, Hm, Hc, Hn. split; [by rewrite <- app_assoc|].
    split; [|set_solver].
    intros x [Hx|Hx]%elem_of_app Hux; [right; specialize (He x Hx Hux); lia|].
    apply list_elem_of_singleton in Hx. subst. by left.
  - exists d. split_and!; try done; [rewrite Ho; set_solver|unfold frame_of; lia|lia|].
    intros Hs g (d' & Hd' & Hu' & Hg) Hng. rewrite Ho in Hs, Hd'. destruct Hg as [_ Hg].
    apply elem_of_app in Hd' as [Hd'|[->|Hd']%elem_of_cons]; [specialize (He d' Hd' Hu')|..].
    1,2: lia.
    rewrite cons_middle, (assoc_L (++)) in Hs.
    pose proof (sorted_map_app_le _ d _ d' Hs ltac:(set_solver) Hd'). lia.
Qed.

Lemma exhausted_app ds1 ds2 f : exhausted ds1 f → exhausted ds2 f → exhausted (ds1 ++ ds2) f.
Proof. intros H1 H2 d [?|?]%elem_of_app; auto. Qed.

(** [next_descriptor] from a state whose passed descriptors are all used up. *)
Lemma search_spec (self : allocator) passed :
  alloc_inv self → original self = passed ++ memory_map self →
  exhausted passed (next_frame self) →
  returns (next_descriptor (set_current self None) (memory_map self)) (λ '(o, self'),
    alloc_inv self' ∧ original self' = original self ∧ frame_post self o self').
Proof.
  intros Hinv Ho He. pose proof Hinv as [Hwf Ha Hp _].
  assert (Forall wf_desc (memory_map self)) as Hm by (rewrite Ho in Hwf; by decompose_Forall).
  eapply returns_mono; [by apply next_descriptor_spec|].
  intros [[f|] self'] [Hor Hpost]; cbn [original set_current next_frame] in *.
  - destruct Hpost as (m1 & d & m2 & Hmm & He1 & Hu & Hf & Hl & Hm2 & Hc & Hn).
    rewrite Hmm, (assoc_L (++)) in Ho.
    destruct (taken_inv self self' (passed ++ m1) d m2 f) as [? ?]; auto using exhausted_app.
  - destruct Hpost as [He2 ->].
    assert (exhausted (original self) (next_frame self)) as Hall
      by (rewrite Ho; by apply exhausted_app).
    split_and!; [|done|done]. split; cbn; [done..|].
    exists (original self). rewrite app_nil_r. split_and!; [done| |done].
    intros d Hd Hu. right. by apply Hall.
Qed.

Lemma allocate_frame_spec (self : allocator) :
  alloc_inv self →
  returns (allocate_frame self) (λ '(o, self'),
    alloc_inv self' ∧ original self' = original self ∧ frame_post self o self').
Proof.
  intros Hinv. pose proof Hinv as [Hwf Ha Hp (passed & Ho & Hpass & Hcur)].
  unfold allocate_frame. destruct (current_descriptor self) as [d|] eqn:Hc.
  - destruct (Hcur d eq_refl) as [Hd Hu].
    assert (wf_desc d) as Hwd. { eapply Forall_forall; [done|]. rewrite Ho. set_solver. }
    pose proof (first_le_last d Hwd). pose proof (last_frame_phys d Hwd).
    rewrite allocate_from_spec by done. cbn [mbind res_bind]. cbn zeta.
    destruct (Z.leb_spec (Z.max (next_frame self) (first_frame d)) (last_frame d)) as [Hl|Hl].
    + (* the current descriptor still has a frame *)
      set (f := Z.max (next_frame self) (first_frame d)) in *. cbn.
      pose proof (frame_max_aligned _ d Ha) as Hfa. fold f in Hfa. unfold phys_ok in Hp.
      split_and!; [split|done|]; cbn.
      * done.
      * rewrite <- Zplus_mod_idemp_l, Hfa. done.
      * unfold phys_ok. lia.
      * exists passed. rewrite Hc. split_and!; [done| |done].
        intros x Hx Hux. destruct (Hpass x Hx Hux) as [?|?]; [by left|right; lia].
      * exists d. split_and!; try done; [rewrite Ho; set_solver|unfold frame_of; lia|lia|].
        intros Hs g (d' & Hd' & Hu' & _ & Hg) Hng. rewrite Ho in Hs, Hd'.
        apply elem_of_app in Hd' as [Hd'|Hd'].
        -- destruct (Hpass d' Hd' Hu') as [[= ->]|?]; lia.
        -- pose proof (sorted_map_app_le _ d _ d' Hs Hd Hd'). lia.
    + apply (search_spec self passed); [done..|]. intros x Hx Hux.
      destruct (Hpass x Hx Hux) as [[= ->]|?]; lia.
  - replace self with (set_current self None) at 1 by (destruct self; cbn in *; by subst).
    apply (search_spec self passed); [done..|]. intros x Hx Hux.
    by destruct (Hpass x Hx Hux).
Qed.

(** *** A run of allocations *)
Fixpoint allocate_frames (n : nat) (self : allocator) : res (list Z * allocator) :=
  match n with
  | O => Ret ([], self)
  | S n =>
      '(o, self) ← allocate_frame self;
      match o with
      | None => Ret ([], self)
      | Some f => '(fs, self) ← allocate_frames n self; Ret (f :: fs, self)
      end
  end.

Lemma usable_frame_aligned ds f : usable_frame ds f → f mod 4096 = 0.
Proof. by intros (d & _ & _ & ? & _). Qed.

Lemma aligned_succ f g : f mod 4096 = 0 → g mod 4096 = 0 → f < g → f + 4096 ≤ g.
Proof.
  intros Hf Hg. apply Z.mod_divide in Hf as [a ->]; [|lia].
  apply Z.mod_divide in Hg as [b ->]; [|lia]. lia.
Qed.

Lemma allocate_frames_spec n : ∀ self : allocator,
  alloc_inv self →
  returns (allocate_frames n self) (λ '(fs, self'),
    alloc_inv self' ∧ original self' = original self ∧ next_frame self ≤ next_frame self' ∧
    StronglySorted Z.lt fs ∧
    Forall (λ f, usable_frame (original self) f ∧ next_frame self ≤ f ∧
                 f + 4096 ≤ next_frame self') fs ∧
    (sorted_map (original self) →
     ∀ g, usable_frame (original self) g → next_frame self ≤ g →
       g ∈ fs ∨ (next_frame self' ≤ g ∧ length fs = n))).
Proof.
  induction n as [|n IH]; intros self Hinv; cbn [allocate_frames].
  { cbn. split_and!; [done|done|lia|constructor|constructor|by right]. }
  eapply returns_bind; [by apply allocate_frame_spec|].
  intros [[f|] self1] (Hinv1 & Ho1 & Hpost); cbn [frame_post] in Hpost.
  - destruct Hpost as (d & Hd & Hu & Hf & Hnf & Hn1 & Hleast).
    assert (usable_frame (original self) f) as Huf by (by exists d).
    eapply returns_bind; [by apply IH|].
    intros [fs self2] (Hinv2 & Ho2 & Hn2 & Hs2 & Hall & Hcomp). rewrite Ho1 in *. cbn.
    split_and!; [done..|lia| | |].
    + constructor; [done|]. eapply Forall_impl; [done|]. cbn. lia.
    + constructor; [split_and!; [done..|lia]|]. eapply Forall_impl; [done|].
      cbn. intros g (? & ? & ?). split_and!; [done|lia..].
    + intros Hs g Hg Hng. specialize (Hleast Hs g Hg Hng).
      destruct (decide (g = f)) as [->|]; [left; set_solver|].
      pose proof (aligned_succ f g (usable_frame_aligned _ _ Huf) (usable_frame_aligned _ _ Hg)).
      destruct (Hcomp Hs g Hg) as [?|[? ?]]; [lia|left; set_solver|right; split; [done|lia]].
  - destruct Hpost as [He Hn1]. cbn.
    split_and!; [done|done|lia|constructor|constructor|].
    intros _ g (d & Hd & Hu & _ & Hg) Hng. specialize (He d Hd Hu). lia.
Qed.

(** ** The memory map handed to the kernel *)
Section Construct.
Context (nf ks ke : Z).

Definition nonempty (r : Info.MemoryRegion) : list Info.MemoryRegion :=
  if Info.start r =? Info.end_ r then [] else [r].

(** The part of a region below [nf], then its remaining start and final kind. *)
Definition desc_split (d : D) : list Info.MemoryRegion * Z * Info.MemoryRegionKind :=
  match kind d with
  | Info.Usable =>
      if dend d <=? nf then ([], dstart d, Info.Bootloader)
      else if nf <=? dstart d then ([], dstart d, Info.Usable)
      else ([Info.mkRegion (dstart d) nf Info.Bootloader], nf, Info.Usable)
  | other => if usable_after_bootloader_exit d then ([], dstart d, Info.Usable)
             else ([], dstart d, other)
  end.

Definition overlaps_kernel (s e : Z) (k : Info.MemoryRegionKind) : bool :=
  bool_decide (k = Info.Usable) && (ks <? e) && (s <? ke).

(** The entries that one descriptor contributes. *)
Definition desc_regions (d : D) : list Info.MemoryRegion :=
  let '(used, s, k) := desc_split d in
  used ++
  if overlaps_kernel s (dend d) k then
    nonempty (Info.mkRegion s ks k) ++
    nonempty (Info.mkRegion ks ke Info.Bootloader) ++
    nonempty (Info.mkRegion ke (dend d) k)
  else [Info.mkRegion s (dend d) k].

(** The two assertions on the position of the kernel hold for [d]. *)
Definition kernel_fits (d : D) : Prop :=
  let '(_, s, k) := desc_split d in
  overlaps_kernel s (dend d) k = true → s ≤ ks ∧ ke ≤ dend d.

Lemma desc_split_bounds d used s k : wf_desc d → desc_split d = (used, s, k) →
  dstart d ≤ s < dend d ∧
  (used = [] ∧ s = dstart d ∨
   used = [Info.mkRegion (dstart d) nf Info.Bootloader] ∧ s = nf ∧ usable d ∧
   dstart d < nf < dend d).
Proof.
  intros (_ & _ & ? & ? & _). unfold desc_split, dend, usable.
  destruct (kind d), (usable_after_bootloader_exit d); intros; simplify_eq; try lia;
    repeat match goal with
    | H : context [?a <=? ?b] |- _ => destruct (Z.leb_spec a b); simplify_eq
    end; try lia;
    split; try lia; auto; right; split_and!; auto; lia.
Qed.

Lemma add_region_spec cap r regs :
  (length regs + length (nonempty r) ≤ cap)%nat →
  add_region cap r regs = Ret (regs ++ nonempty r).
Proof.
  unfold add_region, nonempty. destruct (_ =? _); cbn [length]; intros.
  - by rewrite app_nil_r.
  - rewrite decide_True by lia. done.
Qed.

Lemma construct_step_spec (self : allocator) cap regs d :
  next_frame self = nf → wf_desc d → kernel_fits d → ks ≤ ke < 2 ^ 64 →
  (length regs + length (desc_regions d) ≤ cap)%nat →
  construct_step self cap ks (ke - ks) regs d = Ret (regs ++ desc_regions d).
Proof.
  intros Hnf Hwf Hfit Hk. pose proof Hwf as (Hs & Hl & ? & ? & ?).
  unfold construct_step, kernel_fits, desc_regions in *.
  rewrite Hs. cbn [mbind res_bind]. rewrite Hl. cbn [mbind res_bind].
  rewrite phys_add_ok by (unfold phys_ok, dend in *; lia). cbn [mbind res_bind].
  fold (dend d). rewrite Hnf. clear Hnf.
  destruct (desc_split d) as [[used s] k] eqn:Hd.
  pose proof (desc_split_bounds _ _ _ _ Hwf Hd) as [Hb Hused].
  rewrite length_app. intros Hcap.
  match goal with |- (?m ≫= _) = _ => assert (m = Ret (s, k, regs ++ used)) as -> end.
  { clear Hfit. unfold desc_split in Hd.
    destruct (kind d), (usable_after_bootloader_exit d);
      try (injection Hd as <- <- <-; by rewrite app_nil_r).
    all: destruct (Z.leb_spec (dend d) nf); [injection Hd as <- <- <-; by rewrite app_nil_r|];
      destruct (Z.leb_spec nf (dstart d)); [injection Hd as <- <- <-; by rewrite app_nil_r|];
      injection Hd as <- <- <-; unfold add_region; cbn [Info.start Info.end_];
      destruct (Z.eqb_spec (dstart d) nf); [lia|];
      rewrite decide_True by (cbn [length] in Hcap; lia); done. }
  cbn [mbind res_bind Info.kind Info.start Info.end_].
  rewrite add_u_ok by lia. cbn [mbind res_bind].
  replace (ks + (ke - ks)) with ke by lia. fold (overlaps_kernel s (dend d) k).
  destruct (overlaps_kernel s (dend d) k).
  - destruct (Hfit eq_refl). rewrite !length_app in Hcap.
    rewrite !(proj2 (assert_ret_inv _ _ ())) by lia. cbn [mbind res_bind].
    rewrite add_region_spec by (rewrite length_app; lia). cbn [mbind res_bind].
    rewrite add_region_spec by (rewrite !length_app; lia). cbn [mbind res_bind].
    rewrite add_region_spec by (rewrite !length_app; lia).
    by rewrite <- !app_assoc.
  - unfold add_region. cbn [Info.start Info.end_]. destruct (Z.eqb_spec s (dend d)); [lia|].
    rewrite decide_True by (rewrite length_app; cbn [length] in Hcap; lia).
    by rewrite <- app_assoc.
Qed.

(** *** The entries of one descriptor tile its range *)
Fixpoint tiles (s e : Z) (rs : list Info.MemoryRegion) : Prop :=
  match rs with
  | [] => s = e
  | r :: rs => Info.start r = s ∧ s < Info.end_ r ∧ tiles (Info.end_ r) e rs
  end.

Lemma tiles_app s m e rs1 rs2 : tiles s m rs1 → tiles m e rs2 → tiles s e (rs1 ++ rs2).
Proof.
  revert s. induction rs1 as [|r rs1 IH]; cbn; [by intros ? ->|]. naive_solver.
Qed.

Lemma tiles_nonempty s e k : s ≤ e → tiles s e (nonempty (Info.mkRegion s e k)).
Proof.
  intros. unfold nonempty. cbn. destruct (Z.eqb_spec s e); cbn; [done|lia].
Qed.

Lemma tiles_bounds s e rs r : tiles s e rs → r ∈ rs →
  s ≤ Info.start r ∧ Info.start r < Info.end_ r ∧ Info.end_ r ≤ e.
Proof.
  revert s. induction rs as [|r' rs IH]; intros s; [by intros _ ?%elem_of_nil|].
  intros (<- & ? & Ht) [->|Hr]%elem_of_cons.
  - enough (Info.end_ r' ≤ e) by lia. clear IH. revert Ht. generalize (Info.end_ r').
    induction rs as [|r1 rs IH]; cbn; [lia|]. intros z (<- & ? & ?%IH). lia.
  - specialize (IH _ Ht Hr). lia.
Qed.

Lemma tiles_cover s e rs a : tiles s e rs → s ≤ a < e → ∃ r, r ∈ rs ∧ Info.in_region a r.
Proof.
  revert s. induction rs as [|r rs IH]; cbn; [lia|]. intros s (<- & ? & Ht) ?.
  destruct (decide (a < Info.end_ r)).
  - exists r. unfold Info.in_region. split; [set_solver|lia].
  - destruct (IH _ Ht) as (r' & ? & ?); [lia|]. exists r'. split; [set_solver|done].
Qed.

Lemma tiles_sorted s e rs : tiles s e rs →
  StronglySorted (λ r1 r2, Info.end_ r1 ≤ Info.start r2) rs.
Proof.
  revert s. induction rs as [|r rs IH]; intros s; [constructor|]. intros (<- & ? & Ht).
  constructor; [eauto|]. apply Forall_forall. intros r' Hr'.
  by destruct (tiles_bounds _ _ _ _ Ht Hr').
Qed.

Lemma desc_regions_tiles d : wf_desc d → kernel_fits d → ks ≤ ke →
  tiles (dstart d) (dend d) (desc_regions d).
Proof.
  intros Hwf Hfit Hk. unfold desc_regions, kernel_fits in *.
  destruct (desc_split d) as [[used s] k] eqn:Hd.
  destruct (desc_split_bounds _ _ _ _ Hwf Hd) as [Hb Hused].
  apply tiles_app with s.
  { destruct Hused as [[-> ->]|(-> & -> & _ & ?)]; cbn; [done|lia]. }
  destruct (overlaps_kernel s (dend d) k).
  - destruct (Hfit eq_refl). apply tiles_app with ks; [by apply tiles_nonempty|].
    apply tiles_app with ke; by apply tiles_nonempty.
  - cbn. lia.
Qed.

(** *** What the entries are labelled *)
Lemma nonempty_elem r r' : r ∈ nonempty r' → r = r'.
Proof. unfold nonempty. destruct (_ =? _); set_solver. Qed.

Lemma desc_regions_usable d r : wf_desc d → ks ≤ ke →
  r ∈ desc_regions d → Info.kind r = Info.Usable →
  (Info.end_ r ≤ ks ∨ ke ≤ Info.start r) ∧
  (usable d ∧ nf ≤ Info.start r ∨ ¬ usable d ∧ usable_after_bootloader_exit d = true).
Proof.
  intros Hwf Hk Hr Hu. unfold desc_regions in Hr.
  destruct (desc_split d) as [[used s] k] eqn:Hd.
  destruct (desc_split_bounds _ _ _ _ Hwf Hd) as [Hb Hused].
  assert (k = Info.Usable → usable d ∧ nf ≤ s ∨
            ¬ usable d ∧ usable_after_bootloader_exit d = true) as Hcase.
  { unfold desc_split, usable in *. intros ->.
    destruct (kind d), (usable_after_bootloader_exit d); try (right; done); try congruence.
    all: destruct (Z.leb_spec (dend d) nf); [congruence|].
    all: destruct (Z.leb_spec nf (dstart d)); injection Hd as <- <-; left; split; done || lia. }
  apply elem_of_app in Hr as [Hr|Hr].
  { destruct Hused as [[-> _]|(-> & _)]; [by apply elem_of_nil in Hr|].
    apply list_elem_of_singleton in Hr as ->. discriminate. }
  destruct (overlaps_kernel s (dend d) k) eqn:Hov.
  - unfold overlaps_kernel in Hov.
    rewrite !elem_of_app in Hr. destruct Hr as [Hr|[Hr|Hr]]; apply nonempty_elem in Hr as ->;
      cbn in *; [|discriminate|]; (split; [lia|]);
      (destruct (Hcase Hu) as [[? ?]|?]; [left; split; [done|lia] | by right]).
  - apply list_elem_of_singleton in Hr as ->. cbn in *. split; [|by apply Hcase].
    unfold overlaps_kernel in Hov. subst. rewrite bool_decide_eq_true_2 in Hov by done. lia.
Qed.

Lemma desc_regions_reserved d r : ¬ usable d → usable_after_bootloader_exit d = false →
  r ∈ desc_regions d → Info.kind r = kind d.
Proof.
  unfold usable, desc_regions. intros Hu Ha.
  assert (desc_split d = ([], dstart d, kind d)) as ->.
  { unfold desc_split. rewrite Ha. by destruct (kind d). }
  unfold overlaps_kernel. rewrite bool_decide_eq_false_2 by done. cbn.
  by intros ->%list_elem_of_singleton.
Qed.

(** The entries that are not usable are the bootloader's or keep the kind of the
    descriptor. *)
Lemma desc_regions_other d r :
  r ∈ desc_regions d → Info.kind r ≠ Info.Usable →
  Info.kind r = Info.Bootloader ∨ Info.kind r = kind d.
Proof.
  intros Hr Hu. unfold desc_regions in Hr.
  destruct (desc_split d) as [[used s] k] eqn:Hd.
  assert (Forall (λ r, Info.kind r = Info.Bootloader) used ∧
          (k = Info.Usable ∨ k = Info.Bootloader ∨ k = kind d)) as [Hused Hk].
  { unfold desc_split in Hd. destruct (kind d), (usable_after_bootloader_exit d);
      repeat case_match; injection Hd as <- <- <-; auto. }
  apply elem_of_app in Hr as [Hr|Hr]; [left; by eapply Forall_forall in Hused|].
  destruct (overlaps_kernel s (dend d) k); rewrite ?elem_of_app in Hr;
    [destruct Hr as [Hr|[Hr|Hr]]; apply nonempty_elem in Hr as ->
    |apply list_elem_of_singleton in Hr as ->]; cbn in *; naive_solver.
Qed.

(** *** Counting the entries *)
Definition inside (d : D) : Prop := dstart d < nf < dend d.
Definition holds_kernel (d : D) : Prop := dstart d < ke ∧ ks < dend d.

Lemma length_desc_regions d : wf_desc d →
  (length (desc_regions d) ≤
   1 + (if decide (inside d) then 1 else 0) + (if decide (holds_kernel d) then 2 else 0))%nat.
Proof.
  intros Hwf. unfold desc_regions. destruct (desc_split d) as [[used s] k] eqn:Hd.
  destruct (desc_split_bounds _ _ _ _ Hwf Hd) as [Hb Hused]. rewrite length_app.
  assert (length used ≤ if decide (inside d) then 1 else 0)%nat.
  { destruct Hused as [[-> _]|(-> & _ & _ & ?)]; cbn; [lia|].
    rewrite decide_True by done. lia. }
  destruct (overlaps_kernel s (dend d) k) eqn:Hov; cbn [length]; [|lia].
  unfold overlaps_kernel in Hov. rewrite (decide_True (P := holds_kernel d)) by
    (unfold holds_kernel; lia).
  rewrite !length_app.
  assert (∀ r, length (nonempty r) ≤ 1)%nat as Hne.
  { intros r. unfold nonempty. destruct (_ =? _); cbn; lia. }
  pose proof (Hne (Info.mkRegion s ks k)).
  pose proof (Hne (Info.mkRegion ks ke Info.Bootloader)).
  pose proof (Hne (Info.mkRegion ke (dend d) k)). lia.
Qed.

End Construct.

Lemma sorted_map_elem ds x y : sorted_map ds → x ∈ ds → y ∈ ds →
  x = y ∨ dend x ≤ dstart y ∨ dend y ≤ dstart x.
Proof.
  induction 1 as [|d ds Hs IH Hd]; [by intros ?%elem_of_nil|].
  rewrite !elem_of_cons. rewrite Forall_forall in Hd.
  intros [->|Hx] [->|Hy]; auto.
Qed.

Lemma sorted_map_pair l1 x l2 y l3 : sorted_map (l1 ++ x :: l2 ++ y :: l3) → dend x ≤ dstart y.
Proof.
  intros Hs. rewrite cons_middle, (assoc_L (++)) in Hs.
  apply (StronglySorted_app_1_elem_of _ _ _ _ _ Hs); set_solver.
Qed.

(** The kernel image lies in one region of the map, and a usable region that
    holds it has handed out all of its frames up to the image or none above its
    start. *)
Definition kernel_placed (ds : list D) (nf ks ke : Z) : Prop :=
  0 ≤ ks ≤ ke ∧ ∃ d, d ∈ ds ∧ dstart d ≤ ks ∧ ke ≤ dend d ∧ (usable d → ke ≤ nf ∨ nf ≤ ks).

Lemma kernel_placed_fits ds nf ks ke d :
  Forall wf_desc ds → sorted_map ds → kernel_placed ds nf ks ke → d ∈ ds →
  kernel_fits nf ks ke d.
Proof.
  intros Hwf Hs (Hk & d0 & Hd0 & Hlo & Hhi & Hu) Hd.
  rewrite Forall_forall in Hwf. pose proof (Hwf d Hd) as Hwd.
  unfold kernel_fits. destruct (desc_split nf d) as [[used s] k] eqn:Hsp.
  destruct (desc_split_bounds _ _ _ _ _ Hwd Hsp) as [Hb Hused].
  unfold overlaps_kernel. intros Hov.
  destruct (sorted_map_elem ds d d0 Hs Hd Hd0) as [->|[?|?]]; [|lia..].
  destruct Hused as [[_ ->]|(_ & -> & Hud & ?)]; [lia|].
  destruct (Hu Hud); lia.
Qed.

Lemma kernel_placed_bound ds nf ks ke : Forall wf_desc ds → kernel_placed ds nf ks ke →
  ks ≤ ke < 2 ^ 64.
Proof.
  intros Hwf (? & d & Hd & ? & ? & _). rewrite Forall_forall in Hwf.
  destruct (Hwf d Hd) as (_ & _ & _ & _ & ?). lia.
Qed.

(** All entries: at most three more than descriptors. *)
Lemma length_flat_map_regions ds nf ks ke :
  Forall wf_desc ds → sorted_map ds → kernel_placed ds nf ks ke →
  (length (flat_map (desc_regions nf ks ke) ds) ≤ length ds + 3)%nat.
Proof.
  intros Hwf Hs Hk.
  assert (length (flat_map (desc_regions nf ks ke) ds) ≤ length ds +
    sum_list_with (λ d, if decide (inside nf d) then 1 else 0) ds +
    sum_list_with (λ d, if decide (holds_kernel ks ke d) then 2 else 0) ds)%nat as Hle.
  { clear Hs Hk. induction Hwf as [|d ds Hd Hwf IH]; cbn; [lia|]. rewrite length_app.
    pose proof (length_desc_regions nf ks ke d Hd). lia. }
  enough (sum_list_with (λ d, if decide (inside nf d) then 1 else 0) ds ≤ 1 ∧
          sum_list_with (λ d, if decide (holds_kernel ks ke d) then 2 else 0) ds ≤ 2)%nat by lia.
  split; apply sum_list_with_at_most_one; intros l1 x l2 y l3 -> Hx Hy;
    pose proof (sorted_map_pair _ _ _ _ _ Hs) as Hxy.
  - unfold inside in *. lia.
  - destruct Hk as (_ & d0 & Hd0 & ? & ? & _). unfold holds_kernel in *.
    rewrite Forall_forall in Hwf.
    destruct (Hwf y) as (_ & _ & _ & ? & _); [set_solver|]. unfold dend in *.
    destruct (sorted_map_elem _ y d0 Hs) as [->|[?|?]]; [set_solver|done|..];
      unfold dend in *; lia.
Qed.

(** [construct_memory_map] concatenates the entries of the descriptors. *)
Lemma construct_memory_map_eq (self : allocator) cap ks ke :
  Forall wf_desc (original self) → sorted_map (original self) →
  kernel_placed (original self) (next_frame self) ks ke →
  (length (original self) + 3 ≤ cap)%nat →
  construct_memory_map self cap ks (ke - ks) =
    Ret (flat_map (desc_regions (next_frame self) ks ke) (original self)).
Proof.
  intros Hwf Hs Hk Hcap.
  pose proof (length_flat_map_regions _ _ _ _ Hwf Hs Hk) as Hlen.
  enough (returns (construct_memory_map self cap ks (ke - ks))
    (λ rs, rs = flat_map (desc_regions (next_frame self) ks ke) (original self))) as Hret.
  { apply returns_alt in Hret as (? & -> & ->). done. }
  unfold construct_memory_map.
  apply (foldM_returns _ (λ l rs, rs = flat_map (desc_regions (next_frame self) ks ke) l));
    [done|].
  intros l1 d l2 rs Hl ->. rewrite flat_map_app. cbn [flat_map]. rewrite app_nil_r.
  assert (d ∈ original self) as Hd by (rewrite Hl; set_solver).
  assert (wf_desc d) as Hwd by (by eapply Forall_forall in Hd).
  eapply returns_eq; [|done]. apply construct_step_spec; auto.
  - by eapply kernel_placed_fits.
  - by eapply kernel_placed_bound.
  - rewrite Hl, flat_map_app, length_app in Hlen. cbn [flat_map] in Hlen.
    rewrite length_app in Hlen. rewrite Hl in Hcap. lia.
Qed.

Lemma flat_map_sorted ds nf ks ke :
  Forall wf_desc ds → sorted_map ds → (∀ d, d ∈ ds → kernel_fits nf ks ke d) → ks ≤ ke →
  StronglySorted (λ r1 r2, Info.end_ r1 ≤ Info.start r2)
    (flat_map (desc_regions nf ks ke) ds).
Proof.
  intros Hwf Hs Hf Hk. induction Hs as [|d ds Hs IH Hd]; cbn; [constructor|].
  inversion_clear Hwf as [|? ? Hwd Hwds].
  pose proof (desc_regions_tiles nf ks ke d Hwd (Hf d ltac:(set_solver)) Hk) as Ht.
  apply StronglySorted_app_2; [| by eapply tiles_sorted | apply IH; set_solver].
  intros r1 r2 Hr1 Hr2. apply list_elem_of_In, in_flat_map in Hr2 as (d2 & Hd2 & Hr2).
  apply list_elem_of_In in Hd2, Hr2. rewrite Forall_forall in Hd, Hwds.
  pose proof (desc_regions_tiles nf ks ke d2 (Hwds _ Hd2) (Hf d2 ltac:(set_solver)) Hk) as Ht2.
  pose proof (tiles_bounds _ _ _ _ Ht Hr1). pose proof (tiles_bounds _ _ _ _ Ht2 Hr2).
  specialize (Hd d2 Hd2). lia.
Qed.

End Spec.

(** ** The two implementations of the trait *)

(** bios/common/src/lib.rs and bios/stage-4/src/memory_descriptor.rs *)
Record E820MemoryRegion := mkE820 {
  start_addr : Z;
  e820_len : Z;
  region_type : Z;
  acpi_extended_attributes : Z;
}.

Definition bios_kind (d : E820MemoryRegion) : Info.MemoryRegionKind :=
  if region_type d =? 1 then Info.Usable else Info.UnknownBios (region_type d).

#[global] Instance bios_memory_region `{X : X86} : LegacyMemoryRegion E820MemoryRegion := {|
  start d := phys_new (start_addr d);
  len d := Ret (e820_len d);
  kind := bios_kind;
  usable_after_bootloader_exit d := bool_decide (bios_kind d = Info.Usable);
|}.

(** uefi/src/memory_descriptor.rs. [MemoryType] is the [uefi] crate's: the
    types the code names, and the rest. Its numeric tag ([.0]) is a parameter. *)
Inductive MemoryType :=
  | LOADER_CODE
  | LOADER_DATA
  | BOOT_SERVICES_CODE
  | BOOT_SERVICES_DATA
  | RUNTIME_SERVICES_CODE
  | RUNTIME_SERVICES_DATA
  | CONVENTIONAL
  | OtherType (n : Z).

Class UefiTypes := memory_type_tag : MemoryType → Z.

Record MemoryDescriptor := mkMemoryDescriptor {
  ty : MemoryType;
  phys_start : Z;
  page_count : Z;
}.

Definition uefi_kind `{U : UefiTypes} (d : MemoryDescriptor) : Info.MemoryRegionKind :=
  match ty d with
  | CONVENTIONAL => Info.Usable
  | other => Info.UnknownUefi (memory_type_tag other)
  end.

Definition uefi_usable_after_bootloader_exit (d : MemoryDescriptor) : bool :=
  match ty d with
  | CONVENTIONAL => true
  | LOADER_CODE | LOADER_DATA | BOOT_SERVICES_CODE | BOOT_SERVICES_DATA => true
  | RUNTIME_SERVICES_CODE | RUNTIME_SERVICES_DATA => false
  | OtherType _ => false
  end.

#[global] Instance uefi_memory_region `{X : X86} `{U : UefiTypes} :
    LegacyMemoryRegion MemoryDescriptor := {|
  start d := phys_new (phys_start d);
  len d := page_count d *[64] 4096;
  kind := uefi_kind;
  usable_after_bootloader_exit := uefi_usable_after_bootloader_exit;
|}.

(** ** Properties of the allocator *)
(** ** [impl FrameAllocator<Size4KiB> for LegacyFrameAllocator]

    The allocator over a sorted map meets the contract of [Paging.FrameSource]: the
    frames it can still hand out are the usable ones at or above its next frame. *)
#[global] Instance legacy_frame_source `{X : X86} {D} `{LegacyMemoryRegion D} :
  Paging.FrameSource (LegacyFrameAllocator D) := allocate_frame.

#[global] Instance legacy_frame_source_laws `{HX : X86Laws} {D} `{LegacyMemoryRegion D} :
  Paging.FrameSourceLaws (LegacyFrameAllocator D).
Proof.
  refine {|
    Paging.source_inv self := alloc_inv self ∧ sorted_map (original self);
    Paging.fresh self x := usable_frame (original self) x ∧ next_frame self ≤ x |}.
  - intros self x [Hi _] [(d & Hd & _ & Ha & Hf) Hx]. pose proof (ai_phys _ Hi) as Hp.
    unfold phys_ok in Hp. split; [done|].
    pose proof (ai_wf _ Hi) as Hwf. rewrite Forall_forall in Hwf.
    pose proof (last_frame_phys d (Hwf d Hd)). lia.
  - intros self x [Hi Hs] [Hx Hnx]. eapply returns_mono; [by apply allocate_frame_spec|].
    intros [[f|] self'] (Hi' & Ho & Hpost); cbn [frame_post] in Hpost.
    + destruct Hpost as (d & ? & ? & Hf & ? & Hn & Hleast).
      exists f. rewrite Ho, Hn. split_and!; try done; [by exists d|].
      intros y. split.
      * intros [Hy ?]. split_and!; [done|lia|lia].
      * intros [[Hy Hny] Hne]. split; [done|]. specialize (Hleast Hs y Hy Hny).
        apply aligned_succ; [apply Hf|by eapply usable_frame_aligned|lia].
    + destruct Hpost as [He _]. destruct Hx as (d & Hd & Hu & _ & ?).
      specialize (He d Hd Hu). lia.
Defined.

Section Properties.
Context `{HX : X86Laws} {D : Type} `{LegacyMemoryRegion D}.

(** An allocator over the sorted map hands out the usable frames from its start on. *)
Lemma sorted_source key f (ds : list D) : (∀ d, d ∈ ds → key d = dstart d) → unordered_map ds →
  f mod 4096 = 0 → phys_ok f →
  let self := new_starting_at f (sort_by_key key ds) in
  Paging.source_inv self ∧ original self ≡ₚ ds ∧ ∀ y, Paging.fresh self y ↔ usable_frame ds y ∧ f ≤ y.
Proof.
  intros Hk Hu Hf Hp. cbn. pose proof (sort_by_key_perm key ds) as Hperm. split_and!.
  - apply new_starting_at_inv; [rewrite Hperm; apply Hu|done|done].
  - by apply sort_by_key_sorted.
  - done.
  - intros y. by rewrite Hperm.
Qed.

(** The memory map that is built, and what of it is usable. *)
Lemma construct_map_partition (self : LegacyFrameAllocator D) cap ks ke :
  Forall wf_desc (original self) → sorted_map (original self) →
  kernel_placed (original self) (next_frame self) ks ke →
  (length (original self) + 3 ≤ cap)%nat →
  returns (construct_memory_map self cap ks (ke - ks)) (λ out,
    (length out ≤ length (original self) + 3)%nat ∧
    Forall (λ r, Info.start r < Info.end_ r) out ∧
    StronglySorted (λ r1 r2, Info.end_ r1 ≤ Info.start r2) out ∧
    ∀ a, (∃ r, r ∈ out ∧ Info.in_region a r) ↔
         (∃ d, d ∈ original self ∧ dstart d ≤ a < dend d)).
Proof.
  intros Hwf Hs Hk Hcap. rewrite construct_memory_map_eq by done. cbn [returns].
  pose proof (kernel_placed_bound _ _ _ _ Hwf Hk) as Hb.
  assert (∀ d, d ∈ original self →
    tiles (dstart d) (dend d) (desc_regions (next_frame self) ks ke d)) as Ht.
  { intros d Hd. apply desc_regions_tiles; [by eapply Forall_forall in Hd| |lia].
    by eapply kernel_placed_fits. }
  split_and!.
  - by apply length_flat_map_regions.
  - apply Forall_forall. intros r Hr.
    apply list_elem_of_In, in_flat_map in Hr as (d & Hd & Hr). apply list_elem_of_In in Hd, Hr.
    by destruct (tiles_bounds _ _ _ _ (Ht d Hd) Hr) as (_ & ? & _).
  - apply flat_map_sorted; [done..| |lia]. intros d Hd. by eapply kernel_placed_fits.
  - intros a. setoid_rewrite list_elem_of_In. setoid_rewrite in_flat_map.
    setoid_rewrite <- list_elem_of_In. split.
    + intros (r & (d & Hd & Hr) & Ha). exists d. split; [done|].
      destruct (tiles_bounds _ _ _ _ (Ht d Hd) Hr). unfold Info.in_region in Ha. lia.
    + intros (d & Hd & Ha). destruct (tiles_cover _ _ _ a (Ht d Hd) Ha) as (r & ? & ?). eauto.
Qed.

Lemma construct_map_usable_safe (self : LegacyFrameAllocator D) cap ks ke :
  Forall wf_desc (original self) → sorted_map (original self) →
  Forall (λ d, dstart d mod 4096 = 0 ∧ dend d mod 4096 = 0) (original self) →
  kernel_placed (original self) (next_frame self) ks ke →
  (length (original self) + 3 ≤ cap)%nat →
  returns (construct_memory_map self cap ks (ke - ks)) (λ out,
    ∀ r, r ∈ out → ∃ d, d ∈ original self ∧
      dstart d ≤ Info.start r ∧ Info.end_ r ≤ dend d ∧
      (¬ usable d → usable_after_bootloader_exit d = false → Info.kind r = kind d) ∧
      if bool_decide (Info.kind r = Info.Usable) then
        (usable d ∨ usable_after_bootloader_exit d = true) ∧
        (∀ a, Info.in_region a r → ¬ (ks ≤ a < ke)) ∧
        (∀ f a, usable_frame (original self) f → f + 4096 ≤ next_frame self →
           Info.in_region a r → ¬ (f ≤ a < f + 4096))
      else Info.kind r = Info.Bootloader ∨ Info.kind r = kind d).
Proof.
  intros Hwf Hs Hal Hk Hcap. rewrite construct_memory_map_eq by done. cbn [returns].
  pose proof (kernel_placed_bound _ _ _ _ Hwf Hk) as Hb. rewrite !Forall_forall in *.
  intros r Hr. apply list_elem_of_In, in_flat_map in Hr as (d & Hd & Hr).
  apply list_elem_of_In in Hd, Hr. exists d.
  destruct (tiles_bounds (dstart d) (dend d) (desc_regions (next_frame self) ks ke d) r)
    as (? & ? & ?); [apply desc_regions_tiles|done|]; auto; [|lia|].
  { apply (kernel_placed_fits (original self)); auto. by apply Forall_forall. }
  split_and!; [done..|intros; by eapply desc_regions_reserved|]. case_bool_decide as Hu.
  - destruct (desc_regions_usable (next_frame self) ks ke d r) as [Hdis Hcase]; auto; [lia|].
    unfold Info.in_region. split_and!; [naive_solver|lia|].
    intros f a (d' & Hd' & Hu' & Hf & Hff) Hn Ha Hfa.
    destruct (sorted_map_elem _ d d' Hs Hd Hd') as [->|Hdd]; [destruct Hcase as [?|[? _]]; [lia|done]|].
    (* [f] is a whole frame of [d'], which is disjoint from [d] *)
    destruct (Hal d' Hd') as [Hs' He'], (Hwf d' Hd') as (_ & _ & ? & ? & _).
    unfold first_frame, last_frame in Hff. rewrite align_down_id in Hff by done.
    pose proof (align_down_le (dend d' - 1) 4096).
    pose proof (aligned_succ f (dend d') Hf He'). lia.
  - by eapply desc_regions_other.
Qed.

(** Allocation leaves the firmware's map alone and moves on. *)
Lemma allocate_steps (f f' : LegacyFrameAllocator D) :
  rtc (λ f f', ∃ o, allocate_frame f = Ret (o, f')) f f' → alloc_inv f →
  alloc_inv f' ∧ original f' = original f ∧ next_frame f ≤ next_frame f'.
Proof.
  induction 1 as [f|f f1 f2 [o Ho] _ IH]; intros Hi; [done|].
  pose proof (allocate_frame_spec f Hi) as Hs. rewrite Ho in Hs. destruct Hs as (Hi1 & Ho1 & Hp).
  destruct (IH Hi1) as (? & ? & ?). split_and!; [done|congruence|].
  destruct o as [fr|]; cbn in Hp.
  - destruct Hp as (_ & _ & _ & _ & ? & ? & _). lia.
  - destruct Hp as [_ ?]. lia.
Qed.

(** The next frame of such an allocator. *)
Lemma allocate_fresh (self : LegacyFrameAllocator D) g : Paging.source_inv self → Paging.fresh self g →
  returns (allocate_frame self) (λ '(o, self'), ∃ fr, o = Some fr ∧ Paging.fresh self fr ∧
    Paging.source_inv self' ∧ original self' = original self ∧ ∀ y, Paging.fresh self' y ↔ Paging.fresh self y ∧ y ≠ fr).
Proof.
  intros Hi Hg. pose proof (Paging.allocate_frame_some self g Hi Hg) as Ha.
  apply returns_alt in Ha as ([o self'] & Ha & fr & -> & Hfr & Hi' & Hf').
  change (allocate_frame self = Ret (Some fr, self')) in Ha. rewrite Ha. cbn [returns]. exists fr.
  destruct (allocate_steps self self' (rtc_once _ _ (ex_intro _ _ Ha)) (proj1 Hi)) as (_ & Ho & _).
  by split_and!.
Qed.

(** C16: on a memory map that is sorted and free of overlaps, [allocate_frame]
    implements the abstract allocator whose only state is the next free address
    [n]: it never panics and returns the smallest frame at or above [n] that
    touches a usable region, moving [n] just behind it; it returns [None]
    exactly when no usable frame is left at or above [n]. The representation
    invariant is preserved. *)
Theorem allocate_frame_least (self : LegacyFrameAllocator D) :
  alloc_inv self → sorted_map (original self) →
  returns (allocate_frame self) (λ '(o, self'),
    alloc_inv self' ∧ original self' = original self ∧
    match o with
    | Some f =>
        usable_frame (original self) f ∧ next_frame self ≤ f ∧
        (∀ g, usable_frame (original self) g → next_frame self ≤ g → f ≤ g) ∧
        next_frame self' = f + 4096
    | None =>
        (∀ g, usable_frame (original self) g → g < next_frame self) ∧
        next_frame self' = next_frame self
    end).
Proof.
  intros Hinv Hs. eapply returns_mono; [by apply allocate_frame_spec|].
  intros [[f|] self'] (? & ? & Hpost); cbn [frame_post] in Hpost; (split; [done|split; [done|]]).
  - destruct Hpost as (d & ? & ? & ? & ? & ? & ?). split_and!; auto. by exists d.
  - destruct Hpost as [He Hn]. split; [|done]. intros g (d & Hd & Hu & _ & ?).
    specialize (He d Hd Hu). lia.
Qed.

(** C34: a run of [n] allocations, on any well-formed map (sorted or not), never
    panics and hands out pairwise different frames in increasing order, all at
    or above the start address of the allocator and inside the usable regions,
    and all below the frame that is tried next. On a sorted map no usable frame
    is skipped: each one at or above the start is either handed out or still to
    come, and if the run was cut short then every usable frame was handed out. *)
Theorem allocate_frames_enumerate n (self : LegacyFrameAllocator D) :
  alloc_inv self →
  returns (allocate_frames n self) (λ '(fs, self'),
    alloc_inv self' ∧ StronglySorted Z.lt fs ∧
    Forall (λ f, usable_frame (original self) f ∧ next_frame self ≤ f ∧
                 f + 4096 ≤ next_frame self') fs ∧
    (sorted_map (original self) →
     ∀ g, usable_frame (original self) g → next_frame self ≤ g →
       g ∈ fs ∨ (next_frame self' ≤ g ∧ length fs = n))).
Proof.
  intros Hinv. eapply returns_mono; [by apply allocate_frames_spec|].
  intros [fs self'] (? & ? & ? & ? & ? & ?). done.
Qed.

(** C25: for a sorted, overlap-free map and a kernel image inside one region,
    [construct_memory_map] succeeds whenever the slice has three more entries
    than the firmware map (the boot code provides four more): no assertion
    fails and no entry is missing. The entries are nonempty, sorted and
    disjoint, they cover exactly the bytes of the firmware's regions, and there
    are at most three more of them. *)
Theorem construct_memory_map_partition (self : LegacyFrameAllocator D) cap ks ke :
  Forall wf_desc (original self) → sorted_map (original self) →
  kernel_placed (original self) (next_frame self) ks ke →
  (length (original self) + 3 ≤ cap)%nat →
  returns (construct_memory_map self cap ks (ke - ks)) (λ out,
    (length out ≤ length (original self) + 3)%nat ∧
    Forall (λ r, Info.start r < Info.end_ r) out ∧
    StronglySorted (λ r1 r2, Info.end_ r1 ≤ Info.start r2) out ∧
    ∀ a, (∃ r, r ∈ out ∧ Info.in_region a r) ↔
         (∃ d, d ∈ original self ∧ dstart d ≤ a < dend d)).
Proof. apply construct_map_partition. Qed.

(** C9: what the kernel may use freely is really free. In the map built by
    [construct_memory_map], for regions that are page aligned, no entry marked
    [Usable] intersects the kernel image or any frame the allocator has handed
    out, and each such entry lies in a region that the firmware reports as
    usable or that becomes usable when the bootloader exits; reserved regions
    keep their kind. *)
Theorem construct_memory_map_usable_safe (self : LegacyFrameAllocator D) cap ks ke :
  Forall wf_desc (original self) → sorted_map (original self) →
  Forall (λ d, dstart d mod 4096 = 0 ∧ dend d mod 4096 = 0) (original self) →
  kernel_placed (original self) (next_frame self) ks ke →
  (length (original self) + 3 ≤ cap)%nat →
  returns (construct_memory_map self cap ks (ke - ks)) (λ out,
    ∀ r, r ∈ out → ∃ d, d ∈ original self ∧
      dstart d ≤ Info.start r ∧ Info.end_ r ≤ dend d ∧
      (¬ usable d → usable_after_bootloader_exit d = false → Info.kind r = kind d) ∧
      if bool_decide (Info.kind r = Info.Usable) then
        (usable d ∨ usable_after_bootloader_exit d = true) ∧
        (∀ a, Info.in_region a r → ¬ (ks ≤ a < ke)) ∧
        (∀ f a, usable_frame (original self) f → f + 4096 ≤ next_frame self →
           Info.in_region a r → ¬ (f ≤ a < f + 4096))
      else Info.kind r = Info.Bootloader ∨ Info.kind r = kind d).
Proof. apply construct_map_usable_safe. Qed.

End Properties.

(** ** Witnesses: a PC memory map as the BIOS reports it *)
Definition pc_map : list E820MemoryRegion :=
  [ mkE820 0 0x9f000 1 0; mkE820 0xf0000 0x10000 2 0; mkE820 0x100000 0x7ee0000 1 0;
    mkE820 0x7fe0000 0x20000 2 0; mkE820 0xfffc0000 0x40000 2 0 ].
Definition pc_allocator : LegacyFrameAllocator E820MemoryRegion :=
  new_starting_at 0x1200000 pc_map.

Lemma pc_map_wf : Forall wf_desc pc_map.
Proof. repeat (apply Forall_cons; split; [vm_compute; intuition congruence|]). done. Qed.
Lemma pc_map_sorted : sorted_map pc_map.
Proof. repeat constructor; by vm_compute. Qed.
Lemma pc_allocator_inv : alloc_inv pc_allocator.
Proof. apply new_starting_at_inv; [apply pc_map_wf | done | by vm_compute]. Qed.
Lemma pc_kernel_placed :
  kernel_placed (original pc_allocator) (next_frame pc_allocator) 0x1000000 0x1180000.
Proof.
  split; [lia|]. exists (mkE820 0x100000 0x7ee0000 1 0).
  split_and!; [|by vm_compute..|left; by vm_compute].
  cbn [original pc_allocator new_starting_at]. unfold pc_map. rewrite !elem_of_cons. auto.
Qed.

Lemma allocate_frame_least_witness :
  ∃ o self', allocate_frame pc_allocator = Ret (o, self') ∧ alloc_inv self'.
Proof.
  pose proof (allocate_frame_least pc_allocator pc_allocator_inv pc_map_sorted) as H.
  apply returns_alt in H as ([o self'] & E & Hinv & _). by exists o, self'.
Defined.

Lemma allocate_frames_enumerate_witness :
  ∃ fs self', allocate_frames 3 pc_allocator = Ret (fs, self') ∧ StronglySorted Z.lt fs.
Proof.
  pose proof (allocate_frames_enumerate 3 pc_allocator pc_allocator_inv) as H.
  apply returns_alt in H as ([fs self'] & E & _ & Hs & _). by exists fs, self'.
Defined.

Lemma construct_memory_map_partition_witness :
  ∃ out, construct_memory_map pc_allocator 9 0x1000000 0x180000 = Ret out ∧
    (length out ≤ 8)%nat.
Proof.
  pose proof (construct_memory_map_partition pc_allocator 9 0x1000000 0x1180000
    pc_map_wf pc_map_sorted pc_kernel_placed ltac:(cbn; lia)) as H.
  apply returns_alt in H as (out & E & Hl & _). by exists out.
Defined.

Lemma construct_memory_map_usable_safe_witness :
  ∃ out, construct_memory_map pc_allocator 9 0x1000000 0x180000 = Ret out.
Proof.
  pose proof (construct_memory_map_usable_safe pc_allocator 9 0x1000000 0x1180000
    pc_map_wf pc_map_sorted ltac:(repeat constructor)
    pc_kernel_placed ltac:(cbn; lia)) as H.
  apply returns_alt in H as (out & E & _). by exists out.
Defined.

Example pc_map_constructed :
  construct_memory_map pc_allocator 9 0x1000000 0x180000 = Ret
    [ Info.mkRegion 0 0x9f000 Info.Bootloader;
      Info.mkRegion 0xf0000 0x100000 (Info.UnknownBios 2);
      Info.mkRegion 0x100000 0x1200000 Info.Bootloader;
      Info.mkRegion 0x1200000 0x7fe0000 Info.Usable;
      Info.mkRegion 0x7fe0000 0x8000000 (Info.UnknownBios 2);
      Info.mkRegion 0xfffc0000 0x100000000 (Info.UnknownBios 2) ].
Proof. by vm_compute. Qed.

(** ** Where the code departs from its comments *)

(** [construct_memory_map]'s comment asks for one entry more than regions; that is
    not enough when the kernel image splits a region (as it does when UEFI has
    placed it in the middle of loader data). *)
Theorem construct_memory_map_len_plus_one_panics :
  let tags (_ : MemoryType) := 0 in
  let map := [mkMemoryDescriptor LOADER_DATA 0x100000 16] in
  ∃ e, construct_memory_map (H := uefi_memory_region (U := tags))
         (new_starting_at 0x1000 map) (length map + 1) 0x104000 0x2000 = Panic e.
Proof. by eexists; vm_compute. Qed.

(** a region that does not end on a page boundary: the last frame handed out
    reaches into the reserved region behind it. *)
Theorem allocate_frame_overlaps_reserved :
  let map := [mkE820 0x1000 0x9ec00 1 0; mkE820 0x9fc00 0x400 2 0] in
  ∃ self', allocate_frame (new_starting_at 0x9f000 map) = Ret (Some 0x9f000, self') ∧
    0x9f000 ≤ 0x9fc00 < 0x9f000 + 4096.
Proof. eexists. split; [by vm_compute | lia]. Qed.

(** C37: the memory of every UEFI loader-data region that does not hold the kernel
    image is reported as usable. The ramdisk is loaded into such a region and
    [construct_memory_map] is not told about it. *)
Theorem uefi_loader_data_reported_usable `{HX : X86Laws} `{U : UefiTypes}
    (self : LegacyFrameAllocator MemoryDescriptor) cap ks ke d :
  Forall wf_desc (original self) → sorted_map (original self) →
  kernel_placed (original self) (next_frame self) ks ke →
  (length (original self) + 3 ≤ cap)%nat →
  d ∈ original self → ty d = LOADER_DATA → ke ≤ dstart d ∨ dend d ≤ ks →
  returns (construct_memory_map self cap ks (ke - ks)) (λ out,
    Info.mkRegion (dstart d) (dend d) Info.Usable ∈ out).
Proof.
  intros Hwf Hs Hk Hcap Hd Hty Hdis. rewrite construct_memory_map_eq by done. cbn [returns].
  apply list_elem_of_In, in_flat_map. exists d. split; [by apply list_elem_of_In|].
  apply list_elem_of_In. unfold desc_regions, desc_split. cbn [kind uefi_memory_region].
  unfold uefi_kind. rewrite Hty. cbn [usable_after_bootloader_exit uefi_memory_region].
  unfold uefi_usable_after_bootloader_exit. rewrite Hty.
  unfold overlaps_kernel. rewrite bool_decide_eq_true_2 by done.
  destruct (Z.ltb_spec ks (dend d)), (Z.ltb_spec (dstart d) ke); cbn; [lia|set_solver..].
Qed.

Definition uefi_map : list MemoryDescriptor :=
  [ mkMemoryDescriptor CONVENTIONAL 0x100000 0x700; mkMemoryDescriptor LOADER_DATA 0x800000 0x100;
    mkMemoryDescriptor LOADER_DATA 0x900000 0x80 ].

Lemma uefi_loader_data_reported_usable_witness :
  let tags (_ : MemoryType) := 0 in
  ∃ out, construct_memory_map (H := uefi_memory_region (U := tags))
           (new_starting_at 0x140000 uefi_map) 7 0x800000 0x100000 = Ret out ∧
    Info.mkRegion 0x900000 0x980000 Info.Usable ∈ out.
Proof.
  intros tags.
  pose proof (uefi_loader_data_reported_usable (U := tags) (new_starting_at 0x140000 uefi_map) 7
    0x800000 0x900000 (mkMemoryDescriptor LOADER_DATA 0x900000 0x80)) as H.
  apply returns_alt in H as (out & E & Hin); [by exists out|..].
  - repeat (apply Forall_cons; split; [vm_compute; intuition congruence|]). done.
  - repeat constructor; by vm_compute.
  - split; [lia|]. exists (mkMemoryDescriptor LOADER_DATA 0x800000 0x100).
    split_and!; [|by vm_compute..|by intros [=]].
    cbn [original new_starting_at]. unfold uefi_map. rewrite !elem_of_cons. auto.
  - cbn. lia.
  - cbn [original new_starting_at]. unfold uefi_map. rewrite !elem_of_cons. auto.
  - done.
  - left. by vm_compute.
Defined.

End FrameAllocator.
