(* ===== verification/Level4.v ===== *)
(** * Choosing free virtual memory: the level 4 page table entries
      (common/src/level_4_entries.rs)

    [UsedLevel4Entries] records which of the 512 level 4 entries (512 GiB each)
    are taken, and finds room for new mappings in the free ones, at random when
    ASLR is enabled. The random number generator ([rand], [rand_hc]) is a
    parameter, the class [Rng]. *)
From S2P Require Import Prelude X86 Config Info Elf.
Import X86.

Module Level4.

(** ** The interface to the [rand] crate *)
Class Rng (R : Type) := {
  (** [IteratorRandom::choose] *)
  choose : list nat → R → option nat * R;
  (** [Uniform::from(0..n).sample(rng)] *)
  sample_below : Z → R → res (Z * R);
}.

Class RngLaws (R : Type) (G : Rng R) : Prop := {
  (** "Choose one element at random from the iterator. Returns [None] if and only
      if the iterator is empty." *)
  choose_some l r : l ≠ [] → ∃ i r', choose l r = (Some i, r') ∧ i ∈ l;
  choose_none r : ∃ r', choose [] r = (None, r');
  (** a uniform sample lies in its range; an empty range panics *)
  sample_below_range n r : 0 < n → ∃ x r', sample_below n r = Ret (x, r') ∧ 0 ≤ x < n;
  sample_below_empty n r : n ≤ 0 → ∃ e, sample_below n r = Panic e;
}.

(** [RawFrameBufferInfo] of common/src/lib.rs *)
Record RawFrameBufferInfo := mkRawFrameBufferInfo {
  addr : Z;
  info : Info.FrameBufferInfo;
}.

Record UsedLevel4Entries (R : Type) := mkUsed {
  entry_state : list bool;
  rng : option R;
}.
Arguments mkUsed {_} _ _.
Arguments entry_state {_} _.
Arguments rng {_} _.

(** [x.is_power_of_two()] *)
Definition is_power_of_two (x : Z) : bool := (0 <? x) && (Z.land x (x - 1) =? 0).

Definition LEVEL_4_SIZE : Z := 4096 * 512 * 512 * 512.

Section Model.
Context `{X : X86} {R : Type} `{G : Rng R}.
Abbreviation used_entries := (UsedLevel4Entries R).

Definition set_entry (used : used_entries) (i : nat) : res used_entries :=
  if decide (i < length (entry_state used))%nat
  then Ret (mkUsed (<[i := true]> (entry_state used)) (rng used))
  else Panic "index out of bounds".

Definition mark_p4_index_as_used (used : used_entries) (p4_index : Z) : res used_entries :=
  set_entry used (Z.to_nat p4_index).

(** [for i in .. { used.mark_p4_index_as_used(PageTableIndex::new(i)) }] *)
Definition mark_indices (used : used_entries) (idxs : list Z) : res used_entries :=
  foldM (λ used i, i ← page_table_index i; mark_p4_index_as_used used i) used idxs.

(** [a..=b] and [a..b] *)
Definition range_inclusive (a b : Z) : list Z := seqZ a (b - a + 1).
Definition range (a b : Z) : list Z := seqZ a (b - a).

Definition mark_range_as_used (used : used_entries) (address size : Z) : res used_entries :=
  start ← virt_new address;
  end_ ← virt_add start size;
  end_inclusive ← virt_sub end_ 1;
  let start_page := page_containing start in
  let end_page_inclusive := page_containing end_inclusive in
  mark_indices used (range_inclusive (p4_index start_page) (p4_index end_page_inclusive)).

(** The statically configured mappings that [new] marks, one [if let] each. *)
Definition mark_physical_memory (config : Config.BootloaderConfig) (max_phys_addr : Z)
    (used : used_entries) : res used_entries :=
  match Config.physical_memory (Config.mappings config) with
  | Some (Config.FixedAddress physical_memory_offset) =>
      mark_range_as_used used physical_memory_offset max_phys_addr
  | _ => Ret used
  end.

Definition mark_recursive (config : Config.BootloaderConfig) (used : used_entries) :
    res used_entries :=
  match Config.page_table_recursive (Config.mappings config) with
  | Some (Config.FixedAddress recursive_address) =>
      a ← virt_new recursive_address;
      mark_p4_index_as_used used (p4_index a)
  | _ => Ret used
  end.

Definition mark_kernel_stack (config : Config.BootloaderConfig) (used : used_entries) :
    res used_entries :=
  match Config.kernel_stack (Config.mappings config) with
  | Config.FixedAddress kernel_stack_address =>
      mark_range_as_used used kernel_stack_address (Config.kernel_stack_size config)
  | Config.Dynamic => Ret used
  end.

Definition mark_boot_info (config : Config.BootloaderConfig) (regions_len : Z)
    (used : used_entries) : res used_entries :=
  match Config.boot_info (Config.mappings config) with
  | Config.FixedAddress boot_info_address =>
      regions ← regions_len +[64] 1;
      '(combined, _) ← Info.boot_info_and_regions regions;
      mark_range_as_used used boot_info_address (Info.size combined)
  | Config.Dynamic => Ret used
  end.

Definition mark_framebuffer (config : Config.BootloaderConfig)
    (framebuffer : option RawFrameBufferInfo) (used : used_entries) : res used_entries :=
  match Config.framebuffer (Config.mappings config) with
  | Config.FixedAddress framebuffer_address =>
      match framebuffer with
      | Some framebuffer =>
          mark_range_as_used used framebuffer_address (Info.byte_len (info framebuffer))
      | None => Ret used
      end
  | Config.Dynamic => Ret used
  end.

Definition mark_before_dynamic_range (config : Config.BootloaderConfig)
    (used : used_entries) : res used_entries :=
  match Config.dynamic_range_start (Config.mappings config) with
  | Some dynamic_range_start =>
      dynamic_range_start ← virt_new dynamic_range_start;
      let start_page := page_containing dynamic_range_start in
      match page_backward start_page 1 with
      | Some unusable_page => mark_indices used (range_inclusive 0 (p4_index unusable_page))
      | None => Ret used
      end
  | None => Ret used
  end.

Definition mark_after_dynamic_range (config : Config.BootloaderConfig)
    (used : used_entries) : res used_entries :=
  match Config.dynamic_range_end (Config.mappings config) with
  | Some dynamic_range_end =>
      dynamic_range_end ← virt_new dynamic_range_end;
      let end_page := page_containing dynamic_range_end in
      match page_forward end_page 1 with
      | Some unusable_page => mark_indices used (range (p4_index unusable_page) 512)
      | None => Ret used
      end
  | None => Ret used
  end.

(** [UsedLevel4Entries::new]; [build_rng] is the generator of entropy.rs, which is
    only used when ASLR is enabled. *)
Definition new (max_phys_addr regions_len : Z) (framebuffer : option RawFrameBufferInfo)
    (config : Config.BootloaderConfig) (build_rng : R) : res used_entries :=
  let used :=
    {| entry_state := replicate 512 false;
       rng := if Config.aslr (Config.mappings config) then Some build_rng else None |} in
  used ← set_entry used 0;
  used ← mark_physical_memory config max_phys_addr used;
  used ← mark_recursive config used;
  used ← mark_kernel_stack config used;
  used ← mark_boot_info config regions_len used;
  used ← mark_framebuffer config framebuffer used;
  used ← mark_before_dynamic_range config used;
  mark_after_dynamic_range config used.

Definition mark_segments (used : used_entries) (segments : list Elf.ProgramHeader)
    (virtual_address_offset : Elf.VirtualAddressOffset) : res used_entries :=
  foldM (λ used segment,
           a ← Elf.vao_add virtual_address_offset (Elf.virtual_addr segment);
           mark_range_as_used used a (Elf.mem_size segment))
    used (filter (λ s, 0 < Elf.mem_size s) segments).

(** The start indices of the windows of [num] free entries. *)
Definition free_entries (state : list bool) (num : nat) : list nat :=
  filter (λ i, Is_true (forallb negb (take num (drop i state))))
    (seq 0 (length state + 1 - num)).

Definition get_free_entries (used : used_entries) (num : Z) : res (Z * used_entries) :=
  assert_ (negb (num =? 0)) "window size must be non-zero";;
  let n := Z.to_nat num in
  let free := free_entries (entry_state used) n in
  let '(idx_opt, rng') :=
    match rng used with
    | Some r => let '(o, r) := choose free r in (o, Some r)
    | None => (head free, None)
    end in
  idx ← expect_some idx_opt "no usable level 4 entries found";
  used ← foldM (λ used i, set_entry used (idx + i)%nat)
           (mkUsed (entry_state used) rng') (seq 0 n);
  i ← expect_some (try_from_u 16 (Z.of_nat idx)) "called `Result::unwrap()` on an `Err` value";
  i ← page_table_index i;
  Ret (i, used).

Definition get_free_address (used : used_entries) (size alignment : Z) :
    res (Z * used_entries) :=
  assert_ (is_power_of_two alignment) "assertion failed: alignment.is_power_of_two()";;
  n ← size +[64] (LEVEL_4_SIZE - 1);
  let level_4_entries := n / LEVEL_4_SIZE in
  '(idx, used) ← get_free_entries used level_4_entries;
  let base := page_from_indices_1gib idx 0 in
  '(offset, used) ←
    match rng used with
    | Some r =>
        let max_offset := LEVEL_4_SIZE - size mod LEVEL_4_SIZE in
        '(x, r) ← sample_below (max_offset / alignment) r;
        offset ← x *[64] alignment;
        Ret (offset, mkUsed (entry_state used) (Some r))
    | None => Ret (0, used)
    end;
  a ← virt_add base offset;
  Ret (a, used).

End Model.

(** ** The state as a set of free entries *)
Section Proofs.
Context `{HX : X86Laws} {R : Type} `{HG : RngLaws R}.
Abbreviation used_entries := (UsedLevel4Entries R).

(** The invariant: the array has 512 entries. *)
Definition wf (u : used_entries) : Prop := length (entry_state u) = 512%nat.
Definition free (u : used_entries) (i : Z) : Prop :=
  0 ≤ i ∧ entry_state u !! Z.to_nat i = Some false.
#[global] Instance free_dec u i : Decision (free u i).
Proof. unfold free. apply _. Defined.

(** [u'] is [u] with exactly the entries of [S] marked. *)
Definition marked (u u' : used_entries) (S : Z → Prop) : Prop :=
  wf u' ∧ ∀ j, free u' j ↔ free u j ∧ ¬ S j.

Lemma free_bound u i : wf u → free u i → 0 ≤ i < 512.
Proof. intros Hu [? Hi%lookup_lt_Some]. unfold wf in Hu. lia. Qed.

Lemma marked_refl u : wf u → marked u u (λ _, False).
Proof. split; naive_solver. Qed.

Lemma marked_trans u1 u2 u3 S1 S2 :
  marked u1 u2 S1 → marked u2 u3 S2 → marked u1 u3 (λ j, S1 j ∨ S2 j).
Proof.
  intros [? H12] [? H23]. split; [done|]. intros j. rewrite H23, H12. naive_solver.
Qed.

Lemma marked_iff u u' S S' : (∀ j, 0 ≤ j < 512 → S j ↔ S' j) → wf u → marked u u' S → marked u u' S'.
Proof.
  intros HS Hu [? Hm]. split; [done|]. intros j. rewrite Hm.
  split; intros [Hf Hj]; (split; [done|]); by rewrite ?(HS j (free_bound u j Hu Hf)) in *.
Qed.

Lemma set_entry_spec u i : wf u → (i < 512)%nat →
  returns (set_entry u i) (λ u', rng u' = rng u ∧ marked u u' (λ j, j = Z.of_nat i)).
Proof.
  intros Hu Hi. unfold set_entry. unfold wf in Hu. rewrite decide_True by lia.
  cbn. split; [done|]. split; [unfold wf; cbn; by rewrite length_insert|].
  intros j. unfold free; cbn. destruct (decide (i = Z.to_nat j)) as [->|Hne].
  - rewrite list_lookup_insert_eq by lia. naive_solver lia.
  - rewrite list_lookup_insert_ne by done. naive_solver lia.
Qed.

Lemma mark_indices_spec u idxs : wf u → Forall (λ i, 0 ≤ i < 512) idxs →
  returns (mark_indices u idxs) (λ u', rng u' = rng u ∧ marked u u' (λ j, j ∈ idxs)).
Proof.
  intros Hu Hi. unfold mark_indices.
  apply (foldM_returns _ (λ l u', rng u' = rng u ∧ marked u u' (λ j, j ∈ l))).
  - split; [done|]. eapply marked_iff; [|done|by apply marked_refl].
    intros. by rewrite elem_of_nil.
  - intros l1 x l2 a -> [Hr Ha]. apply Forall_app in Hi as [_ [Hx _]%Forall_cons].
    rewrite page_table_index_ok by done. cbn. unfold mark_p4_index_as_used.
    eapply returns_mono; [apply set_entry_spec; [apply Ha|lia]|].
    intros u' [Hr' Ha']. split; [congruence|].
    eapply marked_iff; [|done|by eapply marked_trans]. cbn. intros j _.
    rewrite elem_of_app, list_elem_of_singleton, Z2Nat.id by lia. done.
Qed.

(** ** Marking a range of addresses *)

(** A non-empty range of [n] bytes in one half of the canonical address space whose
    end is an address as well. *)
Definition span_ok (a n : Z) : Prop :=
  0 < n ∧ (0 ≤ a ∧ a + n < 2 ^ 47 ∨ 2 ^ 64 - 2 ^ 47 ≤ a ∧ a + n < 2 ^ 64).
#[global] Instance span_ok_dec a n : Decision (span_ok a n).
Proof. unfold span_ok. apply _. Defined.

(** The level 4 entry [j] covers an address of the range. *)
Definition covers (a n j : Z) : Prop := ∃ x, a ≤ x < a + n ∧ p4_index x = j.

Lemma p4_index_page a : canonical a → p4_index (page_containing a) = p4_index a.
Proof.
  intros Ha. rewrite page_containing_spec by done.
  pose proof (align_down_le a 4096). pose proof (align_down_gt a 4096).
  assert (align_down a 4096 = 4096 * (a / 4096)) as E.
  { unfold align_down. rewrite Z.mod_eq by lia. lia. }
  rewrite !p4_index_bits by (try done; unfold canonical in *; lia).
  f_equal. rewrite E. change (2 ^ 39) with (4096 * 2 ^ 27).
  rewrite <- !Z.div_div by lia. by rewrite (Z.mul_comm 4096), Z.div_mul by lia.
Qed.

Lemma span_canonical a n x : span_ok a n → a ≤ x ≤ a + n → canonical x.
Proof. unfold span_ok, canonical. lia. Qed.

Lemma span_rank a n x : span_ok a n → a ≤ x ≤ a + n → virt_rank x = virt_rank a + (x - a).
Proof.
  intros [? [?|?]] ?.
  - rewrite !virt_rank_low by lia. lia.
  - rewrite !virt_rank_high by lia. lia.
Qed.

Lemma covers_iff a n j : span_ok a n →
  covers a n j ↔ p4_index a ≤ j ≤ p4_index (a + n - 1).
Proof.
  intros Hs. assert (0 < n) as Hn by apply Hs.
  pose proof (span_rank a n (a + n - 1) Hs ltac:(lia)) as He.
  rewrite !p4_index_rank by (eapply span_canonical; [done|lia]). rewrite He. split.
  - intros (x & Hx & <-). rewrite p4_index_rank by (eapply span_canonical; [done|lia]).
    rewrite (span_rank a n x) by (done || lia). split; apply Z.div_le_mono; lia.
  - intros [H1 H2].
    exists (a + Z.max 0 (j * 2 ^ 39 - virt_rank a)).
    assert (j * 2 ^ 39 ≤ virt_rank a + (n - 1)) as Hj.
    { transitivity ((virt_rank a + (a + n - 1 - a)) / 2 ^ 39 * 2 ^ 39); [lia|].
      rewrite Z.mul_comm. etransitivity; [apply Z.mul_div_le; lia|lia]. }
    assert (a ≤ a + Z.max 0 (j * 2 ^ 39 - virt_rank a) < a + n) as Hx by lia.
    split; [done|]. rewrite p4_index_rank by (eapply span_canonical; [done|lia]).
    rewrite (span_rank a n (a + Z.max 0 (j * 2 ^ 39 - virt_rank a))) by (done || lia).
    assert (virt_rank a < (j + 1) * 2 ^ 39) as Hlt.
    { destruct (Z.lt_ge_cases (virt_rank a) ((j + 1) * 2 ^ 39)) as [|Hge]; [done|].
      pose proof (Z.div_le_lower_bound (virt_rank a) (2 ^ 39) (j + 1)). lia. }
    symmetry. apply Z.div_unique_pos with
      (r := virt_rank a + Z.max 0 (j * 2 ^ 39 - virt_rank a) - 2 ^ 39 * j); lia.
Qed.

Lemma mark_range_as_used_spec u a n : wf u → span_ok a n →
  returns (mark_range_as_used u a n) (λ u', rng u' = rng u ∧ marked u u' (covers a n)).
Proof.
  intros Hu Hs. unfold mark_range_as_used. assert (0 < n) as Hn by apply Hs.
  assert (canonical a) by (eapply span_canonical; [done|lia]).
  assert (canonical (a + n)) by (eapply span_canonical; [done|lia]).
  assert (canonical (a + n - 1)) by (eapply span_canonical; [done|lia]).
  assert (a + n < 2 ^ 64 ∧ 1 ≤ a + n) by (unfold span_ok in Hs; lia).
  rewrite virt_new_canonical by done. cbn [mbind res_bind].
  rewrite virt_add_new, virt_new_canonical by (done || lia). cbn [mbind res_bind].
  rewrite virt_sub_new, virt_new_canonical by (done || lia). cbn [mbind res_bind].
  rewrite !p4_index_page by done.
  pose proof (p4_index_bound a ltac:(done)). pose proof (p4_index_bound (a + n - 1) ltac:(done)).
  eapply returns_mono; [apply mark_indices_spec; [done|]|].
  - apply Forall_forall. intros i Hi%elem_of_seqZ. lia.
  - cbn. intros u' [Hr Hm]. split; [done|]. eapply marked_iff; [|done|done]. cbn. intros j _.
    rewrite covers_iff by done. unfold range_inclusive. rewrite elem_of_seqZ. lia.
Qed.

(** ** Finding free entries *)

(** The [n] entries from [i] on are free. *)
Definition window_free (u : used_entries) (i n : Z) : Prop :=
  ∀ j, i ≤ j < i + n → free u j.

Lemma free_entries_spec u i num : wf u → (0 < num)%nat →
  i ∈ free_entries (entry_state u) num ↔ window_free u (Z.of_nat i) (Z.of_nat num).
Proof.
  intros Hu Hn. unfold wf in Hu. unfold free_entries, window_free, free.
  rewrite list_elem_of_filter, elem_of_seq, Is_true_true, forallb_forall, Hu. split.
  - intros [Hall Hi] j Hj. split; [lia|].
    destruct (lookup_lt_is_Some_2 (entry_state u) (Z.to_nat j)) as [b Hb]; [lia|].
    rewrite Hb. f_equal. enough (negb b = true) by (by destruct b). apply Hall.
    apply list_elem_of_In, list_elem_of_lookup. exists (Z.to_nat j - i)%nat.
    rewrite lookup_take_lt, lookup_drop by lia. by replace (i + _)%nat with (Z.to_nat j) by lia.
  - intros Hw. split.
    + intros b [k Hk]%list_elem_of_In%list_elem_of_lookup.
      apply lookup_take_Some in Hk as [Hk ?]. rewrite lookup_drop in Hk.
      destruct (Hw (Z.of_nat (i + k))) as [_ Hf]; [lia|]. rewrite Nat2Z.id in Hf.
      rewrite Hf in Hk. by simplify_eq.
    + destruct (Hw (Z.of_nat i + Z.of_nat num - 1)) as [_ Hf%lookup_lt_Some]; lia.
Qed.

Lemma filter_seq_head (P : nat → Prop) `{!∀ x, Decision (P x)} s m i k :
  head (filter P (seq s m)) = Some i → k ∈ filter P (seq s m) → (i ≤ k)%nat.
Proof.
  revert s. induction m as [|m IH]; intros s; cbn [seq]; [done|].
  rewrite filter_cons. case_decide; [|by apply IH].
  intros [= ->] [->|[_ ?%elem_of_seq]%list_elem_of_filter]%elem_of_cons; lia.
Qed.

(** [free_entries] lists the windows in increasing order. *)
Lemma free_entries_head u i num : wf u → (0 < num)%nat →
  head (free_entries (entry_state u) num) = Some i →
  ∀ k, window_free u (Z.of_nat k) (Z.of_nat num) → (i ≤ k)%nat.
Proof.
  intros Hu Hn Hh k Hk%free_entries_spec; [|done..].
  by eapply filter_seq_head.
Qed.

Lemma mark_window_spec u i n : wf u → (i + n ≤ 512)%nat →
  returns (foldM (λ u k, set_entry u (i + k)%nat) u (seq 0 n))
    (λ u', rng u' = rng u ∧ marked u u' (λ j, Z.of_nat i ≤ j < Z.of_nat i + Z.of_nat n)).
Proof.
  intros Hu Hn.
  eapply returns_mono; [apply (foldM_returns _ (λ l u', rng u' = rng u ∧
    marked u u' (λ j, ∃ k, k ∈ l ∧ j = Z.of_nat (i + k))))|].
  - split; [done|]. eapply marked_iff; [|done|by apply marked_refl].
    intros. setoid_rewrite elem_of_nil. naive_solver.
  - intros l1 x l2 a Hl [Hr Ha].
    assert (x ∈ seq 0 n) as Hx%elem_of_seq by (rewrite Hl; set_solver).
    eapply returns_mono; [apply set_entry_spec; [apply Ha|lia]|].
    intros u' [Hr' Ha']. split; [congruence|].
    eapply marked_iff; [|done|by eapply marked_trans]. cbn. intros j _. set_solver.
  - cbn. intros u' [Hr Hm]. split; [done|]. eapply marked_iff; [|done|done]. cbn. intros j _.
    split; [intros (k & ?%elem_of_seq & ->); lia|].
    intros. exists (Z.to_nat j - i)%nat. rewrite elem_of_seq. lia.
Qed.

(** What [get_free_entries] promises: the window was free, exactly it is marked, and
    without ASLR it is the first one. *)
Definition entries_post (u : used_entries) (num : Z) '((i, u') : Z * used_entries) : Prop :=
  window_free u i num ∧ marked u u' (λ j, i ≤ j < i + num) ∧
  (is_Some (rng u) ↔ is_Some (rng u')) ∧
  (rng u = None → ∀ k, 0 ≤ k → window_free u k num → i ≤ k).

Lemma get_free_entries_spec u num :
  wf u → 0 < num → (∃ k, 0 ≤ k ∧ window_free u k num) →
  returns (get_free_entries u num) (entries_post u num).
Proof.
  intros Hu Hn (k & Hk0 & Hk). unfold get_free_entries.
  destruct (Z.eqb_spec num 0) as [|_]; [lia|]. cbn [negb assert_ mbind res_bind].
  assert (Z.to_nat k ∈ free_entries (entry_state u) (Z.to_nat num)) as Hin.
  { apply free_entries_spec; [done|lia|]. by rewrite !Z2Nat.id by lia. }
  set (fl := free_entries (entry_state u) (Z.to_nat num)) in *.
  set (p := match rng u with Some r => _ | None => _ end).
  assert (∃ idx o, p = (Some idx, o) ∧ idx ∈ fl ∧ (is_Some (rng u) ↔ is_Some o) ∧
            (rng u = None → head fl = Some idx)) as (idx & o & -> & Hidx & Hs & Hh).
  { subst p. destruct (rng u) as [r|].
    - destruct (choose_some fl r) as (i & r' & -> & ?); [by intros ->; apply elem_of_nil in Hin|].
      eexists _, _. naive_solver.
    - destruct fl as [|x l]; [by apply elem_of_nil in Hin|]. exists x, None.
      split_and!; [done|by left|done|done]. }
  cbn [expect_some mbind res_bind].
  pose proof Hidx as Hw. apply free_entries_spec in Hw; [|done|lia]. rewrite Z2Nat.id in Hw by lia.
  assert (idx + Z.to_nat num ≤ 512)%nat as Hb.
  { destruct (Hw (Z.of_nat idx + num - 1)) as [_ Hf%lookup_lt_Some]; [lia|]. unfold wf in Hu. lia. }
  eapply returns_bind; [by apply mark_window_spec|]. cbn. intros u' [Hr Hm].
  rewrite try_from_u_ok by (unfold is_uint; lia). cbn [expect_some mbind res_bind].
  rewrite page_table_index_ok by lia. cbn. split_and!; try done.
  - by rewrite Z2Nat.id in Hm by lia.
  - by rewrite Hr.
  - intros Hr0 j Hj Hwj. enough (idx ≤ Z.to_nat j)%nat by lia.
    eapply (free_entries_head u idx (Z.to_nat num)); [done|lia|by apply Hh|].
    by rewrite !Z2Nat.id by lia.
Qed.

Lemma get_free_entries_none u num :
  wf u → 0 < num → (∀ k, 0 ≤ k → ¬ window_free u k num) →
  ∃ e, get_free_entries u num = Panic e.
Proof.
  intros Hu Hn Hno. unfold get_free_entries.
  destruct (Z.eqb_spec num 0) as [|_]; [lia|]. cbn [negb assert_ mbind res_bind].
  assert (free_entries (entry_state u) (Z.to_nat num) = []) as ->.
  { apply elem_of_nil_inv. intros i Hi%free_entries_spec; [|done|lia].
    rewrite Z2Nat.id in Hi by lia. eapply Hno; [|done]. lia. }
  destruct (rng u) as [r|]; cbn; [|eauto].
  destruct (choose_none r) as [r' ->]. cbn. eauto.
Qed.

(** ** Finding a free address *)
Lemma is_power_of_two_spec x : is_power_of_two x = true → ∃ k, 0 ≤ k ∧ x = 2 ^ k.
Proof.
  unfold is_power_of_two. intros [Hx%Z.ltb_lt Hl%Z.eqb_eq]%andb_prop.
  exists (Z.log2 x). split; [apply Z.log2_nonneg|].
  destruct (Z.log2_spec x Hx) as [Hlo Hhi].
  destruct (Z.eq_dec x (2 ^ Z.log2 x)) as [|Hne]; [done|exfalso].
  assert (Z.log2 (x - 1) = Z.log2 x) as Hl2.
  { apply Z.log2_unique; [apply Z.log2_nonneg|]. lia. }
  assert (Z.testbit (Z.land x (x - 1)) (Z.log2 x) = true) as Ht.
  { rewrite Z.land_spec, Z.bit_log2 by done. rewrite <- Hl2. apply Z.bit_log2.
    pose proof (Z.pow_pos_nonneg 2 (Z.log2 x)). pose proof (Z.log2_nonneg x). lia. }
  rewrite Hl, Z.bits_0 in Ht. done.
Qed.

Lemma is_power_of_two_divide x n : 0 ≤ n →
  is_power_of_two x = true → x ≤ 2 ^ n → 0 < x ∧ (x | 2 ^ n).
Proof.
  intros Hn (k & Hk & ->)%is_power_of_two_spec Hle.
  apply Z.pow_le_mono_r_iff in Hle; [|lia|lia]. split; [lia|].
  exists (2 ^ (n - k)). rewrite <- Z.pow_add_r by lia. f_equal. lia.
Qed.

(** The number of level 4 entries for [size] bytes, rounded up. *)
Definition entries_for (size : Z) : Z := (size + (LEVEL_4_SIZE - 1)) / LEVEL_4_SIZE.

Lemma entries_for_bound size : 0 < size →
  0 < entries_for size ∧ size ≤ entries_for size * LEVEL_4_SIZE ∧
  (size mod LEVEL_4_SIZE ≠ 0 →
   entries_for size * LEVEL_4_SIZE = size - size mod LEVEL_4_SIZE + LEVEL_4_SIZE).
Proof.
  intros Hs. unfold entries_for. change LEVEL_4_SIZE with (2 ^ 39).
  pose proof (Z.div_mod (size + (2 ^ 39 - 1)) (2 ^ 39)).
  pose proof (Z.mod_pos_bound (size + (2 ^ 39 - 1)) (2 ^ 39)).
  pose proof (Z.div_mod size (2 ^ 39)). pose proof (Z.mod_pos_bound size (2 ^ 39)). nia.
Qed.

(** A request the function can serve: the alignment is a power of two of at most 512
    GiB and, with ASLR, the last entry leaves room for the random offset. *)
Definition request_ok (u : used_entries) (size alignment : Z) : Prop :=
  0 < size < 2 ^ 63 ∧ is_power_of_two alignment = true ∧ alignment ≤ LEVEL_4_SIZE ∧
  (is_Some (rng u) →
   size mod LEVEL_4_SIZE ≠ 0 ∧ alignment ≤ LEVEL_4_SIZE - size mod LEVEL_4_SIZE).

(** What [get_free_address] promises: the address is aligned, the range of [size]
    bytes from it (in the order of the canonical addresses) lies in entries that were
    free, and exactly these entries are marked. *)
Definition address_post (u : used_entries) (size alignment : Z)
    '((a, u') : Z * used_entries) : Prop :=
  canonical a ∧ a mod alignment = 0 ∧
  ∃ i n, n = entries_for size ∧ window_free u i n ∧ marked u u' (λ j, i ≤ j < i + n) ∧
    (is_Some (rng u) ↔ is_Some (rng u')) ∧
    i * LEVEL_4_SIZE ≤ virt_rank a ∧ virt_rank a + size ≤ (i + n) * LEVEL_4_SIZE ∧
    (size mod LEVEL_4_SIZE ≠ 0 → virt_rank a + size < (i + n) * LEVEL_4_SIZE).

Lemma base_offset i off alignment : 0 ≤ i < 512 → 0 ≤ off < 2 ^ 39 → (alignment | off) →
  0 < alignment → (alignment | 2 ^ 39) →
  ∃ a, virt_add (page_from_indices_1gib i 0) off = Ret a ∧ canonical a ∧
    a mod alignment = 0 ∧ virt_rank a = i * 2 ^ 39 + off.
Proof.
  intros Hi Ho [q Hq] Ha [p Hp].
  rewrite page_from_indices_1gib_spec by lia. rewrite Z.mul_0_l, Z.add_0_r.
  assert (sign_extend (i * 2 ^ 39) + off = sign_extend (i * 2 ^ 39 + off)) as E.
  { unfold sign_extend.
    destruct (Z.ltb_spec (i * 2 ^ 39) (2 ^ 47)), (Z.ltb_spec (i * 2 ^ 39 + off) (2 ^ 47)); lia. }
  exists (sign_extend (i * 2 ^ 39 + off)).
  assert (canonical (sign_extend (i * 2 ^ 39 + off))) as Hc by (apply sign_extend_canonical; lia).
  rewrite virt_add_new, E, virt_new_canonical;
    [|done|apply sign_extend_canonical; lia|lia|rewrite E; unfold canonical in Hc; lia].
  split_and!; [done..| |rewrite virt_rank_sign_extend; lia].
  apply Z.mod_divide; [lia|]. unfold sign_extend.
  destruct (_ <? _).
  - exists (i * p + q). rewrite Hp, Hq. ring.
  - exists (i * p + q + p * (2 ^ 25 - 2 ^ 9)).
    change (2 ^ 64 - 2 ^ 48) with (2 ^ 39 * (2 ^ 25 - 2 ^ 9)). rewrite Hp, Hq. ring.
Qed.

Lemma get_free_address_spec u size alignment :
  wf u → request_ok u size alignment →
  (∃ k, 0 ≤ k ∧ window_free u k (entries_for size)) →
  returns (get_free_address u size alignment) (address_post u size alignment).
Proof.
  intros Hu (Hs & Hp & Hal & Hr) Hk. unfold get_free_address. rewrite Hp.
  cbn [assert_ mbind res_bind].
  rewrite add_u_ok by (unfold LEVEL_4_SIZE; lia). cbn [mbind res_bind].
  destruct (entries_for_bound size) as (Hn & Hsz & Hrem); [lia|].
  fold (entries_for size).
  eapply returns_bind; [by apply get_free_entries_spec|].
  intros [i u'] (Hw & Hm & Hrr & _).
  destruct (is_power_of_two_divide alignment 39) as [Hpos Hdiv]; [lia|done|done|].
  assert (0 ≤ i < 512) as Hi by (eapply (free_bound u), Hw; [done|lia]).
  change LEVEL_4_SIZE with (2 ^ 39) in *.
  destruct (rng u') as [r|] eqn:Er.
  - destruct Hr as [Hm0 Hroom]; [by apply Hrr|].
    pose proof (Z.mod_pos_bound size (2 ^ 39) ltac:(lia)).
    set (room := 2 ^ 39 - size mod 2 ^ 39) in *.
    assert (0 < room / alignment) by (apply Z.div_str_pos; lia).
    destruct (sample_below_range (room / alignment) r) as (x & r' & -> & Hx); [done|].
    cbn [mbind res_bind].
    assert (x * alignment ≤ room - alignment).
    { pose proof (Z.mul_div_le room alignment). nia. }
    rewrite mul_u_ok by lia. cbn [mbind res_bind].
    destruct (base_offset i (x * alignment) alignment) as (a & -> & Hc & Ha & Hrk);
      [done|nia|by exists x|done|done|].
    cbn. split_and!; [done..|]. exists i, (entries_for size). cbn.
    change LEVEL_4_SIZE with (2 ^ 39). split_and!; [done|done|done|by rewrite Hrr|rewrite Hrk; nia| |];
      rewrite Hrk, Z.mul_add_distr_r, (Hrem Hm0); lia.
  - cbn [mbind res_bind].
    destruct (base_offset i 0 alignment) as (a & -> & Hc & Ha & Hrk);
      [done|lia|by exists 0|done|done|].
    cbn. split_and!; [done..|]. exists i, (entries_for size). cbn.
    change LEVEL_4_SIZE with (2 ^ 39). rewrite Er in *. split_and!; [done|done|done|done|lia|lia|].
    intros Hm0. specialize (Hrem Hm0). pose proof (Z.mod_pos_bound size (2 ^ 39) ltac:(lia)). lia.
Qed.

(** Without ASLR the range starts with the first window of free entries. *)
Lemma get_free_address_first u size alignment : wf u → rng u = None → request_ok u size alignment →
  (∃ k, 0 ≤ k ∧ window_free u k (entries_for size)) →
  returns (get_free_address u size alignment) (λ '(a, _), ∃ i, window_free u i (entries_for size) ∧
    virt_rank a = i * LEVEL_4_SIZE ∧ ∀ k, 0 ≤ k → window_free u k (entries_for size) → i ≤ k).
Proof.
  intros Hu Hr (Hs & Hp & Hal & _) Hk. unfold get_free_address. rewrite Hp. cbn [assert_ mbind res_bind].
  rewrite add_u_ok by (unfold LEVEL_4_SIZE; lia). cbn [mbind res_bind].
  destruct (entries_for_bound size) as (Hn & _); [lia|]. fold (entries_for size).
  eapply returns_bind; [by apply get_free_entries_spec|]. intros [i u'] (Hw & _ & Hrr & Hleast).
  destruct (is_power_of_two_divide alignment 39) as [Hpos Hdiv]; [lia|done|done|].
  assert (0 ≤ i < 512) as Hi by (eapply (free_bound u), Hw; [done|lia]).
  destruct (rng u') as [r|]; [rewrite Hr in Hrr; destruct Hrr as [_ [? [=]]]; by eexists|]. cbn [mbind res_bind].
  destruct (base_offset i 0 alignment) as (a & -> & _ & _ & Hrk); [done|lia|by exists 0|done|done|].
  cbn. exists i. change LEVEL_4_SIZE with (2 ^ 39). split_and!; [done|lia|by apply Hleast].
Qed.

Lemma get_free_address_inv u size alignment a u' :
  wf u → request_ok u size alignment →
  get_free_address u size alignment = Ret (a, u') → address_post u size alignment (a, u').
Proof.
  intros Hu Hr Hret.
  assert (∃ k, 0 ≤ k ∧ window_free u k (entries_for size)) as Hk.
  { unfold get_free_address in Hret. inv_arith.
    destruct (entries_for_bound size) as (Hn & _); [apply Hr|]. fold (entries_for size) in *.
    match goal with H : get_free_entries _ _ = _ |- _ => rename H into Hg end.
    destruct (decide (Exists (λ k, Forall (λ j, free u j) (seqZ k (entries_for size))) (seqZ 0 512)))
      as [(k & Hk & Hall)%Exists_exists|Hno].
    - exists k. apply elem_of_seqZ in Hk. split; [lia|]. intros j Hj.
      rewrite Forall_forall in Hall. apply Hall, elem_of_seqZ. lia.
    - destruct (get_free_entries_none u (entries_for size)) as [e He]; [done|done| |congruence].
      intros k Hk Hw. apply Hno, Exists_exists. exists k. split.
      + apply elem_of_seqZ. pose proof (free_bound u k Hu (Hw k ltac:(lia))). lia.
      + apply Forall_forall. intros j Hj%elem_of_seqZ. apply Hw. lia. }
  pose proof (get_free_address_spec u size alignment Hu Hr Hk) as Hp.
  by rewrite Hret in Hp.
Qed.

(** Every entry that the range of [size] bytes from [a] meets satisfies [P]. *)
Definition range_in (P : Z → Prop) (a size : Z) : Prop :=
  ∀ r, virt_rank a ≤ r < virt_rank a + size → P (r / LEVEL_4_SIZE).

Lemma address_post_ranges u size alignment a u' :
  address_post u size alignment (a, u') →
  wf u' ∧ (∀ j, free u' j → free u j) ∧ (is_Some (rng u) ↔ is_Some (rng u')) ∧
  range_in (free u) a size ∧ range_in (λ j, ¬ free u' j) a size.
Proof.
  intros (_ & _ & i & n & _ & Hw & [Hwf Hm] & Hr & Hlo & Hhi & _).
  assert (∀ r, virt_rank a ≤ r < virt_rank a + size → i ≤ r / LEVEL_4_SIZE < i + n) as Hin.
  { change LEVEL_4_SIZE with (2 ^ 39) in *. intros r Hr'. split.
    - apply Z.div_le_lower_bound; lia.
    - apply Z.div_lt_upper_bound; lia. }
  split_and!; [done|by intros j [? _]%Hm|done| |].
  - intros r Hr'. by apply Hw, Hin.
  - intros r Hr' [_ Hj]%Hm. by apply Hj, Hin.
Qed.

(** A sequence of requests, as set_up_mappings makes them. *)
Fixpoint get_free_addresses (u : used_entries) (reqs : list (Z * Z)) :
    res (list Z * used_entries) :=
  match reqs with
  | [] => Ret ([], u)
  | (size, alignment) :: reqs =>
      '(a, u) ← get_free_address u size alignment;
      '(l, u) ← get_free_addresses u reqs;
      Ret (a :: l, u)
  end.

Definition disjoint_ranges (a s b t : Z) : Prop :=
  virt_rank a + s ≤ virt_rank b ∨ virt_rank b + t ≤ virt_rank a.

Lemma range_in_disjoint P a s b t : 0 < s → 0 < t →
  range_in P a s → range_in (λ j, ¬ P j) b t → disjoint_ranges a s b t.
Proof.
  intros Hs Ht Ha Hb. unfold disjoint_ranges.
  destruct (decide (virt_rank a + s ≤ virt_rank b)); [by left|].
  destruct (decide (virt_rank b + t ≤ virt_rank a)); [by right|]. exfalso.
  apply (Hb (Z.max (virt_rank a) (virt_rank b))); [lia|]. apply Ha. lia.
Qed.

Lemma get_free_addresses_spec u reqs l u' :
  wf u → Forall (λ '(s, al), request_ok u s al) reqs →
  get_free_addresses u reqs = Ret (l, u') →
  wf u' ∧ (∀ j, free u' j → free u j) ∧
  Forall2 (λ '(s, _) a, range_in (free u) a s ∧ range_in (λ j, ¬ free u' j) a s) reqs l ∧
  ∀ i j a b s t al bl, (i < j)%nat → l !! i = Some a → l !! j = Some b →
    reqs !! i = Some (s, al) → reqs !! j = Some (t, bl) → disjoint_ranges a s b t.
Proof.
  revert u l. induction reqs as [|[s al] reqs IH]; intros u l Hu Hok Hret; cbn in Hret.
  { inv_res. split_and!; [done|done|by constructor|]. intros. by destruct i. }
  apply Forall_cons in Hok as [Hreq Hok]. inv_res. rename u0 into u1. rename l0 into l'.
  match goal with H : get_free_address _ _ _ = _ |- _ =>
    apply get_free_address_inv, address_post_ranges in H as (Hu1 & Hsub & Hr & Hin & Hout);
      [|done|done] end.
  match goal with H : get_free_addresses _ _ = _ |- _ =>
    apply IH in H as (Hu' & Hsub' & Hall & Hdis); [|done|] end.
  2: { eapply Forall_impl; [done|]. intros [t bl]. unfold request_ok. by rewrite Hr. }
  split_and!; [done|by eauto| |].
  - constructor.
    + split; [done|]. intros r Hrr Hf%Hsub'. by eapply Hout.
    + eapply Forall2_impl; [done|]. intros [t ?] b [H1 H2]. split; [|done].
      intros r Hrr. by apply Hsub, H1.
  - intros [|i] [|j] a b s' t al' bl Hij Ha Hb Hs Ht; try lia; cbn in *.
    + simplify_eq. eapply Forall2_lookup_lr in Hall; [|done|done]. destruct Hall as [Hb1 _].
      assert (0 < t) by (rewrite Forall_forall in Hok;
        apply (Hok (t, bl)); eapply list_elem_of_lookup_2; done).
      assert (disjoint_ranges b t a s') as [|]; [|by right|by left].
      eapply (range_in_disjoint (free u1)); [done|apply Hreq|done|done].
    + eapply (Hdis i j); [lia|done..].
Qed.

(** ** The initial state *)

(** The fixed addresses of a configuration describe ranges of virtual memory. *)
Record config_ok (max_phys_addr regions_len : Z) (framebuffer : option RawFrameBufferInfo)
    (config : Config.BootloaderConfig) : Prop := {
  physical_memory_ok a :
    Config.physical_memory (Config.mappings config) = Some (Config.FixedAddress a) →
    span_ok a max_phys_addr;
  recursive_ok a :
    Config.page_table_recursive (Config.mappings config) = Some (Config.FixedAddress a) →
    canonical a;
  kernel_stack_ok a :
    Config.kernel_stack (Config.mappings config) = Config.FixedAddress a →
    span_ok a (Config.kernel_stack_size config);
  regions_len_ok : 0 ≤ regions_len < 2 ^ 31;
  boot_info_ok a :
    Config.boot_info (Config.mappings config) = Config.FixedAddress a →
    span_ok a (216 + (regions_len + 1) * 24);
  framebuffer_ok a fb :
    Config.framebuffer (Config.mappings config) = Config.FixedAddress a →
    framebuffer = Some fb → span_ok a (Info.byte_len (info fb));
  dynamic_start_ok a :
    Config.dynamic_range_start (Config.mappings config) = Some a → canonical a;
  dynamic_end_ok a :
    Config.dynamic_range_end (Config.mappings config) = Some a → canonical a;
}.

(** The entries that [new] marks: the first one, those of a fixed address for the physical memory,
    the recursive table, the kernel stack, the boot information or the framebuffer, those that
    begin before the page of [dynamic_range_start] and those that reach beyond the page of
    [dynamic_range_end]. A fixed address for the ramdisk is not among them: the code does not
    look at it. *)
Definition physical_memory_entry config max_phys_addr (j : Z) : Prop := ∃ a,
  Config.physical_memory (Config.mappings config) = Some (Config.FixedAddress a) ∧
  covers a max_phys_addr j.
Definition recursive_entry config (j : Z) : Prop := ∃ a,
  Config.page_table_recursive (Config.mappings config) = Some (Config.FixedAddress a) ∧
  j = p4_index a.
Definition kernel_stack_entry config (j : Z) : Prop := ∃ a,
  Config.kernel_stack (Config.mappings config) = Config.FixedAddress a ∧
  covers a (Config.kernel_stack_size config) j.
Definition boot_info_entry config regions_len (j : Z) : Prop := ∃ a,
  Config.boot_info (Config.mappings config) = Config.FixedAddress a ∧
  covers a (216 + (regions_len + 1) * 24) j.
Definition framebuffer_entry config framebuffer (j : Z) : Prop := ∃ a fb,
  Config.framebuffer (Config.mappings config) = Config.FixedAddress a ∧
  framebuffer = Some fb ∧ covers a (Info.byte_len (info fb)) j.
Definition before_dynamic_entry config (j : Z) : Prop := ∃ a,
  Config.dynamic_range_start (Config.mappings config) = Some a ∧
  j * 2 ^ 39 < align_down (virt_rank a) 4096.
Definition after_dynamic_entry config (j : Z) : Prop := ∃ a,
  Config.dynamic_range_end (Config.mappings config) = Some a ∧
  align_down (virt_rank a) 4096 + 4096 < (j + 1) * 2 ^ 39.
Definition reserved_entry max_phys_addr regions_len framebuffer config (j : Z) : Prop :=
  j = 0 ∨ physical_memory_entry config max_phys_addr j ∨ recursive_entry config j ∨
  kernel_stack_entry config j ∨ boot_info_entry config regions_len j ∨
  framebuffer_entry config framebuffer j ∨ before_dynamic_entry config j ∨
  after_dynamic_entry config j.

(** [m] marks the entries of [S] and keeps the generator. *)
Definition marks (u : used_entries) (m : res used_entries) (S : Z → Prop) : Prop :=
  returns m (λ u', rng u' = rng u ∧ marked u u' S).

Lemma marks_id u S : wf u → (∀ j, ¬ S j) → marks u (Ret u) S.
Proof.
  intros Hu HS. split; [done|]. eapply marked_iff; [|done|by apply marked_refl].
  cbn. naive_solver.
Qed.
Lemma marks_iff u m S S' : (∀ j, 0 ≤ j < 512 → S j ↔ S' j) → wf u → marks u m S → marks u m S'.
Proof.
  intros HS Hu Hm. eapply returns_mono; [done|]. cbn. intros u' [? ?].
  split; [done|]. by eapply marked_iff.
Qed.
Lemma marks_bind u m f S S' : marks u m S → (∀ u', wf u' → marks u' (f u') S') →
  marks u (m ≫= f) (λ j, S j ∨ S' j).
Proof.
  intros Hm Hf. eapply returns_bind; [exact Hm|]. intros u' [Hr Hm'].
  eapply returns_mono; [apply Hf, Hm'|]. intros u'' [? ?].
  split; [congruence|]. by eapply marked_trans.
Qed.

Lemma virt_rank_page a : canonical a →
  canonical (page_containing a) ∧ virt_rank (page_containing a) = align_down (virt_rank a) 4096.
Proof.
  intros Ha. rewrite page_containing_spec by done.
  pose proof (align_down_le a 4096). pose proof (align_down_gt a 4096).
  assert (canonical (align_down a 4096)) as Hc.
  { unfold canonical in *. destruct Ha.
    - left. pose proof (align_down_nonneg a 4096). lia.
    - right. split; [|lia]. apply aligned_le_align_down; [lia|done|lia]. }
  split; [done|]. unfold align_down at 1. unfold canonical in Ha.
  destruct Ha.
  - rewrite !virt_rank_low by (pose proof (align_down_nonneg a 4096); unfold align_down in *; lia). done.
  - rewrite !virt_rank_high by (unfold canonical, align_down in *; lia). unfold align_down.
    rewrite (Zminus_mod a (2 ^ 64 - 2 ^ 48)). change ((2 ^ 64 - 2 ^ 48) mod 4096) with 0.
    rewrite Z.sub_0_r, Z.mod_mod by lia. lia.
Qed.

Section New.
Context (max_phys_addr regions_len : Z) (framebuffer : option RawFrameBufferInfo)
  (config : Config.BootloaderConfig)
  (Hcfg : config_ok max_phys_addr regions_len framebuffer config).

Lemma mark_physical_memory_marks u : wf u →
  marks u (mark_physical_memory config max_phys_addr u)
    (physical_memory_entry config max_phys_addr).
Proof.
  intros Hu. unfold mark_physical_memory, physical_memory_entry.
  pose proof (physical_memory_ok _ _ _ _ Hcfg) as Hok. case_match eqn:E;
    [|apply marks_id; naive_solver]. case_match; simplify_eq; [apply marks_id; naive_solver|].
  eapply marks_iff; [|done|by apply mark_range_as_used_spec, Hok]. naive_solver.
Qed.

Lemma mark_recursive_marks u : wf u → marks u (mark_recursive config u) (recursive_entry config).
Proof.
  intros Hu. unfold mark_recursive, recursive_entry.
  pose proof (recursive_ok _ _ _ _ Hcfg) as Hok. case_match eqn:E;
    [|apply marks_id; naive_solver]. case_match; simplify_eq; [apply marks_id; naive_solver|].
  rewrite virt_new_canonical by by apply Hok. cbn [mbind res_bind].
  pose proof (p4_index_bound addr0 (Hok _ eq_refl)).
  eapply marks_iff; [|done|apply set_entry_spec; [done|lia]]. cbn. intros j _.
  rewrite Z2Nat.id by lia. naive_solver.
Qed.

Lemma mark_kernel_stack_marks u : wf u →
  marks u (mark_kernel_stack config u) (kernel_stack_entry config).
Proof.
  intros Hu. unfold mark_kernel_stack, kernel_stack_entry.
  pose proof (kernel_stack_ok _ _ _ _ Hcfg) as Hok.
  case_match eqn:E; [apply marks_id; naive_solver|].
  eapply marks_iff; [|done|by apply mark_range_as_used_spec, Hok]. naive_solver.
Qed.

Lemma mark_boot_info_marks u : wf u →
  marks u (mark_boot_info config regions_len u) (boot_info_entry config regions_len).
Proof.
  intros Hu. unfold mark_boot_info, boot_info_entry.
  pose proof (boot_info_ok _ _ _ _ Hcfg) as Hok.
  pose proof (regions_len_ok _ _ _ _ Hcfg) as Hlen.
  case_match eqn:E; [apply marks_id; naive_solver|].
  rewrite add_u_ok by lia. cbn [mbind res_bind].
  rewrite Info.boot_info_and_regions_ok by lia. cbn [mbind res_bind].
  eapply marks_iff; [|done|by apply mark_range_as_used_spec, Hok]. cbn [Info.size]. naive_solver.
Qed.

Lemma mark_framebuffer_marks u : wf u →
  marks u (mark_framebuffer config framebuffer u) (framebuffer_entry config framebuffer).
Proof.
  intros Hu. unfold mark_framebuffer, framebuffer_entry.
  pose proof (framebuffer_ok _ _ _ _ Hcfg) as Hok.
  case_match eqn:E; [apply marks_id; naive_solver|].
  destruct framebuffer as [fb|] eqn:Ef; [|apply marks_id; naive_solver].
  eapply marks_iff; [|done|by eapply mark_range_as_used_spec, Hok]. naive_solver.
Qed.

Lemma mark_before_dynamic_range_marks u : wf u →
  marks u (mark_before_dynamic_range config u) (before_dynamic_entry config).
Proof.
  intros Hu. unfold mark_before_dynamic_range, before_dynamic_entry.
  pose proof (dynamic_start_ok _ _ _ _ Hcfg) as Hok.
  destruct (Config.dynamic_range_start _) as [a|]; [|apply marks_id; naive_solver].
  rewrite virt_new_canonical by by apply Hok. cbn [mbind res_bind].
  destruct (virt_rank_page a) as [Hc Hr]; [by apply Hok|].
  pose proof (virt_rank_bound (page_containing a)) as Hb.
  pose proof (align_down_mod (virt_rank a) 4096 ltac:(lia)) as Hmod.
  rewrite page_backward_spec by (done || lia). rewrite Hr in *.
  set (p := align_down (virt_rank a) 4096) in *.
  destruct (Z.leb_spec (1 * 4096) p) as [Hle|Hlt].
  - rewrite p4_index_rank by (apply sign_extend_canonical; lia).
    rewrite virt_rank_sign_extend by lia.
    assert (0 ≤ (p - 1 * 4096) / 2 ^ 39 < 512) by (split; [apply Z.div_pos|apply Z.div_lt_upper_bound]; lia).
    eapply marks_iff; [|done|apply mark_indices_spec; [done|]].
    + cbn. intros j Hj. unfold range_inclusive. rewrite elem_of_seqZ.
      assert (j ≤ (p - 1 * 4096) / 2 ^ 39 ↔ j * 2 ^ 39 < p); [|naive_solver lia].
      apply Z.mod_divide in Hmod as [q Hq]; [|lia]. split; intros Hj'.
      * pose proof (Z.mul_div_le (p - 1 * 4096) (2 ^ 39)). lia.
      * apply Z.div_le_lower_bound; lia.
    + apply Forall_forall. intros j Hj%elem_of_seqZ. lia.
  - apply Z.mod_divide in Hmod as [q Hq]; [|lia].
    eapply marks_iff; [|done|apply (marks_id _ (λ _, False)); naive_solver].
    cbn. intros j Hj. split; [done|]. intros (? & [= <-] & ?). unfold p in *. lia.
Qed.

Lemma mark_after_dynamic_range_marks u : wf u →
  marks u (mark_after_dynamic_range config u) (after_dynamic_entry config).
Proof.
  intros Hu. unfold mark_after_dynamic_range, after_dynamic_entry.
  pose proof (dynamic_end_ok _ _ _ _ Hcfg) as Hok.
  destruct (Config.dynamic_range_end _) as [a|]; [|apply marks_id; naive_solver].
  rewrite virt_new_canonical by by apply Hok. cbn [mbind res_bind].
  destruct (virt_rank_page a) as [Hc Hr]; [by apply Hok|].
  pose proof (virt_rank_bound (page_containing a)) as Hb.
  rewrite page_forward_spec by (done || lia). rewrite Hr in *.
  set (p := align_down (virt_rank a) 4096) in *.
  destruct (Z.ltb_spec (p + 1 * 4096) (2 ^ 48)) as [Hlt|Hge].
  - rewrite p4_index_rank by (apply sign_extend_canonical; lia).
    rewrite virt_rank_sign_extend by lia.
    assert (0 ≤ (p + 1 * 4096) / 2 ^ 39 < 512) by (split; [apply Z.div_pos|apply Z.div_lt_upper_bound]; lia).
    eapply marks_iff; [|done|apply mark_indices_spec; [done|]].
    + cbn. intros j Hj. unfold range. rewrite elem_of_seqZ.
      assert ((p + 1 * 4096) / 2 ^ 39 ≤ j ↔ p + 4096 < (j + 1) * 2 ^ 39); [|naive_solver lia].
      split; intros Hj'.
      * pose proof (Z.div_mod (p + 1 * 4096) (2 ^ 39)).
        pose proof (Z.mod_pos_bound (p + 1 * 4096) (2 ^ 39)). lia.
      * enough ((p + 1 * 4096) / 2 ^ 39 < j + 1) by lia. apply Z.div_lt_upper_bound; lia.
    + apply Forall_forall. intros j Hj%elem_of_seqZ. lia.
  - eapply marks_iff; [|done|apply (marks_id _ (λ _, False)); naive_solver].
    cbn. intros j Hj. split; [done|]. intros (? & [= <-] & ?). unfold p in *. lia.
Qed.

Lemma new_spec (build_rng : R) :
  returns (new max_phys_addr regions_len framebuffer config build_rng) (λ u,
    wf u ∧ (is_Some (rng u) ↔ Config.aslr (Config.mappings config) = true) ∧
    ∀ j, free u j ↔
      0 ≤ j < 512 ∧ ¬ reserved_entry max_phys_addr regions_len framebuffer config j).
Proof.
  set (u0 := mkUsed (replicate 512 false)
               (if Config.aslr (Config.mappings config) then Some build_rng else None)).
  assert (wf u0) as Hu0 by done.
  assert (∀ j, free u0 j ↔ 0 ≤ j < 512) as Hfree.
  { intros j. unfold free, u0; cbn [entry_state]. rewrite lookup_replicate. lia. }
  assert (is_Some (rng u0) ↔ Config.aslr (Config.mappings config) = true) as Hrng.
  { unfold u0; cbn. destruct (Config.aslr _); done. }
  assert (marks u0 (new max_phys_addr regions_len framebuffer config build_rng)
            (reserved_entry max_phys_addr regions_len framebuffer config)) as Hn.
  { unfold new. fold u0. apply marks_bind; [by apply (set_entry_spec u0 0); [done|lia]|].
    do 6 (intros; apply marks_bind;
      [by auto using mark_physical_memory_marks, mark_recursive_marks, mark_kernel_stack_marks,
        mark_boot_info_marks, mark_framebuffer_marks, mark_before_dynamic_range_marks|]).
    intros. by apply mark_after_dynamic_range_marks. }
  eapply returns_mono; [exact Hn|].
  cbn. intros u [Hr [Hw Hm]]. split_and!; [done|by rewrite Hr|]. intros j.
  by rewrite Hm, Hfree.
Qed.


(** C38: A fixed address for the ramdisk is not reserved. For every configuration without ASLR in
    which the level 4 entry of the ramdisk's fixed address is the first one that no other setting
    takes, the first dynamic mapping, of any size that reaches beyond the offset of the address in
    its entry and of at most 512 GiB, is placed over the start of the ramdisk. *)
Theorem new_ignores_fixed_ramdisk (build_rng : R) a size alignment :
  Config.aslr (Config.mappings config) = false →
  Config.ramdisk_memory (Config.mappings config) = Config.FixedAddress a →
  ¬ reserved_entry max_phys_addr regions_len framebuffer config (virt_rank a / LEVEL_4_SIZE) →
  (∀ j, 0 ≤ j < virt_rank a / LEVEL_4_SIZE → reserved_entry max_phys_addr regions_len framebuffer config j) →
  is_power_of_two alignment = true → alignment ≤ LEVEL_4_SIZE → virt_rank a mod LEVEL_4_SIZE < size ≤ LEVEL_4_SIZE →
  returns (u ← new max_phys_addr regions_len framebuffer config build_rng; get_free_address u size alignment)
    (λ '(b, _), virt_rank b ≤ virt_rank a < virt_rank b + size).
Proof.
  intros Haslr _ Hfree Hlow Hp Hal Hs. change LEVEL_4_SIZE with (2 ^ 39) in *.
  pose proof (virt_rank_bound a) as Hr. pose proof (Z.div_mod (virt_rank a) (2 ^ 39) ltac:(lia)) as Hdiv.
  pose proof (Z.mod_pos_bound (virt_rank a) (2 ^ 39) ltac:(lia)) as Hmod. set (i := virt_rank a / 2 ^ 39) in *.
  assert (entries_for size = 1) as Hn by (unfold entries_for; change LEVEL_4_SIZE with (2 ^ 39); symmetry;
    apply Z.div_unique with (r := size - 1); lia).
  eapply returns_bind; [apply new_spec|]. intros u (Hu & Hrng & Hf). rewrite Haslr in Hrng.
  assert (rng u = None) as Hn0 by (destruct (rng u); [destruct Hrng as [Hx _]; discriminate Hx; by eexists|done]).
  assert (∀ k, window_free u k (entries_for size) ↔ free u k) as Hw.
  { intros k. unfold window_free. rewrite Hn. split; [intros H; apply H; lia|]. intros H j Hj. by replace j with k by lia. }
  assert (free u i) as Hi by (apply Hf; split; [lia|done]).
  eapply returns_mono.
  { apply get_free_address_first; [done|done| |exists i; split; [lia|by apply Hw]].
    split_and!; [lia|lia|done|done|]. rewrite Hn0. by intros [? [=]]. }
  intros [b u'] (k & Hk%Hw & Hb & Hleast). change LEVEL_4_SIZE with (2 ^ 39) in *.
  assert (k ≤ i) by (apply Hleast; [lia|by apply Hw]).
  assert (¬ k < i) by (intros Hlt; pose proof (free_bound u k Hu Hk); apply Hf in Hk as [_ Hk]; apply Hk, Hlow; lia). nia.
Qed.

End New.

(** C15: [get_free_address] on a well-formed request: when enough contiguous entries are free it
    returns a canonical, aligned address whose range of [size] bytes lies in entries that were
    free, marks exactly these entries, and otherwise it panics. *)
Theorem get_free_address_reserves u size alignment :
  wf u → request_ok u size alignment →
  ((∃ k, 0 ≤ k ∧ window_free u k (entries_for size)) →
   returns (get_free_address u size alignment) (address_post u size alignment)) ∧
  ((∀ k, 0 ≤ k → ¬ window_free u k (entries_for size)) →
   ∃ e, get_free_address u size alignment = Panic e).
Proof.
  intros Hu Hr. split; [by apply get_free_address_spec|]. intros Hno.
  destruct Hr as (? & Hp & _). destruct (entries_for_bound size) as [Hn _]; [lia|].
  unfold get_free_address. rewrite Hp. cbn [assert_ mbind res_bind].
  rewrite add_u_ok by (unfold LEVEL_4_SIZE; lia). cbn [mbind res_bind].
  destruct (get_free_entries_none u (entries_for size)) as [e He]; [done..|].
  unfold entries_for in He. rewrite He. by exists e.
Qed.

(** C33: The ranges of a sequence of successful requests are pairwise disjoint, lie in entries
    that were free before the first request, and are reserved after the last one, when every
    request is well-formed ([request_ok]): a positive size, a power of two of at most 512 GiB as
    alignment and, with ASLR, a size that is not a multiple of 512 GiB and leaves room for the
    alignment in its last entry. (For the sizes excluded here [get_free_address_aslr_overlap] shows
    that disjointness can fail.) *)
Theorem get_free_addresses_disjoint u reqs l u' :
  wf u → Forall (λ '(s, al), request_ok u s al) reqs →
  get_free_addresses u reqs = Ret (l, u') →
  wf u' ∧
  Forall2 (λ '(s, _) a, range_in (free u) a s ∧ range_in (λ j, ¬ free u' j) a s) reqs l ∧
  ∀ i j a b s t al bl, i ≠ j → l !! i = Some a → l !! j = Some b →
    reqs !! i = Some (s, al) → reqs !! j = Some (t, bl) → disjoint_ranges a s b t.
Proof.
  intros Hu Hok Hret.
  destruct (get_free_addresses_spec u reqs l u' Hu Hok Hret) as (? & _ & ? & Hdis).
  split_and!; [done..|]. intros i j a b s t al bl Hij Ha Hb Hs Ht.
  destruct (decide (i < j)%nat).
  - by eapply (Hdis i j).
  - destruct (Hdis j i b a t s bl al) as [|]; [lia|done..|by right|by left].
Qed.

End Proofs.

(** ** A concrete generator, and the theorems at concrete inputs *)
Definition rng_ref : Rng Z := {|
  choose l r := (l !! Z.to_nat (r mod Z.of_nat (length l)), r + 1);
  sample_below n r := if 0 <? n then Ret (r mod n, r + 1) else Panic "low >= high";
|}.
#[global] Instance rng_ref_laws : RngLaws Z rng_ref.
Proof.
  split; cbn.
  - intros l r Hl. assert (0 < Z.of_nat (length l)) by (destruct l; [done|cbn; lia]).
    pose proof (Z.mod_pos_bound r (Z.of_nat (length l))).
    destruct (lookup_lt_is_Some_2 l (Z.to_nat (r mod Z.of_nat (length l)))) as [i Hi]; [lia|].
    rewrite Hi. eexists _, _. split; [done|]. by eapply list_elem_of_lookup_2.
  - eauto.
  - intros n r Hn. destruct (Z.ltb_spec 0 n); [|lia]. eexists _, _. split; [done|].
    by apply Z.mod_pos_bound.
  - intros n r Hn. destruct (Z.ltb_spec 0 n); [lia|]. eauto.
Qed.
Existing Instance rng_ref.


(** All entries but the first one are free. *)
Definition sample_used (r : option Z) : UsedLevel4Entries Z :=
  mkUsed (true :: replicate 511 false) r.

Lemma sample_window r k n : 1 ≤ k → k + n ≤ 512 → window_free (sample_used r) k n.
Proof.
  intros Hk Hn j Hj. split; [lia|].
  replace (Z.to_nat j) with (S (Z.to_nat j - 1)) by lia.
  apply (lookup_replicate_2 511 false). lia.
Qed.

Lemma sample_request size alignment :
  0 < size < 2 ^ 63 → is_power_of_two alignment = true → alignment ≤ LEVEL_4_SIZE →
  request_ok (sample_used None) size alignment.
Proof. intros. split_and!; [lia|lia|done|done|]. by intros [? [=]]. Qed.

Lemma get_free_address_reserves_witness :
  request_ok (sample_used (Some 7)) 10000 4096 ∧
  returns (get_free_address (sample_used (Some 7)) 10000 4096)
    (address_post (sample_used (Some 7)) 10000 4096).
Proof.
  assert (request_ok (sample_used (Some 7)) 10000 4096) as Hr.
  { split_and!; [lia|lia|done|done|]. intros _. split; [done|by vm_compute]. }
  split; [exact Hr|].
  apply (get_free_address_reserves (sample_used (Some 7)) 10000 4096 eq_refl Hr).
  exists 1. split; [lia|]. by apply sample_window.
Defined.

Lemma get_free_addresses_disjoint_witness :
  ∃ l u', get_free_addresses (sample_used None) [(10000, 4096); (2 ^ 40, 8)] = Ret (l, u') ∧
    wf u' ∧ disjoint_ranges (2 ^ 39) 10000 (2 ^ 40) (2 ^ 40).
Proof.
  eexists _, _. split; [vm_compute; reflexivity|].
  edestruct (get_free_addresses_disjoint (sample_used None) [(10000, 4096); (2 ^ 40, 8)])
    as (Hw & _ & Hd); [done| |vm_compute; reflexivity|].
  - apply Forall_cons; split; [|apply Forall_singleton]; by apply sample_request.
  - split; [exact Hw|]. by apply (Hd 0%nat 1%nat (2 ^ 39) (2 ^ 40) 10000 (2 ^ 40) 4096 8).
Defined.

(** With ASLR a request whose size is a multiple of 512 GiB gets a random offset into its
    entries although no room is left for one: the range returned here ends in an entry that
    is still marked as free, so a later request can be given the same memory. *)
Theorem get_free_address_aslr_overlap :
  ∃ a u', get_free_address (sample_used (Some 7)) LEVEL_4_SIZE 4096 = Ret (a, u') ∧
    ¬ range_in (λ j, ¬ free u' j) a LEVEL_4_SIZE.
Proof.
  eexists _, _. split; [vm_compute; reflexivity|].
  intros Hin. apply (Hin (9 * 2 ^ 39)); [by vm_compute|]. by vm_compute.
Qed.

(** A configuration that places the ramdisk in entry 1. *)
Definition ramdisk_config : Config.BootloaderConfig :=
  {| Config.version := Config.version Config.sample_config;
     Config.mappings :=
       {| Config.kernel_stack := Config.Dynamic; Config.boot_info := Config.Dynamic;
          Config.framebuffer := Config.Dynamic; Config.physical_memory := None;
          Config.page_table_recursive := None; Config.aslr := false;
          Config.dynamic_range_start := None; Config.dynamic_range_end := None;
          Config.ramdisk_memory := Config.FixedAddress (2 ^ 39 + 4096) |};
     Config.kernel_stack_size := 80 * 1024;
     Config.frame_buffer := Config.FrameBuffer_new_default |}.

Lemma new_ignores_fixed_ramdisk_witness :
  returns (u ← new (2 ^ 32) 20 None ramdisk_config 5; get_free_address u 8192 4096)
    (λ '(b, _), virt_rank b ≤ virt_rank (2 ^ 39 + 4096) < virt_rank b + 8192).
Proof.
  apply (new_ignores_fixed_ramdisk (2 ^ 32) 20 None ramdisk_config); rewrite ?(virt_rank_low (2 ^ 39 + 4096)) by lia.
  - by split.
  - done.
  - done.
  - intros [H|[(x & H & _)|[(x & H & _)|[(x & H & _)|[(x & H & _)|[(x & y & H & _)|[(x & H & _)|(x & H & _)]]]]]]]; done.
  - change ((2 ^ 39 + 4096) / LEVEL_4_SIZE) with 1. intros j Hj. left. lia.
  - by vm_compute.
  - by vm_compute.
  - change ((2 ^ 39 + 4096) mod LEVEL_4_SIZE) with 4096. unfold LEVEL_4_SIZE. lia.
Defined.

End Level4.
