(* ===== verification/Entropy.v ===== *)
(** * The seed of the random number generator (common/src/entropy.rs)

    For ASLR the loader seeds a generator with the exclusive or of three
    sources. The instructions and ports they read are the class [Hardware], whose
    state advances with every reading; the generator (rand_hc) is the class
    [SeedableRng]. *)
From S2P Require Import Prelude.

Module Entropy.

Class Hardware (H : Type) := {
  (** [RdRand::new()] returns something *)
  has_rdrand : H → bool;
  (** [rd_rand.get_u64()] *)
  rdrand : H → option Z * H;
  (** [CpuId::new().get_feature_info()] with [has_tsc()] *)
  feature_has_tsc : H → option bool;
  (** [_rdtsc()] *)
  rdtsc : H → Z * H;
  (** [Port::<u8>::new(port).read()] *)
  port_read : Z → H → Z * H;
}.
Class SeedableRng (R : Type) := from_seed : list Z → R.

Section Model.
Context {H : Type} `{HW : Hardware H}.

(** [get_random_64]; the loop over the retries *)
Definition RETRY_LIMIT : nat := 10.
Fixpoint retry (n : nat) (h : H) : option Z * H :=
  match n with
  | O => (None, h)
  | S n => let '(o, h) := rdrand h in
      match o with Some value => (Some value, h) | None => retry n h end
  end.
Definition get_random_64 (h : H) : option Z * H := retry RETRY_LIMIT h.

(** [entropy[i * 8..(i + 1) * 8].copy_from_slice(&value.to_ne_bytes())] *)
Definition set_word (entropy : list Z) (i : nat) (value : Z) : list Z :=
  list_inserts (i * 8) (le_bytes 8 value) entropy.

(** One step of the loop over the four words of a source that reads words. *)
Definition rd_rand_step (acc : list Z * H) (i : nat) : list Z * H :=
  let '(entropy, h) := acc in
  let '(o, h) := get_random_64 h in
  (match o with Some value => set_word entropy i value | None => entropy end, h).
Definition rd_rand_entropy (h : H) : list Z * H :=
  let entropy := replicate 32 0 in
  if has_rdrand h then foldl rd_rand_step (entropy, h) (seq 0 4) else (entropy, h).

Definition tsc_step (acc : list Z * H) (i : nat) : list Z * H :=
  let '(entropy, h) := acc in
  let '(value, h) := rdtsc h in
  (set_word entropy i value, h).
Definition tsc_entropy (h : H) : list Z * H :=
  let entropy := replicate 32 0 in
  match feature_has_tsc h with
  | Some has_tsc => if negb has_tsc then foldl tsc_step (entropy, h) (seq 0 4) else (entropy, h)
  | None => (entropy, h)
  end.

Definition pit_step (acc : list Z * H) (i : nat) : list Z * H :=
  let '(entropy, h) := acc in
  let channel := (i `mod` 3)%nat in
  let '(value, h) := port_read (0x40 + Z.of_nat channel) h in
  (<[i := value]> entropy, h).
Definition pit_entropy (h : H) : list Z * H := foldl pit_step (replicate 32 0, h) (seq 0 32).

(** [for (seed, entropy) in seed.iter_mut().zip(entropy)] *)
Definition xor_into (seed entropy : list Z) : list Z := zip_with Z.lxor seed entropy.

Definition ENTROPY_SOURCES : list (H → list Z * H) := [rd_rand_entropy; tsc_entropy; pit_entropy].
Definition gather (acc : list Z * H) (source : H → list Z * H) : list Z * H :=
  let '(seed, h) := acc in
  let '(entropy, h) := source h in
  (xor_into seed entropy, h).
Definition build_rng `{SeedableRng R} (h : H) : R * H :=
  let '(seed, h) := foldl gather (replicate 32 0, h) ENTROPY_SOURCES in
  (from_seed seed, h).

(** ** Lengths and the exclusive or *)
Lemma length_set_word entropy i v : length (set_word entropy i v) = length entropy.
Proof. apply length_inserts. Qed.

Lemma foldl_length (step : list Z * H → nat → list Z * H) l acc :
  (∀ acc i, length (step acc i).1 = length acc.1) → length (foldl step acc l).1 = length acc.1.
Proof. intros Hs. revert acc. induction l as [|i l IH]; intros acc; [done|]. cbn. by rewrite IH. Qed.

Lemma source_length source h : source ∈ ENTROPY_SOURCES → length (source h).1 = 32%nat.
Proof.
  intros Hs. unfold ENTROPY_SOURCES in Hs. rewrite !elem_of_cons, elem_of_nil in Hs.
  destruct Hs as [->|[->|[->|[]]]].
  - unfold rd_rand_entropy. destruct (has_rdrand h); [|done]. rewrite foldl_length; [done|].
    intros [e h'] i. unfold rd_rand_step. destruct (get_random_64 h') as [[v|] ?]; [apply length_set_word|done].
  - unfold tsc_entropy. destruct (feature_has_tsc h) as [[]|]; [done| |done]. cbn [negb]. rewrite foldl_length; [done|].
    intros [e h'] i. unfold tsc_step. destruct (rdtsc h'). apply length_set_word.
  - unfold pit_entropy. rewrite foldl_length; [done|].
    intros [e h'] i. unfold pit_step. destruct (port_read _ h'). apply length_insert.
Qed.

Lemma xor_into_involutive s e : length e = length s → xor_into (xor_into s e) e = s.
Proof.
  revert e. induction s as [|x s IH]; intros [|y e] He; try done. cbn. rewrite Z.lxor_assoc, Z.lxor_nilpotent, Z.lxor_0_r.
  f_equal. apply IH. by injection He.
Qed.
Lemma xor_into_zero n e : length e = n → xor_into (replicate n 0) e = e.
Proof. intros <-. induction e as [|x e IH]; [done|]. cbn. f_equal. exact IH. Qed.

(** The seed: the exclusive or of what the three sources return, read one after the other. From
    the seed and two sources the third can be computed, so none of the entropy of a source is
    lost. *)
Lemma build_rng_seed `{SeedableRng R} h :
  let '(r, h1) := rd_rand_entropy h in
  let '(t, h2) := tsc_entropy h1 in
  let '(p, h3) := pit_entropy h2 in
  ∃ seed, build_rng h = (from_seed seed, h3) ∧ length seed = 32%nat ∧ seed = xor_into (xor_into r t) p ∧
    r = xor_into (xor_into seed p) t.
Proof.
  pose proof (source_length rd_rand_entropy h ltac:(set_solver)) as Hr. destruct (rd_rand_entropy h) as [r h1] eqn:E1.
  pose proof (source_length tsc_entropy h1 ltac:(set_solver)) as Ht. destruct (tsc_entropy h1) as [t h2] eqn:E2.
  pose proof (source_length pit_entropy h2 ltac:(set_solver)) as Hp. destruct (pit_entropy h2) as [p h3] eqn:E3.
  cbn [fst] in *. unfold build_rng, ENTROPY_SOURCES. cbn [foldl]. unfold gather. rewrite E1, E2, E3, (xor_into_zero 32 r Hr).
  exists (xor_into (xor_into r t) p). split_and!; [done| |done|].
  - unfold xor_into. rewrite !length_zip_with. lia.
  - rewrite xor_into_involutive by (unfold xor_into; rewrite length_zip_with; lia). by rewrite xor_into_involutive by lia.
Qed.

(** A random word is returned exactly when one of the ten attempts succeeds. *)
Fixpoint attempts (n : nat) (h : H) : list (option Z) :=
  match n with O => [] | S n => let '(o, h) := rdrand h in o :: attempts n h end.
Lemma get_random_64_some h v : (get_random_64 h).1 = Some v ↔
  ∃ k, attempts RETRY_LIMIT h !! k = Some (Some v) ∧ ∀ j, (j < k)%nat → attempts RETRY_LIMIT h !! j = Some None.
Proof.
  unfold get_random_64. generalize RETRY_LIMIT as n. intros n. revert h. induction n as [|n IH]; intros h; cbn.
  { split; [done|]. by intros (k & Hk & _). }
  destruct (rdrand h) as [[w|] h'].
  - cbn. split.
    + intros [= ->]. exists 0%nat. split; [done|lia].
    + intros ([|k] & Hk & Hj); [by injection Hk as ->|]. by specialize (Hj 0%nat ltac:(lia)).
  - rewrite IH. split.
    + intros (k & Hk & Hj). exists (S k). split; [done|]. intros [|j] ?; [done|]. cbn. apply Hj. lia.
    + intros ([|k] & Hk & Hj); [done|]. exists k. split; [done|]. intros j ?. exact (Hj (S j) ltac:(lia)).
Qed.

(** The time stamp counter contributes nothing on a processor that has one: the check is inverted. *)
Lemma tsc_entropy_unused h : feature_has_tsc h = Some true → tsc_entropy h = (replicate 32 0, h).
Proof. unfold tsc_entropy. by intros ->. Qed.

End Model.

End Entropy.
