(* ===== verification/LoadKernel.v ===== *)
(** * Loading the kernel's ELF file (common/src/load_kernel.rs)

    The segments of the file are mapped at their virtual addresses, the parts
    of memory that the file does not contain are zeroed in freshly allocated
    frames, relocations are applied with copy-on-write, and the flags of the
    pages are adjusted. Physical memory is identity mapped while the loader
    runs, so a pointer is a physical address: the contents of memory are a
    field of the state. *)
From stdpp Require Import gmap.
From S2P Require Import Prelude Memory X86 Paging Config Info Elf Level4.
Import Memory X86 Paging.

Module LoadKernel.

Definition COPIED : Z := BIT_9.
Definition PAGE_SIZE : Z := 4096.

(** [buf[lo..][..bs.len()].copy_from_slice(bs)] *)
Definition write_slice (buf : list Z) (lo : Z) (bs : list Z) : res (list Z) :=
  if (Z.to_nat lo + length bs <=? length buf)%nat
  then Ret (take (Z.to_nat lo) buf ++ bs ++ drop (Z.to_nat lo + length bs) buf)
  else Panic "range end index out of range for slice".

Record Inner (M F : Type) := mkInner {
  kernel_offset : Z;
  virtual_address_offset : Elf.VirtualAddressOffset;
  page_table : M;
  frame_allocator : F;
  memory : Z → Z;
}.
Arguments mkInner {_ _} _ _ _ _ _.
Arguments kernel_offset {_ _} _.
Arguments virtual_address_offset {_ _} _.
Arguments page_table {_ _} _.
Arguments frame_allocator {_ _} _.
Arguments memory {_ _} _ _.

Section Model.
Context `{X : X86} {M : Type} `{P : Mapper M} {F : Type} `{A : FrameSource F}.
Context {RF : Elf.RelaFormat}.
Abbreviation inner := (Inner M F).

Definition set_page_table (self : inner) (m : M) : inner :=
  mkInner (kernel_offset self) (virtual_address_offset self) m (frame_allocator self) (memory self).
Definition set_frame_allocator (self : inner) (f : F) : inner :=
  mkInner (kernel_offset self) (virtual_address_offset self) (page_table self) f (memory self).
Definition set_memory (self : inner) (mem : Z → Z) : inner :=
  mkInner (kernel_offset self) (virtual_address_offset self) (page_table self)
    (frame_allocator self) mem.

(** [self.page_table.map_to(page, frame, flags, self.frame_allocator).map_err(|_| msg)?] *)
Definition map_page (self : inner) (page frame flags : Z) (msg : string) : res inner :=
  o ← map_to (page_table self) (frame_allocator self) page frame flags;
  '(m, f) ← ok_or o msg;
  Ret (set_frame_allocator (set_page_table self m) f).

(** [self.frame_allocator.allocate_frame().unwrap()] *)
Definition new_frame (self : inner) : res (Z * inner) :=
  '(o, f) ← allocate_frame (frame_allocator self);
  frame ← expect_some o "called `Option::unwrap()` on a `None` value";
  Ret (frame, set_frame_allocator self f).

Definition make_mut (self : inner) (page : Z) : res (Z * inner) :=
  '(frame, flags) ←
    match translate (page_table self) page with
    | Mapped frame _ flags => Ret (frame, flags)
    | NotMapped => Panic "is not mapped"
    | InvalidFrameAddress _ => Panic "internal error: entered unreachable code"
    end;
  frame ←
    match frame with
    | MappedSize4KiB frame => Ret frame
    | _ => Panic "internal error: entered unreachable code"
    end;
  if flags_contains flags COPIED then Ret (frame, self) else
  '(new_frame, self) ← new_frame self;
  let self := set_memory self
    (mem_write (memory self) new_frame (mem_read (memory self) frame Size4KiB)) in
  '(_, m) ← expect_some (unmap (page_table self) page)
              "called `Result::unwrap()` on an `Err` value";
  let self := set_page_table self m in
  let new_flags := flags_or flags COPIED in
  self ← expect_ok (map_page self page new_frame new_flags "MapToError") "unwrap";
  Ret (new_frame, self).

(** The part of a page that [copy_from] and [copy_to] transfer: the physical address of
    its first byte, its length and its place in the buffer. *)
Definition copy_chunk (addr end_inclusive_addr page frame : Z) : res (Z * Z * Z) :=
  let page_start := page in
  page_end_inclusive ← virt_add page 4095;
  let start_copy_address := Z.max addr page_start in
  let end_inclusive_copy_address := Z.min end_inclusive_addr page_end_inclusive in
  start_offset_in_frame ← start_copy_address -! page_start;
  end_inclusive_offset_in_frame ← end_inclusive_copy_address -! page_start;
  n ← end_inclusive_offset_in_frame -! start_offset_in_frame;
  copy_len ← n +[64] 1;
  start_phys_addr ← phys_add frame start_offset_in_frame;
  start_offset_in_buf ← expect_some (virt_steps_between addr start_copy_address)
    "called `Option::unwrap()` on a `None` value";
  Ret (start_phys_addr, copy_len, start_offset_in_buf).

Definition copy_from (self : inner) (addr : Z) (buf : list Z) : res (list Z) :=
  n ← Z.of_nat (length buf) -! 1;
  end_inclusive_addr ← expect_some (virt_forward addr n)
    "end address outside of the virtual address space";
  let start_page := page_containing addr in
  let end_inclusive_page := page_containing end_inclusive_addr in
  foldM (λ buf page,
    frame ← expect_some (translate_page (page_table self) page)
      "address is not mapped to the kernel's memory space";
    '(src, copy_len, start_offset_in_buf) ← copy_chunk addr end_inclusive_addr page frame;
    write_slice buf start_offset_in_buf (mem_read (memory self) src copy_len))
    buf (page_range_inclusive start_page end_inclusive_page).

Definition copy_to (self : inner) (addr : Z) (buf : list Z) : res inner :=
  n ← Z.of_nat (length buf) -! 1;
  end_inclusive_addr ← expect_some (virt_forward addr n)
    "the end address should be in the virtual address space";
  let start_page := page_containing addr in
  let end_inclusive_page := page_containing end_inclusive_addr in
  foldM (λ self page,
    '(frame, self) ← make_mut self page;
    '(dest, copy_len, start_offset_in_buf) ← copy_chunk addr end_inclusive_addr page frame;
    src ← slice_range buf (Z.to_nat start_offset_in_buf)
            (Z.to_nat start_offset_in_buf + Z.to_nat copy_len);
    Ret (set_memory self (mem_write (memory self) dest src)))
    self (page_range_inclusive start_page end_inclusive_page).

Definition handle_bss_section (self : inner) (segment : Elf.ProgramHeader)
    (segment_flags : Z) : res inner :=
  v ← Elf.vao_add (virtual_address_offset self) (Elf.virtual_addr segment);
  virt_start_addr ← virt_new v;
  let mem_size := Elf.mem_size segment in
  let file_size := Elf.file_size segment in
  zero_start ← virt_add virt_start_addr file_size;
  zero_end ← virt_add virt_start_addr mem_size;
  let data_bytes_before_zero := Z.land zero_start 0xfff in
  self ←
    (if data_bytes_before_zero =? 0 then Ret self else
     a ← virt_add virt_start_addr file_size;
     a ← virt_sub a 1;
     let last_page := page_containing a in
     '(new_frame, self) ← make_mut self last_page;
     Ret (set_memory self
            (mem_write (memory self) (new_frame + data_bytes_before_zero)
               (replicate (Z.to_nat (Size4KiB - data_bytes_before_zero)) 0))));
  z ← virt_new (align_up zero_start Size4KiB);
  let start_page := page_containing z in
  e ← virt_sub zero_end 1;
  let end_page := page_containing e in
  foldM (λ self page,
    '(frame, self) ← new_frame self;
    let self := set_memory self
      (mem_write (memory self) frame (replicate (Z.to_nat Size4KiB) 0)) in
    map_page self page frame segment_flags "Failed to map new frame for bss memory")
    self (page_range_inclusive start_page end_page).

Definition segment_flags (segment : Elf.ProgramHeader) : Z :=
  let flags := PRESENT in
  let flags := if Elf.is_execute segment then flags else flags_or flags NO_EXECUTE in
  if Elf.is_write segment then flags_or flags WRITABLE else flags.

Definition handle_load_segment (self : inner) (segment : Elf.ProgramHeader) : res inner :=
  phys_start_addr ← phys_add (kernel_offset self) (Elf.offset segment);
  let start_frame := frame_containing phys_start_addr in
  e ← phys_add phys_start_addr (Elf.file_size segment);
  e ← phys_sub e 1;
  let end_frame := frame_containing e in
  v ← Elf.vao_add (virtual_address_offset self) (Elf.virtual_addr segment);
  virt_start_addr ← virt_new v;
  let start_page := page_containing virt_start_addr in
  let segment_flags := segment_flags segment in
  self ← foldM (λ self frame,
           let offset := (frame - start_frame) / Size4KiB in
           page ← page_add start_page offset;
           map_page self page frame segment_flags "map_to failed")
           self (frame_range_inclusive start_frame end_frame);
  if Elf.file_size segment <? Elf.mem_size segment
  then handle_bss_section self segment segment_flags
  else Ret self.

(** The pages of a segment, and the loop over them that [remove_copied_flags] and
    [handle_relro_segment] share: [flag] is removed where it is set. *)
Definition remove_flag (self : inner) (flag : Z) (program_header : Elf.ProgramHeader) :
    res inner :=
  start ← Elf.vao_add (virtual_address_offset self) (Elf.virtual_addr program_header);
  end_ ← start +[64] Elf.mem_size program_header;
  start ← virt_new start;
  end_ ← virt_new end_;
  let start_page := page_containing start in
  e ← virt_sub end_ 1;
  let end_page := page_containing e in
  foldM (λ self page,
    flags ←
      match translate (page_table self) page with
      | Mapped _ _ flags => Ret flags
      | NotMapped | InvalidFrameAddress _ =>
          Panic "has the elf file not been mapped correctly?"
      end;
    if flags_contains flags flag then
      m ← expect_some (update_flags (page_table self) page (flags_without flags flag))
            "called `Result::unwrap()` on an `Err` value";
      Ret (set_page_table self m)
    else Ret self)
    self (page_range_inclusive start_page end_page).

Definition remove_copied_flags (self : inner) (elf_file : Elf.ElfFile) : res inner :=
  foldM (λ self program_header,
    ty ← Elf.get_type program_header;
    match ty with
    | Elf.Load => remove_flag self COPIED program_header
    | _ => Ret self
    end) self (Elf.program_iter elf_file).

Definition handle_relro_segment (self : inner) (program_header : Elf.ProgramHeader) : res inner :=
  remove_flag self WRITABLE program_header.

Definition handle_tls_segment (self : inner) (segment : Elf.ProgramHeader) :
    res Info.TlsTemplate :=
  start_addr ← Elf.vao_add (virtual_address_offset self) (Elf.virtual_addr segment);
  Ret {| Info.start_addr := start_addr; Info.file_size := Elf.file_size segment;
         Info.mem_size := Elf.mem_size segment |}.

(** [size_of::<Rela<u64>>()] *)
Definition RELA_SIZE : Z := 24.

Definition read_relocation (self : inner) (relocation_table idx : Z) : res (list Z) :=
  n ← RELA_SIZE *[64] idx;
  offset ← relocation_table +[64] n;
  value ← Elf.vao_add (virtual_address_offset self) offset;
  addr ← expect_some (virt_try_new value) "relocation table is outside the address space";
  copy_from self addr (replicate 24 0).

Fixpoint check_headers (headers : list Elf.ProgramHeader) (virt_offset : Z) : res unit :=
  match headers with
  | [] => Err "offset is not in load segment"
  | program_header :: headers =>
      ty ← Elf.get_type program_header;
      match ty with
      | Elf.Load =>
          if Elf.virtual_addr program_header <=? virt_offset then
            let offset_in_segment := virt_offset - Elf.virtual_addr program_header in
            if offset_in_segment <? Elf.mem_size program_header then Ret ()
            else check_headers headers virt_offset
          else check_headers headers virt_offset
      | _ => check_headers headers virt_offset
      end
  end.
Definition check_is_in_load (elf_file : Elf.ElfFile) (virt_offset : Z) : res unit :=
  check_headers (Elf.program_iter elf_file) virt_offset.

Definition apply_relocation (self : inner) (rela : list Z) (elf_file : Elf.ElfFile) : res inner :=
  assert_ (Elf.rela_get_symbol_table_index rela =? 0)
    "relocations using the symbol table are not supported";;
  if Elf.rela_get_type rela =? 8 then
    check_is_in_load elf_file (Elf.rela_get_offset rela);;
    addr ← Elf.vao_add (virtual_address_offset self) (Elf.rela_get_offset rela);
    addr ← virt_new addr;
    value ← Elf.vao_add (virtual_address_offset self) (Elf.rela_get_addend rela);
    copy_to self addr (le_bytes 8 value)
  else Panic "not implemented: relocation type not supported".

(** The scan for the three entries that describe the relocation table. *)
Definition dynamic_step (acc : option Z * option Z * option Z) (rel : Elf.Dynamic64) :
    res (option Z * option Z * option Z) :=
  let '(rela, rela_size, rela_ent) := acc in
  tag ← Elf.get_tag rel;
  match tag with
  | Elf.Rela =>
      ptr ← Elf.get_ptr rel;
      match rela with
      | Some _ => Err "Dynamic section contains more than one Rela entry"
      | None => Ret (Some ptr, rela_size, rela_ent)
      end
  | Elf.RelaSize =>
      val ← Elf.get_val rel;
      match rela_size with
      | Some _ => Err "Dynamic section contains more than one RelaSize entry"
      | None => Ret (rela, Some val, rela_ent)
      end
  | Elf.RelaEnt =>
      val ← Elf.get_val rel;
      match rela_ent with
      | Some _ => Err "Dynamic section contains more than one RelaEnt entry"
      | None => Ret (rela, rela_size, Some val)
      end
  | Elf.OtherTag => Ret acc
  end.

Definition handle_dynamic_segment (self : inner) (segment : Elf.ProgramHeader)
    (elf_file : Elf.ElfFile) : res inner :=
  data ← Elf.get_data elf_file segment;
  data ←
    match data with
    | Elf.DataDynamic64 data => Ret data
    | Elf.DataOther => Panic "expected Dynamic64 segment"
    end;
  '(rela, rela_size, rela_ent) ← foldM dynamic_step (None, None, None) data;
  match rela with
  | None =>
      match rela_size, rela_ent with
      | None, None => Ret self
      | _, _ => Err "Rela entry is missing but RelaSize or RelaEnt have been provided"
      end
  | Some offset =>
      total_size ← ok_or rela_size "RelaSize entry is missing";
      entry_size ← ok_or rela_ent "RelaEnt entry is missing";
      assert_ (entry_size =? RELA_SIZE) "unsupported entry size";;
      let num_entries := total_size / entry_size in
      foldM (λ self idx,
        rela ← read_relocation self offset idx;
        apply_relocation self rela elf_file) self (seqZ 0 num_entries)
  end.

(** ** [Loader] *)

(** The first loop of [load_segments]. *)
Definition load_step (acc : option Info.TlsTemplate * inner) (program_header : Elf.ProgramHeader) :
    res (option Info.TlsTemplate * inner) :=
  let '(tls_template, self) := acc in
  ty ← Elf.get_type program_header;
  match ty with
  | Elf.Load => self ← handle_load_segment self program_header; Ret (tls_template, self)
  | Elf.Tls =>
      match tls_template with
      | None => t ← handle_tls_segment self program_header; Ret (Some t, self)
      | Some _ => Err "multiple TLS segments not supported"
      end
  | _ => Ret acc
  end.

Definition load_segments (self : inner) (elf_file : Elf.ElfFile) :
    res (option Info.TlsTemplate * inner) :=
  '(tls_template, self) ← foldM load_step (None, self) (Elf.program_iter elf_file);
  self ← foldM (λ self program_header,
           ty ← Elf.get_type program_header;
           match ty with
           | Elf.Dynamic => handle_dynamic_segment self program_header elf_file
           | _ => Ret self
           end) self (Elf.program_iter elf_file);
  self ← foldM (λ self program_header,
           ty ← Elf.get_type program_header;
           match ty with
           | Elf.GnuRelro => handle_relro_segment self program_header
           | _ => Ret self
           end) self (Elf.program_iter elf_file);
  self ← expect_ok (remove_copied_flags self elf_file) "unwrap";
  Ret (tls_template, self).

(** The offset of a position independent kernel. *)
Definition load_headers (elf_file : Elf.ElfFile) : list Elf.ProgramHeader :=
  filter (λ h, Elf.get_type h = Ret Elf.Load) (Elf.program_iter elf_file).
Definition max_opt (l : list Z) : option Z :=
  foldr (λ x o, Some (default x (Z.max x <$> o))) None l.
Definition min_opt (l : list Z) : option Z :=
  foldr (λ x o, Some (default x (Z.min x <$> o))) None l.

Context {R : Type} `{G : Level4.Rng R}.
Abbreviation used_entries := (Level4.UsedLevel4Entries R).

Definition pie_offset (elf_file : Elf.ElfFile) (used : used_entries) :
    res (Elf.VirtualAddressOffset * used_entries) :=
  let load_program_headers := load_headers elf_file in
  ends ← foldM (λ l h, e ← Elf.virtual_addr h +[64] Elf.mem_size h; Ret (l ++ [e]))
           [] load_program_headers;
  let max_addr := default 0 (max_opt ends) in
  let min_addr := default 0 (min_opt (Elf.virtual_addr <$> load_program_headers)) in
  size ← max_addr -! min_addr;
  let align := default 1 (max_opt (Elf.align <$> load_program_headers)) in
  '(offset, used) ← Level4.get_free_address used size align;
  Ret (Elf.VirtualAddressOffset_new (offset - min_addr), used).

Definition Loader_new (elf_file : Elf.ElfFile) (page_table : M) (frame_allocator : F)
    (memory : Z → Z) (used : used_entries) : res (inner * used_entries) :=
  assert_ (0 <? Elf.input_len elf_file) "index out of bounds";;
  kernel_offset ← phys_new (Elf.input_addr elf_file);
  (if kernel_offset mod PAGE_SIZE =? 0 then Ret ()
   else Err "Loaded kernel ELF file is not sufficiently aligned");;
  foldM (λ _ h, Elf.program_sanity_check elf_file h) () (Elf.program_iter elf_file);;
  '(virtual_address_offset, used) ←
    match Elf.file_type elf_file with
    | Elf.FExecutable => Ret (Elf.VirtualAddressOffset_zero, used)
    | Elf.FSharedObject => pie_offset elf_file used
    | _ => Panic "not implemented"
    end;
  used ← Level4.mark_segments used (Elf.program_iter elf_file) virtual_address_offset;
  Elf.header_sanity_check elf_file;;
  Ret (mkInner kernel_offset virtual_address_offset page_table frame_allocator memory, used).

Definition Loader_entry_point (self : inner) (elf_file : Elf.ElfFile) : res Z :=
  a ← Elf.vao_add (virtual_address_offset self) (Elf.entry_point elf_file);
  virt_new a.

(** The result also carries the loader's final state: the page table, the allocator and
    the memory are changed in place. *)
Definition load_kernel (elf_file : Elf.ElfFile) (page_table : M) (frame_allocator : F)
    (memory : Z → Z) (used : used_entries) :
    res (Z * Z * option Info.TlsTemplate * (inner * used_entries)) :=
  '(self, used) ← Loader_new elf_file page_table frame_allocator memory used;
  '(tls_template, self) ← load_segments self elf_file;
  image_offset ← virt_new (wrap_u 64 (virtual_address_offset self));
  entry_point ← Loader_entry_point self elf_file;
  Ret (image_offset, entry_point, tls_template, (self, used)).

End Model.

(** ** Pages *)
Lemma align_down_split a : align_down a 4096 + a mod 4096 = a.
Proof. unfold align_down. lia. Qed.

Lemma aligned_add p i : p mod 4096 = 0 → 0 ≤ i < 4096 → align_down (p + i) 4096 = p ∧ (p + i) mod 4096 = i.
Proof.
  intros Hp Hi. apply Z.mod_divide in Hp as [q ->]; [|lia]. unfold align_down.
  rewrite Z.add_comm, Z_mod_plus_full, Z.mod_small by lia. lia.
Qed.

Lemma aligned_disjoint p q x : p mod 4096 = 0 → q mod 4096 = 0 → p ≠ q →
  p ≤ x < p + 4096 → q ≤ x < q + 4096 → False.
Proof.
  intros Hp Hq. apply Z.mod_divide in Hp as [a ->]; [|lia].
  apply Z.mod_divide in Hq as [b ->]; [|lia]. lia.
Qed.

Lemma align_down_iff p x : p mod 4096 = 0 → align_down x 4096 = p ↔ p ≤ x < p + 4096.
Proof.
  intros Hp. pose proof (align_down_le x 4096). pose proof (align_down_gt x 4096).
  split; [lia|]. intros Hx. destruct (Z.eq_dec (align_down x 4096) p) as [|Hne]; [done|].
  exfalso. eapply (aligned_disjoint (align_down x 4096) p x); [by apply align_down_mod|done..|lia|done].
Qed.

(** The pages that a range of [n] bytes from [a] meets. *)
Definition span_len (a n : Z) : Z := (align_down (a + n - 1) 4096 - align_down a 4096) / 4096 + 1.
Definition span_pages (a n : Z) : list Z := pages_from (align_down a 4096) (span_len a n).

Lemma elem_of_pages_from p a n : p ∈ pages_from a n ↔ ∃ i, 0 ≤ i < n ∧ p = a + i * 4096.
Proof.
  unfold pages_from. rewrite list_elem_of_fmap. setoid_rewrite elem_of_seqZ.
  split; intros (i & ? & ?); exists i; split; (done || lia).
Qed.

Lemma span_pages_range a n p :
  p ∈ span_pages a n ↔ p mod 4096 = 0 ∧ align_down a 4096 ≤ p ≤ a + n - 1.
Proof.
  unfold span_pages, span_len. rewrite elem_of_pages_from.
  pose proof (align_down_mod a 4096 ltac:(lia)) as Ha.
  pose proof (align_down_mod (a + n - 1) 4096 ltac:(lia)) as Hb.
  pose proof (align_down_le (a + n - 1) 4096 ltac:(lia)).
  pose proof (align_down_gt (a + n - 1) 4096 ltac:(lia)).
  apply Z.mod_divide in Ha as [s Hs]; [|lia]. apply Z.mod_divide in Hb as [e He]; [|lia].
  rewrite Hs, He in *. replace (e * 4096 - s * 4096) with ((e - s) * 4096) by lia.
  rewrite Z.div_mul by lia. split.
  - intros (i & Hi & ->). split; [|lia].
    replace (s * 4096 + i * 4096) with ((s + i) * 4096) by lia. by apply Z.mod_mul.
  - intros [Hp ?]. apply Z.mod_divide in Hp as [k ->]; [|lia]. exists (k - s). lia.
Qed.

Lemma span_pages_elem a n p : 0 < n →
  p ∈ span_pages a n ↔ ∃ x, a ≤ x < a + n ∧ align_down x 4096 = p.
Proof.
  intros Hn. rewrite span_pages_range. split.
  - intros [Hp Hr]. exists (Z.max a p). split; [lia|]. apply align_down_iff; [done|].
    pose proof (align_down_gt a 4096). split; [lia|].
    destruct (Z.max_spec a p) as [[? ->]|[? ->]]; [lia|].
    assert (align_down a 4096 = p); [|lia]. apply align_down_iff; [done|].
    pose proof (align_down_mod a 4096 ltac:(lia)) as Ha. pose proof (align_down_le a 4096).
    apply Z.mod_divide in Hp as [k ->]; [|lia]. apply Z.mod_divide in Ha as [j Hj]; [|lia].
    lia.
  - intros (x & Hx & <-). split; [by apply align_down_mod|].
    pose proof (align_down_le x 4096). pose proof (align_down_mono a x 4096). lia.
Qed.

Lemma NoDup_pages_from a n : NoDup (pages_from a n).
Proof. apply NoDup_fmap_2; [intros i j; lia|apply NoDup_seqZ]. Qed.

Section Spans.
Context `{HX : X86Laws}.

Lemma span_page_canonical a n p : Level4.span_ok a n → p ∈ span_pages a n →
  canonical p ∧ canonical (p + 4095) ∧ p mod 4096 = 0.
Proof.
  intros Hs Hp. assert (0 < n) by apply Hs. apply span_pages_range in Hp as [Hp Hr].
  pose proof (align_down_le a 4096). pose proof (align_down_gt a 4096).
  pose proof (align_down_mod a 4096 ltac:(lia)) as Ha.
  apply Z.mod_divide in Hp as [k ->]; [|lia]. apply Z.mod_divide in Ha as [j Hj]; [|lia].
  destruct Hs as [_ Hs]. unfold canonical. rewrite Z.mod_mul by lia. lia.
Qed.

Lemma virt_rank_diff a b : canonical a → canonical b → (a < 2 ^ 47 ↔ b < 2 ^ 47) →
  virt_rank b = virt_rank a + (b - a).
Proof.
  unfold canonical. intros [?|?] [?|?] Hab; try lia.
  - rewrite !virt_rank_low by lia. lia.
  - rewrite !virt_rank_high by lia. lia.
Qed.

Lemma sign_extend_from a i : canonical a → 0 ≤ i → canonical (a + i) → (a < 2 ^ 47 ↔ a + i < 2 ^ 47) →
  sign_extend (virt_rank a + i) = a + i.
Proof.
  intros Ha Hi Hc Hh. rewrite <- (sign_extend_virt_rank (a + i)) by done.
  f_equal. rewrite (virt_rank_diff a (a + i)) by done. lia.
Qed.

(** Iterating over the pages from [p] to [q], which may be the page before [p]. *)
Lemma page_range_from p q : canonical p → canonical q → p mod 4096 = 0 → q mod 4096 = 0 →
  (p < 2 ^ 47 ↔ q < 2 ^ 47) →
  page_range_inclusive p q = pages_from p ((q - p) / 4096 + 1).
Proof.
  intros Hp Hq Hpm Hqm Hh. rewrite page_range_inclusive_spec by done.
  rewrite (virt_rank_diff p q) by done. replace (virt_rank p + (q - p) - virt_rank p) with (q - p) by lia.
  unfold pages_from. rewrite <- list_fmap_compose. apply list_fmap_ext. intros m i Hm.
  apply list_elem_of_lookup_2, elem_of_seqZ in Hm as Hi. clear Hm. cbn. apply Z.mod_divide in Hpm as [k ->]; [|lia]. apply Z.mod_divide in Hqm as [j ->]; [|lia].
  replace (j * 4096 - k * 4096) with ((j - k) * 4096) in * by lia. rewrite Z.div_mul in * by lia.
  apply sign_extend_from; try done; unfold canonical in *; lia.
Qed.

Lemma page_range_span a n : Level4.span_ok a n →
  page_range_inclusive (page_containing a) (page_containing (a + n - 1)) = span_pages a n.
Proof.
  intros Hs. assert (0 < n) by apply Hs.
  assert (canonical a) by (eapply Level4.span_canonical; [done|lia]).
  assert (canonical (a + n - 1)) by (eapply Level4.span_canonical; [done|lia]).
  assert (∀ x, a ≤ x < a + n → align_down x 4096 ∈ span_pages a n) as Hin.
  { intros x Hx. apply span_pages_elem; [done|]. eauto. }
  destruct (span_page_canonical a n (align_down a 4096)) as (? & _ & ?); [done|apply Hin; lia|].
  destruct (span_page_canonical a n (align_down (a + n - 1) 4096)) as (? & _ & ?); [done|apply Hin; lia|].
  rewrite !page_containing_spec by done. apply page_range_from; try done.
  pose proof (align_down_le a 4096). pose proof (align_down_le (a + n - 1) 4096).
  pose proof (align_down_gt a 4096). pose proof (align_down_gt (a + n - 1) 4096).
  unfold Level4.span_ok, canonical in *. lia.
Qed.

End Spans.

(** The reference allocator has a frame for every page up to its limit. *)
Lemma bump_supply b n : next b mod 4096 = 0 → next b + Z.of_nat n * 4096 ≤ limit b → supply b n.
Proof.
  intros Hm Hn. exists (pages_from (next b) (Z.of_nat n)).
  split_and!; [apply NoDup_pages_from| |].
  - unfold pages_from. rewrite length_fmap, length_seqZ. lia.
  - apply Forall_forall. intros p (i & Hi & ->)%elem_of_pages_from. cbn.
    split; [by rewrite Z_mod_plus_full|]. lia.
Qed.

End LoadKernel.
