(* ===== verification/LoadKernelProofs.v ===== *)
(** * The kernel loader is correct

    The loader's effect is described by the contents of the virtual address
    space it sets up ([vread]) and the flags of its pages. The theorems show that
    segments appear there with the bytes of the file and zeros, that relocations
    change only what they should, and that the ELF file itself, which the pages
    share until they are copied, is never written. *)
From stdpp Require Import gmap.
From S2P Require Import Prelude Memory X86 Paging Config Info Elf Level4 LoadKernel.
Import Memory X86 Paging LoadKernel.

Module LoadKernelProofs.

Section Proofs.
Context `{HX : X86Laws} {M : Type} `{HM : MapperLaws M} {F : Type} `{HF : FrameSourceLaws F}.
Abbreviation inner := (Inner M F).

Definition vw (s : inner) : gmap Z (Z * Z) := view (page_table s).
Definition fresh_in (s : inner) (fr : Z) : Prop := fresh (frame_allocator s) fr.
Definition left_in (s : inner) (n : nat) : Prop := supply (frame_allocator s) n.

(** The byte at a virtual address of the address space being set up. *)
Definition vread (s : inner) (a : Z) : option Z :=
  match vw s !! align_down a 4096 with
  | Some (fr, _) => Some (memory s (fr + a mod 4096))
  | None => None
  end.

Definition copied (fl : Z) : Prop := flags_contains fl COPIED = true.

(** The invariant of the loader: the frames in use are not handed out again, and a frame
    that was copied for a page belongs to this page alone. *)
Record good (s : inner) : Prop := {
  good_mapper : mapper_inv (page_table s);
  good_source : source_inv (frame_allocator s);
  good_frame p fr fl : vw s !! p = Some (fr, fl) →
    fr mod 4096 = 0 ∧ 0 ≤ fr ∧ fr + 4096 < 2 ^ 52 ∧ Z.testbit fl 0 = true ∧ ¬ fresh_in s fr;
  good_copied p q fr fl fl' : vw s !! p = Some (fr, fl) → vw s !! q = Some (fr, fl') →
    copied fl → p = q;
}.

(** The physical byte [x] is neither in a frame that may be handed out nor in a copied one:
    such bytes, those of the ELF file among them, are never written. *)
Definition protected (s : inner) (x : Z) : Prop :=
  ¬ fresh_in s (align_down x 4096) ∧
  ∀ p fl, vw s !! p = Some (align_down x 4096, fl) → ¬ copied fl.

(** [s'] continues [s]: the constants are kept, frames are only allocated and none becomes free. *)
Definition extends (s s' : inner) : Prop :=
  kernel_offset s' = kernel_offset s ∧
  virtual_address_offset s' = virtual_address_offset s ∧
  (∀ y, fresh_in s' y → fresh_in s y) ∧
  rtc alloc_step (frame_allocator s) (frame_allocator s').

Lemma extends_refl s : extends s s.
Proof. by split_and!. Qed.
Lemma extends_trans s1 s2 s3 : extends s1 s2 → extends s2 s3 → extends s1 s3.
Proof. intros (? & ? & ? & ?) (? & ? & ? & ?). split_and!; [congruence|congruence|auto|by etrans]. Qed.

Lemma good_set_memory s mem : good s → good (set_memory s mem).
Proof. intros [? ? ? ?]. by split. Qed.

(** Reading is not affected by writes to frames that are not mapped. *)
Lemma vread_same s s' a : good s →
  vw s' !! align_down a 4096 = vw s !! align_down a 4096 →
  (∀ x, ¬ fresh_in s (align_down x 4096) → memory s' x = memory s x) →
  vread s' a = vread s a.
Proof.
  intros Hg Hv Hm. unfold vread. rewrite Hv.
  destruct (vw s !! align_down a 4096) as [[fr fl]|] eqn:E; [|done].
  destruct (good_frame s Hg _ _ _ E) as (Ha & _ & _ & _ & Hnf). f_equal. apply Hm.
  pose proof (Z.mod_pos_bound a 4096). destruct (aligned_add fr (a mod 4096)) as [-> _]; [done|lia|done].
Qed.

(** ** Mapping one page *)
Lemma map_page_spec s p fr fl n msg :
  good s → canonical p → p mod 4096 = 0 → fr mod 4096 = 0 → 0 ≤ fr → fr + 4096 < 2 ^ 52 →
  Z.testbit fl 0 = true → vw s !! p = None → mappable p → ¬ fresh_in s fr →
  (∀ q fl', vw s !! q = Some (fr, fl') → ¬ copied fl' ∧ ¬ copied fl) →
  left_in s (n + 3) →
  returns (map_page s p fr fl msg) (λ s', good s' ∧ vw s' = <[p := (fr, fl)]> (vw s) ∧
    memory s' = memory s ∧ left_in s' n ∧ extends s s').
Proof.
  intros Hg Hc Hp Hfr H0 Hb Hfl Hv Hma Hnf Hal Hs. unfold map_page.
  destruct (map_to_ok (page_table s) (frame_allocator s) p fr fl)
    as (m & f & -> & Hm & Hvm & Hf & Hsub & Hsup & Hal');
    [apply Hg|apply Hg|done..|eapply supply_le; [|exact Hs]; lia|].
  cbn. split_and!; [|done|done|by apply Hsup|by split_and!].
  split; cbn; [done|done| |].
  - intros q fr' fl'. unfold vw; cbn. rewrite Hvm. intros [[<- [= <- <-]]|[_ E]]%lookup_insert_Some.
    + split_and!; try done. unfold fresh_in in *. cbn. auto.
    + destruct (good_frame s Hg _ _ _ E) as (? & ? & ? & ? & ?). split_and!; try done.
      unfold fresh_in in *. cbn. auto.
  - intros q q' fr' fl1 fl2. unfold vw; cbn. rewrite Hvm.
    intros [[<- [= <- <-]]|[_ E1]]%lookup_insert_Some [[<- Heq]|[_ E2]]%lookup_insert_Some Hcp.
    + done.
    + destruct (Hal _ _ E2) as [? ?]. done.
    + injection Heq as <- <-. destruct (Hal _ _ E1). done.
    + by eapply (good_copied s Hg).
Qed.

(** ** Allocating a frame *)
Lemma new_frame_spec s n : good s → left_in s (S n) →
  returns (new_frame s) (λ '(fr, s'), good s' ∧ fresh_in s fr ∧ ¬ fresh_in s' fr ∧
    fr mod 4096 = 0 ∧ 0 ≤ fr ∧ fr + 4096 < 2 ^ 52 ∧ (∀ p fl, vw s !! p ≠ Some (fr, fl)) ∧
    vw s' = vw s ∧ memory s' = memory s ∧ left_in s' n ∧ extends s s').
Proof.
  intros Hg Hs. unfold new_frame. pose proof (supply_allocate _ _ (good_source s Hg) Hs) as Ha.
  apply returns_alt in Ha as ([o f] & Ha & fr & -> & Hfr & Hi & Hsup & Hfresh). rewrite Ha. cbn.
  destruct (fresh_ok _ _ (good_source s Hg) Hfr) as (? & ? & ?).
  assert (∀ y, fresh f y → fresh (frame_allocator s) y) as Hsub by (intros y Hy; by apply Hfresh in Hy as [? _]).
  split_and!; try done.
  - destruct Hg as [? ? Hf ?]. split; try done. intros p fr' fl E.
    destruct (Hf p fr' fl E) as (? & ? & ? & ? & Hn). split_and!; try done.
    intros Hx%Hsub. by apply Hn.
  - intros Hx. apply Hfresh in Hx as [_ ?]. done.
  - intros p fl E. by destruct (good_frame s Hg _ _ _ E) as (_ & _ & _ & _ & ?).
  - split_and!; [done..|]. apply rtc_once. by eexists.
Qed.

(** ** Copy on write *)
Lemma copied_bit fl : copied fl ↔ Z.testbit fl 9 = true.
Proof. unfold copied, COPIED, BIT_9. by rewrite flags_contains_bit. Qed.
Lemma copied_or fl : copied (flags_or fl COPIED).
Proof. apply copied_bit. unfold COPIED, BIT_9. rewrite flags_or_bit by lia. apply orb_true_r. Qed.
Lemma present_or fl : Z.testbit fl 0 = true → Z.testbit (flags_or fl COPIED) 0 = true.
Proof. intros Hf. unfold COPIED, BIT_9. by rewrite flags_or_bit, Hf by lia. Qed.

(** What [make_mut] guarantees of its result: the page is mapped to a frame of its own, and
    neither the contents of the address space nor any other frame in use changed. *)
Definition make_mut_post (s : inner) (p fl : Z) (n : nat) '((fr', s') : Z * inner) : Prop :=
  good s' ∧ vw s' = <[p := (fr', flags_or fl COPIED)]> (vw s) ∧
  (∀ a, vread s' a = vread s a) ∧
  (∀ x, ¬ fresh_in s (align_down x 4096) → memory s' x = memory s x) ∧
  (∀ q fl', vw s' !! q = Some (fr', fl') → q = p) ∧
  fr' mod 4096 = 0 ∧ 0 ≤ fr' ∧ fr' + 4096 < 2 ^ 52 ∧
  (fresh_in s fr' ∨ copied fl ∧ vw s !! p = Some (fr', fl)) ∧
  left_in s' n ∧ extends s s'.

Lemma make_mut_copied s p fr fl n : good s → vw s !! p = Some (fr, fl) → copied fl →
  left_in s n → make_mut_post s p fl n (fr, s).
Proof.
  intros Hg Hv Hc Hs. destruct (good_frame s Hg _ _ _ Hv) as (? & ? & ? & ? & ?).
  assert (flags_or fl COPIED = fl) as Hfl by (apply flags_or_id; [lia|by apply copied_bit]).
  cbn. rewrite Hfl. split_and!; try done; auto using extends_refl.
  - by rewrite insert_id.
  - intros q fl' Hq. symmetry. by eapply (good_copied s Hg).
Qed.

Lemma make_mut_vread s s' p fr fl fr' a : good s → p mod 4096 = 0 → vw s !! p = Some (fr, fl) →
  fr' mod 4096 = 0 → fresh_in s fr' →
  vw s' = <[p := (fr', flags_or fl COPIED)]> (vw s) →
  memory s' = mem_write (memory s) fr' (mem_read (memory s) fr 4096) →
  vread s' a = vread s a.
Proof.
  intros Hg Hp Hv Hfr' Hfresh Hv' Hm'. unfold vread. rewrite Hv', Hm'.
  pose proof (Z.mod_pos_bound a 4096).
  destruct (decide (align_down a 4096 = p)) as [->|Hne].
  - rewrite lookup_insert_eq, Hv. rewrite mem_copy by lia. do 2 f_equal. lia.
  - rewrite lookup_insert_ne by done.
    destruct (vw s !! align_down a 4096) as [[fr2 fl2]|] eqn:E; [|done].
    destruct (good_frame s Hg _ _ _ E) as (? & _ & _ & _ & Hnf).
    rewrite mem_write_out; [done|]. rewrite length_mem_read. intros Hx.
    eapply (aligned_disjoint fr' fr2 (fr2 + a mod 4096)); [done|done| |lia|lia]. by intros ->.
Qed.

Lemma make_mut_spec s p fr fl n :
  good s → canonical p → p mod 4096 = 0 → vw s !! p = Some (fr, fl) → left_in s (n + 4) →
  returns (make_mut s p) (make_mut_post s p fl n).
Proof.
  intros Hg Hc Hp Hv Hs. unfold make_mut.
  rewrite translate_spec by (done || apply Hg). rewrite (align_down_id p) by done.
  unfold vw in Hv. rewrite Hv. cbn [mbind res_bind]. fold (vw s) in Hv.
  destruct (flags_contains fl COPIED) eqn:Hcp.
  { apply make_mut_copied with (fr := fr); try done. eapply supply_le; [|exact Hs]. lia. }
  eapply returns_bind; [apply (new_frame_spec s (n + 3)); [done|]; by replace (S (n + 3)) with (n + 4)%nat by lia|].
  intros [fr' s1] (Hg1 & Hfr' & Hnf & Ha & H0 & Hb & Hun & Hv1 & Hm1 & Hs1 & Hext).
  set (mem2 := mem_write _ _ _). set (s2 := set_memory s1 mem2).
  destruct (unmap_ok (page_table s2) p fr fl) as (m3 & Hun3 & Hi3 & Hv3);
    [apply Hg1|done|done|fold (vw s1) in Hv1; rewrite <- Hv1 in Hv; exact Hv|].
  rewrite Hun3. cbn [expect_some mbind res_bind].
  assert (vw (set_page_table s2 m3) = delete p (vw s)) as Hv3' by (rewrite <- Hv1; exact Hv3).
  assert (good (set_page_table s2 m3)) as Hg3.
  { destruct Hg1 as [? ? Hf Hcp1]. split; [done|done| |].
    - intros q fr0 fl0. rewrite Hv3'. intros [_ E]%lookup_delete_Some. rewrite <- Hv1 in E.
      by apply (Hf q).
    - intros q q' fr0 fl0 fl1. rewrite Hv3'. intros [_ E]%lookup_delete_Some [_ E']%lookup_delete_Some.
      rewrite <- Hv1 in *. by eapply Hcp1. }
  destruct (good_frame s Hg _ _ _ Hv) as (? & ? & ? & Hpres & ?).
  eapply returns_bind.
  { apply returns_expect_ok, (map_page_spec _ p fr' (flags_or fl COPIED) n); try done.
    - by apply present_or.
    - by rewrite Hv3', lookup_delete_eq.
    - eapply (view_mappable (page_table s)); [apply Hg|]. fold (vw s). by rewrite Hv.
    - intros q fl'. rewrite Hv3'. intros [_ E]%lookup_delete_Some. by apply Hun in E. }
  intros s4 (Hg4 & Hv4 & Hm4 & Hs4 & Hext4). cbn.
  rewrite Hv3', insert_delete_eq in Hv4.
  assert (mem2 = mem_write (memory s) fr' (mem_read (memory s) fr 4096)) as Hmem2
    by (unfold mem2; by rewrite Hm1).
  change (memory s4 = mem2) in Hm4. rewrite Hmem2 in Hm4.
  split_and!; try done; [| | |by left|by eapply extends_trans].
  - intros a. eapply (make_mut_vread s s4 p fr fl fr'); try done.
  - intros x Hx. rewrite Hm4. apply mem_write_out. rewrite length_mem_read. intros Hx'.
    apply Hx. replace (align_down x 4096) with fr'; [done|]. symmetry. apply align_down_iff; [done|lia].
  - intros q fl'. rewrite Hv4. intros [[? _]|[_ E]]%lookup_insert_Some; [done|]. by apply Hun in E.
Qed.

(** ** Copying between a buffer and the address space *)
Lemma write_slice_ok (buf bs : list Z) lo : 0 ≤ lo → (Z.to_nat lo + length bs ≤ length buf)%nat →
  returns (write_slice buf lo bs) (λ buf', length buf' = length buf ∧
    ∀ i, buf' !! i = if decide (Z.to_nat lo ≤ i < Z.to_nat lo + length bs)%nat
                     then bs !! (i - Z.to_nat lo)%nat else buf !! i).
Proof.
  intros Hlo Hlen. unfold write_slice. rewrite (proj2 (Nat.leb_le _ _)) by done. cbn. split.
  - rewrite !length_app, length_take, length_drop. lia.
  - intros i. case_decide.
    + rewrite lookup_app_r, length_take by (rewrite length_take; lia).
      rewrite lookup_app_l by lia. f_equal. lia.
    + destruct (decide (i < Z.to_nat lo)%nat).
      * rewrite lookup_app_l, lookup_take_lt by (rewrite ?length_take; lia). done.
      * rewrite lookup_app_r, length_take by (rewrite length_take; lia).
        rewrite lookup_app_r, lookup_drop by lia. f_equal. lia.
Qed.

(** The bytes of the range [addr, addr + n) that lie in the page [p]. *)
Definition chunk_lo (addr p : Z) : Z := Z.max addr p.
Definition chunk_hi (addr n p : Z) : Z := Z.min (addr + n - 1) (p + 4095).

Lemma chunk_bounds addr n p : 0 < n → p ∈ span_pages addr n →
  addr ≤ chunk_lo addr p ∧ p ≤ chunk_lo addr p ≤ chunk_hi addr n p ∧
  chunk_hi addr n p ≤ p + 4095 ∧ chunk_hi addr n p ≤ addr + n - 1 ∧
  ∀ x, chunk_lo addr p ≤ x ≤ chunk_hi addr n p ↔ addr ≤ x < addr + n ∧ align_down x 4096 = p.
Proof.
  intros Hn Hp. apply span_pages_range in Hp as [Hp Hr]. unfold chunk_lo, chunk_hi.
  pose proof (align_down_gt addr 4096). split_and!; try lia.
  intros x. rewrite align_down_iff by done. lia.
Qed.

Lemma copy_chunk_ok addr n p fr : Level4.span_ok addr n → p ∈ span_pages addr n →
  0 ≤ fr → fr + 4096 < 2 ^ 52 →
  copy_chunk addr (addr + n - 1) p fr =
    Ret (fr + (chunk_lo addr p - p), chunk_hi addr n p - chunk_lo addr p + 1, chunk_lo addr p - addr).
Proof.
  intros Hs Hp Hfr Hb. assert (0 < n) as Hn by apply Hs.
  destruct (span_page_canonical addr n p) as (Hc & Hc' & Hpm); [done..|].
  destruct (chunk_bounds addr n p) as (H1 & H2 & H3 & H4 & Hch); [done..|].
  unfold copy_chunk. fold (chunk_lo addr p).
  assert (p + 4095 < 2 ^ 64) by (unfold canonical in Hc'; lia).
  rewrite virt_add_new, virt_new_canonical by (done || lia). cbn [mbind res_bind].
  fold (chunk_hi addr n p).
  rewrite (sub_u_ok (chunk_lo addr p)) by lia. cbn [mbind res_bind].
  rewrite (sub_u_ok (chunk_hi addr n p)) by lia. cbn [mbind res_bind].
  rewrite (sub_u_ok (chunk_hi addr n p - p)) by lia. cbn [mbind res_bind].
  rewrite add_u_ok by lia. cbn [mbind res_bind].
  rewrite phys_add_ok by (unfold phys_ok; lia). cbn [mbind res_bind].
  assert (canonical (chunk_lo addr p)) by (eapply Level4.span_canonical; [done|lia]).
  assert (canonical addr) by (eapply Level4.span_canonical; [done|lia]).
  rewrite virt_steps_between_spec, (virt_rank_diff addr (chunk_lo addr p)); try done;
    [|unfold Level4.span_ok in Hs; lia].
  cbn. f_equal. f_equal; [f_equal|]; lia.
Qed.

(** The end of the buffer in the address space. *)
Lemma virt_forward_span addr n : Level4.span_ok addr n → virt_forward addr (n - 1) = Some (addr + n - 1).
Proof.
  intros Hs. assert (0 < n) by apply Hs.
  assert (canonical addr) by (eapply Level4.span_canonical; [done|lia]).
  assert (canonical (addr + (n - 1))) by (eapply Level4.span_canonical; [done|lia]).
  assert (addr < 2 ^ 47 ↔ addr + (n - 1) < 2 ^ 47) by (unfold Level4.span_ok in Hs; lia).
  rewrite virt_forward_spec by (done || lia).
  rewrite sign_extend_from by (done || lia).
  rewrite <- (Z.add_sub_assoc addr n 1).
  destruct (Z.ltb_spec (virt_rank addr + (n - 1)) (2 ^ 48)) as [|Hge]; [done|].
  pose proof (virt_rank_bound (addr + (n - 1))) as Hr.
  rewrite (virt_rank_diff addr (addr + (n - 1))) in Hr by done. lia.
Qed.

(** All pages of the range are mapped. *)
Definition span_mapped (s : inner) (a n : Z) : Prop :=
  ∀ p, p ∈ span_pages a n → is_Some (vw s !! p).

Lemma copy_from_spec s addr buf : good s →
  Level4.span_ok addr (Z.of_nat (length buf)) → span_mapped s addr (Z.of_nat (length buf)) →
  returns (copy_from s addr buf) (λ buf', length buf' = length buf ∧
    ∀ i, (i < length buf)%nat → buf' !! i = vread s (addr + Z.of_nat i)).
Proof.
  intros Hg Hs Hmap. set (n := Z.of_nat (length buf)) in *. assert (0 < n) as Hn by apply Hs.
  unfold copy_from. fold n. rewrite sub_u_ok by lia. cbn [mbind res_bind].
  rewrite virt_forward_span by done. cbn [expect_some mbind res_bind].
  rewrite page_range_span by done.
  eapply returns_mono; [apply (foldM_returns _ (λ l buf', length buf' = length buf ∧
    ∀ i, (i < length buf)%nat → buf' !! i =
      if decide (align_down (addr + Z.of_nat i) 4096 ∈ l) then vread s (addr + Z.of_nat i)
      else buf !! i))|].
  - split; [done|]. intros i Hi. rewrite decide_False; [done|]. apply not_elem_of_nil.
  - intros l1 p l2 buf1 Hl [Hlen Hbuf].
    assert (p ∈ span_pages addr n) as Hp by (rewrite Hl; apply elem_of_middle).
    destruct (Hmap p Hp) as [[fr fl] Hv].
    destruct (good_frame s Hg _ _ _ Hv) as (Hfr & H0 & Hb & _ & _).
    destruct (span_page_canonical addr n p) as (Hc & _ & Hpm); [done..|].
    destruct (chunk_bounds addr n p) as (H1 & H2 & H3 & H4 & Hch); [done..|].
    rewrite translate_page_spec by (done || apply Hg). fold (vw s). rewrite Hv.
    cbn [fmap option_fmap option_map expect_some mbind res_bind fst].
    rewrite copy_chunk_ok by done. cbn [mbind res_bind].
    eapply returns_mono; [apply write_slice_ok; rewrite ?length_mem_read; lia|].
    intros buf2 [Hlen2 Hbuf2]. split; [congruence|]. intros i Hi. rewrite Hbuf2, length_mem_read.
    specialize (Hch (addr + Z.of_nat i)). case_decide as Hin.
    + destruct Hch as [Hch _]. destruct Hch as [_ Hpi]; [lia|].
      rewrite mem_read_lookup by lia. rewrite Hpi, decide_True by (apply elem_of_app; right;
        by apply list_elem_of_singleton).
      unfold vread. rewrite Hpi, Hv. do 2 f_equal.
      pose proof (align_down_split (addr + Z.of_nat i)). lia.
    + rewrite Hbuf by lia. assert (align_down (addr + Z.of_nat i) 4096 ≠ p) as Hne by lia.
      apply decide_ext. rewrite elem_of_snoc. naive_solver.
  - cbn. intros buf' [Hlen Hbuf]. split; [done|]. intros i Hi. rewrite Hbuf by lia. rewrite decide_True; [done|].
    apply span_pages_elem; [done|]. exists (addr + Z.of_nat i). split; [lia|done].
Qed.

(** *** Writing *)

(** The address space [img] with the bytes of [buf] written at [addr]. *)
Definition vwrite (img : Z → option Z) (addr : Z) (buf : list Z) : Z → option Z := λ a,
  if decide (addr ≤ a < addr + Z.of_nat (length buf))
  then buf !! Z.to_nat (a - addr) else img a.

(** [s'] has the pages of [s] with the same flags, except that pages of [Q] may be marked
    as copied. *)
Definition same_pages (s s' : inner) (Q : Z → Prop) : Prop := ∀ p,
  match vw s !! p, vw s' !! p with
  | Some (fr, fl), Some (fr', fl') =>
      (¬ Q p ∧ fr' = fr ∧ fl' = fl) ∨ (Q p ∧ fl' = flags_or fl COPIED)
  | None, None => True
  | _, _ => False
  end.

(** Bytes that are protected keep their value and stay protected. *)
Definition keeps_protected (s s' : inner) : Prop :=
  ∀ x, protected s x → protected s' x ∧ memory s' x = memory s x.

Lemma keeps_protected_refl s : keeps_protected s s.
Proof. by split. Qed.
Lemma keeps_protected_trans s1 s2 s3 :
  keeps_protected s1 s2 → keeps_protected s2 s3 → keeps_protected s1 s3.
Proof.
  intros H12 H23 x Hx. destruct (H12 x Hx) as [Hx2 E2]. destruct (H23 x Hx2) as [? E3].
  split; [done|congruence].
Qed.

(** Overwriting part of the frame of a copied page changes the bytes of this page only. *)
Lemma write_copied_vread s p fr fl off bs a : good s → p mod 4096 = 0 →
  vw s !! p = Some (fr, fl) → copied fl → 0 ≤ off → off + Z.of_nat (length bs) ≤ 4096 →
  vread (set_memory s (mem_write (memory s) (fr + off) bs)) a = vwrite (vread s) (p + off) bs a.
Proof.
  intros Hg Hp Hv Hc Ho Hlen. unfold vwrite.
  destruct (good_frame s Hg _ _ _ Hv) as (Hfr & _).
  pose proof (align_down_split a) as Hsp. pose proof (Z.mod_pos_bound a 4096 ltac:(lia)).
  unfold vread at 1. change (vw (set_memory _ _)) with (vw s). cbn [memory set_memory].
  destruct (decide (align_down a 4096 = p)) as [Hap|Hne].
  - rewrite Hap, Hv. case_decide as Hin.
    + rewrite mem_write_in by lia. f_equal. lia.
    + rewrite mem_write_out by lia. unfold vread. by rewrite Hap, Hv.
  - rewrite decide_False.
    2:{ intros Hin. apply Hne, align_down_iff; [done|lia]. }
    unfold vread. destruct (vw s !! align_down a 4096) as [[fr2 fl2]|] eqn:E; [|done].
    destruct (good_frame s Hg _ _ _ E) as (? & _). rewrite mem_write_out; [done|].
    intros Hx. eapply (aligned_disjoint fr fr2 (fr2 + a mod 4096)); [done|done| |lia|lia].
    intros ->. apply Hne. symmetry. by eapply (good_copied s Hg).
Qed.

Lemma write_copied_protected s p fr fl off bs : good s →
  vw s !! p = Some (fr, fl) → copied fl → 0 ≤ off → off + Z.of_nat (length bs) ≤ 4096 →
  keeps_protected s (set_memory s (mem_write (memory s) (fr + off) bs)).
Proof.
  intros Hg Hv Hc Ho Hlen x [Hx1 Hx2]. split; [done|]. cbn. apply mem_write_out. intros Hin.
  destruct (good_frame s Hg _ _ _ Hv) as (Hfr & _).
  apply (Hx2 p fl); [|done]. rewrite Hv. do 2 f_equal. symmetry. apply align_down_iff; [done|lia].
Qed.

Lemma make_mut_protected s p fl n fr' s' fr : good s → vw s !! p = Some (fr, fl) →
  make_mut_post s p fl n (fr', s') → keeps_protected s s'.
Proof.
  intros Hg Hv (Hg' & Hv' & _ & Hm & _ & _ & _ & _ & Hor & _ & Hext) x [Hx1 Hx2].
  split; [split|by apply Hm].
  - intros Hx. by apply Hx1, Hext.
  - intros q fl0. rewrite Hv'. intros [[<- [= Hfr <-]]|[_ E]]%lookup_insert_Some; [|by eapply Hx2].
    intros _. destruct Hor as [Hf|[Hc Hv2]]; [by rewrite Hfr in Hf|]. rewrite Hfr in Hv2. by eapply Hx2.
Qed.

Lemma same_pages_refl s Q : (∀ p, ¬ Q p) → same_pages s s Q.
Proof. intros HQ p. destruct (vw s !! p) as [[]|]; [left; auto|done]. Qed.

Lemma same_pages_step s s1 s2 (Q Q' : Z → Prop) p fr fl fr' : same_pages s s1 Q →
  (∀ q, Q' q ↔ Q q ∨ q = p) → ¬ Q p → vw s1 !! p = Some (fr, fl) →
  vw s2 = <[p := (fr', flags_or fl COPIED)]> (vw s1) → same_pages s s2 Q'.
Proof.
  intros Hs HQ Hp Hv1 Hv2 q. specialize (Hs q). rewrite Hv2.
  destruct (decide (q = p)) as [->|Hne].
  - rewrite lookup_insert_eq. rewrite Hv1 in Hs. destruct (vw s !! p) as [[]|]; [|done].
    right. split; [apply HQ; by right|]. destruct Hs as [(_ & _ & ->)|[? _]]; done.
  - rewrite lookup_insert_ne by done.
    destruct (vw s !! q) as [[]|], (vw s1 !! q) as [[]|]; try done.
    destruct Hs as [[? ?]|[? ?]]; [left|right]; (split; [|done]).
    + intros [?|?]%HQ; done.
    + apply HQ. by left.
Qed.

Lemma same_pages_lookup s s' Q p fr fl : same_pages s s' Q → vw s !! p = Some (fr, fl) →
  ∃ fr' fl', vw s' !! p = Some (fr', fl') ∧
    ((¬ Q p ∧ fr' = fr ∧ fl' = fl) ∨ (Q p ∧ fl' = flags_or fl COPIED)).
Proof.
  intros Hs Hv. specialize (Hs p). rewrite Hv in Hs.
  destruct (vw s' !! p) as [[fr' fl']|]; [|done]. eauto.
Qed.

(** The step of the loop in [copy_to]: a page becomes the loader's own and receives its part
    of the buffer. *)
Lemma copy_to_page s addr buf p fr fl n :
  good s → Level4.span_ok addr (Z.of_nat (length buf)) →
  p ∈ span_pages addr (Z.of_nat (length buf)) → vw s !! p = Some (fr, fl) → left_in s (n + 4) →
  returns
    ('(frame, self) ← make_mut s p;
     '(dest, copy_len, start_offset_in_buf) ←
       copy_chunk addr (addr + Z.of_nat (length buf) - 1) p frame;
     src ← slice_range buf (Z.to_nat start_offset_in_buf)
             (Z.to_nat start_offset_in_buf + Z.to_nat copy_len);
     Ret (set_memory self (mem_write (memory self) dest src)))
    (λ s', good s' ∧ extends s s' ∧ keeps_protected s s' ∧ left_in s' n ∧
       (∃ fr', vw s' = <[p := (fr', flags_or fl COPIED)]> (vw s)) ∧
       ∀ a, vread s' a = if decide (align_down a 4096 = p) then vwrite (vread s) addr buf a
                         else vread s a).
Proof.
  intros Hg Hs Hp Hv Hleft. set (n0 := Z.of_nat (length buf)) in *. assert (0 < n0) as Hn by apply Hs.
  destruct (span_page_canonical addr n0 p) as (Hc & _ & Hpm); [done..|].
  destruct (chunk_bounds addr n0 p) as (H1 & H2 & H3 & H4 & Hch); [done..|].
  eapply returns_bind; [by apply (make_mut_spec s p fr fl n)|].
  intros [fr' s1] Hpost. pose proof (make_mut_protected _ _ _ _ _ _ _ Hg Hv Hpost) as Hprot.
  destruct Hpost as (Hg1 & Hv1 & Hr1 & Hm1 & Hu1 & Hfr1 & H01 & Hb1 & _ & Hl1 & He1).
  rewrite copy_chunk_ok by done. cbn [mbind res_bind].
  set (lo := chunk_lo addr p) in *. set (hi := chunk_hi addr n0 p) in *.
  unfold slice_range. rewrite decide_True by lia. cbn [mbind res_bind].
  set (src := take _ _).
  assert (Z.of_nat (length src) = hi - lo + 1) as Hlen
    by (unfold src; rewrite length_take, length_drop; lia).
  assert (vw s1 !! p = Some (fr', flags_or fl COPIED)) as Hv1p by (by rewrite Hv1, lookup_insert_eq).
  cbn. split_and!; [by apply good_set_memory|by destruct He1 as (? & ? & ?)| |done|by eexists|].
  - eapply keeps_protected_trans; [exact Hprot|].
    eapply write_copied_protected; [done|done|apply copied_or|lia|lia].
  - intros a. rewrite (write_copied_vread s1 p fr' (flags_or fl COPIED));
      [|done|done|done|apply copied_or|lia|lia].
    unfold vwrite. rewrite Hlen, Hr1. fold n0. specialize (Hch a).
    replace (p + (lo - p)) with lo by lia.
    repeat case_decide; try lia; try done. unfold src.
    rewrite lookup_take_lt, lookup_drop by lia. f_equal. lia.
Qed.

Lemma copy_to_spec s addr buf n :
  good s → Level4.span_ok addr (Z.of_nat (length buf)) →
  span_mapped s addr (Z.of_nat (length buf)) →
  left_in s (n + 4 * length (span_pages addr (Z.of_nat (length buf)))) →
  returns (copy_to s addr buf) (λ s', good s' ∧ extends s s' ∧ keeps_protected s s' ∧ left_in s' n ∧
    same_pages s s' (λ p, p ∈ span_pages addr (Z.of_nat (length buf))) ∧
    ∀ a, vread s' a = vwrite (vread s) addr buf a).
Proof.
  intros Hg Hs Hmap Hleft. set (n0 := Z.of_nat (length buf)) in *. assert (0 < n0) as Hn by apply Hs.
  unfold copy_to. fold n0. rewrite sub_u_ok by lia. cbn [mbind res_bind].
  rewrite virt_forward_span by done. cbn [expect_some mbind res_bind].
  rewrite page_range_span by done.
  eapply returns_mono; [apply (foldM_returns _ (λ l s', good s' ∧ extends s s' ∧
    keeps_protected s s' ∧ left_in s' (n + 4 * (length (span_pages addr n0) - length l)) ∧
    same_pages s s' (λ p, p ∈ l) ∧
    ∀ a, vread s' a = if decide (align_down a 4096 ∈ l) then vwrite (vread s) addr buf a
                      else vread s a))|].
  - split_and!; auto using extends_refl, keeps_protected_refl.
    + by rewrite Nat.sub_0_r.
    + apply same_pages_refl. intros p. apply not_elem_of_nil.
  - intros l1 p l2 s1 Hl (Hg1 & He1 & Hp1 & Hl1 & Hs1 & Hr1).
    assert (p ∈ span_pages addr n0) as Hp by (rewrite Hl; apply elem_of_middle).
    assert (p ∉ l1) as Hnp.
    { pose proof (NoDup_pages_from (align_down addr 4096) (span_len addr n0)) as Hnd.
      fold (span_pages addr n0) in Hnd. rewrite Hl in Hnd.
      apply NoDup_app in Hnd as (_ & Hnd & _). intros Hx. apply (Hnd p Hx). by left. }
    destruct (Hmap p Hp) as [[fr fl] Hv].
    destruct (same_pages_lookup _ _ _ _ _ _ Hs1 Hv) as (fr1 & fl1 & Hv1 & _).
    eapply returns_mono.
    { apply (copy_to_page s1 addr buf p fr1 fl1 (n + 4 * (length (span_pages addr n0) - length (l1 ++ [p])))); try done.
      eapply supply_le; [|exact Hl1]. rewrite Hl, !length_app. cbn. lia. }
    intros s2 (Hg2 & He2 & Hp2 & Hl2 & [fr2 Hv2] & Hr2).
    split_and!; try done; [by eapply extends_trans|by eapply keeps_protected_trans| |].
    + eapply same_pages_step; [exact Hs1| |exact Hnp|exact Hv1|exact Hv2]. intros q. apply elem_of_snoc.
    + intros a. rewrite Hr2. destruct (decide (align_down a 4096 = p)) as [Ha|Ha].
      * unfold vwrite. rewrite Hr1, (decide_False (P := _ ∈ l1)) by congruence.
        by rewrite (decide_True (P := _ ∈ l1 ++ [p])) by (apply elem_of_snoc; by right).
      * rewrite Hr1. apply decide_ext. rewrite elem_of_snoc. naive_solver.
  - cbn. intros s' (? & ? & ? & Hl' & ? & Hr). split_and!; try done.
    + eapply supply_le; [|exact Hl']. lia.
    + intros a. rewrite Hr. case_decide as Hin; [done|]. unfold vwrite.
      rewrite decide_False; [done|]. intros Ha. apply Hin, span_pages_elem; [done|]. by exists a.
Qed.

(** ** Zeroed memory *)
Lemma map_zero_page s p fl n msg : good s → canonical p → p mod 4096 = 0 → vw s !! p = None → mappable p →
  Z.testbit fl 0 = true → left_in s (n + 4) →
  returns
    ('(frame, self) ← new_frame s;
     map_page (set_memory self (mem_write (memory self) frame (replicate (Z.to_nat Size4KiB) 0)))
       p frame fl msg)
    (λ s', good s' ∧ extends s s' ∧ keeps_protected s s' ∧ left_in s' n ∧
       (∃ fr, vw s' = <[p := (fr, fl)]> (vw s)) ∧
       ∀ a, vread s' a = if decide (align_down a 4096 = p) then Some 0 else vread s a).
Proof.
  intros Hg Hc Hp Hv Hma Hfl Hleft.
  eapply returns_bind; [apply (new_frame_spec s (n + 3)); [done|]; by replace (S (n + 3)) with (n + 4)%nat by lia|].
  intros [fr s1] (Hg1 & Hfr & Hnf & Ha & H0 & Hb & Hun & Hv1 & Hm1 & Hs1 & He1).
  eapply returns_mono; [eapply (map_page_spec _ p fr fl n); try done|].
  - by apply good_set_memory.
  - change (vw s1 !! p = None). by rewrite Hv1.
  - intros q fl'. change (vw s1 !! q = Some (fr, fl') → ¬ copied fl' ∧ ¬ copied fl).
    rewrite Hv1. intros E. by apply Hun in E.
  - intros s2 (Hg2 & Hv2 & Hm2 & Hl2 & He2). change (vw (set_memory s1 _)) with (vw s1) in Hv2.
    cbn [memory set_memory] in Hm2. rewrite Hv1 in Hv2. rewrite Hm1 in Hm2.
    assert (extends s s2) as He by (eapply extends_trans; [exact He1|exact He2]).
    assert (∀ x, ¬ fresh_in s (align_down x 4096) → memory s2 x = memory s x) as Hmem.
    { intros x Hx. rewrite Hm2. apply mem_write_out. rewrite length_replicate. intros Hin. apply Hx.
      replace (align_down x 4096) with fr; [done|]. symmetry. apply align_down_iff; [done|].
      change (Z.of_nat (Z.to_nat Size4KiB)) with 4096 in Hin. lia. }
    split_and!; try done; [|by eexists|].
    + intros x [Hx1 Hx2]. split; [split|by apply Hmem].
      * intros Hx. by apply Hx1, He.
      * intros q fl0. rewrite Hv2. intros [[<- [= E <-]]|[_ E]]%lookup_insert_Some; [|by eapply Hx2].
        by rewrite <- E in Hx1.
    + intros a. case_decide as Hap.
      * unfold vread. rewrite Hap, Hv2, lookup_insert_eq, Hm2. f_equal.
        pose proof (Z.mod_pos_bound a 4096). apply mem_zero.
        change (Z.of_nat (Z.to_nat Size4KiB)) with 4096. lia.
      * apply vread_same; [done| |done]. by rewrite Hv2, lookup_insert_ne by done.
Qed.

(** The loop over a list of pages in [handle_bss_section]. *)
Lemma map_zero_pages s pages fl n msg : good s → NoDup pages →
  Forall (λ p, canonical p ∧ p mod 4096 = 0 ∧ vw s !! p = None ∧ mappable p) pages →
  Z.testbit fl 0 = true → left_in s (n + 4 * length pages) →
  returns
    (foldM (λ self page,
       '(frame, self) ← new_frame self;
       let self := set_memory self
         (mem_write (memory self) frame (replicate (Z.to_nat Size4KiB) 0)) in
       map_page self page frame fl msg) s pages)
    (λ s', good s' ∧ extends s s' ∧ keeps_protected s s' ∧ left_in s' n ∧
       (∀ p, if decide (p ∈ pages) then ∃ fr, vw s' !! p = Some (fr, fl) else vw s' !! p = vw s !! p) ∧
       ∀ a, vread s' a = if decide (align_down a 4096 ∈ pages) then Some 0 else vread s a).
Proof.
  intros Hg Hnd Hall Hfl Hleft. rewrite Forall_forall in Hall.
  eapply returns_mono; [apply (foldM_returns _ (λ l s', good s' ∧ extends s s' ∧
    keeps_protected s s' ∧ left_in s' (n + 4 * (length pages - length l)) ∧
    (∀ p, if decide (p ∈ l) then ∃ fr, vw s' !! p = Some (fr, fl) else vw s' !! p = vw s !! p) ∧
    ∀ a, vread s' a = if decide (align_down a 4096 ∈ l) then Some 0 else vread s a))|].
  - split_and!; auto using extends_refl, keeps_protected_refl; try by rewrite Nat.sub_0_r.
    intros p. rewrite decide_False; [done|apply not_elem_of_nil].
  - intros l1 p l2 s1 -> (Hg1 & He1 & Hp1 & Hl1 & Hv1 & Hr1).
    destruct (Hall p) as (Hc & Hpm & Hv & Hma); [apply elem_of_middle|].
    assert (p ∉ l1) as Hnp.
    { apply NoDup_app in Hnd as (_ & Hnd & _). intros Hx. apply (Hnd p Hx). by left. }
    eapply returns_mono.
    { apply (map_zero_page s1 p fl (n + 4 * (length (l1 ++ p :: l2) - length (l1 ++ [p]))) msg); try done.
      - specialize (Hv1 p). rewrite decide_False in Hv1 by done. congruence.
      - eapply supply_le; [|exact Hl1]. rewrite !length_app. cbn. lia. }
    intros s2 (Hg2 & He2 & Hp2 & Hl2 & [fr Hv2] & Hr2).
    split_and!; try done; [by eapply extends_trans|by eapply keeps_protected_trans| |].
    + intros q. specialize (Hv1 q). rewrite Hv2. destruct (decide (q = p)) as [->|Hne].
      * rewrite decide_True by (apply elem_of_snoc; by right). rewrite lookup_insert_eq. eauto.
      * rewrite lookup_insert_ne by done.
        rewrite (decide_ext (q ∈ l1 ++ [p]) (q ∈ l1)) by (rewrite elem_of_snoc; naive_solver). done.
    + intros a. rewrite Hr2, Hr1. destruct (decide (align_down a 4096 = p)).
      * by rewrite decide_True by (apply elem_of_snoc; by right).
      * apply decide_ext. rewrite elem_of_snoc. naive_solver.
  - intros s' (? & ? & ? & Hl' & ? & ?). split_and!; try done.
    eapply supply_le; [|exact Hl']. lia.
Qed.

(** ** Segments *)

(** The place of a segment in virtual and in physical memory. *)
Definition seg_addr (s : inner) (h : Elf.ProgramHeader) : Z :=
  virtual_address_offset s + Elf.virtual_addr h.
Definition seg_phys (s : inner) (h : Elf.ProgramHeader) : Z := kernel_offset s + Elf.offset h.
Definition seg_pages (s : inner) (h : Elf.ProgramHeader) : list Z :=
  span_pages (seg_addr s h) (Elf.mem_size h).

(** A loadable segment: its sizes and addresses make sense, and its place in the file is
    congruent to its virtual address modulo the page size. *)
Record seg_ok (s : inner) (h : Elf.ProgramHeader) : Prop := {
  seg_sizes : 0 ≤ Elf.file_size h ≤ Elf.mem_size h ∧ 0 < Elf.mem_size h;
  seg_span : Level4.span_ok (seg_addr s h) (Elf.mem_size h + 4096);
  seg_range : 0 ≤ kernel_offset s ∧ 0 ≤ Elf.offset h ∧
    0 < seg_phys s h ∧ seg_phys s h + Elf.file_size h + 4096 < 2 ^ 52;
  seg_congruent : seg_phys s h mod 4096 = seg_addr s h mod 4096;
}.

Lemma seg_span_ok s h : seg_ok s h → Level4.span_ok (seg_addr s h) (Elf.mem_size h).
Proof. intros [? ? ? ?]. unfold Level4.span_ok in *. lia. Qed.

(** The pages behind the file's data that hold only zeros. *)
Definition bss_pages (s : inner) (h : Elf.ProgramHeader) : list Z :=
  let z := align_up (seg_addr s h + Elf.file_size h) 4096 in
  span_pages z (seg_addr s h + Elf.mem_size h - z).

Lemma bss_pages_elem s h p : p ∈ bss_pages s h ↔
  p mod 4096 = 0 ∧ align_up (seg_addr s h + Elf.file_size h) 4096 ≤ p ≤ seg_addr s h + Elf.mem_size h - 1.
Proof.
  unfold bss_pages. rewrite span_pages_range.
  destruct (align_up_bounds (seg_addr s h + Elf.file_size h) 4096) as [_ Hm]; [lia|].
  rewrite (align_down_id _ _ Hm). lia.
Qed.

(** The addresses that [handle_bss_section] computes. *)
Lemma bss_page_range s h : seg_ok s h →
  page_range_inclusive (align_up (seg_addr s h + Elf.file_size h) 4096)
    (page_containing (seg_addr s h + Elf.mem_size h - 1)) = bss_pages s h.
Proof.
  intros Hok. pose proof (seg_sizes _ _ Hok). pose proof (seg_span _ _ Hok) as Hs.
  destruct (align_up_bounds (seg_addr s h + Elf.file_size h) 4096) as [Hz Hzm]; [lia|].
  set (v := seg_addr s h) in *. set (z := align_up _ _) in *.
  assert (canonical z) by (eapply Level4.span_canonical; [exact Hs|lia]).
  assert (canonical (v + Elf.mem_size h - 1)) by (eapply Level4.span_canonical; [exact Hs|lia]).
  destruct (span_page_canonical v (Elf.mem_size h + 4096) (align_down (v + Elf.mem_size h - 1) 4096))
    as (? & _ & ?); [done|apply span_pages_elem; [lia|]; exists (v + Elf.mem_size h - 1); split; [lia|done]|].
  rewrite page_containing_spec by done.
  rewrite page_range_from; try done.
  - unfold bss_pages, span_pages, span_len. fold v z. rewrite (align_down_id z) by done.
    replace (z + (v + Elf.mem_size h - z) - 1) with (v + Elf.mem_size h - 1) by lia. done.
  - pose proof (align_down_le (v + Elf.mem_size h - 1) 4096).
    pose proof (align_down_gt (v + Elf.mem_size h - 1) 4096).
    unfold Level4.span_ok, canonical in *. lia.
Qed.

(** Zeroing the rest of the last page of the file's data. *)
Lemma zero_tail_spec s zs fr fl n : good s → canonical (zs - 1) → zs mod 4096 ≠ 0 →
  canonical (align_down (zs - 1) 4096) →
  vw s !! align_down (zs - 1) 4096 = Some (fr, fl) → left_in s (n + 4) →
  returns
    ('(new_frame, self) ← make_mut s (page_containing (zs - 1));
     Ret (set_memory self
            (mem_write (memory self) (new_frame + zs mod 4096)
               (replicate (Z.to_nat (Size4KiB - zs mod 4096)) 0))))
    (λ s', good s' ∧ extends s s' ∧ keeps_protected s s' ∧ left_in s' n ∧
       (∃ fr', vw s' = <[align_down (zs - 1) 4096 := (fr', flags_or fl COPIED)]> (vw s)) ∧
       ∀ a, vread s' a = if decide (zs ≤ a < align_up zs 4096) then Some 0 else vread s a).
Proof.
  intros Hg Hc Hr Hcp Hv Hleft. rewrite page_containing_spec by done.
  set (p := align_down (zs - 1) 4096) in *.
  assert (p mod 4096 = 0) as Hpm by (by apply align_down_mod).
  assert (p ≤ zs - 1 < p + 4096) as Hpb by (by apply align_down_iff).
  clearbody p. pose proof (Z.mod_pos_bound zs 4096 ltac:(lia)) as Hrb.
  assert (p + zs mod 4096 = zs) as Hzs.
  { pose proof (align_down_split zs). enough (align_down zs 4096 = p) by lia.
    apply align_down_iff; [done|]. split; [lia|].
    destruct (Z.eq_dec zs (p + 4096)) as [->|]; [|lia].
    destruct Hr. rewrite <- Zplus_mod_idemp_l, Hpm. done. }
  assert (align_up zs 4096 = p + 4096) as Hup.
  { destruct (align_up_bounds zs 4096) as [Hz1 Hz2]; [lia|].
    apply Z.mod_divide in Hz2 as [k Hk]; [|lia]. apply Z.mod_divide in Hpm as [j Hj]; [|lia]. lia. }
  eapply returns_bind; [by apply (make_mut_spec s p fr fl n)|].
  intros [fr' s1] Hpost. pose proof (make_mut_protected _ _ _ _ _ _ _ Hg Hv Hpost) as Hprot.
  destruct Hpost as (Hg1 & Hv1 & Hr1 & _ & _ & Hfr1 & _ & _ & _ & Hl1 & He1).
  assert (vw s1 !! p = Some (fr', flags_or fl COPIED)) as Hv1p by (by rewrite Hv1, lookup_insert_eq).
  cbn [returns]. split_and!; [by apply good_set_memory|by destruct He1 as (? & ? & ?)| |done|by eexists|].
  - eapply keeps_protected_trans; [exact Hprot|].
    eapply write_copied_protected; [done|done|apply copied_or|lia|].
    rewrite length_replicate. unfold Size4KiB. lia.
  - intros a. rewrite (write_copied_vread s1 p fr' (flags_or fl COPIED));
      [|done|done|done|apply copied_or|lia|rewrite length_replicate; unfold Size4KiB; lia].
    unfold vwrite. rewrite Hr1, length_replicate. unfold Size4KiB.
    repeat case_decide; try lia; try done. apply lookup_replicate_2. lia.
Qed.

(** The effect of [handle_bss_section] on the page table. *)
Definition bss_mapped (s s' : inner) (h : Elf.ProgramHeader) (fl : Z) : Prop :=
  let zs := seg_addr s h + Elf.file_size h in
  (∀ p, p ∈ bss_pages s h → ∃ fr, vw s' !! p = Some (fr, fl)) ∧
  ∀ p, p ∉ bss_pages s h → vw s' !! p = vw s !! p ∨
    (zs mod 4096 ≠ 0 ∧ p = align_down (zs - 1) 4096 ∧
     ∃ fr fr', vw s !! p = Some (fr, fl) ∧ vw s' !! p = Some (fr', flags_or fl COPIED)).

Lemma bss_cond zs ze a : zs < ze →
  (zs ≤ a < align_up zs 4096) ∨
  (align_down a 4096 mod 4096 = 0 ∧ align_up zs 4096 ≤ align_down a 4096 ≤ ze - 1) ↔
  zs ≤ a ∧ align_down a 4096 ≤ ze - 1.
Proof.
  intros Hlt. pose proof (align_down_mod a 4096 ltac:(lia)) as Ham.
  pose proof (align_down_le a 4096). pose proof (align_down_gt a 4096).
  destruct (align_up_bounds zs 4096) as [? Hzm]; [lia|].
  assert (align_up zs 4096 ≤ a → align_up zs 4096 ≤ align_down a 4096)
    by (intros; by apply aligned_le_align_down).
  pose proof Ham as Ha. apply Z.mod_divide in Ha as [j Hj]; [|lia].
  apply Z.mod_divide in Hzm as [k Hk]; [|lia]. lia.
Qed.

Lemma handle_bss_section_spec s h fl n : good s → seg_ok s h → Elf.file_size h < Elf.mem_size h →
  let zs := seg_addr s h + Elf.file_size h in
  (zs mod 4096 ≠ 0 → ∃ fr, vw s !! align_down (zs - 1) 4096 = Some (fr, fl)) →
  Forall (λ p, vw s !! p = None ∧ mappable p) (bss_pages s h) →
  Z.testbit fl 0 = true → left_in s (n + 4 * length (bss_pages s h) + 4) →
  returns (handle_bss_section s h fl) (λ s', good s' ∧ extends s s' ∧ keeps_protected s s' ∧ left_in s' n ∧
    bss_mapped s s' h fl ∧
    ∀ a, vread s' a =
      if decide (zs ≤ a ∧ align_down a 4096 ≤ seg_addr s h + Elf.mem_size h - 1) then Some 0 else vread s a).
Proof.
  intros Hg Hok Hlt zs Hlast Hnone Hfl Hleft.
  pose proof (seg_sizes _ _ Hok) as Hsz. pose proof (seg_span _ _ Hok) as Hs.
  set (v := seg_addr s h) in *. set (ze := v + Elf.mem_size h) in *.
  assert (∀ x, v ≤ x ≤ v + (Elf.mem_size h + 4096) → canonical x) as Hcan
    by (intros; by eapply Level4.span_canonical).
  assert (0 ≤ v ∧ v + Elf.mem_size h + 4096 < 2 ^ 64) as Hv64 by (unfold Level4.span_ok in Hs; lia).
  destruct (align_up_bounds zs 4096) as [Hz Hzm]; [lia|].
  unfold handle_bss_section. rewrite Elf.vao_add_ok by (unfold is_uint; fold (seg_addr s h); lia).
  fold (seg_addr s h). fold v. cbn [mbind res_bind].
  rewrite virt_new_canonical by (apply Hcan; lia). cbn [mbind res_bind].
  rewrite !virt_add_new, !virt_new_canonical by (try apply Hcan; lia). cbn [mbind res_bind].
  fold zs ze. change 4095 with (Z.ones 12). rewrite Z.land_ones by lia. change (2 ^ 12) with 4096.
  eapply (returns_bind _ _ (λ s1, good s1 ∧ extends s s1 ∧ keeps_protected s s1 ∧
    left_in s1 (n + 4 * length (bss_pages s h)) ∧
    (∀ p, vw s1 !! p = vw s !! p ∨
      (zs mod 4096 ≠ 0 ∧ p = align_down (zs - 1) 4096 ∧
       ∃ fr fr', vw s !! p = Some (fr, fl) ∧ vw s1 !! p = Some (fr', flags_or fl COPIED))) ∧
    ∀ a, vread s1 a = if decide (zs ≤ a < align_up zs 4096) then Some 0 else vread s a)).
  { destruct (Z.eqb_spec (zs mod 4096) 0) as [Hr|Hr].
    - assert (align_up zs 4096 = zs) as Hup.
      { apply Z.mod_divide in Hr as [k Hk]; [|lia]. apply Z.mod_divide in Hzm as [j Hj]; lia. }
      cbn. split_and!; auto using extends_refl, keeps_protected_refl.
      + eapply supply_le; [|exact Hleft]. lia.
      + intros a. rewrite decide_False by lia. done.
    - destruct (Hlast Hr) as [fr Hv].
      assert (align_down (zs - 1) 4096 ∈ span_pages v (Elf.mem_size h + 4096)) as Hin.
      { apply span_pages_range. split; [by apply align_down_mod|]. pose proof (align_down_le (zs - 1) 4096).
        split; [|lia]. destruct (Z.eq_dec (Elf.file_size h) 0) as [E|].
        - replace zs with v in * by lia. pose proof (align_down_split v).
          pose proof (Z.mod_pos_bound v 4096). apply aligned_le_align_down; [lia|by apply align_down_mod|lia].
        - apply align_down_mono; lia. }
      destruct (span_page_canonical v (Elf.mem_size h + 4096) _ Hs Hin) as (Hcp & _ & _).
      assert (canonical (zs - 1)) as Hcz.
      { pose proof (align_down_le (zs - 1) 4096). pose proof (align_down_gt (zs - 1) 4096).
        destruct (Z.eq_dec (Elf.file_size h) 0) as [E|]; [|apply Hcan; lia].
        replace zs with v in * by lia. pose proof (align_down_split v).
        pose proof (Z.mod_pos_bound v 4096). pose proof (Hcan v).
        unfold canonical in *. lia. }
      assert (1 ≤ zs) by (pose proof (Z.mod_0_l 4096); destruct (Z.eq_dec zs 0) as [E|]; [by rewrite E in Hr|lia]).
      rewrite virt_sub_new, virt_new_canonical by (done || (try apply Hcan; lia)).
      cbn [mbind res_bind].
      eapply returns_mono; [by apply (zero_tail_spec s zs fr fl (n + 4 * length (bss_pages s h)))|].
      intros s1 (? & ? & ? & ? & [fr' Hv1] & ?). split_and!; try done.
      intros p. rewrite Hv1. destruct (decide (p = align_down (zs - 1) 4096)) as [->|Hne].
      + right. rewrite lookup_insert_eq. split_and!; eauto.
      + left. by rewrite lookup_insert_ne. }
  intros s1 (Hg1 & He1 & Hp1 & Hl1 & Hv1 & Hr1).
  change (align_up zs Size4KiB) with (align_up zs 4096).
  rewrite virt_new_canonical by (apply Hcan; lia). cbn [mbind res_bind].
  rewrite virt_sub_new, virt_new_canonical by (try apply Hcan; lia). cbn [mbind res_bind].
  rewrite (page_containing_spec (align_up zs 4096)) by (apply Hcan; lia).
  rewrite (align_down_id _ _ Hzm). unfold zs, ze, v. rewrite bss_page_range by done. fold v ze zs.
  assert (∀ p, p ∈ bss_pages s h → vw s1 !! p = None) as Hnone1.
  { rewrite Forall_forall in Hnone. intros p Hp. destruct (Hnone p Hp) as [Hn _].
    destruct (Hv1 p) as [->|(_ & _ & fr & fr' & E & _)]; [done|congruence]. }
  eapply returns_mono; [apply (map_zero_pages s1 (bss_pages s h) fl n)|]; try done.
  - apply NoDup_pages_from.
  - apply Forall_forall. intros p Hp. destruct (proj1 (bss_pages_elem _ _ _) Hp) as [Hpm Hpr].
    rewrite Forall_forall in Hnone. destruct (Hnone p Hp) as [_ Hma].
    split_and!; [|done|by apply Hnone1|done]. fold v zs ze in Hpr. apply Hcan. lia.
  - intros s2 (Hg2 & He2 & Hp2 & Hl2 & Hv2 & Hr2).
    split_and!; [exact Hg2|by eapply extends_trans|by eapply keeps_protected_trans|exact Hl2| |].
    + split; intros p Hp; specialize (Hv2 p).
      * by rewrite decide_True in Hv2 by done.
      * rewrite decide_False in Hv2 by done. fold v zs. rewrite Hv2. apply Hv1.
    + intros a. rewrite Hr2, Hr1, (decide_ext _ _ _ _ (bss_pages_elem s h _)). fold v zs ze.
      pose proof (bss_cond zs ze a ltac:(lia)). clear -H. repeat case_decide; done || tauto.
Qed.

(** *** The part of a segment that is in the file *)
Definition seg_frames (s : inner) (h : Elf.ProgramHeader) : list Z :=
  span_pages (seg_phys s h) (Elf.file_size h).
(** The distance between the virtual and the physical place of a segment. *)
Definition seg_shift (s : inner) (h : Elf.ProgramHeader) : Z := seg_addr s h - seg_phys s h.

Lemma seg_shift_aligned s h : seg_ok s h → seg_shift s h mod 4096 = 0.
Proof.
  intros Hok. unfold seg_shift. rewrite Zminus_mod, (seg_congruent _ _ Hok), Z.sub_diag. done.
Qed.

Lemma align_down_shift a d : d mod 4096 = 0 →
  align_down (a + d) 4096 = align_down a 4096 + d ∧ (a + d) mod 4096 = a mod 4096.
Proof.
  intros Hd. apply Z.mod_divide in Hd as [k ->]; [|lia]. unfold align_down.
  rewrite Z_mod_plus_full. lia.
Qed.

(** The frames of the file that are mapped, and the pages they are mapped to. *)
Lemma seg_frame_elem s h f : seg_ok s h → f ∈ seg_frames s h →
  f mod 4096 = 0 ∧ 0 ≤ f ∧ f + 4096 < 2 ^ 52 ∧
  (∃ i, 0 ≤ i < Z.max 1 (Elf.file_size h) ∧ align_down (seg_phys s h + i) 4096 = f) ∧
  f + seg_shift s h ∈ seg_pages s h ∧ f + seg_shift s h ≤ seg_addr s h + Elf.file_size h - 1.
Proof.
  intros Hok [Hm Hr]%span_pages_range. pose proof (seg_sizes _ _ Hok).
  pose proof (seg_range _ _ Hok). pose proof (seg_shift_aligned _ _ Hok) as Hd.
  pose proof (align_down_nonneg (seg_phys s h) 4096).
  pose proof (align_down_gt (seg_phys s h) 4096). pose proof (align_down_le (seg_phys s h) 4096).
  split_and!; try lia.
  - exists (Z.max 0 (f - seg_phys s h)). split; [lia|]. apply align_down_iff; [done|].
    pose proof (align_down_mod (seg_phys s h) 4096 ltac:(lia)) as Hp.
    apply Z.mod_divide in Hm as [k ->]; [|lia]. apply Z.mod_divide in Hp as [j Hj]; [|lia]. lia.
  - apply span_pages_range. unfold seg_shift in *. split.
    + rewrite Zplus_mod, Hm, Hd. done.
    + pose proof (align_down_shift (seg_phys s h) _ Hd) as [Hs _].
      replace (seg_phys s h + (seg_addr s h - seg_phys s h)) with (seg_addr s h) in Hs by lia. lia.
  - unfold seg_shift. lia.
Qed.

Lemma segment_flags_bits h :
  Z.testbit (segment_flags h) 0 = true ∧ Z.testbit (segment_flags h) 9 = false.
Proof. unfold segment_flags. by destruct (Elf.is_execute h), (Elf.is_write h). Qed.

Lemma segment_flags_copied h : ¬ copied (segment_flags h).
Proof. rewrite copied_bit. destruct (segment_flags_bits h) as [_ ->]. done. Qed.

(** The hypotheses on the state before a segment is loaded: its pages are not mapped yet,
    and its part of the file is protected. *)
Record seg_ready (s : inner) (h : Elf.ProgramHeader) : Prop := {
  ready_ok : seg_ok s h;
  ready_unmapped p : p ∈ seg_pages s h → vw s !! p = None;
  ready_mappable p : p ∈ seg_pages s h → mappable p;
  ready_file i : 0 ≤ i < Z.max 1 (Elf.file_size h) → protected s (seg_phys s h + i);
}.

(** The state after the frames in [l] were mapped. *)
Definition file_mapped (s s' : inner) (h : Elf.ProgramHeader) (l : list Z) : Prop :=
  good s' ∧ extends s s' ∧ memory s' = memory s ∧
  ∀ p, vw s' !! p = if decide (p - seg_shift s h ∈ l)
                    then Some (p - seg_shift s h, segment_flags h) else vw s !! p.

Lemma map_file_frame s s1 h l f n msg : seg_ready s h →
  file_mapped s s1 h l → (∀ g, g ∈ l → g ∈ seg_frames s h) →
  f ∈ seg_frames s h → f ∉ l → left_in s1 (n + 3) →
  returns (map_page s1 (f + seg_shift s h) f (segment_flags h) msg) (λ s2,
    file_mapped s s2 h (l ++ [f]) ∧ left_in s2 n).
Proof.
  intros Hrdy (Hg1 & He1 & Hm1 & Hv1) Hl Hf Hnf Hleft. pose proof (ready_ok _ _ Hrdy) as Hok.
  destruct (seg_frame_elem s h f Hok Hf) as (Hfm & H0 & Hb & (i & Hi & Hif) & Hpg & _).
  destruct (segment_flags_bits h) as [Hb0 _].
  destruct (ready_file _ _ Hrdy i Hi) as [Hp1 Hp2]. rewrite Hif in *.
  destruct (span_page_canonical _ _ _ (seg_span_ok _ _ Hok) Hpg) as (Hc & _ & Hpm).
  eapply returns_mono; [apply (map_page_spec s1 _ f (segment_flags h) n); try done|].
  - rewrite Hv1. replace (f + seg_shift s h - seg_shift s h) with f by lia.
    rewrite decide_False by done. by apply (ready_unmapped _ _ Hrdy).
  - by apply (ready_mappable _ _ Hrdy).
  - intros Hx. by apply Hp1, He1.
  - intros q fl'. rewrite Hv1. intros Hq. split; [|apply segment_flags_copied].
    case_decide; [|by eapply Hp2]. injection Hq as _ <-. apply segment_flags_copied.
  - intros s2 (Hg2 & Hv2 & Hm2 & Hl2 & He2). split; [|done].
    split_and!; [done|by eapply extends_trans|congruence|]. intros p. rewrite Hv2.
    destruct (decide (p = f + seg_shift s h)) as [->|Hne].
    + rewrite lookup_insert_eq. replace (f + seg_shift s h - seg_shift s h) with f by lia.
      by rewrite decide_True by (apply elem_of_snoc; by right).
    + rewrite lookup_insert_ne, Hv1 by done. apply decide_ext. rewrite elem_of_snoc.
      split; [by left|]. intros [?|?]; [done|lia].
Qed.

Lemma map_file_frames s h n : good s → seg_ready s h →
  left_in s (n + 3 * length (seg_frames s h)) →
  returns
    (foldM (λ self frame,
       let offset := (frame - align_down (seg_phys s h) 4096) / Size4KiB in
       page ← page_add (align_down (seg_addr s h) 4096) offset;
       map_page self page frame (segment_flags h) "map_to failed") s (seg_frames s h))
    (λ s', file_mapped s s' h (seg_frames s h) ∧ left_in s' n).
Proof.
  intros Hg Hrdy Hleft. pose proof (ready_ok _ _ Hrdy) as Hok.
  eapply returns_mono; [apply (foldM_returns _ (λ l s', file_mapped s s' h l ∧
    left_in s' (n + 3 * (length (seg_frames s h) - length l))))|].
  - split; [|by rewrite Nat.sub_0_r]. split_and!; [done|apply extends_refl|done|].
    intros p. rewrite decide_False; [done|apply not_elem_of_nil].
  - intros l1 f l2 s1 Hl [Hm1 Hl1].
    assert (f ∈ seg_frames s h) as Hf by (rewrite Hl; apply elem_of_middle).
    assert (f ∉ l1) as Hnf.
    { pose proof (NoDup_pages_from (align_down (seg_phys s h) 4096) (span_len (seg_phys s h) (Elf.file_size h))) as Hnd.
      change (NoDup (seg_frames s h)) in Hnd. rewrite Hl in Hnd.
      apply NoDup_app in Hnd as (_ & Hnd & _). intros Hx. apply (Hnd f Hx). by left. }
    pose proof Hf as Hfi. apply elem_of_pages_from in Hfi as (i & Hi & Hfi).
    destruct (seg_frame_elem s h f Hok Hf) as (_ & _ & _ & _ & Hpg & _).
    destruct (span_page_canonical _ _ _ (seg_span_ok _ _ Hok) Hpg) as (Hc & _ & Hpm).
    destruct (align_down_shift (seg_phys s h) _ (seg_shift_aligned _ _ Hok)) as [Hsh _].
    unfold seg_shift in Hsh at 1.
    replace (seg_phys s h + (seg_addr s h - seg_phys s h)) with (seg_addr s h) in Hsh by lia.
    cbv beta zeta. replace ((f - align_down (seg_phys s h) 4096) / Size4KiB) with i
      by (unfold Size4KiB; apply Z.div_unique_exact; lia).
    assert (align_down (seg_addr s h) 4096 ∈ seg_pages s h) as Hfirst.
    { pose proof (seg_sizes _ _ Hok). apply span_pages_elem; [lia|]. exists (seg_addr s h). split; [lia|done]. }
    destruct (span_page_canonical _ _ _ (seg_span_ok _ _ Hok) Hfirst) as (Hc0 & _ & Hpm0).
    rewrite page_add_ok; [|done|done|lia|by replace (align_down (seg_addr s h) 4096 + i * 4096) with (f + seg_shift s h) by lia].
    cbn [mbind res_bind]. replace (align_down (seg_addr s h) 4096 + i * 4096) with (f + seg_shift s h) by lia.
    apply (map_file_frame s s1 h l1); try done.
    + intros g Hgl. rewrite Hl. apply elem_of_app. by left.
    + eapply supply_le; [|exact Hl1]. rewrite Hl, !length_app. cbn. lia.
  - intros s' [Hm' Hl']. split; [done|]. eapply supply_le; [|exact Hl']. lia.
Qed.

Lemma file_mapped_vread s s1 h a : good s → seg_ok s h → file_mapped s s1 h (seg_frames s h) →
  vread s1 a = if decide (align_down a 4096 - seg_shift s h ∈ seg_frames s h)
               then Some (memory s (a - seg_shift s h)) else vread s a.
Proof.
  intros Hg Hok (_ & _ & Hm & Hv). unfold vread. rewrite Hv, Hm. case_decide; [|done].
  do 2 f_equal. pose proof (align_down_split a). lia.
Qed.

Lemma file_mapped_protected s s1 h l : file_mapped s s1 h l → keeps_protected s s1.
Proof.
  intros (_ & He & Hm & Hv) x [Hx1 Hx2]. split; [split|by rewrite Hm].
  - intros Hx. by apply Hx1, He.
  - intros p fl. rewrite Hv. case_decide; [|by apply Hx2]. intros [= _ <-]. apply segment_flags_copied.
Qed.

(** A frame of the file is mapped exactly for the pages that begin before the end of the
    file's data. *)
Lemma seg_page_frame s h p : seg_ok s h → p ∈ seg_pages s h →
  p - seg_shift s h ∈ seg_frames s h ↔ p < seg_addr s h + Elf.file_size h.
Proof.
  intros Hok [Hpm Hpr]%span_pages_range. pose proof (seg_shift_aligned _ _ Hok) as Hd.
  destruct (align_down_shift (seg_phys s h) _ Hd) as [Hsh _].
  replace (seg_phys s h + seg_shift s h) with (seg_addr s h) in Hsh by (unfold seg_shift; lia).
  unfold seg_frames. rewrite span_pages_range. unfold seg_shift in *.
  assert ((p - (seg_addr s h - seg_phys s h)) mod 4096 = 0) by (rewrite Zminus_mod, Hpm, Hd; done).
  lia.
Qed.

Lemma seg_page_split s h p : seg_ok s h → p ∈ seg_pages s h →
  p ∈ bss_pages s h ∨ p - seg_shift s h ∈ seg_frames s h.
Proof.
  intros Hok Hp. rewrite (seg_page_frame s h p Hok Hp), bss_pages_elem.
  apply span_pages_range in Hp as [Hpm Hpr].
  destruct (align_up_bounds (seg_addr s h + Elf.file_size h) 4096) as [Hz Hzm]; [lia|].
  apply Z.mod_divide in Hzm as [k Hk]; [|lia]. pose proof Hpm as Hm.
  apply Z.mod_divide in Hm as [j Hj]; [|lia]. lia.
Qed.

Lemma bss_page_seg s h p : seg_ok s h → p ∈ bss_pages s h →
  p ∈ seg_pages s h ∧ p - seg_shift s h ∉ seg_frames s h.
Proof.
  intros Hok [Hpm Hpr]%bss_pages_elem. pose proof (seg_sizes _ _ Hok).
  destruct (align_up_bounds (seg_addr s h + Elf.file_size h) 4096) as [Hz Hzm]; [lia|].
  assert (p ∈ seg_pages s h) as Hp.
  { apply span_pages_range. pose proof (align_down_le (seg_addr s h) 4096). lia. }
  split; [done|]. rewrite seg_page_frame by done. lia.
Qed.

Lemma length_seg_lists s h : seg_ok s h →
  (length (seg_frames s h) ≤ length (seg_pages s h))%nat ∧
  (length (bss_pages s h) ≤ length (seg_pages s h))%nat.
Proof.
  intros Hok. split.
  - rewrite <- (length_fmap (λ f, f + seg_shift s h) (seg_frames s h)).
    apply submseteq_length, NoDup_submseteq.
    + apply NoDup_fmap_2; [intros ?? ?; lia|apply NoDup_pages_from].
    + intros p (f & -> & Hf)%list_elem_of_fmap. by apply (seg_frame_elem s h f Hok).
  - apply submseteq_length, NoDup_submseteq; [apply NoDup_pages_from|].
    intros p Hp. by apply (bss_page_seg s h p Hok).
Qed.

(** The byte at the address [a] of the pages of a segment: it is taken from the same place
    of the file, and is zero behind the data when the segment is larger in memory. *)
Definition seg_byte (s : inner) (h : Elf.ProgramHeader) (a : Z) : Z :=
  if decide (Elf.file_size h < Elf.mem_size h ∧ seg_addr s h + Elf.file_size h ≤ a) then 0
  else memory s (a - seg_shift s h).

Lemma seg_byte_file s h i : seg_ok s h → 0 ≤ i < Elf.mem_size h →
  seg_byte s h (seg_addr s h + i) =
    if decide (i < Elf.file_size h) then memory s (seg_phys s h + i) else 0.
Proof.
  intros Hok Hi. pose proof (seg_sizes _ _ Hok). unfold seg_byte.
  unfold seg_shift. repeat case_decide; try lia. f_equal. lia.
Qed.

(** What loading a segment achieves: its pages are mapped with its flags, its bytes are
    those of the file followed by zeros, and nothing else changes. *)
Record seg_loaded (s s' : inner) (h : Elf.ProgramHeader) : Prop := {
  loaded_bytes a : align_down a 4096 ∈ seg_pages s h → vread s' a = Some (seg_byte s h a);
  loaded_flags p : p ∈ seg_pages s h →
    ∃ fr fl, vw s' !! p = Some (fr, fl) ∧ flags_without fl COPIED = segment_flags h;
  loaded_others p : p ∉ seg_pages s h → vw s' !! p = vw s !! p;
  loaded_frame a : align_down a 4096 ∉ seg_pages s h → vread s' a = vread s a;
}.

Lemma flags_without_segment h :
  flags_without (segment_flags h) COPIED = segment_flags h ∧
  flags_without (flags_or (segment_flags h) COPIED) COPIED = segment_flags h.
Proof. unfold segment_flags. by destruct (Elf.is_execute h), (Elf.is_write h). Qed.

Lemma file_loaded s s1 h : good s → seg_ready s h → file_mapped s s1 h (seg_frames s h) →
  Elf.mem_size h ≤ Elf.file_size h → seg_loaded s s1 h.
Proof.
  intros Hg Hrdy Hmap Hsz. pose proof (ready_ok _ _ Hrdy) as Hok. pose proof (seg_sizes _ _ Hok).
  assert (∀ p, p ∈ seg_pages s h → p - seg_shift s h ∈ seg_frames s h) as Hall.
  { intros p Hp. rewrite seg_page_frame by done. apply span_pages_range in Hp as [_ ?]. lia. }
  assert (∀ p, p - seg_shift s h ∈ seg_frames s h → p ∈ seg_pages s h) as Hback.
  { intros p Hp. replace p with (p - seg_shift s h + seg_shift s h) by lia.
    by apply (seg_frame_elem s h _ Hok). }
  pose proof Hmap as (_ & _ & _ & Hv). split.
  - intros a Ha. rewrite (file_mapped_vread s s1 h), decide_True by auto.
    unfold seg_byte. by rewrite decide_False by lia.
  - intros p Hp. rewrite Hv, decide_True by auto. eexists _, _. split; [done|].
    apply flags_without_segment.
  - intros p Hp. rewrite Hv, decide_False; auto.
  - intros a Ha. rewrite (file_mapped_vread s s1 h), decide_False; auto.
Qed.

Lemma bss_loaded s s1 s2 h : good s → seg_ready s h → file_mapped s s1 h (seg_frames s h) →
  Elf.file_size h < Elf.mem_size h → seg_addr s1 h = seg_addr s h →
  bss_mapped s1 s2 h (segment_flags h) →
  (∀ a, vread s2 a =
     if decide (seg_addr s h + Elf.file_size h ≤ a ∧
                align_down a 4096 ≤ seg_addr s h + Elf.mem_size h - 1) then Some 0 else vread s1 a) →
  seg_loaded s s2 h.
Proof.
  intros Hg Hrdy Hmap Hlt Hsa [Hb1 Hb2] Hr. pose proof (ready_ok _ _ Hrdy) as Hok.
  pose proof (seg_sizes _ _ Hok) as Hsz. pose proof Hmap as (_ & _ & _ & Hv).
  assert (bss_pages s1 h = bss_pages s h) as Hbss by (unfold bss_pages; by rewrite Hsa).
  rewrite Hbss, Hsa in *.
  assert (∀ p, p - seg_shift s h ∈ seg_frames s h → p ∈ seg_pages s h) as Hback.
  { intros p Hp. replace p with (p - seg_shift s h + seg_shift s h) by lia.
    by apply (seg_frame_elem s h _ Hok). }
  split.
  - intros a Ha. rewrite Hr. pose proof (align_down_le a 4096). unfold seg_byte.
    pose proof Ha as [_ Har]%span_pages_range. case_decide as Hc1.
    + by rewrite decide_True by lia.
    + rewrite (decide_False (P := _ ∧ _)) by lia.
      rewrite (file_mapped_vread s s1 h), decide_True; try done.
      apply seg_page_frame; [done|done|lia].
  - intros p Hp. destruct (flags_without_segment h) as [Hf1 Hf2].
    destruct (decide (p ∈ bss_pages s h)) as [Hpb|Hpb].
    + destruct (Hb1 p Hpb) as [fr E]. eauto.
    + destruct (seg_page_split s h p Hok Hp) as [?|Hpf]; [done|].
      destruct (Hb2 p Hpb) as [E|(_ & _ & fr & fr' & _ & E)]; [|eauto].
      rewrite Hv, decide_True in E by done. eauto.
  - intros p Hp. assert (p ∉ bss_pages s h) as Hpb by (intros Hx; by apply (bss_page_seg s h p Hok) in Hx as [? _]).
    assert (vw s1 !! p = vw s !! p) as Hv1 by (rewrite Hv, decide_False; auto).
    destruct (Hb2 p Hpb) as [->|(Hr0 & -> & fr & fr' & E & _)]; [done|].
    rewrite Hv in E. case_decide as Hd; [by apply Hback in Hd|]. exfalso. apply Hp.
    apply span_pages_range. split; [by apply align_down_mod|].
    pose proof (align_down_le (seg_addr s h + Elf.file_size h - 1) 4096). split; [|lia].
    destruct (Z.eq_dec (Elf.file_size h) 0) as [Hz|]; [|apply align_down_mono; lia].
    rewrite Hz, Z.add_0_r in *. pose proof (align_down_split (seg_addr s h)).
    pose proof (Z.mod_pos_bound (seg_addr s h) 4096).
    apply aligned_le_align_down; [lia|by apply align_down_mod|lia].
  - intros a Ha. rewrite Hr, decide_False.
    + rewrite (file_mapped_vread s s1 h), decide_False; auto.
    + intros [H1 H2]. apply Ha, span_pages_range. split; [by apply align_down_mod|].
      split; [apply align_down_mono|]; lia.
Qed.

Lemma handle_load_segment_spec s h n : good s → seg_ready s h →
  left_in s (n + 7 * length (seg_pages s h) + 4) →
  returns (handle_load_segment s h) (λ s', good s' ∧ extends s s' ∧ keeps_protected s s' ∧
    left_in s' n ∧ seg_loaded s s' h).
Proof.
  intros Hg Hrdy Hleft. pose proof (ready_ok _ _ Hrdy) as Hok.
  pose proof (seg_sizes _ _ Hok) as Hsz. pose proof (seg_range _ _ Hok) as (H0 & H1 & H2 & H3).
  pose proof (seg_span _ _ Hok) as Hs. destruct (length_seg_lists s h Hok) as [Hlf Hlb].
  assert (canonical (seg_addr s h)) as Hcv by (eapply Level4.span_canonical; [exact Hs|lia]).
  unfold handle_load_segment. unfold seg_phys in H2, H3.
  rewrite phys_add_ok by (unfold phys_ok; lia). cbn [mbind res_bind]. fold (seg_phys s h) in *.
  rewrite phys_add_ok by (unfold phys_ok; lia). cbn [mbind res_bind].
  rewrite phys_sub_ok by (unfold phys_ok; lia). cbn [mbind res_bind].
  rewrite Elf.vao_add_ok by (fold (seg_addr s h); unfold canonical, is_uint in *; lia).
  fold (seg_addr s h). cbn [mbind res_bind].
  rewrite virt_new_canonical by done. cbn [mbind res_bind].
  rewrite !frame_containing_spec, page_containing_spec by (done || unfold phys_ok; lia).
  pose proof (align_down_nonneg (seg_phys s h) 4096). pose proof (align_down_le (seg_phys s h) 4096).
  pose proof (align_down_nonneg (seg_phys s h + Elf.file_size h - 1) 4096).
  pose proof (align_down_le (seg_phys s h + Elf.file_size h - 1) 4096).
  rewrite frame_range_inclusive_spec by (unfold phys_ok; try apply align_down_mod; lia).
  fold (span_len (seg_phys s h) (Elf.file_size h)).
  fold (span_pages (seg_phys s h) (Elf.file_size h)). fold (seg_frames s h).
  eapply returns_bind; [apply (map_file_frames s h (n + 4 * length (bss_pages s h) + 4)); try done|].
  { eapply supply_le; [|exact Hleft]. lia. }
  intros s1 [Hmap Hl1]. pose proof Hmap as (Hg1 & He1 & Hm1 & Hv1).
  pose proof (file_mapped_protected _ _ _ _ Hmap) as Hp1.
  assert (seg_addr s1 h = seg_addr s h) as Hsa by (unfold seg_addr; by destruct He1 as (_ & -> & _)).
  assert (seg_phys s1 h = seg_phys s h) as Hsp by (unfold seg_phys; by destruct He1 as (-> & _ & _)).
  assert (bss_pages s1 h = bss_pages s h) as Hbss by (unfold bss_pages; by rewrite Hsa).
  destruct (Z.ltb_spec (Elf.file_size h) (Elf.mem_size h)) as [Hlt|Hge].
  2:{ cbn. split_and!; try done; [eapply supply_le; [|exact Hl1]; lia|by apply file_loaded]. }
  eapply returns_mono.
  { apply (handle_bss_section_spec s1 h (segment_flags h) n); [done| |done| | |apply segment_flags_bits|by rewrite Hbss].
    - destruct Hok as [? ? ? ?]. split; rewrite ?Hsa, ?Hsp; try done. by destruct He1 as (-> & _ & _).
    - rewrite Hsa. intros Hr. exists (align_down (seg_addr s h + Elf.file_size h - 1) 4096 - seg_shift s h).
      assert (align_down (seg_addr s h + Elf.file_size h - 1) 4096 ∈ seg_pages s h) as Hin.
      { apply span_pages_range. split; [by apply align_down_mod|].
        pose proof (align_down_le (seg_addr s h + Elf.file_size h - 1) 4096). split; [|lia].
        apply aligned_le_align_down; [lia|by apply align_down_mod|].
        pose proof (align_down_split (seg_addr s h)). pose proof (Z.mod_pos_bound (seg_addr s h) 4096).
        destruct (Z.eq_dec (Elf.file_size h) 0) as [Hz|]; [|lia]. rewrite Hz, Z.add_0_r in Hr. lia. }
      rewrite Hv1, decide_True; [done|]. apply seg_page_frame; [done|done|].
      pose proof (align_down_le (seg_addr s h + Elf.file_size h - 1) 4096). lia.
    - rewrite Hbss. apply Forall_forall. intros p Hp.
      destruct (bss_page_seg s h p Hok Hp) as [Hps Hnf].
      rewrite Hv1, decide_False by done. split; [by apply (ready_unmapped _ _ Hrdy)|by apply (ready_mappable _ _ Hrdy)]. }
  intros s2 (Hg2 & He2 & Hp2 & Hl2 & Hb2 & Hr2). rewrite Hsa in Hr2.
  split_and!; [exact Hg2|by eapply extends_trans|by eapply keeps_protected_trans|exact Hl2|].
  by eapply bss_loaded.
Qed.

(** ** Changing the flags of a segment's pages *)
Lemma update_page s p fr fl fl' : good s → canonical p → p mod 4096 = 0 →
  vw s !! p = Some (fr, fl) → Z.testbit fl' 0 = true → (copied fl' → copied fl) →
  ∃ m, update_flags (page_table s) p fl' = Some m ∧ good (set_page_table s m) ∧
    vw (set_page_table s m) = <[p := (fr, fl')]> (vw s).
Proof.
  intros Hg Hc Hp Hv Hb Hcp.
  destruct (update_flags_ok (page_table s) p fr fl fl') as (m & Hm & Hi & Hvm); [apply Hg|done..|].
  exists m. split_and!; [done| |exact Hvm]. destruct Hg as [? ? Hf Hcop]. split; [done|done| |].
  - intros q fr0 fl0. unfold vw; cbn. rewrite Hvm. intros [[<- [= <- <-]]|[_ E]]%lookup_insert_Some.
    + destruct (Hf _ _ _ Hv) as (? & ? & ? & ? & ?). by split_and!.
    + by apply (Hf q fr0).
  - intros q q' fr0 fl0 fl1. unfold vw; cbn. rewrite Hvm.
    intros [[<- [= <- <-]]|[_ E1]]%lookup_insert_Some [[<- Heq]|[_ E2]]%lookup_insert_Some Hc0.
    + done.
    + eapply Hcop; [exact Hv|exact E2|auto].
    + injection Heq as <- <-. by eapply Hcop.
    + by eapply Hcop.
Qed.

(** [s'] is [s] with the flag of bit [k] removed from the pages in [l]. *)
Definition flag_removed (s s' : inner) (k : Z) (l : list Z) : Prop :=
  good s' ∧ extends s s' ∧ frame_allocator s' = frame_allocator s ∧ memory s' = memory s ∧
  ∀ p, vw s' !! p =
    if decide (p ∈ l) then prod_map id (λ fl, flags_without fl (Z.shiftl 1 k)) <$> vw s !! p
    else vw s !! p.

Lemma flag_removed_vread s s' k l a : flag_removed s s' k l → vread s' a = vread s a.
Proof.
  intros (_ & _ & _ & Hm & Hv). unfold vread. rewrite Hv, Hm.
  case_decide; [|done]. by destruct (vw s !! _) as [[]|].
Qed.

Lemma remove_flag_spec s k h : 0 < k → good s →
  Level4.span_ok (seg_addr s h) (Elf.mem_size h) → span_mapped s (seg_addr s h) (Elf.mem_size h) →
  returns (remove_flag s (Z.shiftl 1 k) h) (λ s', flag_removed s s' k (seg_pages s h)).
Proof.
  intros Hk Hg Hs Hmap. assert (0 < Elf.mem_size h) as Hn by apply Hs.
  assert (0 ≤ seg_addr s h ∧ seg_addr s h + Elf.mem_size h < 2 ^ 64) by (unfold Level4.span_ok in Hs; lia).
  unfold remove_flag. rewrite Elf.vao_add_ok by (fold (seg_addr s h); unfold is_uint; lia).
  fold (seg_addr s h). cbn [mbind res_bind]. rewrite add_u_ok by lia. cbn [mbind res_bind].
  rewrite !virt_new_canonical by (eapply Level4.span_canonical; [exact Hs|lia]). cbn [mbind res_bind].
  rewrite virt_sub_new, virt_new_canonical; [|eapply Level4.span_canonical; [exact Hs|lia]..|lia].
  cbn [mbind res_bind]. rewrite page_range_span by done. fold (seg_pages s h).
  apply (foldM_returns _ (λ l s', flag_removed s s' k l)).
  { split_and!; auto using extends_refl. }
  intros l1 p l2 s1 Hl (Hg1 & He1 & Hf1 & Hm1 & Hv1).
  assert (p ∈ seg_pages s h) as Hp by (rewrite Hl; apply elem_of_middle).
  assert (p ∉ l1) as Hnp.
  { pose proof (NoDup_pages_from (align_down (seg_addr s h) 4096) (span_len (seg_addr s h) (Elf.mem_size h))) as Hnd.
    change (NoDup (seg_pages s h)) in Hnd. rewrite Hl in Hnd.
    apply NoDup_app in Hnd as (_ & Hnd & _). intros Hx. apply (Hnd p Hx). by left. }
  destruct (span_page_canonical _ _ _ Hs Hp) as (Hc & _ & Hpm).
  destruct (Hmap p Hp) as [[fr fl] Hv].
  assert (vw s1 !! p = Some (fr, fl)) as Hvp by (by rewrite Hv1, decide_False).
  rewrite translate_spec by (done || apply Hg1). rewrite (align_down_id p) by done.
  fold (vw s1). rewrite Hvp. cbn [mbind res_bind]. rewrite flags_contains_bit by lia.
  assert (∀ q, q ≠ p → (q ∈ l1 ++ [p] ↔ q ∈ l1)) as Hq by (intros q; rewrite elem_of_snoc; naive_solver).
  destruct (Z.testbit fl k) eqn:Hb.
  - destruct (good_frame _ Hg1 _ _ _ Hvp) as (_ & _ & _ & Hb0 & _).
    destruct (update_page s1 p fr fl (flags_without fl (Z.shiftl 1 k))) as (m & -> & Hg2 & Hv2); try done.
    { rewrite flags_without_bit, Hb0 by lia. destruct (Z.eqb_spec 0 k); [lia|done]. }
    { rewrite !copied_bit, flags_without_bit by lia. by intros [? _]%andb_prop. }
    cbn [expect_some mbind res_bind returns].
    split_and!; [done|by destruct He1 as (? & ? & ?)|done|done|].
    intros q. rewrite Hv2. destruct (decide (q = p)) as [->|Hne].
    + rewrite lookup_insert_eq, decide_True by (apply elem_of_snoc; by right). by rewrite Hv.
    + rewrite lookup_insert_ne, Hv1 by done. apply decide_ext. by rewrite Hq.
  - cbn. split_and!; try done. intros q. destruct (decide (q = p)) as [->|Hne].
    + rewrite Hvp, decide_True by (apply elem_of_snoc; by right). rewrite Hv. cbn.
      by rewrite flags_without_id by (done || lia).
    + rewrite Hv1. apply decide_ext. by rewrite Hq.
Qed.

(** ** Relocations

    The specification works on the image alone, a partial function from virtual addresses
    to bytes: [relocate_one] reads the entry [idx] of the relocation table from the image and
    writes the relocated value, if the entry is valid. *)
Context {RF : Elf.RelaFormat}.

Definition image : Type := Z → option Z.

Definition img_read (img : image) (a : Z) (n : Z) : option (list Z) :=
  mapM (λ i, img (a + i)) (seqZ 0 n).

Definition relocate_one (vao : Z) (elf_file : Elf.ElfFile) (table : Z) (img : image) (idx : Z) :
    option image :=
  let entry := vao + (table + 24 * idx) in
  bs ← img_read img entry 24;
  let addr := vao + Elf.rela_get_offset bs in
  let value := vao + Elf.rela_get_addend bs in
  if decide (Level4.span_ok entry 24 ∧ table + 24 * idx < 2 ^ 64 ∧
             Elf.rela_get_symbol_table_index bs = 0 ∧ Elf.rela_get_type bs = 8 ∧
             check_is_in_load elf_file (Elf.rela_get_offset bs) = Ret () ∧
             Level4.span_ok addr 8 ∧ is_uint 64 value ∧
             Forall (λ i, is_Some (img (addr + i))) (seqZ 0 8))
  then Some (vwrite img addr (le_bytes 8 value)) else None.

Fixpoint relocate (vao : Z) (elf_file : Elf.ElfFile) (table : Z) (img : image) (idxs : list Z) :
    option image :=
  match idxs with
  | [] => Some img
  | idx :: idxs => img ← relocate_one vao elf_file table img idx; relocate vao elf_file table img idxs
  end.

(** The address space of [s] is [img]. *)
Definition has_image (s : inner) (img : image) : Prop := ∀ a, vread s a = img a.

Lemma vread_mapped s a : is_Some (vread s a) ↔ is_Some (vw s !! align_down a 4096).
Proof. unfold vread. destruct (vw s !! _) as [[]|]; split; intros [? [=]]; eauto. Qed.

Lemma bytes_mapped s a n : 0 < n → (∀ i, 0 ≤ i < n → is_Some (vread s (a + i))) → span_mapped s a n.
Proof.
  intros Hn Hb p (x & Hx & <-)%span_pages_elem; [|done]. apply vread_mapped.
  replace x with (a + (x - a)) by lia. apply Hb. lia.
Qed.

Lemma img_read_spec s img a n bs : has_image s img → 0 ≤ n → img_read img a n = Some bs →
  length bs = Z.to_nat n ∧ ∀ i, (i < Z.to_nat n)%nat → bs !! i = vread s (a + Z.of_nat i).
Proof.
  intros Hi Hn Hr. apply mapM_Some in Hr. pose proof (Forall2_length _ _ _ Hr) as Hlen.
  rewrite length_seqZ in Hlen. split; [done|]. intros i Hil.
  destruct (lookup_lt_is_Some_2 bs i) as [b Hb]; [lia|].
  assert (seqZ 0 n !! i = Some (Z.of_nat i)) as Hsi by (rewrite lookup_seqZ_lt by lia; f_equal; lia).
  rewrite Hb, Hi. symmetry. exact (Forall2_lookup_lr _ _ _ _ _ _ Hr Hsi Hb).
Qed.

Lemma read_relocation_spec s img table idx bs : good s → has_image s img → 0 ≤ table → 0 ≤ idx →
  Level4.span_ok (virtual_address_offset s + (table + 24 * idx)) 24 → table + 24 * idx < 2 ^ 64 →
  img_read img (virtual_address_offset s + (table + 24 * idx)) 24 = Some bs →
  read_relocation s table idx = Ret bs.
Proof.
  intros Hg Hi Ht Hx Hs Hov Hr. unfold read_relocation, RELA_SIZE.
  rewrite mul_u_ok by lia. cbn [mbind res_bind]. rewrite add_u_ok by lia. cbn [mbind res_bind].
  rewrite Elf.vao_add_ok by (unfold Level4.span_ok, is_uint in *; lia). cbn [mbind res_bind].
  rewrite virt_try_new_canonical by (eapply Level4.span_canonical; [exact Hs|lia]).
  cbn [expect_some mbind res_bind].
  destruct (img_read_spec s img _ 24 bs Hi ltac:(lia) Hr) as [Hlen Hbs].
  pose proof (copy_from_spec s (virtual_address_offset s + (table + 24 * idx)) (replicate 24 0) Hg) as Hc.
  rewrite length_replicate in Hc. change (Z.of_nat 24) with 24 in Hc.
  apply returns_alt in Hc as (bs' & -> & Hlen' & Hbs'); [|done|].
  - f_equal. apply list_eq_same_length with (n := 24%nat); [done|done|].
    intros i x y Hi24 Hx' Hy. rewrite Hbs' in Hx' by done. rewrite Hbs in Hy by done. congruence.
  - apply bytes_mapped; [lia|]. intros i Hi24. rewrite <- (Z2Nat.id i) by lia. rewrite <- Hbs by lia.
    apply lookup_lt_is_Some_2. lia.
Qed.

Lemma span_pages_8 a : (length (span_pages a 8) ≤ 2)%nat.
Proof.
  unfold span_pages, pages_from. rewrite length_fmap, length_seqZ. unfold span_len.
  pose proof (align_down_gt a 4096). pose proof (align_down_le (a + 8 - 1) 4096).
  enough ((align_down (a + 8 - 1) 4096 - align_down a 4096) / 4096 < 2) by lia.
  apply Z.div_lt_upper_bound; lia.
Qed.

(** What a step of relocation preserves of the rest of the state: the flags apart from
    [COPIED], the protected bytes and the frames of the allocator. *)
Definition same_flags (s s' : inner) : Prop := ∀ p,
  (λ '(_, fl), flags_without fl COPIED) <$> vw s' !! p = (λ '(_, fl), flags_without fl COPIED) <$> vw s !! p.

Lemma same_flags_refl s : same_flags s s.
Proof. done. Qed.
Lemma same_flags_trans s1 s2 s3 : same_flags s1 s2 → same_flags s2 s3 → same_flags s1 s3.
Proof. intros H1 H2 p. rewrite H2. apply H1. Qed.

Lemma flags_without_or fl : flags_without (flags_or fl COPIED) COPIED = flags_without fl COPIED.
Proof.
  unfold COPIED, BIT_9. apply Z.bits_inj'. intros j Hj.
  rewrite !flags_without_bit, flags_or_bit by lia. destruct (Z.eqb_spec j 9); [by rewrite !andb_false_r|].
  by rewrite orb_false_r.
Qed.

Lemma same_pages_flags s s' Q : same_pages s s' Q → same_flags s s'.
Proof.
  intros Hs p. specialize (Hs p). destruct (vw s !! p) as [[]|], (vw s' !! p) as [[]|]; try done.
  destruct Hs as [(_ & _ & ->)|[_ ->]]; cbn; f_equal. apply flags_without_or.
Qed.

Lemma apply_relocation_spec s img elf_file bs n :
  let addr := virtual_address_offset s + Elf.rela_get_offset bs in
  let value := virtual_address_offset s + Elf.rela_get_addend bs in
  good s → has_image s img →
  Elf.rela_get_symbol_table_index bs = 0 → Elf.rela_get_type bs = 8 →
  check_is_in_load elf_file (Elf.rela_get_offset bs) = Ret () →
  Level4.span_ok addr 8 → is_uint 64 value →
  Forall (λ i, is_Some (img (addr + i))) (seqZ 0 8) → left_in s (n + 8) →
  returns (apply_relocation s bs elf_file) (λ s', good s' ∧ extends s s' ∧ keeps_protected s s' ∧
    left_in s' n ∧ same_flags s s' ∧ has_image s' (vwrite img addr (le_bytes 8 value))).
Proof.
  intros addr value Hg Hi Hsym Hty Hload Hs Hval Hmap Hleft. unfold apply_relocation.
  rewrite Hsym, Hty. cbn [Z.eqb assert_ mbind res_bind Pos.eqb]. rewrite Hload. cbn [mbind res_bind].
  rewrite (Elf.vao_add_ok _ (Elf.rela_get_offset bs)) by (fold addr; unfold Level4.span_ok, is_uint in *; lia). cbn [mbind res_bind].
  fold addr. rewrite virt_new_canonical by (eapply Level4.span_canonical; [exact Hs|lia]).
  cbn [mbind res_bind]. rewrite Elf.vao_add_ok by done. cbn [mbind res_bind]. fold value.
  assert (Z.of_nat (length (le_bytes 8 value)) = 8) as Hlen by (by rewrite length_le_bytes).
  eapply returns_mono; [apply (copy_to_spec s addr (le_bytes 8 value) n); rewrite ?Hlen; try done|].
  - apply bytes_mapped; [lia|]. intros i Hi8. rewrite Hi. rewrite Forall_forall in Hmap.
    apply Hmap, elem_of_seqZ. lia.
  - eapply supply_le; [|exact Hleft]. pose proof (span_pages_8 addr). lia.
  - intros s' (? & ? & ? & ? & Hp & Hr). split_and!; try done; [by eapply same_pages_flags|].
    intros a. rewrite Hr. unfold vwrite. by rewrite Hi.
Qed.

(** The states before and after a phase that changes the contents of the image. *)
Definition phase (s s' : inner) (n : nat) (img : image) : Prop :=
  good s' ∧ extends s s' ∧ keeps_protected s s' ∧ left_in s' n ∧ same_flags s s' ∧ has_image s' img.

Lemma phase_trans s1 s2 s3 n n' img img' : phase s1 s2 n img → phase s2 s3 n' img' → phase s1 s3 n' img'.
Proof.
  intros (? & ? & ? & _ & ? & _) (? & ? & ? & ? & ? & ?).
  split_and!; try done; eauto using extends_trans, keeps_protected_trans, same_flags_trans.
Qed.

Lemma relocate_spec s elf_file table idxs img img' n : 0 ≤ table → Forall (λ i, 0 ≤ i) idxs →
  good s → has_image s img → relocate (virtual_address_offset s) elf_file table img idxs = Some img' →
  left_in s (n + 8 * length idxs) →
  returns (foldM (λ self idx,
      rela ← read_relocation self table idx;
      apply_relocation self rela elf_file) s idxs)
    (λ s', phase s s' n img').
Proof.
  intros Ht. revert s img. induction idxs as [|idx idxs IH]; intros s img Hpos Hg Hi Hr Hleft.
  { cbn in *. injection Hr as <-. split_and!; auto using extends_refl, keeps_protected_refl, same_flags_refl.
    by rewrite Nat.add_0_r in Hleft. }
  apply Forall_cons in Hpos as [Hx Hpos]. cbn [relocate foldM] in *.
  apply bind_Some in Hr as (img1 & Hone & Hr). unfold relocate_one in Hone.
  apply bind_Some in Hone as (bs & Hbs & Hone).
  case_decide as Hd; [|done]. destruct Hd as (Hs & Hov & Hsym & Hty & Hload & Hsa & Hval & Hall).
  injection Hone as <-.
  rewrite (read_relocation_spec s img table idx bs) by done. cbn [mbind res_bind].
  eapply returns_bind; [apply (apply_relocation_spec s img elf_file bs (n + 8 * length idxs)); try done|].
  { eapply supply_le; [|exact Hleft]. cbn. lia. }
  intros s1 Hph. pose proof Hph as (Hg1 & (_ & Hvao & _) & _ & Hl1 & _ & Hi1).
  eapply returns_mono; [eapply IH; [done|exact Hg1|exact Hi1|by rewrite Hvao|exact Hl1]|].
  intros s2 Hph2. eapply phase_trans; [exact Hph|exact Hph2].
Qed.

(** The relocation table that a dynamic segment describes: its address and number of entries,
    or none. *)
Definition reloc_table (elf_file : Elf.ElfFile) (h : Elf.ProgramHeader) : option (option (Z * Z)) :=
  match Elf.get_data elf_file h with
  | Ret (Elf.DataDynamic64 data) =>
      match foldM dynamic_step (None, None, None) data with
      | Ret (Some table, Some total_size, Some entry_size) =>
          if decide (entry_size = 24 ∧ 0 ≤ table) then Some (Some (table, total_size / 24)) else None
      | Ret (None, None, None) => Some None
      | _ => None
      end
  | _ => None
  end.
Definition dynamic_image (vao : Z) (elf_file : Elf.ElfFile) (img : image) (h : Elf.ProgramHeader) :
    option image :=
  t ← reloc_table elf_file h;
  match t with
  | Some (table, count) => relocate vao elf_file table img (seqZ 0 count)
  | None => Some img
  end.
Definition reloc_count (elf_file : Elf.ElfFile) (h : Elf.ProgramHeader) : nat :=
  match reloc_table elf_file h with Some (Some (_, count)) => Z.to_nat count | _ => 0%nat end.

Lemma handle_dynamic_segment_spec s elf_file h img img' n : good s → has_image s img →
  dynamic_image (virtual_address_offset s) elf_file img h = Some img' →
  left_in s (n + 8 * reloc_count elf_file h) →
  returns (handle_dynamic_segment s h elf_file) (λ s', phase s s' n img').
Proof.
  intros Hg Hi Hd Hleft. unfold dynamic_image in Hd.
  apply bind_Some in Hd as (t & Ht & Hd). unfold reloc_count in Hleft. rewrite Ht in Hleft.
  unfold reloc_table in Ht. unfold handle_dynamic_segment.
  destruct (Elf.get_data elf_file h) as [[data|]|?|?]; try done. cbn [mbind res_bind].
  destruct (foldM dynamic_step (None, None, None) data) as [[[[table|] [size|]] [ent|]]|?|?];
    try done; cbn [mbind res_bind].
  - case_decide as Hc; [|done]. destruct Hc as [-> Hpos]. injection Ht as <-.
    cbn [ok_or mbind res_bind]. change (24 =? RELA_SIZE) with true. cbn [assert_ mbind res_bind].
    eapply relocate_spec; [done| |done|done|exact Hd|by rewrite length_seqZ].
    apply Forall_forall. intros i Hx%elem_of_seqZ. lia.
  - injection Ht as <-. injection Hd as <-. cbn. rewrite Nat.add_0_r in Hleft.
    split_and!; auto using extends_refl, keeps_protected_refl, same_flags_refl.
Qed.

(** The loop over all program headers that applies relocations. *)
Fixpoint dynamic_images (vao : Z) (elf_file : Elf.ElfFile) (img : image) (hs : list Elf.ProgramHeader) :
    option image :=
  match hs with
  | [] => Some img
  | h :: hs =>
      img ← (if decide (Elf.get_type h = Ret Elf.Dynamic)
             then dynamic_image vao elf_file img h else Some img);
      dynamic_images vao elf_file img hs
  end.
Definition reloc_total (elf_file : Elf.ElfFile) (hs : list Elf.ProgramHeader) : nat :=
  sum_list_with (λ h, if decide (Elf.get_type h = Ret Elf.Dynamic)
                      then reloc_count elf_file h else 0)%nat hs.

Definition typed (h : Elf.ProgramHeader) : Prop := ∃ ty, Elf.get_type h = Ret ty.

Lemma dynamic_loop_spec s elf_file hs img img' n : Forall typed hs → good s → has_image s img →
  dynamic_images (virtual_address_offset s) elf_file img hs = Some img' →
  left_in s (n + 8 * reloc_total elf_file hs) →
  returns (foldM (λ self program_header,
      ty ← Elf.get_type program_header;
      match ty with
      | Elf.Dynamic => handle_dynamic_segment self program_header elf_file
      | _ => Ret self
      end) s hs) (λ s', phase s s' n img').
Proof.
  revert s img. induction hs as [|h hs IH]; intros s img Hty Hg Hi Hd Hleft.
  { cbn in *. injection Hd as <-. rewrite Nat.add_0_r in Hleft.
    split_and!; auto using extends_refl, keeps_protected_refl, same_flags_refl. }
  apply Forall_cons in Hty as [[ty Hh] Hty]. cbn [dynamic_images foldM] in *.
  unfold reloc_total in Hleft. cbn [sum_list_with] in Hleft. fold (reloc_total elf_file hs) in Hleft.
  rewrite Hh in *. cbn [mbind res_bind]. apply bind_Some in Hd as (img1 & Hone & Hd).
  case_decide as Hc.
  - injection Hc as ->.
    eapply returns_bind; [apply (handle_dynamic_segment_spec s elf_file h img img1 (n + 8 * reloc_total elf_file hs)); try done|].
    { eapply supply_le; [|exact Hleft]. lia. }
    intros s1 Hph. pose proof Hph as (Hg1 & (_ & Hvao & _) & _ & Hl1 & _ & Hi1).
    eapply returns_mono; [eapply IH; [done|exact Hg1|exact Hi1|by rewrite Hvao|exact Hl1]|].
    intros s2 Hph2. eapply phase_trans; [exact Hph|exact Hph2].
  - injection Hone as <-. assert (∀ A (x y : A), match ty with Elf.Dynamic => x | _ => y end = y) as Hm
      by (destruct ty; done). rewrite Hm. cbn [mbind res_bind]. by eapply IH.
Qed.

End Proofs.

End LoadKernelProofs.
