(* ===== verification/LoadSegments.v ===== *)
(** * Loading all segments of a kernel

    The phases of [Loader::load_segments] composed: the image that the kernel will
    see is a function of the file, [load_image] followed by the relocations
    [dynamic_images]; the flags of its pages are those of the segments, without the
    write permission in the read-only-after-relocation areas and without the
    loader's own marker. *)
From stdpp Require Import gmap.
From S2P Require Import Prelude Memory X86 Paging Config Info Elf Level4 LoadKernel LoadKernelProofs.
Import Memory X86 Paging LoadKernel LoadKernelProofs.

Module LoadSegments.

Section Proofs.
Context `{HX : X86Laws} {M : Type} `{HM : MapperLaws M} {F : Type} `{HF : FrameSourceLaws F}.
Context {RF : Elf.RelaFormat}.
Abbreviation inner := (Inner M F).

Definition has_type (ty : Elf.Type_) (h : Elf.ProgramHeader) : Prop := Elf.get_type h = Ret ty.
#[global] Instance has_type_dec ty h : Decision (has_type ty h).
Proof. unfold has_type. apply _. Defined.

(** [h1] comes before [h2] in the list. *)
Definition before {T} (l : list T) (x y : T) : Prop := ∃ l1 l2 l3, l = l1 ++ x :: l2 ++ y :: l3.

Lemma before_snoc {T} (l : list T) x y l1 l2 : l = l1 ++ y :: l2 → x ∈ l1 → before l x y.
Proof.
  intros -> (a & b & ->)%list_elem_of_split. exists a, b, l2. by rewrite <- app_assoc.
Qed.

(** The state before the segments are loaded. *)
Record ready (s : inner) (hs : list Elf.ProgramHeader) : Prop := {
  ready_good : good s;
  ready_typed : Forall typed hs;
  ready_segs h : h ∈ hs → has_type Elf.Load h → seg_ready s h;
  ready_disjoint h h' p : before hs h h' → has_type Elf.Load h → has_type Elf.Load h' →
    p ∈ seg_pages s h → p ∈ seg_pages s h' → False;
  ready_tls h : h ∈ hs → has_type Elf.Tls h → is_uint 64 (seg_addr s h);
  ready_one_tls h h' : before hs h h' → has_type Elf.Tls h → ¬ has_type Elf.Tls h';
}.

(** ** The image of the segments *)
Definition in_segment (s : inner) (h : Elf.ProgramHeader) (a : Z) : Prop :=
  has_type Elf.Load h ∧ align_down a 4096 ∈ seg_pages s h.
#[global] Instance in_segment_dec s h a : Decision (in_segment s h a).
Proof. unfold in_segment. apply _. Defined.

Fixpoint load_image (s : inner) (hs : list Elf.ProgramHeader) (base : image) : image :=
  match hs with
  | [] => base
  | h :: hs => λ a, if decide (in_segment s h a) then Some (seg_byte s h a)
                    else load_image s hs base a
  end.

Lemma load_image_app (s : inner) l1 l2 base a :
  load_image s (l1 ++ l2) base a = load_image s l1 (load_image s l2 base) a.
Proof. induction l1 as [|h l1 IH]; cbn; [done|]. by rewrite IH. Qed.

Lemma load_image_miss (s : inner) l base a : (∀ h, h ∈ l → ¬ in_segment s h a) → load_image s l base a = base a.
Proof.
  induction l as [|h l IH]; intros Hl; cbn; [done|]. rewrite decide_False by (apply Hl; by left).
  apply IH. intros h' Hh. apply Hl. by right.
Qed.

Lemma load_image_hit (s : inner) hs base h a : h ∈ hs → in_segment s h a →
  (∀ h1 h2 p, before hs h1 h2 → has_type Elf.Load h1 → has_type Elf.Load h2 →
     p ∈ seg_pages s h1 → p ∈ seg_pages s h2 → False) →
  load_image s hs base a = Some (seg_byte s h a).
Proof.
  intros (l1 & l2 & ->)%list_elem_of_split Ha Hd. rewrite load_image_app, load_image_miss.
  - cbn. by rewrite decide_True.
  - intros h1 Hh1 [Ht1 Hp1]. destruct Ha as [Ht Hp].
    eapply (Hd h1 h); [by eapply before_snoc|done|done|exact Hp1|exact Hp].
Qed.

(** ** The first loop *)
Definition tls_of (s : inner) (h : Elf.ProgramHeader) : Info.TlsTemplate :=
  {| Info.start_addr := seg_addr s h; Info.file_size := Elf.file_size h;
     Info.mem_size := Elf.mem_size h |}.
Definition tls_template (s : inner) (hs : list Elf.ProgramHeader) : option Info.TlsTemplate :=
  head (tls_of s <$> filter (has_type Elf.Tls) hs).

Definition load_cost (s : inner) (hs : list Elf.ProgramHeader) : nat :=
  sum_list_with (λ h, if decide (has_type Elf.Load h) then 7 * length (seg_pages s h) + 4 else 0)%nat hs.

Lemma load_cost_app s l1 l2 : load_cost s (l1 ++ l2) = (load_cost s l1 + load_cost s l2)%nat.
Proof. apply sum_list_with_app. Qed.

(** The flags of the pages after the headers in [l] were loaded. *)
Definition pages_loaded (s s' : inner) (l : list Elf.ProgramHeader) : Prop :=
  (∀ h p, h ∈ l → has_type Elf.Load h → p ∈ seg_pages s h →
     ∃ fr fl, vw s' !! p = Some (fr, fl) ∧ flags_without fl COPIED = segment_flags h) ∧
  (∀ p, (∀ h, h ∈ l → has_type Elf.Load h → p ∉ seg_pages s h) → vw s' !! p = vw s !! p).

Definition first_loop_inv (s : inner) (hs : list Elf.ProgramHeader) (n : nat)
    (l : list Elf.ProgramHeader) '((tls, s') : option Info.TlsTemplate * inner) : Prop :=
  good s' ∧ extends s s' ∧ keeps_protected s s' ∧
  left_in s' (n + (load_cost s hs - load_cost s l)) ∧
  pages_loaded s s' l ∧ has_image s' (load_image s l (vread s)) ∧ tls = tls_template s l.

Lemma extends_seg (s s' : inner) h : extends s s' →
  seg_addr s' h = seg_addr s h ∧ seg_phys s' h = seg_phys s h ∧ seg_pages s' h = seg_pages s h ∧
  seg_shift s' h = seg_shift s h ∧ (seg_ok s h → seg_ok s' h).
Proof.
  intros (Hk & Hv & _).
  assert (seg_addr s' h = seg_addr s h) as Ha by (unfold seg_addr; congruence).
  assert (seg_phys s' h = seg_phys s h) as Hp by (unfold seg_phys; congruence).
  split_and!; [done|done|unfold seg_pages; by rewrite Ha|unfold seg_shift; congruence|].
  intros [? ? ? ?]. split; rewrite ?Ha, ?Hp, ?Hk; done.
Qed.

Lemma protected_frame (s : inner) x y : align_down x 4096 = align_down y 4096 → protected s x → protected s y.
Proof. unfold protected. by intros ->. Qed.

(** The bytes of a segment are not changed by loading the segments before it. *)
Lemma seg_byte_keeps (s s1 : inner) h a : seg_ready s h → extends s s1 → keeps_protected s s1 →
  align_down a 4096 ∈ seg_pages s h → seg_byte s1 h a = seg_byte s h a.
Proof.
  intros Hrdy He Hk Ha. pose proof (ready_ok _ _ Hrdy) as Hok.
  destruct (extends_seg _ _ h He) as (Hsa & _ & _ & Hsh & _).
  unfold seg_byte. rewrite Hsa, Hsh. case_decide as Hc; [done|]. apply Hk.
  pose proof (seg_sizes _ _ Hok). pose proof Ha as [_ Har]%span_pages_range.
  assert (align_down a 4096 - seg_shift s h ∈ seg_frames s h) as Hf.
  { apply seg_page_frame; [done|done|]. pose proof (align_down_le a 4096). lia. }
  destruct (seg_frame_elem s h _ Hok Hf) as (_ & _ & _ & (i & Hi & Hif) & _).
  apply (protected_frame s (seg_phys s h + i)); [|by apply (ready_file _ _ Hrdy)].
  rewrite Hif. destruct (align_down_shift (a - seg_shift s h) (seg_shift s h)) as [Hd _];
    [by apply seg_shift_aligned|].
  replace (a - seg_shift s h + seg_shift s h) with a in Hd by lia. lia.
Qed.

Lemma load_segment_step (s : inner) hs l1 h l2 s1 tls n : ready s hs → hs = l1 ++ h :: l2 →
  has_type Elf.Load h → first_loop_inv s hs n l1 (tls, s1) →
  returns (handle_load_segment s1 h) (λ s2, first_loop_inv s hs n (l1 ++ [h]) (tls, s2)).
Proof.
  intros Hrdy Hl Hty (Hg1 & He1 & Hk1 & Hl1 & [Hp1 Hu1] & Hi1 & ->).
  assert (h ∈ hs) as Hin by (rewrite Hl; apply elem_of_middle).
  pose proof (ready_segs _ _ Hrdy h Hin Hty) as Hsr.
  destruct (extends_seg s s1 h He1) as (Hsa & Hsp & Hpg & Hsh & Hok).
  assert (∀ h' p, h' ∈ l1 → has_type Elf.Load h' → p ∈ seg_pages s h' → p ∉ seg_pages s h) as Hdis.
  { intros h' p Hh' Hty' Hp Hp'. eapply (ready_disjoint _ _ Hrdy h' h); [by eapply before_snoc|done..]. }
  assert (load_cost s hs = load_cost s l1 + (7 * length (seg_pages s h) + 4) + load_cost s l2)%nat as Hcost.
  { rewrite Hl, load_cost_app. unfold load_cost at 2. cbn [sum_list_with]. rewrite decide_True by done.
    fold (load_cost s l2). lia. }
  assert (load_cost s (l1 ++ [h]) = load_cost s l1 + (7 * length (seg_pages s h) + 4))%nat as Hcost1.
  { rewrite load_cost_app. unfold load_cost at 2. cbn [sum_list_with]. rewrite decide_True by done. lia. }
  eapply returns_mono.
  { apply (handle_load_segment_spec s1 h (n + (load_cost s hs - load_cost s (l1 ++ [h])))); [done| |].
    - split; [by apply Hok, Hsr| |rewrite Hpg; apply Hsr|].
      + rewrite Hpg. intros p Hp. rewrite Hu1; [by apply (ready_unmapped _ _ Hsr)|].
        intros h' Hh' Hty' Hp'. by eapply Hdis.
      + rewrite Hsp. intros i Hi. by apply Hk1, (ready_file _ _ Hsr).
    - eapply supply_le; [|exact Hl1]. rewrite Hpg. lia. }
  intros s2 (Hg2 & He2 & Hk2 & Hl2 & [Hb2 Hf2 Ho2 Hr2]). rewrite Hpg in *.
  split_and!; [done|by eapply extends_trans|by eapply keeps_protected_trans|done| | |].
  - split.
    + intros h' p [Hh'| ->]%elem_of_snoc Hty' Hp; [|by apply Hf2].
      rewrite Ho2 by (by eapply Hdis). by eapply Hp1.
    + intros p Hp. rewrite Ho2, Hu1; [done| |].
      * intros h' Hh'. apply Hp, elem_of_snoc. by left.
      * apply Hp; [apply elem_of_snoc; by right|done].
  - intros a. rewrite load_image_app. cbn [load_image].
    destruct (decide (align_down a 4096 ∈ seg_pages s h)) as [Ha|Ha].
    + rewrite Hb2, load_image_miss, decide_True by
        (done || intros h' Hh' [Hty' Hp']; by eapply Hdis).
      f_equal. by apply seg_byte_keeps.
    + rewrite Hr2, Hi1 by done. clear -Ha. induction l1 as [|h' l1 IH]; cbn.
      * rewrite decide_False; [done|]. by intros [_ ?].
      * by rewrite IH.
  - unfold tls_template. rewrite filter_app, filter_cons, filter_nil, decide_False, app_nil_r; [done|].
    unfold has_type in *. congruence.
Qed.

(** Headers of other types leave the state as it is. *)
Lemma other_step (s : inner) hs l1 h s1 tls n : first_loop_inv s hs n l1 (tls, s1) →
  ¬ has_type Elf.Load h → first_loop_inv s hs n (l1 ++ [h]) (tls_template s (l1 ++ [h]), s1).
Proof.
  intros (Hg1 & He1 & Hk1 & Hl1 & [Hp1 Hu1] & Hi1 & ->) Hty.
  split_and!; try done.
  - rewrite load_cost_app. unfold load_cost at 3. cbn [sum_list_with]. rewrite decide_False by done.
    by rewrite !Nat.add_0_r.
  - split.
    + intros h' p [Hh'| ->]%elem_of_snoc Hty' Hp; [by eapply Hp1|done].
    + intros p Hp. apply Hu1. intros h' Hh'. apply Hp, elem_of_snoc. by left.
  - intros a. rewrite Hi1, load_image_app. cbn [load_image]. clear -Hty.
    induction l1 as [|h' l1 IH]; cbn; [|by rewrite IH]. rewrite decide_False; [done|]. by intros [? _].
Qed.

Lemma tls_step (s : inner) hs l1 h l2 s1 tls n : ready s hs → hs = l1 ++ h :: l2 → has_type Elf.Tls h →
  first_loop_inv s hs n l1 (tls, s1) →
  tls = None ∧ handle_tls_segment s1 h = Ret (tls_of s h) ∧
  first_loop_inv s hs n (l1 ++ [h]) (Some (tls_of s h), s1).
Proof.
  intros Hrdy Hl Hty Hinv. pose proof Hinv as (_ & He1 & _ & _ & _ & _ & Htls).
  assert (filter (has_type Elf.Tls) l1 = []) as Hnone.
  { apply elem_of_nil_inv. intros h' [Hty' Hh']%list_elem_of_filter.
    eapply (ready_one_tls _ _ Hrdy h' h); [by eapply before_snoc|done..]. }
  assert (tls_template s (l1 ++ [h]) = Some (tls_of s h)) as Ht.
  { unfold tls_template. by rewrite filter_app, Hnone, filter_cons, decide_True by done. }
  split_and!.
  - rewrite Htls. unfold tls_template. by rewrite Hnone.
  - unfold handle_tls_segment. destruct (extends_seg s s1 h He1) as (Hsa & _).
    rewrite Elf.vao_add_ok; fold (seg_addr s1 h); rewrite Hsa; [done|].
    apply (ready_tls _ _ Hrdy); [|done]. rewrite Hl. apply elem_of_middle.
  - rewrite <- Ht. eapply other_step; [done|]. unfold has_type in *. congruence.
Qed.

Lemma first_loop_spec (s : inner) hs n : ready s hs → left_in s (n + load_cost s hs) →
  returns (foldM load_step (None, s) hs) (first_loop_inv s hs n hs).
Proof.
  intros Hrdy Hleft. apply (foldM_returns _ (first_loop_inv s hs n)).
  { split_and!; [apply Hrdy|apply extends_refl|apply keeps_protected_refl
                |by rewrite Nat.sub_0_r| |done|done].
    split; [|done]. intros h p Hh. by apply elem_of_nil in Hh. }
  intros l1 h l2 [tls s1] Hl Hinv.
  assert (typed h) as [ty Hty].
  { pose proof (ready_typed _ _ Hrdy) as Hall. rewrite Hl in Hall.
    by apply Forall_app in Hall as [_ [? _]%Forall_cons]. }
  unfold load_step. rewrite Hty. cbn [mbind res_bind].
  destruct (decide (ty = Elf.Load)) as [->|Hnl].
  { eapply returns_bind; [by eapply load_segment_step|]. done. }
  destruct (decide (ty = Elf.Tls)) as [->|Hnt].
  { destruct (tls_step s hs l1 h l2 s1 tls n) as (-> & -> & ?); done. }
  assert (first_loop_inv s hs n (l1 ++ [h]) (tls, s1)) as Hnext.
  { assert (tls = tls_template s (l1 ++ [h])) as ->.
    { destruct Hinv as (_ & _ & _ & _ & _ & _ & ->). unfold tls_template.
      rewrite filter_app, filter_cons, filter_nil, decide_False, app_nil_r; [done|].
      unfold has_type. congruence. }
    eapply other_step; [done|]. unfold has_type. congruence. }
  destruct ty; done.
Qed.

(** ** The loops that remove a flag *)
Definition pages_of (s : inner) (ty : Elf.Type_) (hs : list Elf.ProgramHeader) : list Z :=
  filter (has_type ty) hs ≫= seg_pages s.

Lemma elem_of_pages_of (s : inner) ty hs p :
  p ∈ pages_of s ty hs ↔ ∃ h, h ∈ hs ∧ has_type ty h ∧ p ∈ seg_pages s h.
Proof.
  unfold pages_of. rewrite list_elem_of_bind. setoid_rewrite list_elem_of_filter. naive_solver.
Qed.

Lemma flags_without_comm fl a b :
  flags_without (flags_without fl a) b = flags_without (flags_without fl b) a.
Proof.
  unfold flags_without. apply Z.bits_inj'. intros j Hj. rewrite !Z.ldiff_spec.
  by rewrite <- !andb_assoc, (andb_comm (negb _)).
Qed.
Lemma flags_without_idem fl a : flags_without (flags_without fl a) a = flags_without fl a.
Proof.
  unfold flags_without. apply Z.bits_inj'. intros j Hj. rewrite !Z.ldiff_spec.
  by rewrite <- andb_assoc, andb_diag.
Qed.

Lemma flag_removed_trans (s s1 s2 : inner) k l1 l2 :
  flag_removed s s1 k l1 → flag_removed s1 s2 k l2 → flag_removed s s2 k (l1 ++ l2).
Proof.
  intros (_ & He1 & Hf1 & Hm1 & Hv1) (Hg2 & He2 & Hf2 & Hm2 & Hv2).
  split_and!; [done|by eapply extends_trans|congruence|congruence|].
  intros p. rewrite Hv2, Hv1. rewrite (decide_ext (p ∈ l1 ++ l2) (p ∈ l1 ∨ p ∈ l2)) by (apply elem_of_app).
  destruct (vw s !! p) as [[fr fl]|]; repeat case_decide; cbn; try done; try tauto.
  by rewrite flags_without_idem.
Qed.

Lemma flag_removed_protected (s s' : inner) k l : 0 ≤ k → flag_removed s s' k l → keeps_protected s s'.
Proof.
  intros Hk (_ & He & _ & Hm & Hv) x [Hx1 Hx2]. split; [split|by rewrite Hm].
  - intros Hx. by apply Hx1, He.
  - intros p fl. rewrite Hv. case_decide; [|by apply Hx2].
    destruct (vw s !! p) as [[fr0 fl0]|] eqn:E; [|done]. cbn. intros [= -> <-].
    rewrite copied_bit, flags_without_bit by lia. intros [Hb _]%andb_prop.
    apply (Hx2 p fl0); [done|]. by apply copied_bit.
Qed.

Lemma flag_loop_spec (s : inner) k ty hs (body : inner → Elf.ProgramHeader → res inner) :
  0 < k → good s →
  (∀ s1 h, has_type ty h → body s1 h = remove_flag s1 (Z.shiftl 1 k) h) →
  (∀ s1 h, h ∈ hs → ¬ has_type ty h → body s1 h = Ret s1) →
  (∀ h, h ∈ hs → has_type ty h → Level4.span_ok (seg_addr s h) (Elf.mem_size h) ∧
     span_mapped s (seg_addr s h) (Elf.mem_size h)) →
  returns (foldM body s hs) (λ s', flag_removed s s' k (pages_of s ty hs)).
Proof.
  intros Hk Hg Hyes Hno Hok. apply (foldM_returns _ (λ l s', flag_removed s s' k (pages_of s ty l))).
  { split_and!; auto using extends_refl. }
  intros l1 h l2 s1 Hl Hr1. assert (h ∈ hs) as Hin by (rewrite Hl; apply elem_of_middle).
  unfold pages_of. rewrite filter_app, filter_cons, filter_nil. case_decide as Hty.
  - rewrite Hyes by done. destruct (Hok h Hin Hty) as [Hs Hm].
    pose proof Hr1 as (Hg1 & He1 & _ & _ & Hv1).
    destruct (extends_seg s s1 h He1) as (Hsa & _ & Hpg & _).
    eapply returns_mono; [apply (remove_flag_spec s1 k h Hk Hg1); rewrite Hsa; [done|]|].
    + intros p Hp. destruct (Hm p Hp) as [[fr fl] E]. rewrite Hv1, E. case_decide; eauto.
    + intros s2 Hr2. rewrite bind_app. cbn. rewrite app_nil_r, <- Hpg.
      by eapply flag_removed_trans.
  - rewrite Hno by done. cbn. by rewrite app_nil_r.
Qed.

(** ** All phases *)
Definition relro_ok (s : inner) (hs : list Elf.ProgramHeader) : Prop :=
  ∀ h, h ∈ hs → has_type Elf.GnuRelro h →
    Level4.span_ok (seg_addr s h) (Elf.mem_size h) ∧
    ∀ p, p ∈ seg_pages s h → p ∈ pages_of s Elf.Load hs.

(** The flags with which the kernel finds the page [p] of the segment [h]. *)
Definition final_flags (s : inner) (hs : list Elf.ProgramHeader) (h : Elf.ProgramHeader) (p : Z) : Z :=
  if decide (p ∈ pages_of s Elf.GnuRelro hs) then flags_without (segment_flags h) WRITABLE
  else segment_flags h.

(** What [load_segments] promises about its result. *)
Definition segments_post (s : inner) (hs : list Elf.ProgramHeader) (img : image) (n : nat)
    '((tls, s') : option Info.TlsTemplate * inner) : Prop :=
  good s' ∧ extends s s' ∧ keeps_protected s s' ∧ left_in s' n ∧
  tls = tls_template s hs ∧ has_image s' img ∧
  (∀ h p, h ∈ hs → has_type Elf.Load h → p ∈ seg_pages s h →
     ∃ fr, vw s' !! p = Some (fr, final_flags s hs h p)) ∧
  (∀ p, p ∉ pages_of s Elf.Load hs → vw s !! p = None → vw s' !! p = None).

(** The flags of the pages of a segment, from the state after the relocations to the end. *)
Lemma final_flags_spec (s s2 s3 s4 : inner) hs h p fr fl : has_type Elf.Load h → h ∈ hs →
  p ∈ seg_pages s h → vw s2 !! p = Some (fr, fl) → flags_without fl COPIED = segment_flags h →
  flag_removed s2 s3 1 (pages_of s Elf.GnuRelro hs) →
  flag_removed s3 s4 9 (pages_of s Elf.Load hs) →
  vw s4 !! p = Some (fr, final_flags s hs h p).
Proof.
  intros Hty Hh Hp Hv Hfl (_ & _ & _ & _ & Hv3) (_ & _ & _ & _ & Hv4).
  rewrite Hv4, decide_True by (apply elem_of_pages_of; eauto).
  change (Z.shiftl 1 9) with COPIED in *. change (Z.shiftl 1 1) with WRITABLE in *.
  rewrite Hv3, Hv. unfold final_flags. case_decide; cbn; f_equal; f_equal; [|done].
  by rewrite flags_without_comm, Hfl.
Qed.

Lemma pages_of_extends (s s' : inner) ty hs : extends s s' → pages_of s' ty hs = pages_of s ty hs.
Proof.
  intros He. unfold pages_of. apply list_bind_ext; [|done]. intros h.
  by destruct (extends_seg s s' h He) as (_ & _ & -> & _).
Qed.

Lemma load_segments_spec (s : inner) elf_file img n :
  let hs := Elf.program_iter elf_file in
  ready s hs → relro_ok s hs →
  dynamic_images (virtual_address_offset s) elf_file (load_image s hs (vread s)) hs = Some img →
  left_in s (n + 8 * reloc_total elf_file hs + load_cost s hs) →
  returns (load_segments s elf_file) (segments_post s hs img n).
Proof.
  intros hs Hrdy Hrelro Hdyn Hleft. unfold load_segments. fold hs.
  eapply returns_bind; [by apply (first_loop_spec s hs (n + 8 * reloc_total elf_file hs))|].
  intros [tls s1] (Hg1 & He1 & Hk1 & Hl1 & [Hp1 Hu1] & Hi1 & ->).
  rewrite Nat.sub_diag, Nat.add_0_r in Hl1.
  eapply returns_bind.
  { eapply (dynamic_loop_spec s1 elf_file hs _ img n); [apply Hrdy|done|exact Hi1| |exact Hl1].
    by destruct He1 as (_ & -> & _). }
  intros s2 (Hg2 & He2 & Hk2 & Hl2 & Hf2 & Hi2).
  assert (extends s s2) as He02 by (by eapply extends_trans).
  assert (∀ h p, h ∈ hs → has_type Elf.Load h → p ∈ seg_pages s h →
    ∃ fr fl, vw s2 !! p = Some (fr, fl) ∧ flags_without fl COPIED = segment_flags h) as Hp2.
  { intros h p Hh Hty Hp. destruct (Hp1 h p Hh Hty Hp) as (fr & fl & E & Hfl).
    specialize (Hf2 p). rewrite E in Hf2. destruct (vw s2 !! p) as [[fr2 fl2]|]; [|done].
    injection Hf2 as Hf2. exists fr2, fl2. split; [done|congruence]. }
  assert (∀ p, p ∈ pages_of s Elf.Load hs → is_Some (vw s2 !! p)) as Hm2.
  { intros p (h & Hh & Hty & Hp)%elem_of_pages_of. destruct (Hp2 h p Hh Hty Hp) as (fr & fl & E & _). eauto. }
  eapply returns_bind.
  { apply (flag_loop_spec s2 1 Elf.GnuRelro hs); [lia|done| | |].
    - intros s' h Hty. by rewrite Hty.
    - intros s' h Hh Hty. pose proof (ready_typed _ _ Hrdy) as Hall. rewrite Forall_forall in Hall.
      destruct (Hall h Hh) as [ty Hh']. unfold has_type in Hty. rewrite Hh' in *. cbn [mbind res_bind].
      destruct ty; done.
    - intros h Hh Hty. destruct (Hrelro h Hh Hty) as [Hs Hp].
      destruct (extends_seg s s2 h He02) as (Hsa & _). rewrite Hsa. split; [done|].
      intros p Hpp. by apply Hm2, Hp. }
  intros s3 Hr3. pose proof Hr3 as (Hg3 & He3 & Hf3 & _ & Hv3).
  assert (extends s s3) as He03 by (by eapply extends_trans).
  rewrite (pages_of_extends s s2) in * by done.
  eapply returns_bind.
  { apply returns_expect_ok, (flag_loop_spec s3 9 Elf.Load hs); [lia|done| | |].
    - intros s' h Hty. by rewrite Hty.
    - intros s' h Hh Hty. pose proof (ready_typed _ _ Hrdy) as Hall. rewrite Forall_forall in Hall.
      destruct (Hall h Hh) as [ty Hh']. unfold has_type in Hty. rewrite Hh' in *. cbn [mbind res_bind].
      destruct ty; done.
    - intros h Hh Hty. destruct (extends_seg s s3 h He03) as (Hsa & _). rewrite Hsa.
      split; [by apply seg_span_ok, (ready_segs _ _ Hrdy)|]. intros p Hp.
      destruct (Hm2 p) as [[fr fl] E]; [apply elem_of_pages_of; eauto|].
      rewrite Hv3, E. case_decide; eauto. }
  intros s4 Hr4. rewrite (pages_of_extends s s3) in Hr4 by done.
  pose proof Hr4 as (Hg4 & He4 & Hf4 & _ & Hv4). cbn [returns segments_post].
  split_and!; [done|by eapply extends_trans| | |done| | |].
  - eapply keeps_protected_trans; [exact Hk1|]. eapply keeps_protected_trans; [exact Hk2|].
    eapply keeps_protected_trans; [eapply (flag_removed_protected _ _ 1); [lia|exact Hr3]|].
    eapply (flag_removed_protected _ _ 9); [lia|exact Hr4].
  - unfold left_in in *. by rewrite Hf4, Hf3.
  - intros a. rewrite (flag_removed_vread _ _ _ _ _ Hr4), (flag_removed_vread _ _ _ _ _ Hr3). apply Hi2.
  - intros h p Hh Hty Hp. destruct (Hp2 h p Hh Hty Hp) as (fr & fl & E & Hfl).
    exists fr. by eapply final_flags_spec.
  - intros p Hp Hn. assert (vw s1 !! p = None) as H1.
    { rewrite Hu1; [done|]. intros h Hh Hty Hpp. apply Hp, elem_of_pages_of. eauto. }
    specialize (Hf2 p). rewrite H1 in Hf2. apply fmap_None in Hf2.
    rewrite Hv4, Hv3, Hf2. repeat case_decide; done.
Qed.

(** ** Position independent kernels *)
Lemma max_opt_spec (l : list Z) x : x ∈ l → ∃ m, max_opt l = Some m ∧ x ≤ m ∧ m ∈ l.
Proof.
  revert x. induction l as [|y l IH]; intros x Hx; [by apply elem_of_nil in Hx|].
  destruct l as [|z l].
  { apply list_elem_of_singleton in Hx as ->. exists y. split_and!; [done|lia|by left]. }
  destruct (IH z) as (m & Hm & _ & Hin); [by left|].
  change (max_opt (y :: z :: l)) with (Some (default y (Z.max y <$> max_opt (z :: l)))). rewrite Hm.
  exists (Z.max y m). split_and!; [done| |].
  - apply elem_of_cons in Hx as [->|Hx]; [lia|]. destruct (IH x Hx) as (m' & Hm' & ? & _). simplify_eq. lia.
  - destruct (Z.max_spec y m) as [[_ ->]|[_ ->]]; [by right|by left].
Qed.
Lemma min_opt_spec (l : list Z) x : x ∈ l → ∃ m, min_opt l = Some m ∧ m ≤ x ∧ m ∈ l.
Proof.
  revert x. induction l as [|y l IH]; intros x Hx; [by apply elem_of_nil in Hx|].
  destruct l as [|z l].
  { apply list_elem_of_singleton in Hx as ->. exists y. split_and!; [done|lia|by left]. }
  destruct (IH z) as (m & Hm & _ & Hin); [by left|].
  change (min_opt (y :: z :: l)) with (Some (default y (Z.min y <$> min_opt (z :: l)))). rewrite Hm.
  exists (Z.min y m). split_and!; [done| |].
  - apply elem_of_cons in Hx as [->|Hx]; [lia|]. destruct (IH x Hx) as (m' & Hm' & ? & _). simplify_eq. lia.
  - destruct (Z.min_spec y m) as [[_ ->]|[_ ->]]; [by left|by right].
Qed.

Definition seg_end (h : Elf.ProgramHeader) : Z := Elf.virtual_addr h + Elf.mem_size h.

Lemma segment_ends (hs : list Elf.ProgramHeader) (acc : list Z) :
  Forall (λ h, seg_end h < 2 ^ 64) hs →
  foldM (λ l h, e ← Elf.virtual_addr h +[64] Elf.mem_size h; Ret (l ++ [e])) acc hs =
    Ret (acc ++ (seg_end <$> hs)).
Proof.
  intros Hall. revert acc. induction Hall as [|h hs Hh _ IH]; intros acc; cbn.
  - by rewrite app_nil_r.
  - rewrite add_u_ok by done. cbn. by rewrite IH, <- app_assoc.
Qed.

(** The lowest address, the size and the alignment of the loadable segments. *)
Definition pie_base (elf_file : Elf.ElfFile) : Z :=
  default 0 (min_opt (Elf.virtual_addr <$> load_headers elf_file)).
Definition pie_size (elf_file : Elf.ElfFile) : Z :=
  default 0 (max_opt (seg_end <$> load_headers elf_file)) - pie_base elf_file.
Definition pie_align (elf_file : Elf.ElfFile) : Z :=
  default 1 (max_opt (Elf.align <$> load_headers elf_file)).

Lemma pie_bounds elf_file h : h ∈ load_headers elf_file →
  pie_base elf_file ≤ Elf.virtual_addr h ∧ seg_end h ≤ pie_base elf_file + pie_size elf_file.
Proof.
  intros Hh. unfold pie_size, pie_base.
  destruct (min_opt_spec (Elf.virtual_addr <$> load_headers elf_file) (Elf.virtual_addr h))
    as (lo & -> & ? & _); [by apply list_elem_of_fmap_2|].
  destruct (max_opt_spec (seg_end <$> load_headers elf_file) (seg_end h))
    as (hi & -> & ? & _); [by apply list_elem_of_fmap_2|]. cbn. lia.
Qed.

(** C17: Loading one segment: on a good state whose pages for the segment are still unmapped, with
    enough frames, [handle_load_segment] succeeds; every byte of the segment then reads as the
    byte of the file or, behind the file's data, as zero; its pages have the flags of the segment
    (up to the loader's marker); all other pages, their contents and all bytes of the ELF file
    are unchanged. *)
Theorem handle_load_segment_correct (s : inner) h n :
  good s → seg_ready s h → left_in s (n + 7 * length (seg_pages s h) + 4) →
  returns (handle_load_segment s h) (λ s',
    good s' ∧ left_in s' n ∧ keeps_protected s s' ∧
    (∀ i, 0 ≤ i < Elf.mem_size h → vread s' (seg_addr s h + i) =
       Some (if decide (i < Elf.file_size h) then memory s (seg_phys s h + i) else 0)) ∧
    (∀ p, p ∈ seg_pages s h → ∃ fr fl, vw s' !! p = Some (fr, fl) ∧
       flags_without fl COPIED = segment_flags h) ∧
    (∀ a, align_down a 4096 ∉ seg_pages s h →
       vread s' a = vread s a ∧ vw s' !! align_down a 4096 = vw s !! align_down a 4096)).
Proof.
  intros Hg Hr Hl. pose proof (ready_ok _ _ Hr) as Hok. pose proof (seg_sizes _ _ Hok).
  eapply returns_mono; [by apply handle_load_segment_spec|].
  intros s' (? & _ & ? & ? & [Hb ? Ho Hf]). split_and!; try done; [|auto].
  intros i Hi. rewrite Hb, seg_byte_file; [done|done|done|].
  apply span_pages_elem; [lia|]. exists (seg_addr s h + i). split; [lia|done].
Qed.

(** C2: Loading the whole file: [load_segments] implements its specification on images. With
    pairwise page-disjoint loadable segments, at most one TLS segment, valid relocations and
    enough frames it succeeds; the address space is the image of the segments with the relocations
    applied; every page has the flags of its segment, without write access in the RELRO areas and
    without the loader's marker; the TLS template describes the TLS segment; no byte of the ELF
    file is overwritten; and before relocation every byte of a segment is the one of the file or
    zero. *)
Theorem load_segments_correct (s : inner) elf_file img n :
  let hs := Elf.program_iter elf_file in
  ready s hs → relro_ok s hs →
  dynamic_images (virtual_address_offset s) elf_file (load_image s hs (vread s)) hs = Some img →
  left_in s (n + 8 * reloc_total elf_file hs + load_cost s hs) →
  returns (load_segments s elf_file) (segments_post s hs img n) ∧
  ∀ h i, h ∈ hs → has_type Elf.Load h → 0 ≤ i < Elf.mem_size h →
    load_image s hs (vread s) (seg_addr s h + i) =
      Some (if decide (i < Elf.file_size h) then memory s (seg_phys s h + i) else 0).
Proof.
  intros hs Hrdy Hrelro Hdyn Hleft. split; [by apply load_segments_spec|].
  intros h i Hh Hty Hi. pose proof (ready_ok _ _ (ready_segs _ _ Hrdy h Hh Hty)) as Hok.
  rewrite (load_image_hit s hs _ h); [by rewrite seg_byte_file|done| |apply Hrdy].
  split; [done|]. apply span_pages_elem; [apply Hok|]. exists (seg_addr s h + i). split; [lia|done].
Qed.

(** C29: Writing to the address space under construction is copy-on-write and exact: [copy_to]
    changes exactly the addressed bytes of the image, writes no byte of the ELF file (or of any
    other frame that is not the page's own), and [copy_from] then reads the buffer back. *)
Theorem copy_to_copy_from (s : inner) addr buf n :
  good s → Level4.span_ok addr (Z.of_nat (length buf)) →
  span_mapped s addr (Z.of_nat (length buf)) →
  left_in s (n + 4 * length (span_pages addr (Z.of_nat (length buf)))) →
  returns (copy_to s addr buf) (λ s',
    good s' ∧ keeps_protected s s' ∧ same_flags s s' ∧
    (∀ a, ¬ addr ≤ a < addr + Z.of_nat (length buf) → vread s' a = vread s a) ∧
    copy_from s' addr (replicate (length buf) 0) = Ret buf).
Proof.
  intros Hg Hs Hm Hl. eapply returns_mono; [by apply (copy_to_spec s addr buf n)|].
  intros s' (Hg' & _ & ? & _ & Hp & Hr). split_and!; [done|done|by eapply same_pages_flags| |].
  - intros a Ha. rewrite Hr. unfold vwrite. by rewrite decide_False.
  - assert (span_mapped s' addr (Z.of_nat (length buf))) as Hm'.
    { intros p Hpp. destruct (Hm p Hpp) as [[fr fl] E].
      destruct (same_pages_lookup _ _ _ _ _ _ Hp E) as (fr' & fl' & -> & _). eauto. }
    pose proof (copy_from_spec s' addr (replicate (length buf) 0) Hg') as Hc.
    rewrite length_replicate in Hc. apply returns_alt in Hc as (bs & -> & Hlen & Hbs); [|done|done].
    f_equal. apply list_eq. intros i. destruct (decide (i < length buf)%nat).
    + rewrite Hbs, Hr by done. unfold vwrite. rewrite decide_True by lia. f_equal. lia.
    + rewrite !lookup_ge_None_2 by lia. done.
Qed.

(** C28: The relocations of a dynamic segment are applied as specified on the image: each entry is
    read from the current image, must be a relative relocation into a loadable segment, and its
    value replaces the eight bytes at its target. *)
Theorem handle_dynamic_segment_refines (s : inner) elf_file h img img' n :
  good s → has_image s img →
  dynamic_image (virtual_address_offset s) elf_file img h = Some img' →
  left_in s (n + 8 * reloc_count elf_file h) →
  returns (handle_dynamic_segment s h elf_file) (λ s',
    good s' ∧ keeps_protected s s' ∧ same_flags s s' ∧ has_image s' img').
Proof.
  intros Hg Hi Hd Hl. eapply returns_mono; [by eapply handle_dynamic_segment_spec|].
  by intros s' (? & _ & ? & _ & ? & ?).
Qed.

(** [check_is_in_load] accepts exactly the offsets that lie in a loadable segment (when the
    types of all headers are known). *)
Theorem check_is_in_load_iff elf_file off :
  Forall typed (Elf.program_iter elf_file) →
  check_is_in_load elf_file off = Ret () ↔
  ∃ h, h ∈ Elf.program_iter elf_file ∧ has_type Elf.Load h ∧
    Elf.virtual_addr h ≤ off < Elf.virtual_addr h + Elf.mem_size h.
Proof.
  unfold check_is_in_load. generalize (Elf.program_iter elf_file) as hs. intros hs Hall.
  induction Hall as [|h hs [ty Hty] _ IH]; cbn [check_headers].
  { split; [done|]. intros (h & Hh & _). by apply elem_of_nil in Hh. }
  rewrite Hty. cbn [mbind res_bind].
  assert (∀ hit : Prop, (hit ↔ has_type Elf.Load h ∧ Elf.virtual_addr h ≤ off < Elf.virtual_addr h + Elf.mem_size h) →
    (hit ∨ ∃ h, h ∈ hs ∧ has_type Elf.Load h ∧ Elf.virtual_addr h ≤ off < Elf.virtual_addr h + Elf.mem_size h) ↔
    ∃ h', h' ∈ h :: hs ∧ has_type Elf.Load h' ∧ Elf.virtual_addr h' ≤ off < Elf.virtual_addr h' + Elf.mem_size h')
    as Hsplit.
  { intros hit Hhit. setoid_rewrite elem_of_cons. rewrite Hhit. split.
    - intros [?|(h' & ? & ?)]; eauto.
    - intros (h' & [->|?] & ?); eauto. }
  rewrite <- (Hsplit _ (iff_refl _)), <- IH. unfold has_type. rewrite Hty.
  destruct (decide (ty = Elf.Load)) as [->|Hne].
  - destruct (Z.leb_spec (Elf.virtual_addr h) off); [|naive_solver lia].
    destruct (Z.ltb_spec (off - Elf.virtual_addr h) (Elf.mem_size h)); naive_solver lia.
  - destruct ty; naive_solver.
Qed.

Context {R : Type} `{HG : Level4.RngLaws R}.

(** The offset moves the lowest address to one that [get_free_address] returns. *)
Lemma pie_offset_spec elf_file (used : Level4.UsedLevel4Entries R) :
  Forall (λ h, seg_end h < 2 ^ 64) (load_headers elf_file) →
  Level4.wf used → Level4.request_ok used (pie_size elf_file) (pie_align elf_file) →
  (∃ k, 0 ≤ k ∧ Level4.window_free used k (Level4.entries_for (pie_size elf_file))) →
  returns (pie_offset elf_file used) (λ '(vao, used'), ∃ a, vao = a - pie_base elf_file ∧
    Level4.address_post used (pie_size elf_file) (pie_align elf_file) (a, used')).
Proof.
  intros Hall Hu Hreq Hk. unfold pie_offset. rewrite segment_ends by done. cbn [mbind res_bind app].
  fold (pie_base elf_file) (pie_align elf_file). rewrite sub_u_ok.
  2:{ destruct Hreq as (? & _). unfold pie_size in *. lia. }
  fold (pie_size elf_file). cbn [mbind res_bind].
  eapply returns_bind; [by apply Level4.get_free_address_spec|].
  intros [a used'] Hpost. by exists a.
Qed.

(** A position independent kernel is placed in free memory: when enough level 4 entries are
    free, an offset is chosen such that every byte of every loadable segment, moved by the offset,
    lies in entries that were free and that are reserved afterwards, at an aligned base. *)
Theorem pie_offset_reserved elf_file (used : Level4.UsedLevel4Entries R) :
  load_headers elf_file ≠ [] → Forall (λ h, seg_end h < 2 ^ 64) (load_headers elf_file) →
  Level4.wf used → Level4.request_ok used (pie_size elf_file) (pie_align elf_file) →
  (∃ k, 0 ≤ k ∧ Level4.window_free used k (Level4.entries_for (pie_size elf_file))) →
  returns (pie_offset elf_file used) (λ '(vao, used'),
    let base := vao + pie_base elf_file in
    canonical base ∧ base mod pie_align elf_file = 0 ∧
    ∀ h, h ∈ load_headers elf_file →
      Level4.range_in (Level4.free used) base (seg_end h - pie_base elf_file) ∧
      Level4.range_in (λ j, ¬ Level4.free used' j) base (seg_end h - pie_base elf_file)).
Proof.
  intros Hne Hall Hu Hreq Hk. eapply returns_mono; [by apply pie_offset_spec|].
  intros [vao used'] (a & -> & Hpost). pose proof Hpost as (Hc & Hm & _).
  apply Level4.address_post_ranges in Hpost as (_ & _ & _ & Hin & Hout).
  replace (a - pie_base elf_file + pie_base elf_file) with a by lia. split_and!; [done|done|].
  intros h Hh. destruct (pie_bounds elf_file h Hh).
  split; intros r Hr; [apply Hin|apply Hout]; lia.
Qed.

End Proofs.

(** ** A small kernel *)
Existing Instance Level4.rng_ref.

Definition segment ty offset addr file_size mem_size x w : Elf.ProgramHeader :=
  {| Elf.get_type := Ret ty; Elf.offset := offset; Elf.virtual_addr := addr;
     Elf.file_size := file_size; Elf.mem_size := mem_size; Elf.align := 4096;
     Elf.is_execute := x; Elf.is_write := w |}.

Definition text_segment := segment Elf.Load 0 0 0x120 0x120 true false.
Definition data_segment := segment Elf.Load 0x1f00 0x2f00 0x20 0x1800 false true.
Definition dynamic_segment := segment Elf.Dynamic 0x1f00 0x2f00 0x10 0x10 false true.
Definition relro_segment := segment Elf.GnuRelro 0x1f00 0x2f00 0x20 0x100 false false.
Definition tls_segment := segment Elf.Tls 0x1f10 0x2f10 0x10 0x20 false false.

(** One relocation entry: the eight bytes at [0x2f08] become the address of [0x50]. *)
Definition sample_rela : list Z := le_bytes 8 0x2f08 ++ le_bytes 8 8 ++ le_bytes 8 0x50.
Definition dynamic_entry tag val : Elf.Dynamic64 :=
  {| Elf.get_tag := Ret tag; Elf.get_ptr := Ret val; Elf.get_val := Ret val |}.
Definition sample_elf : Elf.ElfFile :=
  {| Elf.input_addr := 0x1000000; Elf.input_len := 0x2000; Elf.file_type := Elf.FSharedObject;
     Elf.entry_point := 0x10;
     Elf.program_iter := [text_segment; data_segment; dynamic_segment; relro_segment; tls_segment];
     Elf.program_sanity_check _ := Ret (); Elf.header_sanity_check := Ret ();
     Elf.get_data _ := Ret (Elf.DataDynamic64
       [dynamic_entry Elf.Rela 0x100; dynamic_entry Elf.RelaSize 24;
        dynamic_entry Elf.RelaEnt 24; dynamic_entry Elf.OtherTag 0]) |}.
Definition sample_memory : Z → Z := mem_write (λ x, x mod 256) 0x1000100 sample_rela.
Definition sample_state : Inner (gmap Z (Z * Z)) Bump :=
  mkInner 0x1000000 (2 ^ 39) ∅ (mkBump 0x2000000 0x3000000) sample_memory.

Lemma sample_good : good sample_state.
Proof. split; [done|by vm_compute|done|done]. Qed.

Lemma sample_protected x : 0 ≤ x < 0x2000000 → protected sample_state x.
Proof.
  intros Hx. split; [|done]. cbn. pose proof (align_down_le x 4096). lia.
Qed.

Lemma sample_seg_ready h : h = text_segment ∨ h = data_segment → seg_ready sample_state h.
Proof.
  intros [-> | ->]; (split; [split; cbn; unfold Level4.span_ok, seg_phys, seg_addr; cbn; lia||done|done|done|];
    cbn; unfold seg_phys; cbn; intros; apply sample_protected; lia).
Qed.

Lemma before_lookup {T} (l : list T) x y : before l x y →
  ∃ i j, (i < j)%nat ∧ l !! i = Some x ∧ l !! j = Some y.
Proof.
  intros (l1 & l2 & l3 & ->). exists (length l1), (length l1 + S (length l2))%nat.
  split; [lia|]. split; [by rewrite list_lookup_middle|].
  rewrite lookup_app_r by lia. replace (length l1 + S (length l2) - length l1)%nat with (S (length l2)) by lia.
  change ((l2 ++ y :: l3) !! length l2 = Some y). by apply list_lookup_middle.
Qed.

Lemma sample_disjoint p : p ∈ seg_pages sample_state text_segment →
  p ∉ seg_pages sample_state data_segment.
Proof.
  unfold seg_pages. rewrite !span_pages_range.
  change (seg_addr sample_state text_segment) with 549755813888.
  change (seg_addr sample_state data_segment) with 549755825920.
  change (align_down 549755825920 4096) with 549755822080. cbn. lia.
Qed.

(** Case analysis on the headers of the sample. *)
Lemma sample_headers h : h ∈ Elf.program_iter sample_elf →
  h = text_segment ∨ h = data_segment ∨ h = dynamic_segment ∨ h = relro_segment ∨ h = tls_segment.
Proof. cbn. rewrite !elem_of_cons, elem_of_nil. tauto. Qed.

Lemma sample_before h h' : before (Elf.program_iter sample_elf) h h' →
  Elf.get_type h = Elf.get_type h' → h = text_segment ∧ h' = data_segment.
Proof.
  intros (i & j & Hij & Hi & Hj)%before_lookup. cbn in *.
  destruct i as [|[|[|[|[|i]]]]], j as [|[|[|[|[|j]]]]]; cbn in *; simplify_eq; try lia; done.
Qed.

Lemma sample_ready : ready sample_state (Elf.program_iter sample_elf).
Proof.
  split.
  - apply sample_good.
  - repeat constructor; by eexists.
  - intros h Hh Hty. apply sample_seg_ready.
    destruct (sample_headers h Hh) as [->|[->|[->|[->| ->]]]]; (by auto) || discriminate Hty.
  - intros h h' p Hb Hty Hty'. destruct (sample_before h h' Hb) as [-> ->]; [|apply sample_disjoint].
    unfold has_type in *. congruence.
  - intros h Hh Hty. destruct (sample_headers h Hh) as [->|[->|[->|[->| ->]]]]; try discriminate Hty.
    unfold is_uint. change (seg_addr sample_state tls_segment) with 549755825936. lia.
  - intros h h' Hb Hty Hty'. destruct (sample_before h h' Hb) as [-> ->]; [|discriminate Hty].
    unfold has_type in *. congruence.
Qed.

Lemma sample_relro : relro_ok sample_state (Elf.program_iter sample_elf).
Proof.
  intros h Hh Hty. destruct (sample_headers h Hh) as [->|[->|[->|[->| ->]]]]; try discriminate Hty.
  split; [unfold Level4.span_ok; change (seg_addr sample_state relro_segment) with 549755825920; cbn; lia|].
  intros p Hp. apply elem_of_pages_of. exists data_segment.
  split; [cbn; rewrite !elem_of_cons; auto|]. split; [done|]. revert Hp.
  unfold seg_pages. rewrite !span_pages_range.
  change (seg_addr sample_state relro_segment) with 549755825920.
  change (seg_addr sample_state data_segment) with 549755825920. cbn. lia.
Qed.

Lemma handle_load_segment_correct_witness :
  returns (handle_load_segment sample_state data_segment) (λ s',
    vread s' (2 ^ 39 + 0x2f04) = Some 4 ∧ vread s' (2 ^ 39 + 0x4000) = Some 0).
Proof.
  eapply returns_mono.
  - apply (handle_load_segment_correct sample_state data_segment 0).
    + apply sample_good.
    + apply sample_seg_ready. by right.
    + apply bump_supply; by vm_compute.
  - intros s' (_ & _ & _ & Hb & _). split.
    + exact (Hb 4 ltac:(cbn; lia)).
    + exact (Hb 0x1100 ltac:(cbn; lia)).
Defined.

(** The relocated image of the sample. *)
Definition sample_image : option image :=
  dynamic_images (2 ^ 39) sample_elf
    (load_image sample_state (Elf.program_iter sample_elf) (vread sample_state))
    (Elf.program_iter sample_elf).

Lemma sample_image_bytes :
  (img ← sample_image; mapM img [2 ^ 39 + 0x2f08; 2 ^ 39 + 0x2f0c; 2 ^ 39 + 0x2f04]) =
    Some [0x50; 0x80; 4].
Proof. by vm_compute. Qed.

Lemma load_segments_correct_witness :
  ∃ img, sample_image = Some img ∧
    returns (load_segments sample_state sample_elf)
      (segments_post sample_state (Elf.program_iter sample_elf) img 0).
Proof.
  destruct sample_image as [img|] eqn:Hdyn.
  - exists img. split; [reflexivity|].
    refine (proj1 (load_segments_correct sample_state sample_elf img 0
      sample_ready sample_relro Hdyn _)).
    apply bump_supply; [reflexivity|vm_compute; discriminate].
  - exfalso. pose proof sample_image_bytes as Hb. rewrite Hdyn in Hb. discriminate Hb.
Defined.

(** The sample with its two file pages mapped. *)
Definition mapped_state : Inner (gmap Z (Z * Z)) Bump :=
  mkInner 0x1000000 (2 ^ 39)
    (<[2 ^ 39 := (0x1000000, PRESENT)]> {[2 ^ 39 + 0x2000 := (0x1001000, flags_or PRESENT WRITABLE)]})
    (mkBump 0x2000000 0x3000000) sample_memory.

Lemma mapped_view p fr fl : vw mapped_state !! p = Some (fr, fl) →
  (p = 2 ^ 39 ∧ fr = 0x1000000 ∧ fl = 1) ∨ (p = 2 ^ 39 + 0x2000 ∧ fr = 0x1001000 ∧ fl = 3).
Proof.
  change (vw mapped_state) with
    (<[2 ^ 39 := (0x1000000, PRESENT)]> {[2 ^ 39 + 0x2000 := (0x1001000, flags_or PRESENT WRITABLE)]}
      : gmap Z (Z * Z)).
  intros [[<- [= <- <-]]|[_ [<- [= <- <-]]%lookup_singleton_Some]]%lookup_insert_Some; [left|right]; done.
Qed.

Lemma mapped_good : good mapped_state.
Proof.
  split; [done|by vm_compute| |].
  - intros p fr fl [(-> & -> & ->)|(-> & -> & ->)]%mapped_view;
      (split_and!; [done|lia|lia|done|]); cbn; lia.
  - intros p q fr fl fl' [(-> & -> & ->)|(-> & -> & ->)]%mapped_view
      [(-> & ? & _)|(-> & ? & _)]%mapped_view; done.
Qed.

Lemma copy_to_copy_from_witness :
  returns (copy_to mapped_state (2 ^ 39 + 5) [1; 2; 3]) (λ s',
    copy_from s' (2 ^ 39 + 5) (replicate 3 0) = Ret [1; 2; 3] ∧ memory s' 0x1000005 = 5).
Proof.
  eapply returns_mono.
  - apply (copy_to_copy_from mapped_state (2 ^ 39 + 5) [1; 2; 3] 0).
    + apply mapped_good.
    + unfold Level4.span_ok. cbn. lia.
    + intros p Hp. apply span_pages_range in Hp as [Hm Hp].
      change (align_down (2 ^ 39 + 5) 4096) with (2 ^ 39) in Hp. cbn [length Z.of_nat] in Hp.
      assert (p = 2 ^ 39) as -> by (apply Z.mod_divide in Hm as [k ->]; lia).
      by exists (0x1000000, PRESENT).
    + apply bump_supply; [reflexivity|vm_compute; discriminate].
  - intros s' (_ & Hk & _ & _ & Hc). split; [exact Hc|].
    apply (Hk 0x1000005). split; [cbn; change (align_down 16777221 4096) with 16777216; lia|].
    intros p fl [(_ & _ & ->)|(_ & ? & _)]%mapped_view; [by vm_compute|done].
Defined.

Lemma mapped_image_bytes :
  (img ← dynamic_image (2 ^ 39) sample_elf (vread mapped_state) dynamic_segment;
   mapM img [2 ^ 39 + 0x2f08; 2 ^ 39 + 0x2f0c; 2 ^ 39 + 0x2f04]) = Some [0x50; 0x80; 4].
Proof. by vm_compute. Qed.

Lemma handle_dynamic_segment_refines_witness :
  ∃ img, dynamic_image (2 ^ 39) sample_elf (vread mapped_state) dynamic_segment = Some img ∧
    returns (handle_dynamic_segment mapped_state dynamic_segment sample_elf) (λ s', has_image s' img).
Proof.
  destruct (dynamic_image (2 ^ 39) sample_elf (vread mapped_state) dynamic_segment) as [img|] eqn:Hdyn.
  - exists img. split; [reflexivity|]. eapply returns_mono.
    + apply (handle_dynamic_segment_refines mapped_state sample_elf dynamic_segment (vread mapped_state) img 0
        mapped_good (λ a, eq_refl) Hdyn).
      apply bump_supply; [reflexivity|vm_compute; discriminate].
    + intros s' (_ & _ & _ & Hi). exact Hi.
  - exfalso. pose proof mapped_image_bytes as Hb. rewrite Hdyn in Hb. discriminate Hb.
Defined.

Lemma check_is_in_load_iff_witness :
  check_is_in_load sample_elf 0x3000 = Ret () ∧ ∃ h, h ∈ Elf.program_iter sample_elf ∧
    has_type Elf.Load h ∧ Elf.virtual_addr h ≤ 0x3000 < Elf.virtual_addr h + Elf.mem_size h.
Proof.
  split; [reflexivity|]. apply (check_is_in_load_iff sample_elf 0x3000); [|reflexivity].
  apply (ready_typed _ _ sample_ready).
Defined.

Lemma pie_offset_reserved_witness :
  returns (pie_offset sample_elf (Level4.sample_used (Some 7))) (λ '(vao, used'),
    canonical (vao + 0) ∧ (vao + 0) mod 4096 = 0 ∧
    ∀ h, h ∈ load_headers sample_elf →
      Level4.range_in (Level4.free (Level4.sample_used (Some 7))) (vao + 0) (seg_end h - 0) ∧
      Level4.range_in (λ j, ¬ Level4.free used' j) (vao + 0) (seg_end h - 0)).
Proof.
  apply (pie_offset_reserved sample_elf (Level4.sample_used (Some 7))).
  - by vm_compute.
  - change (load_headers sample_elf) with [text_segment; data_segment]. repeat constructor.
  - reflexivity.
  - change (pie_size sample_elf) with 0x4700. change (pie_align sample_elf) with 4096.
    split_and!; [lia|lia|reflexivity|by vm_compute|]. intros _. split; by vm_compute.
  - exists 1. split; [lia|]. change (Level4.entries_for (pie_size sample_elf)) with 1.
    by apply Level4.sample_window.
Defined.

End LoadSegments.
