(* ===== verification/PageTables.v ===== *)
(** * Page tables with 2 MiB pages and directly set level 4 entries

    After the kernel is loaded, [set_up_mappings] and [create_boot_info]
    (common/src/lib.rs) also map 2 MiB pages and write a level 4 entry. These
    operations of the [x86_64] crate are the class [BigMapper]; [BigMapperLaws]
    states what their documentation promises. [Table] is a reference
    implementation. The class [X86Big] has the address operations on 2 MiB pages
    and on alignments. *)
From stdpp Require Import gmap.
From S2P Require Import Prelude X86 Paging.
Import X86 Paging.

Module PageTables.

(** ** Addresses *)
Class X86Big : Type := {
  (** [VirtAddr::is_aligned] and [VirtAddr::align_down] *)
  virt_is_aligned : Z → Z → bool;
  virt_align_down : Z → Z → Z;
  (** [Page::from_start_address] *)
  page_from_start_address : Z → option Z;
  (** [Page::<Size2MiB>::containing_address], [PhysFrame::<Size2MiB>::containing_address] *)
  big_page_containing : Z → Z;
  big_frame_containing : Z → Z;
  (** the frames of [PhysFrame::<Size2MiB>::range_inclusive] *)
  big_frame_range_inclusive : Z → Z → list Z;
}.
Definition big_frames_from (a n : Z) : list Z := (λ i, a + i * Size2MiB) <$> seqZ 0 n.

Class X86BigLaws (X : X86Big) : Prop := {
  (** "checks whether the virtual address has the demanded alignment" *)
  virt_is_aligned_spec a n : canonical a → 0 < n → virt_is_aligned a n = (a mod n =? 0);
  (** "aligns the virtual address downwards to the given alignment" *)
  virt_align_down_spec a n : canonical a → 0 < n → (n | 2 ^ 47) →
    virt_align_down a n = align_down a n;
  (** "returns an error if the address is not correctly aligned" *)
  page_from_start_address_ok a : canonical a → a mod 4096 = 0 → page_from_start_address a = Some a;
  page_from_start_address_err a : canonical a → a mod 4096 ≠ 0 → page_from_start_address a = None;
  big_page_containing_spec a : canonical a → big_page_containing a = align_down a Size2MiB;
  big_frame_containing_spec a : phys_ok a → big_frame_containing a = align_down a Size2MiB;
  big_frame_range_inclusive_spec f g : phys_ok f → phys_ok g →
    f mod Size2MiB = 0 → g mod Size2MiB = 0 →
    big_frame_range_inclusive f g = big_frames_from f ((g - f) / Size2MiB + 1);
}.

#[global] Instance x86_big_ref : X86Big := {|
  virt_is_aligned a n := (a mod n =? 0);
  virt_align_down a n := align_down a n;
  page_from_start_address a := if a mod 4096 =? 0 then Some a else None;
  big_page_containing a := align_down a Size2MiB;
  big_frame_containing a := align_down a Size2MiB;
  big_frame_range_inclusive f g := big_frames_from f ((g - f) / Size2MiB + 1);
|}.
#[global] Instance x86_big_ref_laws : X86BigLaws x86_big_ref.
Proof.
  split; cbn; try done; intros a _ Ha.
  - by rewrite Ha.
  - by destruct (Z.eqb_spec (a mod 4096) 0).
Qed.

(** ** Page tables *)

Class BigMapper (M : Type) := {
  (** [Mapper<Size2MiB>::map_to] and [Mapper<Size4KiB>::identity_map] *)
  map_to_2mib : ∀ {F} `{!FrameSource F}, M → F → Z → Z → Z → res (option (M * F));
  identity_map : ∀ {F} `{!FrameSource F}, M → F → Z → Z → res (option (M * F));
  (** [level_4_table()[i].is_unused()] and [level_4_table()[i].set_frame(frame, flags)] *)
  level_4_is_unused : M → Z → bool;
  level_4_set_frame : M → Z → Z → Z → M;
}.

(** The level 4 index of a page. *)
Definition p4_of (p : Z) : Z := virt_rank p / 2 ^ 39.

(** The contents of a page table: its 4 KiB and 2 MiB pages, the 2 MiB aligned addresses for
    which a level 1 table was created, and the level 4 entries that were set directly. *)
Class BigMapperLaws (M : Type) {P : Mapper M} {B : BigMapper M} := {
  table_inv : M → Prop;
  pages : M → gmap Z (Z * Z);
  big_pages : M → gmap Z (Z * Z);
  level_1_tables : M → gset Z;
  level_4_set : M → gmap Z Z;
  (** mapping a 4 KiB page that is not mapped creates the tables above it *)
  map_page_ok `{!FrameSource F, !FrameSourceLaws F} m f p fr fl : table_inv m →
    source_inv f → canonical p → p mod 4096 = 0 → fr mod 4096 = 0 → Z.testbit fl 0 = true →
    pages m !! p = None → big_pages m !! align_down p Size2MiB = None →
    level_4_set m !! p4_of p = None → supply f 3 →
    ∃ m' f', map_to m f p fr fl = Ret (Some (m', f')) ∧ table_inv m' ∧
      pages m' = <[p := (fr, fl)]> (pages m) ∧ big_pages m' = big_pages m ∧
      level_1_tables m' = {[align_down p Size2MiB]} ∪ level_1_tables m ∧
      level_4_set m' = level_4_set m ∧
      (∀ i, i ≠ p4_of p → level_4_is_unused m' i = level_4_is_unused m i) ∧
      source_inv f' ∧ (∀ y, fresh f' y → fresh f y) ∧ (∀ n, supply f (n + 3) → supply f' n) ∧
      rtc alloc_step f f';
  (** a 2 MiB page takes the place of a level 1 table *)
  map_big_page_ok `{!FrameSource F, !FrameSourceLaws F} m f p fr fl : table_inv m →
    source_inv f → canonical p → p mod Size2MiB = 0 → fr mod Size2MiB = 0 →
    Z.testbit fl 0 = true →
    big_pages m !! p = None → p ∉ level_1_tables m → level_4_set m !! p4_of p = None →
    supply f 2 →
    ∃ m' f', map_to_2mib m f p fr fl = Ret (Some (m', f')) ∧ table_inv m' ∧
      pages m' = pages m ∧ big_pages m' = <[p := (fr, fl)]> (big_pages m) ∧
      level_1_tables m' = level_1_tables m ∧ level_4_set m' = level_4_set m ∧
      (∀ i, i ≠ p4_of p → level_4_is_unused m' i = level_4_is_unused m i) ∧
      source_inv f' ∧ (∀ y, fresh f' y → fresh f y) ∧ (∀ n, supply f (n + 2) → supply f' n) ∧
      rtc alloc_step f f';
  (** "maps the given frame to the virtual page with the same address" *)
  identity_map_spec `{!FrameSource F} m f fr fl : fr mod 4096 = 0 → canonical fr →
    identity_map m f fr fl = map_to m f fr fr fl;
  level_4_set_frame_ok m i fr fl : table_inv m → 0 ≤ i < 512 → level_4_is_unused m i = true →
    let m' := level_4_set_frame m i fr fl in
    table_inv m' ∧ pages m' = pages m ∧ big_pages m' = big_pages m ∧
    level_1_tables m' = level_1_tables m ∧ level_4_set m' = <[i := fr]> (level_4_set m) ∧
    ∀ j, j ≠ i → level_4_is_unused m' j = level_4_is_unused m j;
}.

(** ** A reference implementation *)
Record Table := mkTable {
  t_pages : gmap Z (Z * Z);
  t_big : gmap Z (Z * Z);
  t_level_1 : gset Z;
  t_level_4 : gset Z;
  t_set : gmap Z Z;
}.
Definition empty_table : Table := mkTable ∅ ∅ ∅ ∅ ∅.

#[global] Instance table_mapper : Mapper Table := {|
  translate m a :=
    match t_pages m !! align_down a 4096 with
    | Some (fr, fl) => Mapped (MappedSize4KiB fr) (a mod 4096) fl
    | None => match t_big m !! align_down a Size2MiB with
              | Some (fr, fl) => Mapped (MappedSize2MiB fr) (a mod Size2MiB) fl
              | None => NotMapped
              end
    end;
  translate_page m p := fst <$> t_pages m !! p;
  map_to _ _ m f p fr fl :=
    Ret (match t_pages m !! p, t_big m !! align_down p Size2MiB with
         | None, None =>
             Some (mkTable (<[p := (fr, fl)]> (t_pages m)) (t_big m)
                     ({[align_down p Size2MiB]} ∪ t_level_1 m) ({[p4_of p]} ∪ t_level_4 m) (t_set m), f)
         | _, _ => None
         end);
  unmap m p :=
    (λ '(fr, _), (fr, mkTable (delete p (t_pages m)) (t_big m) (t_level_1 m) (t_level_4 m) (t_set m)))
      <$> t_pages m !! p;
  update_flags m p fl :=
    (λ '(fr, _), mkTable (<[p := (fr, fl)]> (t_pages m)) (t_big m) (t_level_1 m) (t_level_4 m) (t_set m))
      <$> t_pages m !! p;
|}.
#[global] Instance table_big : BigMapper Table := {|
  map_to_2mib _ _ m f p fr fl :=
    Ret (match t_big m !! p with
         | None => if decide (p ∈ t_level_1 m) then None else
             Some (mkTable (t_pages m) (<[p := (fr, fl)]> (t_big m)) (t_level_1 m)
                     ({[p4_of p]} ∪ t_level_4 m) (t_set m), f)
         | _ => None
         end);
  identity_map _ _ m f fr fl := map_to m f fr fr fl;
  level_4_is_unused m i := bool_decide (i ∉ t_level_4 m);
  level_4_set_frame m i fr fl :=
    mkTable (t_pages m) (t_big m) (t_level_1 m) ({[i]} ∪ t_level_4 m) (<[i := fr]> (t_set m));
|}.
#[global] Instance table_big_laws : BigMapperLaws Table.
Proof.
  refine (@Build_BigMapperLaws Table table_mapper table_big (λ _, True) t_pages t_big t_level_1 t_set _ _ _ _).
  - intros F ?? m f p fr fl _ Hi _ _ _ _ Hp Hb _ Hs. cbn. rewrite Hp, Hb. eexists _, _. cbn.
    split_and!; try done; [intros i Hi'; apply bool_decide_ext; set_solver|].
    intros n. apply supply_le. lia.
  - intros F ?? m f p fr fl _ Hi _ _ _ _ Hb Ht _ Hs. cbn. rewrite Hb. rewrite decide_False by done.
    eexists _, _. cbn. split_and!; try done; [intros i Hi'; apply bool_decide_ext; set_solver|].
    intros n. apply supply_le. lia.
  - done.
  - intros m i fr fl _ _ _. split_and!; try done. intros j Hj. cbn. apply bool_decide_ext. set_solver.
Defined.

End PageTables.
