(* ===== verification/SetUp.v ===== *)
(** * Setting up the kernel's address space (common/src/lib.rs, gdt.rs)

    [set_up_mappings] loads the kernel and maps its stack, the context switch
    function, a GDT, the framebuffer, the ramdisk, all of physical memory and the
    recursive level 4 entry, as the kernel's configuration asks; each of these
    steps is a definition of its own here. [create_boot_info] maps and fills the
    boot information, and [switch_to_kernel] jumps to the kernel. The page tables
    are the classes of [Paging.v] and [PageTables.v], logging is left out. *)
From S2P Require Import Prelude Memory X86 Paging PageTables Config Info Elf FrameAllocator Level4 LoadKernel.
Import Memory X86 Paging PageTables.

Module SetUp.

(** The parameters of [set_up_mappings] and the state it changes. *)
Record SystemInfo := mkSystemInfo {
  sys_framebuffer : option Level4.RawFrameBufferInfo;
  sys_rsdp_addr : option Z;
  sys_ramdisk_addr : option Z;
  sys_ramdisk_len : Z;
}.
Record Kernel := mkKernel {
  elf : Elf.ElfFile;
  config : Config.BootloaderConfig;
  start_address : Z;
  len : Z;
}.
Record PageTables (M : Type) := mkPageTables {
  bootloader : M;
  kernel : M;
  kernel_level_4_frame : Z;
}.
Arguments mkPageTables {_} _ _ _.
Arguments bootloader {_} _.
Arguments kernel {_} _.
Arguments kernel_level_4_frame {_} _.

Record Mappings (R : Type) := mkMappings {
  entry_point : Z;
  stack_top : Z;
  used_entries : Level4.UsedLevel4Entries R;
  framebuffer : option Z;
  physical_memory_offset : option Z;
  recursive_index : option Z;
  tls_template : option Info.TlsTemplate;
  kernel_slice_start : Z;
  kernel_slice_len : Z;
  kernel_image_offset : Z;
  ramdisk_slice_start : option Z;
  ramdisk_slice_len : Z;
}.
Arguments mkMappings {_} _ _ _ _ _ _ _ _ _ _ _ _.
Arguments entry_point {_} _.
Arguments stack_top {_} _.
Arguments used_entries {_} _.
Arguments framebuffer {_} _.
Arguments physical_memory_offset {_} _.
Arguments recursive_index {_} _.
Arguments tls_template {_} _.
Arguments kernel_slice_start {_} _.
Arguments kernel_slice_len {_} _.
Arguments kernel_image_offset {_} _.
Arguments ramdisk_slice_start {_} _.
Arguments ramdisk_slice_len {_} _.

(** The control registers and segment registers the code sets. *)
Record Control := mkControl {
  efer : Z;
  cr0 : Z;
  gdtr : Z;
  cs : Z;
  ds : Z;
  es : Z;
  ss : Z;
}.

(** [EferFlags::NO_EXECUTE_ENABLE] is bit 11, [Cr0Flags::WRITE_PROTECT] bit 16. *)
Definition enable_nxe_bit (c : Control) : Control :=
  mkControl (Z.lor (efer c) (2 ^ 11)) (cr0 c) (gdtr c) (cs c) (ds c) (es c) (ss c).
Definition enable_write_protect_bit (c : Control) : Control :=
  mkControl (efer c) (Z.lor (cr0 c) (2 ^ 16)) (gdtr c) (cs c) (ds c) (es c) (ss c).

(** What the set-up code changes as it goes: the kernel's page table, the frame allocator,
    the level 4 entries in use, the memory and the registers. *)
Record Loading (M F R : Type) := mkLoading {
  table : M;
  frames : F;
  used : Level4.UsedLevel4Entries R;
  mem : Z → Z;
  control : Control;
}.
Arguments mkLoading {_ _ _} _ _ _ _ _.
Arguments control {_ _ _} _.
Arguments table {_ _ _} _.
Arguments frames {_ _ _} _.
Arguments used {_ _ _} _.
Arguments mem {_ _ _} _ _.

(** [ElfFile::new] and [find_section_by_name(name)] with [raw_data] *)
Class ElfParser := {
  elf_new : Z → list Z → res Elf.ElfFile;
  section_raw_data : Elf.ElfFile → string → option (list Z);
}.

(** The bytes of a [GlobalDescriptorTable] with a kernel code and a kernel data segment, and the
    selectors [add_entry] returns for them. *)
Class GdtFormat := {
  gdt_bytes : list Z;
  code_selector : Z;
  data_selector : Z;
}.

Definition FLAGS_RW : Z := flags_or PRESENT WRITABLE.

(** [Kernel::parse] *)
Definition Kernel_parse `{ElfParser} (kernel_addr : Z) (kernel_slice : list Z) : res Kernel :=
  kernel_elf ← expect_ok (elf_new kernel_addr kernel_slice) "unwrap";
  raw ← expect_some (section_raw_data kernel_elf ".bootloader-config")
          "bootloader config section not found; kernel must be compiled against bootloader_api";
  config ← expect_ok (Config.deserialize raw)
             "kernel was compiled with incompatible bootloader_api version";
  Ret (mkKernel kernel_elf config kernel_addr (Z.of_nat (length kernel_slice))).

Section Model.
Context `{X : X86, XB : X86Big} {M : Type} `{P : Mapper M, PB : !BigMapper M}.
Context {F : Type} `{A : FrameSource F} {R : Type} `{G : Level4.Rng R}.
Abbreviation loading := (Loading M F R).
Abbreviation used_t := (Level4.UsedLevel4Entries R).

Definition set_tables (self : loading) (t : M) (f : F) : loading :=
  mkLoading t f (used self) (mem self) (control self).
Definition set_used (self : loading) (u : used_t) : loading :=
  mkLoading (table self) (frames self) u (mem self) (control self).

(** [mapping_addr]: the address and whether it has the alignment *)
Definition mapping_addr (mapping : Config.Mapping) (size alignment : Z) (used : used_t) :
    res ((Z + Z) * used_t) :=
  '(addr, used) ←
    match mapping with
    | Config.FixedAddress addr => addr ← virt_new addr; Ret (addr, used)
    | Config.Dynamic => Level4.get_free_address used size alignment
    end;
  Ret (if virt_is_aligned addr alignment then inl addr else inr addr, used).

Definition mapping_addr_page_aligned (mapping : Config.Mapping) (size : Z) (used : used_t)
    (kind : string) : res (Z * used_t) :=
  '(r, used) ← mapping_addr mapping size Size4KiB used;
  match r with
  | inl addr => page ← expect_some (page_from_start_address addr) "unwrap"; Ret (page, used)
  | inr _ => Panic kind
  end.

(** [kernel_page_table.map_to(page, frame, flags, frame_allocator)], where an error panics *)
Definition map_frame (self : loading) (page frame flags : Z) : res loading :=
  r ← map_to (table self) (frames self) page frame flags;
  '(t, f) ← expect_some r "failed to map page";
  Ret (set_tables self t f).
Definition map_big_frame (self : loading) (page frame flags : Z) : res loading :=
  r ← map_to_2mib (table self) (frames self) page frame flags;
  '(t, f) ← expect_some r "failed to map page";
  Ret (set_tables self t f).
Definition identity_map_frame (self : loading) (frame flags : Z) : res loading :=
  r ← identity_map (table self) (frames self) frame flags;
  '(t, f) ← expect_some r "failed to identity map frame";
  Ret (set_tables self t f).
(** [frame_allocator.allocate_frame().expect(..)] *)
Definition take_frame (self : loading) (msg : string) : res (Z * loading) :=
  '(o, f) ← allocate_frame (frames self);
  frame ← expect_some o msg;
  Ret (frame, set_tables self (table self) f).

(** A fresh frame for each page of the list. *)
Definition map_fresh_pages (self : loading) (pages : list Z) (msg : string) : res loading :=
  foldM (λ self page,
           '(frame, self) ← take_frame self msg;
           map_frame self page frame FLAGS_RW) self pages.

(** The stack; the result is its end address. *)
Definition map_kernel_stack (config : Config.BootloaderConfig) (self : loading) :
    res (Z * loading) :=
  size ← Size4KiB +[64] Config.kernel_stack_size config;
  '(guard_page, u) ← mapping_addr_page_aligned (Config.kernel_stack (Config.mappings config))
                       size (used self) "kernel stack start";
  let self := set_used self u in
  stack_start ← page_add guard_page 1;
  stack_end_addr ← virt_add stack_start (Config.kernel_stack_size config);
  last ← virt_sub stack_end_addr 1;
  let stack_end := page_containing last in
  self ← map_fresh_pages self (page_range_inclusive stack_start stack_end)
           "frame allocation failed when mapping a kernel stack";
  Ret (stack_end_addr, self).

Definition map_context_switch (context_switch : Z) (self : loading) : res loading :=
  context_switch_function ← phys_new context_switch;
  let start_frame := frame_containing context_switch_function in
  end_frame ← frame_add start_frame 1;
  foldM (λ self frame, identity_map_frame self frame PRESENT) self
    (frame_range_inclusive start_frame end_frame).

(** [gdt::create_and_load]: the table is written through the identity mapping *)
Definition create_and_load `{GdtFormat} (mem : Z → Z) (c : Control) (frame : Z) :
    res ((Z → Z) * Control) :=
  virt_addr ← virt_new frame;
  Ret (mem_write mem virt_addr gdt_bytes,
       mkControl (efer c) (cr0 c) virt_addr code_selector data_selector data_selector data_selector).
Definition map_gdt `{GdtFormat} (self : loading) : res loading :=
  '(gdt_frame, self) ← take_frame self "failed to allocate GDT frame";
  '(mem, c) ← create_and_load (mem self) (control self) gdt_frame;
  identity_map_frame (mkLoading (table self) (frames self) (used self) mem c) gdt_frame PRESENT.

(** [for (i, frame) in frames.enumerate()]: page [i] from [start_page] on to frame [i] *)
Definition map_frames (self : loading) (start_page : Z) (fs : list Z) : res loading :=
  foldM (λ self '(i, frame),
           page ← page_add start_page i;
           map_frame self page frame FLAGS_RW) self (zip (seqZ 0 (Z.of_nat (length fs))) fs).

Definition map_framebuffer (config : Config.BootloaderConfig)
    (framebuffer : option Level4.RawFrameBufferInfo) (self : loading) : res (option Z * loading) :=
  match framebuffer with
  | Some fb =>
      let framebuffer_start_frame := frame_containing (Level4.addr fb) in
      e ← phys_add (Level4.addr fb) (Info.byte_len (Level4.info fb));
      e ← phys_sub e 1;
      let framebuffer_end_frame := frame_containing e in
      '(start_page, u) ← mapping_addr_page_aligned (Config.framebuffer (Config.mappings config))
                           (Info.byte_len (Level4.info fb)) (used self) "framebuffer";
      self ← map_frames (set_used self u) start_page
               (frame_range_inclusive framebuffer_start_frame framebuffer_end_frame);
      Ret (Some start_page, self)
  | None => Ret (None, self)
  end.

Definition map_ramdisk (config : Config.BootloaderConfig) (system_info : SystemInfo)
    (self : loading) : res (option Z * loading) :=
  match sys_ramdisk_addr system_info with
  | Some ramdisk_address =>
      '(start_page, u) ← mapping_addr_page_aligned (Config.ramdisk_memory (Config.mappings config))
                           (sys_ramdisk_len system_info) (used self) "ramdisk start";
      physical_address ← phys_new ramdisk_address;
      let ramdisk_physical_start_page := frame_containing physical_address in
      l ← sys_ramdisk_len system_info -! 1;
      let ramdisk_page_count := l / Size4KiB in
      ramdisk_physical_end_page ← frame_add ramdisk_physical_start_page ramdisk_page_count;
      self ← map_frames (set_used self u) start_page
               (frame_range_inclusive ramdisk_physical_start_page ramdisk_physical_end_page);
      Ret (Some start_page, self)
  | None => Ret (None, self)
  end.

(** [max_phys] is [frame_allocator.max_phys_addr()]. *)
Definition map_physical_memory (config : Config.BootloaderConfig) (max_phys : res Z)
    (self : loading) : res (option Z * loading) :=
  match Config.physical_memory (Config.mappings config) with
  | Some mapping =>
      zero ← phys_new 0;
      let start_frame := big_frame_containing zero in
      max_phys ← max_phys;
      last ← phys_sub max_phys 1;
      let end_frame := big_frame_containing last in
      '(r, u) ← mapping_addr mapping max_phys Size2MiB (used self);
      offset ← match r with
               | inl a => Ret a
               | inr _ => Panic "start address for physical memory mapping must be 2MiB-page-aligned"
               end;
      self ← foldM (λ self frame,
                      a ← virt_add offset frame;
                      map_big_frame self (big_page_containing a) frame FLAGS_RW)
               (set_used self u) (big_frame_range_inclusive start_frame end_frame);
      Ret (Some offset, self)
  | None => Ret (None, self)
  end.

Definition map_recursive (config : Config.BootloaderConfig) (level_4_frame : Z) (self : loading) :
    res (option Z * loading) :=
  match Config.page_table_recursive (Config.mappings config) with
  | Some mapping =>
      '(index, u) ←
        match mapping with
        | Config.Dynamic => Level4.get_free_entries (used self) 1
        | Config.FixedAddress offset =>
            offset ← virt_new offset;
            if negb (virt_is_aligned offset Level4.LEVEL_4_SIZE)
            then Panic "Offset for recursive mapping must be properly aligned"
            else Ret (p4_index offset, used self)
        end;
      if negb (level_4_is_unused (table self) index)
      then Panic "Could not set up recursive mapping: index already in use"
      else
        let t := level_4_set_frame (table self) index level_4_frame FLAGS_RW in
        Ret (Some index, mkLoading t (frames self) u (mem self) (control self))
  | None => Ret (None, self)
  end.

(** Everything behind [load_kernel], in the order of the source. *)
Definition map_all `{GdtFormat} (config : Config.BootloaderConfig) (context_switch : Z)
    (framebuffer : option Level4.RawFrameBufferInfo) (system_info : SystemInfo)
    (max_phys : F → res Z) (level_4_frame : Z) (self : loading) :
    res (Z * option Z * option Z * option Z * option Z * loading) :=
  '(stack_end_addr, self) ← map_kernel_stack config self;
  self ← map_context_switch context_switch self;
  self ← map_gdt self;
  '(framebuffer_virt_addr, self) ← map_framebuffer config framebuffer self;
  '(ramdisk_slice_start, self) ← map_ramdisk config system_info self;
  '(physical_memory_offset, self) ← map_physical_memory config (max_phys (frames self)) self;
  '(recursive_index, self) ← map_recursive config level_4_frame self;
  Ret (stack_end_addr, framebuffer_virt_addr, ramdisk_slice_start, physical_memory_offset,
       recursive_index, self).

End Model.

Section SetUp.
Context `{X : X86, XB : X86Big} {M : Type} `{P : Mapper M, PB : !BigMapper M}.
Context {D : Type} `{LR : FrameAllocator.LegacyMemoryRegion D} {R : Type} `{G : Level4.Rng R}.
Context {RF : Elf.RelaFormat} {GF : GdtFormat}.
Abbreviation allocator := (FrameAllocator.LegacyFrameAllocator D).

(** [set_up_mappings]; [context_switch] is the address of the function, [build_rng] the generator
    for ASLR. *)
Definition set_up_mappings (build_rng : R) (context_switch : Z) (k : Kernel)
    (frame_allocator : allocator) (page_tables : PageTables M) (memory : Z → Z) (c : Control)
    (framebuffer : option Level4.RawFrameBufferInfo) (config0 : Config.BootloaderConfig)
    (system_info : SystemInfo) :
    res (Mappings R * allocator * PageTables M * (Z → Z) * Control) :=
  max_phys ← FrameAllocator.max_phys_addr frame_allocator;
  used_entries ← Level4.new max_phys (Z.of_nat (FrameAllocator.allocator_len frame_allocator))
                   framebuffer config0 build_rng;
  let c := enable_write_protect_bit (enable_nxe_bit c) in
  let config := config k in
  kernel_slice_start ← phys_new (start_address k);
  let kernel_slice_len := len k in
  '(kernel_image_offset, entry_point, tls_template, (inner, used_entries)) ←
    expect_ok (LoadKernel.load_kernel (elf k) (kernel page_tables) frame_allocator memory used_entries)
      "no entry point";
  let self := mkLoading (LoadKernel.page_table inner) (LoadKernel.frame_allocator inner)
                used_entries (LoadKernel.memory inner) c in
  '(stack_end_addr, framebuffer_virt_addr, ramdisk_slice_start, physical_memory_offset,
    recursive_index, self) ←
    map_all config context_switch framebuffer system_info FrameAllocator.max_phys_addr
      (kernel_level_4_frame page_tables) self;
  Ret (mkMappings entry_point (virt_align_down stack_end_addr 16) (used self)
         framebuffer_virt_addr physical_memory_offset recursive_index tls_template
         kernel_slice_start kernel_slice_len kernel_image_offset ramdisk_slice_start
         (sys_ramdisk_len system_info),
       frames self,
       mkPageTables (bootloader page_tables) (table self) (kernel_level_4_frame page_tables),
       mem self, control self).

(** The frames of the boot information, mapped into both address spaces. *)
Definition map_boot_info_page (acc : M * M * allocator) (page : Z) : res (M * M * allocator) :=
  let '(kernel, bootloader, f) := acc in
  '(o, f) ← allocate_frame f;
  frame ← expect_some o "frame allocation for boot info failed";
  r ← map_to kernel f page frame FLAGS_RW;
  '(kernel, f) ← expect_some r "failed to map page";
  r ← map_to bootloader f page frame FLAGS_RW;
  '(bootloader, f) ← expect_some r "failed to map page";
  Ret (kernel, bootloader, f).

(** The fields of the boot information. *)
Definition fill_boot_info (version_info : Config.ApiVersion) (test_sentinel : Z)
    (memory_regions : list Info.MemoryRegion) (mappings : Mappings R) (system_info : SystemInfo) :
    res Info.BootInfo :=
  framebuffer ←
    match framebuffer mappings with
    | Some addr =>
        fb ← expect_some (sys_framebuffer system_info)
               "there shouldn't be a mapping for the framebuffer if there is no framebuffer";
        Ret (Some (Info.mkFrameBuffer addr (Level4.info fb)))
    | None => Ret None
    end;
  Ret {| Info.api_version := Info.api_version (Info.BootInfo_new version_info memory_regions);
         Info.memory_regions := memory_regions;
         Info.framebuffer := Info.Optional_from framebuffer;
         Info.physical_memory_offset := Info.Optional_from (physical_memory_offset mappings);
         Info.recursive_index := Info.Optional_from (recursive_index mappings);
         Info.rsdp_addr := Info.Optional_from (sys_rsdp_addr system_info);
         Info.tls_template := Info.Optional_from (tls_template mappings);
         Info.ramdisk_addr := Info.Optional_from (ramdisk_slice_start mappings);
         Info.ramdisk_len := ramdisk_slice_len mappings;
         Info.kernel_addr := kernel_slice_start mappings;
         Info.kernel_len := kernel_slice_len mappings;
         Info.kernel_image_offset := kernel_image_offset mappings;
         Info.test_sentinel := test_sentinel |}.

(** [create_boot_info]: the address of the boot information and its contents, and the page
    tables; the slice of the memory regions lies at [memory_map_regions_addr]. *)
Definition create_boot_info (version_info : Config.ApiVersion) (config : Config.BootloaderConfig)
    (test_sentinel : Z) (frame_allocator : allocator) (page_tables : PageTables M)
    (mappings : Mappings R) (system_info : SystemInfo) :
    res (Z * Z * Info.BootInfo * PageTables M * Level4.UsedLevel4Entries R) :=
  regions ← Z.of_nat (FrameAllocator.allocator_len frame_allocator) +[64] 4;
  '(combined, memory_regions_offset) ← Info.boot_info_and_regions regions;
  '(r, u) ← mapping_addr (Config.boot_info (Config.mappings config)) (Info.size combined)
              (Info.align combined) (used_entries mappings);
  boot_info_addr ← match r with
                   | inl a => Ret a
                   | inr _ => Panic "boot info addr is not properly aligned"
                   end;
  memory_map_regions_addr ← virt_add boot_info_addr memory_regions_offset;
  memory_map_regions_end ← virt_add boot_info_addr (Info.size combined);
  let start_page := page_containing boot_info_addr in
  last ← virt_sub memory_map_regions_end 1;
  let end_page := page_containing last in
  '(kernel, bootloader, frame_allocator) ←
    foldM map_boot_info_page (kernel page_tables, bootloader page_tables, frame_allocator)
      (page_range_inclusive start_page end_page);
  memory_regions ← FrameAllocator.construct_memory_map frame_allocator (Z.to_nat regions)
                     (kernel_slice_start mappings) (kernel_slice_len mappings);
  boot_info ← fill_boot_info version_info test_sentinel memory_regions mappings system_info;
  Ret (boot_info_addr, memory_map_regions_addr, boot_info,
       mkPageTables bootloader kernel (kernel_level_4_frame page_tables), u).

(** [switch_to_kernel] and [context_switch]: the registers at the kernel's entry point and the
    word that was pushed, with its address. *)
Record Addresses := mkAddresses {
  page_table : Z;
  addr_stack_top : Z;
  addr_entry_point : Z;
  boot_info : Z;
}.
Record Cpu := mkCpu { rbp : Z; cr3 : Z; rsp : Z; rip : Z; rdi : Z; pushed : Z * Z }.

Definition context_switch (addresses : Addresses) : Cpu :=
  let rsp := addr_stack_top addresses in
  let rsp := wrap_u 64 (rsp - 8) in
  mkCpu 0 (page_table addresses) rsp (addr_entry_point addresses) (boot_info addresses) (rsp, 0).

Definition switch_to_kernel (page_tables : PageTables M) (mappings : Mappings R) (boot_info : Z) : Cpu :=
  context_switch (mkAddresses (kernel_level_4_frame page_tables) (stack_top mappings)
                    (entry_point mappings) boot_info).

Definition load_and_switch_to_kernel (version_info : Config.ApiVersion) (test_sentinel : Z)
    (build_rng : R) (context_switch : Z) (k : Kernel) (frame_allocator : allocator)
    (page_tables : PageTables M) (memory : Z → Z) (c : Control) (system_info : SystemInfo) :
    res (Cpu * Info.BootInfo * PageTables M * (Z → Z) * Control) :=
  let config := config k in
  '(mappings, frame_allocator, page_tables, memory, c) ←
    set_up_mappings build_rng context_switch k frame_allocator page_tables memory c
      (sys_framebuffer system_info) config system_info;
  '(addr, _, boot_info, page_tables, _) ←
    create_boot_info version_info config test_sentinel frame_allocator page_tables mappings system_info;
  Ret (switch_to_kernel page_tables mappings addr, boot_info, page_tables, memory, c).

End SetUp.

End SetUp.
