(* ===== verification/SetUpProofs.v ===== *)
(** * Correctness of the kernel's address space (common/src/lib.rs)

    The invariant [ready] ties the page table to the record of used level 4
    entries: everything in a free entry is unmapped. Each step of
    [set_up_mappings] keeps it, creates the mappings it should, and removes none
    of the mappings made before. *)
From stdpp Require Import gmap.
From S2P Require Import Prelude Memory X86 Paging PageTables Config Info Elf FrameAllocator Level4 LoadKernel SetUp.
Import Memory X86 Paging PageTables LoadKernel SetUp.

Module SetUpProofs.

Section Proofs.
Context `{HX : X86Laws, HXB : X86BigLaws} {M : Type} `{HP : BigMapperLaws M}.
Context {F : Type} `{HF : FrameSourceLaws F} {R : Type} `{HG : Level4.RngLaws R}.
Abbreviation loading := (Loading M F R).

(** Nothing is mapped at the page [p], and no table was created for it. *)
Definition vacant (t : M) (p : Z) : Prop :=
  (pages t !! p = None) ∧ big_pages t !! align_down p Size2MiB = None ∧
  (align_down p Size2MiB ∉ level_1_tables t) ∧ level_4_set t !! p4_of p = None.

(** The tables are usable and free level 4 entries are empty. *)
Record ready (self : loading) : Prop := {
  rd_table : table_inv (table self);
  rd_frames : source_inv (frames self);
  rd_used : Level4.wf (used self);
  rd_free p : Level4.free (used self) (p4_of p) → vacant (table self) p;
  rd_unused i : Level4.free (used self) i → level_4_is_unused (table self) i = true;
}.

(** What a step keeps: mappings stay, entries and frames are only taken. *)
Record grows (self self' : loading) : Prop := {
  ex_ready : ready self';
  ex_pages : pages (table self) ⊆ pages (table self');
  ex_big : big_pages (table self) ⊆ big_pages (table self');
  ex_set : level_4_set (table self) ⊆ level_4_set (table self');
  ex_free j : Level4.free (used self') j → Level4.free (used self) j;
  ex_fresh y : fresh (frames self') y → fresh (frames self) y;
  ex_alloc : rtc alloc_step (frames self) (frames self');
}.

Lemma grows_refl self : ready self → grows self self.
Proof. by split. Qed.
Lemma grows_trans s1 s2 s3 : grows s1 s2 → grows s2 s3 → grows s1 s3.
Proof. intros [] []. split; auto; by etrans. Qed.

(** ** Where a mapping is placed *)

(** [a] is the start of [size] bytes that can be mapped: unmapped, and in entries that the
    record [u'] counts as used. *)
Record placed (self : loading) (u' : Level4.UsedLevel4Entries R) (size alignment a : Z) : Prop := {
  pl_span : Level4.span_ok a size;
  pl_aligned : a mod alignment = 0;
  pl_wf : Level4.wf u';
  pl_free j : Level4.free u' j → Level4.free (used self) j;
  pl_vacant p : a ≤ p < a + size → p mod 4096 = 0 → vacant (table self) p;
  pl_used p : a ≤ p < a + size → ¬ Level4.free u' (p4_of p);
  pl_one : ∃ i, ∀ j, j ≠ i → Level4.free (used self) j → Level4.free u' j;
}.

(** A request that can be met: a fixed address must be aligned, in entries that are marked, with
    nothing mapped; a dynamic one must find a free entry. *)
Definition place_ok (mapping : Config.Mapping) (size alignment : Z) (self : loading) : Prop :=
  match mapping with
  | Config.FixedAddress a => 0 < alignment ∧ placed self (used self) size alignment a
  | Config.Dynamic =>
      Level4.request_ok (used self) size alignment ∧ size < Level4.LEVEL_4_SIZE ∧
      ∃ k, 0 ≤ k ∧ Level4.window_free (used self) k 1
  end.

Lemma mapping_addr_spec mapping size alignment (self : loading) :
  ready self → place_ok mapping size alignment self →
  returns (mapping_addr mapping size alignment (used self)) (λ '(r, u'), ∃ a,
    r = inl a ∧ canonical a ∧ placed self u' size alignment a ∧
    (mapping = Config.Dynamic → ∀ p, a ≤ p < a + size → Level4.free (used self) (p4_of p))).
Proof.
  intros Hr Hp. unfold mapping_addr. destruct mapping as [|a]; cbn [place_ok] in Hp.
  - destruct Hp as (Hreq & Hsz & k & Hk & Hw).
    pose proof Hreq as ([Hs0 _] & Hpow & Hal & _).
    destruct (Level4.is_power_of_two_divide alignment 39) as [Hpos _]; [lia|done|done|].
    assert (Level4.entries_for size = 1) as He.
    { unfold Level4.entries_for. symmetry. apply Z.div_unique with (r := size - 1); lia. }
    eapply returns_bind.
    { apply (Level4.get_free_address_spec (used self) size alignment); [apply Hr|done|].
      exists k. by rewrite He. }
    intros [a u'] Hpost. pose proof Hpost as (Hc & Ham & i & n & Hn & Hwin & Hm & _ & Hlo & Hhi & Hlt).
    cbn [returns mbind res_bind]. rewrite virt_is_aligned_spec, Ham by done. cbn.
    apply Level4.address_post_ranges in Hpost as (Hwf & Hsub & _ & Hin & Hout).
    rewrite Z.mod_small in Hlt by lia. specialize (Hlt ltac:(lia)).
    rewrite He in Hn. subst n. change Level4.LEVEL_4_SIZE with (2 ^ 39) in *.
    assert (0 ≤ i < 512) as Hi by (eapply Level4.free_bound; [apply Hr|apply Hwin; lia]).
    assert (Level4.span_ok a size) as Hspan.
    { split; [lia|]. rewrite <- (sign_extend_virt_rank a Hc). unfold sign_extend.
      destruct (Z.ltb_spec (virt_rank a) (2 ^ 47)); [left|right]; nia. }
    assert (∀ p, a ≤ p < a + size → virt_rank a ≤ virt_rank p < virt_rank a + size) as Hrk.
    { intros p Hp. rewrite (Level4.span_rank a size p) by (done || lia). lia. }
    exists a. split_and!; try done; [|by intros _ p Hp; apply Hin, Hrk]. split; try done.
    + intros p Hp _. apply Hr. by apply Hin, Hrk.
    + intros p Hp. by apply Hout, Hrk.
    + exists i. intros j Hj Hf. apply (proj2 Hm). split; [done|lia].
  - destruct Hp as [Hpos Hp]. pose proof (pl_span _ _ _ _ _ Hp) as Hs.
    assert (canonical a) as Hc by (eapply Level4.span_canonical; [done|]; destruct Hs; lia).
    rewrite virt_new_canonical by done. cbn. rewrite virt_is_aligned_spec by done.
    rewrite (pl_aligned _ _ _ _ _ Hp). cbn. by exists a.
Qed.

(** The same for page-aligned mappings. *)
Lemma mapping_addr_page_aligned_spec mapping size (self : loading) kind :
  ready self → place_ok mapping size Size4KiB self →
  returns (mapping_addr_page_aligned mapping size (used self) kind) (λ '(p, u'),
    canonical p ∧ placed self u' size Size4KiB p ∧
    (mapping = Config.Dynamic → ∀ q, p ≤ q < p + size → Level4.free (used self) (p4_of q))).
Proof.
  intros Hr Hp. unfold mapping_addr_page_aligned.
  eapply returns_bind; [by apply mapping_addr_spec|].
  intros [r u'] (a & -> & Hc & Hpl & Hfix). cbn.
  rewrite page_from_start_address_ok by (done || by apply (pl_aligned _ _ _ _ _ Hpl)). done.
Qed.

(** ** Mapping one page *)
Lemma p4_of_alt p : p4_of p = p / 2 ^ 39 mod 512.
Proof.
  unfold p4_of, virt_rank. change (2 ^ 48) with (2 ^ 39 * 512).
  rewrite Z.rem_mul_r by lia. rewrite (Z.mul_comm (2 ^ 39)), Z.div_add by lia.
  rewrite (Z.div_small (p mod 2 ^ 39)); [done|]. apply Z.mod_pos_bound. lia.
Qed.
Lemma p4_of_align_down p : p4_of (align_down p Size2MiB) = p4_of p.
Proof.
  rewrite !p4_of_alt. f_equal. unfold align_down. change Size2MiB with (2 ^ 21).
  change (2 ^ 39) with (2 ^ 21 * 2 ^ 18). rewrite <- !Z.div_div by lia. f_equal.
  rewrite Z.mod_eq by lia. replace (p - (p - 2 ^ 21 * (p / 2 ^ 21))) with (p / 2 ^ 21 * 2 ^ 21) by lia.
  by rewrite Z.div_mul.
Qed.

(** The page [p] can be mapped. *)
Record avail (self : loading) (p : Z) : Prop := {
  av_canonical : canonical p;
  av_aligned : p mod 4096 = 0;
  av_page : pages (table self) !! p = None;
  av_big : big_pages (table self) !! align_down p Size2MiB = None;
  av_set : level_4_set (table self) !! p4_of p = None;
  av_used : ¬ Level4.free (used self) (p4_of p);
}.

Lemma placed_avail self u' size a p : placed self u' size Size4KiB a →
  a ≤ p < a + size → p mod 4096 = 0 → avail (set_used self u') p.
Proof.
  intros Hp Hr Hm. pose proof (pl_vacant _ _ _ _ _ Hp p Hr Hm) as (? & ? & _ & ?).
  split; try done; [|by apply Hp]. eapply Level4.span_canonical; [apply Hp|lia].
Qed.

Lemma placed_ready self u' size alignment a : ready self → placed self u' size alignment a →
  ready (set_used self u') ∧ grows self (set_used self u').
Proof.
  intros Hr Hp. assert (ready (set_used self u')) as Hr'.
  { split; cbn; try apply Hr; [apply Hp| |]; intros; by apply Hr, (pl_free _ _ _ _ _ Hp). }
  split; [done|]. split; try done. apply Hp.
Qed.

(** Only the page tables and the frames differ. *)
Definition same_rest (self self' : loading) : Prop :=
  used self' = used self ∧ mem self' = mem self ∧ control self' = control self ∧
  big_pages (table self') = big_pages (table self) ∧
  level_4_set (table self') = level_4_set (table self).

Lemma same_rest_trans s1 s2 s3 : same_rest s1 s2 → same_rest s2 s3 → same_rest s1 s3.
Proof. intros (?&?&?&?&?) (?&?&?&?&?). split_and!; by etrans. Qed.

Lemma FLAGS_present fl : fl = FLAGS_RW ∨ fl = PRESENT → Z.testbit fl 0 = true.
Proof. by intros [->| ->]. Qed.

(** Mapping a page, through whichever function of the page table does it. *)
Lemma mapped_step self page frame fl n (op : res (option (M * F))) (msg : string) :
  op = map_to (table self) (frames self) page frame fl →
  ready self → avail self page → frame mod 4096 = 0 → fl = FLAGS_RW ∨ fl = PRESENT →
  supply (frames self) (n + 3) →
  returns (r ← op; '(t, f) ← expect_some r msg; Ret (set_tables self t f))
    (λ self', grows self self' ∧ same_rest self self' ∧ supply (frames self') n ∧
       pages (table self') = <[page := (frame, fl)]> (pages (table self))).
Proof.
  intros -> Hr Hav Hfr Hfl%FLAGS_present Hs.
  destruct (map_page_ok (table self) (frames self) page frame fl) as
    (t & f & -> & Ht & Hpg & Hbg & Hl1 & Hl4 & Hun & Hf & Hsub & Hsup & Hal);
    [apply Hr|apply Hr|apply Hav|apply Hav|done|done|apply Hav|apply Hav|apply Hav|eapply supply_le; [|done]; lia|].
  cbn. split_and!; try done; [|by apply Hsup]. split; cbn; [split; cbn; try done; try apply Hr| | | | | |].
  - intros p Hp. pose proof (rd_free _ Hr p Hp) as (H1 & H2 & H3 & H4).
    assert (p4_of p ≠ p4_of page) as Hne by (intros E; rewrite E in Hp; by apply (av_used _ _ Hav)).
    unfold vacant. rewrite Hpg, Hbg, Hl1, Hl4. split_and!; [rewrite lookup_insert_ne; [done|congruence]|done| |done].
    intros [E%elem_of_singleton|?]%elem_of_union; [|done]. apply Hne.
    by rewrite <- (p4_of_align_down p), E, p4_of_align_down.
  - intros i Hi. rewrite Hun; [by apply Hr|]. intros ->. by apply (av_used _ _ Hav).
  - rewrite Hpg. apply insert_subseteq, Hav.
  - by rewrite Hbg.
  - by rewrite Hl4.
  - done.
  - done.
  - done.
Qed.

Lemma avail_other self self' page v p : same_rest self self' →
  pages (table self') = <[page := v]> (pages (table self)) → p ≠ page → avail self p → avail self' p.
Proof.
  intros (Hu & _ & _ & Hb & Hl) Hpg Hne Hav.
  split; rewrite ?Hu, ?Hb, ?Hl, ?Hpg; try apply Hav. rewrite lookup_insert_ne by done. apply Hav.
Qed.

(** ** Loops over pages *)

(** [self'] has the new pages of the list, with their frames, and otherwise the pages of [self]. *)
Record maps (l : list (Z * Z)) (self self' : loading) : Prop := {
  mp_grows : grows self self';
  mp_rest : same_rest self self';
  mp_new p fr : (p, fr) ∈ l → pages (table self') !! p = Some (fr, FLAGS_RW);
  mp_old p : p ∉ l.*1 → pages (table self') !! p = pages (table self) !! p;
}.

Lemma maps_nil self : ready self → maps [] self self.
Proof. intros Hr. split; [by apply grows_refl|by split_and!|by intros ?? ?%elem_of_nil|done]. Qed.

Lemma maps_snoc l self self1 self2 p fr : maps l self self1 → p ∉ l.*1 →
  grows self1 self2 → same_rest self1 self2 →
  pages (table self2) = <[p := (fr, FLAGS_RW)]> (pages (table self1)) →
  maps (l ++ [(p, fr)]) self self2.
Proof.
  intros Hm Hp He Hr Hpg. split.
  - by eapply grows_trans; [apply Hm|].
  - by eapply same_rest_trans; [apply Hm|].
  - intros q fq Hq. rewrite Hpg. destruct (decide (q = p)) as [->|Hne].
    + apply elem_of_snoc in Hq as [Hq|[= ->]]; [|by rewrite lookup_insert_eq].
      exfalso. apply Hp. by apply (list_elem_of_fmap_2 fst) in Hq.
    + rewrite lookup_insert_ne by done. apply (mp_new _ _ _ Hm).
      apply elem_of_snoc in Hq as [Hq|[= ? ?]]; done.
  - intros q. rewrite fmap_app. cbn [fmap list_fmap]. rewrite elem_of_snoc. intros Hq. rewrite Hpg.
    rewrite lookup_insert_ne by (intros ->; apply Hq; by right). apply Hm. tauto.
Qed.

Lemma maps_avail l self self' p : maps l self self' → p ∉ l.*1 → avail self p → avail self' p.
Proof.
  intros Hm Hp Hav. pose proof (mp_rest _ _ _ Hm) as (Hu & _ & _ & Hb & Hl).
  split; rewrite ?Hu, ?Hb, ?Hl; try apply Hav. rewrite (mp_old _ _ _ Hm) by done. apply Hav.
Qed.

(** Pages [start], [start + 4096], ... mapped to the frames of the list. *)
Lemma map_frames_spec (self : loading) start fs n :
  ready self → canonical start → start mod 4096 = 0 →
  (∀ i, 0 ≤ i < Z.of_nat (length fs) → avail self (start + i * 4096)) →
  Forall (λ fr, fr mod 4096 = 0) fs → supply (frames self) (n + 3 * length fs) →
  returns (map_frames self start fs) (λ self',
    supply (frames self') n ∧ maps (zip (pages_from start (Z.of_nat (length fs))) fs) self self').
Proof.
  intros Hr Hc Hm Hav Hfs Hs. unfold map_frames. set (idx := seqZ 0 (Z.of_nat (length fs))).
  assert (length idx = length fs) as Hlen by (unfold idx; rewrite length_seqZ; lia).
  assert (zip (pages_from start (Z.of_nat (length fs))) fs =
    (λ '(i, fr), (start + i * 4096, fr)) <$> zip idx fs) as ->.
  { unfold pages_from. fold idx. rewrite zip_with_fmap_l, zip_with_zip.
    apply list_fmap_ext. by intros ? [? ?]. }
  assert (NoDup (zip idx fs).*1) as Hnd by (rewrite fst_zip by lia; apply NoDup_seqZ).
  assert (∀ i fr, (i, fr) ∈ zip idx fs → 0 ≤ i < Z.of_nat (length fs) ∧ fr mod 4096 = 0) as Hin.
  { intros i fr H. split.
    - apply elem_of_zip_l in H. unfold idx in H. rewrite elem_of_seqZ in H. lia.
    - rewrite Forall_forall in Hfs. by apply Hfs; eapply elem_of_zip_r. }
  eapply returns_mono.
  - apply (foldM_returns _ (λ l1 self', supply (frames self') (n + 3 * (length fs - length l1)) ∧
      maps ((λ '(i, fr), (start + i * 4096, fr)) <$> l1) self self')).
    + rewrite Nat.sub_0_r. split; [done|by apply maps_nil].
    + intros l1 [i fr] l2 s Hl [Hsup Hmp]. rewrite Hl in Hnd, Hin.
      destruct (Hin i fr (elem_of_middle _ _ _)) as [Hi Hfr].
      pose proof (f_equal length Hl) as Hll. rewrite length_zip_with, length_app in Hll. cbn in Hll.
      assert (start + i * 4096 ∉ ((λ '(i, fr), (start + i * 4096, fr)) <$> l1).*1) as Hnew.
      { rewrite <- list_fmap_compose. intros ([j fj] & Hj & Hjl)%list_elem_of_fmap. cbn in Hj.
        rewrite fmap_app in Hnd. apply NoDup_app in Hnd as (_ & Hnd & _).
        apply (Hnd i); [|by left]. apply list_elem_of_fmap. exists (j, fj). split; [cbn; lia|done]. }
      rewrite page_add_ok; [|done|done|lia|apply (Hav i Hi)]. cbn [mbind res_bind].
      eapply returns_mono.
      { apply (mapped_step s (start + i * 4096) fr FLAGS_RW (n + 3 * (length fs - S (length l1)))%nat _ _ eq_refl);
          [apply Hmp|by eapply maps_avail; [| |apply Hav]|done|by left|eapply supply_le; [|done]; lia]. }
      intros s' (He & Hrest & Hsup' & Hpg). split.
      * rewrite length_app, Nat.add_1_r. done.
      * rewrite fmap_app. by eapply maps_snoc.
  - cbn. intros self' [Hsup Hmp]. rewrite length_zip_with in Hsup. split; [|done].
    eapply supply_le; [|done]. lia.
Qed.

Lemma take_frame_spec (self : loading) msg n : ready self → supply (frames self) (S n) →
  returns (take_frame self msg) (λ '(fr, self'),
    fresh (frames self) fr ∧ fr mod 4096 = 0 ∧ ¬ fresh (frames self') fr ∧
    grows self self' ∧ same_rest self self' ∧ table self' = table self ∧ supply (frames self') n).
Proof.
  intros Hr Hs. unfold take_frame.
  pose proof (supply_allocate (frames self) n (rd_frames _ Hr) Hs) as Halloc.
  apply returns_alt in Halloc as ([o f] & Heq & fr & -> & Hfr & Hi & Hsup & Hf). rewrite Heq. cbn.
  destruct (fresh_ok (frames self) fr (rd_frames _ Hr) Hfr) as [? _].
  split_and!; try done; [by rewrite Hf; intros []|].
  split; cbn; try done; [split; cbn; try done; apply Hr|by intros y [? _]%Hf|].
  apply rtc_once. by eexists.
Qed.

(** The pages of the list mapped to frames from the allocator, all of them different. *)
Lemma map_fresh_pages_spec (self : loading) pgs msg n :
  ready self → NoDup pgs → Forall (avail self) pgs → supply (frames self) (n + 4 * length pgs) →
  returns (map_fresh_pages self pgs msg) (λ self', ∃ frs,
    length frs = length pgs ∧ NoDup frs ∧ Forall (fresh (frames self)) frs ∧
    supply (frames self') n ∧ maps (zip pgs frs) self self').
Proof.
  intros Hr Hnd Hav Hs. unfold map_fresh_pages.
  eapply returns_mono.
  - apply (foldM_returns _ (λ l1 self', ∃ frs, length frs = length l1 ∧ NoDup frs ∧
      Forall (λ fr, fresh (frames self) fr ∧ ¬ fresh (frames self') fr) frs ∧
      supply (frames self') (n + 4 * (length pgs - length l1)) ∧ maps (zip l1 frs) self self')).
    + exists []. rewrite Nat.sub_0_r. split_and!; [done|constructor|constructor|done|by apply maps_nil].
    + intros l1 p l2 s -> (frs & Hlen & Hndf & Hfrs & Hsup & Hmp).
      rewrite length_app in Hsup. cbn [length] in Hsup.
      apply NoDup_app in Hnd as (_ & Hnd & _). apply Forall_app in Hav as [_ [Hav _]%Forall_cons].
      assert (p ∉ (zip l1 frs).*1) as Hp.
      { rewrite fst_zip by lia. intros Hp. apply (Hnd p Hp). by left. }
      eapply returns_bind.
      { apply (take_frame_spec s msg (3 + (n + 4 * length l2))%nat); [apply Hmp|].
        eapply supply_le; [|done]. lia. }
      intros [fr s1] (Hfr & Hfa & Hnfr & He1 & Hr1 & Ht1 & Hs1).
      assert (avail s1 p) as Hav1.
      { pose proof (maps_avail _ _ _ _ Hmp Hp Hav) as Ha. destruct Hr1 as (Hu & _).
        split; rewrite ?Ht1, ?Hu; apply Ha. }
      eapply returns_mono.
      { apply (mapped_step s1 p fr FLAGS_RW (n + 4 * length l2)%nat _ _ eq_refl);
          [apply He1|done|done|by left|eapply supply_le; [|done]; lia]. }
      intros s2 (He2 & Hr2 & Hs2 & Hpg). rewrite Ht1 in Hpg. exists (frs ++ [fr]).
      pose proof (mp_grows _ _ _ Hmp) as He0. split_and!.
      * rewrite !length_app. cbn. lia.
      * apply NoDup_app. split_and!; [done| |apply NoDup_singleton].
        intros x Hx ->%list_elem_of_singleton. rewrite Forall_forall in Hfrs. by destruct (Hfrs _ Hx).
      * apply Forall_app. split.
        -- eapply Forall_impl; [exact Hfrs|]. intros x [? Hx]. split; [done|].
           intros Hx'. by apply Hx, (ex_fresh _ _ He1), (ex_fresh _ _ He2).
        -- apply Forall_singleton. split; [by apply (ex_fresh _ _ He0)|].
           intros Hx'. by apply Hnfr, (ex_fresh _ _ He2).
      * rewrite !length_app. cbn. eapply supply_le; [|done]. lia.
      * rewrite zip_with_app by done. cbn [zip_with].
        eapply (maps_snoc _ _ s); [done|done|by eapply grows_trans|by eapply same_rest_trans|done].
  - cbn. intros self' (frs & ? & ? & Hfrs & Hsup & ?). exists frs. split_and!; try done.
    + eapply Forall_impl; [exact Hfrs|]. by intros x [? _].
    + eapply supply_le; [|done]. lia.
Qed.

(** ** The steps *)

(** A step with a dynamic placement leaves everything outside of the free entries alone. *)
Definition only_free (self self' : loading) : Prop := ∀ p, ¬ Level4.free (used self) (p4_of p) →
  pages (table self') !! p = pages (table self) !! p ∧
  big_pages (table self') !! align_down p Size2MiB = big_pages (table self) !! align_down p Size2MiB ∧
  level_4_set (table self') !! p4_of p = level_4_set (table self) !! p4_of p.

(** [k] entries are free; a step takes at most one. *)
Definition room (u : Level4.UsedLevel4Entries R) (k : nat) : Prop :=
  ∃ l, NoDup l ∧ length l = k ∧ Forall (Level4.free u) l.
Definition room_step (u u' : Level4.UsedLevel4Entries R) : Prop := ∀ k, room u (S k) → room u' k.

Lemma one_room_step u u' :
  (∃ i, ∀ j, j ≠ i → Level4.free u j → Level4.free u' j) → room_step u u'.
Proof.
  intros [i Hi] k (l & Hnd & Hl & Hf). destruct (decide (i ∈ l)) as [Hin|Hnin].
  - apply list_elem_of_split in Hin as (l1 & l2 & ->). exists (l1 ++ l2).
    rewrite length_app in *. cbn in Hl.
    apply NoDup_app in Hnd as (Hn1 & Hn2 & [Hn3 Hn4]%NoDup_cons).
    apply Forall_app in Hf as [Hf1 [_ Hf2]%Forall_cons]. split_and!; [|lia|].
    + apply NoDup_app. split_and!; [done| |done]. intros x Hx Hx2. apply (Hn2 x Hx). by right.
    + apply Forall_app; split; apply Forall_forall; intros x Hx; apply Hi.
      * intros ->. apply (Hn2 _ Hx). by left.
      * rewrite Forall_forall in Hf1. auto.
      * by intros ->.
      * rewrite Forall_forall in Hf2. auto.
  - destruct l as [|x l]; [done|]. exists l. apply NoDup_cons in Hnd as [_ ?]. apply Forall_cons in Hf as [_ Hf].
    split_and!; [done|cbn in Hl; lia|]. apply Forall_forall. intros y Hy. apply Hi.
    + intros ->. apply Hnin. by right.
    + rewrite Forall_forall in Hf. auto.
Qed.

Lemma maps_only_free l (self self' : loading) u :
  maps l (set_used self u) self' → (∀ p, p ∈ l.*1 → Level4.free (used self) (p4_of p)) →
  only_free self self'.
Proof.
  intros Hm Hl p Hp. pose proof (mp_rest _ _ _ Hm) as (_ & _ & _ & Hb & Hs).
  rewrite Hb, Hs, (mp_old _ _ _ Hm); [done|]. intros Hin. by apply Hp, Hl.
Qed.

Definition page_count (n : Z) : Z := (n + 4095) / 4096.

Lemma page_count_pred n : (n - 1) / 4096 + 1 = page_count n.
Proof. unfold page_count. replace (n + 4095) with (n - 1 + 1 * 4096) by lia. by rewrite Z.div_add by lia. Qed.

Lemma span_len_aligned a n : a mod 4096 = 0 → span_len a n = page_count n.
Proof.
  intros Ha. unfold span_len. rewrite (align_down_id a) by done. rewrite <- page_count_pred. f_equal.
  apply Z.mod_divide in Ha as [k ->]; [|lia]. unfold align_down.
  rewrite Z.mod_eq by lia.
  replace (k * 4096 + n - 1) with (n - 1 + k * 4096) by lia. rewrite Z.div_add by lia.
  replace (n - 1 + k * 4096 - (n - 1 + k * 4096 - 4096 * ((n - 1) / 4096 + k)) - k * 4096)
    with ((n - 1) / 4096 * 4096) by lia. by rewrite Z.div_mul.
Qed.

Lemma length_pages_from a n : length (pages_from a n) = Z.to_nat n.
Proof. unfold pages_from. by rewrite length_fmap, length_seqZ. Qed.

Lemma add_page_aligned a i : a mod 4096 = 0 → (a + i * 4096) mod 4096 = 0.
Proof. intros Ha. by rewrite Z.mod_add. Qed.

(** The kernel stack: [stack_size] bytes below the returned end, and an unmapped guard page [g]
    below them. *)
Definition stack_post (config : Config.BootloaderConfig) (n : nat) (self : loading)
    '((e, self') : Z * loading) : Prop :=
  let size := Config.kernel_stack_size config in
  ∃ g frs, e = g + 4096 + size ∧ g mod 4096 = 0 ∧ Level4.span_ok g (4096 + size) ∧
    vacant (table self) g ∧ pages (table self') !! g = None ∧
    length frs = Z.to_nat (page_count size) ∧ NoDup frs ∧ Forall (fresh (frames self)) frs ∧
    maps (zip (pages_from (g + 4096) (page_count size)) frs) (set_used self (used self')) self' ∧
    grows self self' ∧ supply (frames self') n ∧ room_step (used self) (used self') ∧
    mem self' = mem self ∧ control self' = control self ∧ ¬ Level4.free (used self') (p4_of g) ∧
    (Config.kernel_stack (Config.mappings config) = Config.Dynamic →
     only_free self self' ∧ Level4.free (used self) (p4_of g)).

Lemma map_kernel_stack_spec config (self : loading) n :
  ready self → 0 < Config.kernel_stack_size config < 2 ^ 62 →
  place_ok (Config.kernel_stack (Config.mappings config)) (4096 + Config.kernel_stack_size config)
    Size4KiB self →
  supply (frames self) (n + 4 * Z.to_nat (page_count (Config.kernel_stack_size config))) →
  returns (map_kernel_stack config self) (stack_post config n self).
Proof.
  intros Hr Hsz Hpl Hs. unfold map_kernel_stack. set (size := Config.kernel_stack_size config) in *.
  change Size4KiB with 4096 in *.
  rewrite add_u_ok by lia. cbn [mbind res_bind].
  eapply returns_bind; [by apply mapping_addr_page_aligned_spec|].
  intros [g u] (Hc & Hp & Hdyn). pose proof (pl_span _ _ _ _ _ Hp) as Hspan.
  pose proof (pl_aligned _ _ _ _ _ Hp) as Hg. change Size4KiB with 4096 in *.
  destruct (placed_ready _ _ _ _ _ Hr Hp) as [Hr' He']. set (self1 := set_used self u) in *.
  assert (Level4.span_ok (g + 4096) size) as Hspan' by (unfold Level4.span_ok in *; lia).
  assert ((g + 4096) mod 4096 = 0) as Hg' by (rewrite <- (add_page_aligned g 1 Hg); f_equal; lia).
  assert (∀ x, g ≤ x ≤ g + (4096 + size) → canonical x) as Hcan
    by (intros x Hx; apply (Level4.span_canonical g (4096 + size)); [done|lia]).
  rewrite page_add_ok by (done || lia || (apply Hcan; lia)). cbn [mbind res_bind].
  rewrite Z.mul_1_l. rewrite virt_add_new by (try apply Hcan; unfold Level4.span_ok in *; lia).
  rewrite virt_new_canonical by (apply Hcan; lia). cbn [mbind res_bind].
  rewrite virt_sub_new by (try apply Hcan; unfold Level4.span_ok in *; lia).
  rewrite virt_new_canonical by (apply Hcan; lia). cbn [mbind res_bind].
  assert (page_range_inclusive (g + 4096) (page_containing (g + 4096 + size - 1)) =
    pages_from (g + 4096) (page_count size)) as ->.
  { rewrite <- (span_len_aligned (g + 4096)) by done.
    rewrite <- (align_down_id (g + 4096) 4096 Hg') at 3. fold (span_pages (g + 4096) size).
    rewrite <- page_range_span by done. f_equal. rewrite page_containing_spec by (apply Hcan; lia).
    by rewrite align_down_id. }
  assert (∀ p, p ∈ pages_from (g + 4096) (page_count size) →
    g + 4096 ≤ p < g + 4096 + size ∧ p mod 4096 = 0) as Hpg.
  { intros p (i & Hi & ->)%elem_of_pages_from. rewrite add_page_aligned by done. split; [|done].
    rewrite <- page_count_pred in Hi. pose proof (Z.mul_div_le (size - 1) 4096 ltac:(lia)). nia. }
  eapply returns_bind.
  { apply (map_fresh_pages_spec self1 _ _ n); [done|apply NoDup_pages_from| |by rewrite length_pages_from].
    apply Forall_forall. intros p [? ?]%Hpg. apply (placed_avail _ _ (4096 + size) g); [done|lia|done]. }
  intros self2 (frs & Hlen & Hnd & Hfr & Hsup & Hmp). rewrite length_pages_from in Hlen.
  cbn [returns]. pose proof (mp_rest _ _ _ Hmp) as (Hu & ? & ? & _). cbn in Hu.
  pose proof (pl_vacant _ _ _ _ _ Hp g ltac:(lia) Hg) as Hvac.
  exists g, frs. split_and!; try done.
  - rewrite (mp_old _ _ _ Hmp); [apply Hvac|]. rewrite fst_zip by (rewrite length_pages_from; lia).
    intros [? _]%Hpg. lia.
  - by rewrite Hu.
  - eapply grows_trans; [done|apply Hmp].
  - rewrite Hu. apply one_room_step, Hp.
  - rewrite Hu. apply (pl_used _ _ _ _ _ Hp). lia.
  - intros Hd. split; [|apply Hdyn; [done|lia]]. eapply maps_only_free; [exact Hmp|].
    intros p. rewrite fst_zip by (rewrite length_pages_from; lia). intros [? _]%Hpg. apply Hdyn; [done|lia].
Qed.

(** Byte [i] of the virtual range is byte [i] of the physical one. *)
Definition mirrors (self : loading) (virt phys len : Z) : Prop :=
  ∀ i, 0 ≤ i < len →
    pages (table self) !! align_down (virt + i) 4096 = Some (align_down (phys + i) 4096, FLAGS_RW).

Lemma align_down_page a i : a mod 4096 = 0 → align_down (a + i) 4096 = a + i / 4096 * 4096.
Proof.
  intros Ha. apply Z.mod_divide in Ha as [k ->]; [|lia]. unfold align_down.
  rewrite Z.mod_eq by lia. replace (k * 4096 + i) with (i + k * 4096) by lia.
  rewrite Z.div_add by lia. lia.
Qed.

(** What the framebuffer and the ramdisk have in common: a physical range that starts at a page
    boundary is mapped to a virtual range of its own. *)
Definition region_post (mapping : Config.Mapping) (n : nat) (phys len : Z) (self : loading) '((v, self') : option Z * loading) : Prop :=
  ∃ a, v = Some a ∧ a mod 4096 = 0 ∧ Level4.span_ok a len ∧
    (∀ p, a ≤ p < a + len → p mod 4096 = 0 → vacant (table self) p) ∧
    mirrors self' a phys len ∧
    (∀ p, p ∉ pages_from a (page_count len) → pages (table self') !! p = pages (table self) !! p) ∧
    grows self self' ∧ supply (frames self') n ∧ room_step (used self) (used self') ∧
    mem self' = mem self ∧ control self' = control self ∧
    (mapping = Config.Dynamic → only_free self self').

Lemma map_region_spec mapping (self : loading) u a phys len n :
  ready self → placed self u len Size4KiB a →
  (mapping = Config.Dynamic → ∀ q, a ≤ q < a + len → Level4.free (used self) (p4_of q)) → phys mod 4096 = 0 →
  supply (frames self) (n + 3 * Z.to_nat (page_count len)) →
  returns (self ← map_frames (set_used self u) a (pages_from phys (page_count len)); Ret (Some a, self))
    (region_post mapping n phys len self).
Proof.
  intros Hr Hp Hdyn Hphys Hs. destruct (placed_ready _ _ _ _ _ Hr Hp) as [Hr' He'].
  pose proof (pl_span _ _ _ _ _ Hp) as Hspan. assert (0 < len) by apply Hspan.
  pose proof (pl_aligned _ _ _ _ _ Hp) as Ha. change Size4KiB with 4096 in *.
  assert (0 < page_count len) as Hpc by (apply Z.div_str_pos; lia).
  assert (∀ i, 0 ≤ i < page_count len → a ≤ a + i * 4096 < a + len) as Hin.
  { intros i Hi. rewrite <- page_count_pred in Hi.
    pose proof (Z.mul_div_le (len - 1) 4096 ltac:(lia)). nia. }
  eapply returns_bind.
  { apply (map_frames_spec (set_used self u) a (pages_from phys (page_count len)) n); rewrite ?length_pages_from.
    - done.
    - apply (Level4.span_canonical a len); [done|lia].
    - done.
    - intros i Hi. apply (placed_avail _ _ len a); [done|apply Hin; lia|by apply add_page_aligned].
    - apply Forall_forall. intros fr (i & _ & ->)%elem_of_pages_from. by apply add_page_aligned.
    - done. }
  intros self' [Hsup Hmp]. rewrite length_pages_from, Z2Nat.id in Hmp by lia.
  pose proof (mp_rest _ _ _ Hmp) as (Hu & ? & ? & _). cbn in Hu.
  cbn [returns]. exists a. split_and!; try done.
  - intros. by apply (pl_vacant _ _ _ _ _ Hp).
  - intros i Hi. rewrite !align_down_page by done.
    assert (0 ≤ i / 4096 < page_count len) as Hq.
    { split; [apply Z.div_pos; lia|]. rewrite <- page_count_pred.
      pose proof (Z.div_le_mono i (len - 1) 4096 ltac:(lia) ltac:(lia)). lia. }
    apply (mp_new _ _ _ Hmp). apply list_elem_of_lookup. exists (Z.to_nat (i / 4096)).
    apply lookup_zip_with_Some. exists (a + i / 4096 * 4096), (phys + i / 4096 * 4096).
    unfold pages_from. rewrite !list_lookup_fmap, lookup_seqZ_lt by lia. cbn.
    rewrite Z2Nat.id by lia. done.
  - intros p Hn. apply (mp_old _ _ _ Hmp). by rewrite fst_zip by (rewrite !length_pages_from; lia).
  - eapply grows_trans; [done|apply Hmp].
  - rewrite Hu. apply one_room_step, Hp.
  - intros Hd. eapply maps_only_free; [exact Hmp|].
    intros p. rewrite fst_zip by (rewrite !length_pages_from; lia).
    intros (i & Hi & ->)%elem_of_pages_from. apply Hdyn; [done|by apply Hin].
Qed.

Lemma frame_range_region phys len : phys mod 4096 = 0 → 0 ≤ phys → 0 < len → phys + len < 2 ^ 52 →
  frame_range_inclusive (frame_containing phys) (frame_containing (phys + len - 1)) =
    pages_from phys (page_count len).
Proof.
  intros Hm H0 Hl Hb. rewrite !frame_containing_spec by (unfold phys_ok; lia).
  pose proof (align_down_le (phys + len - 1) 4096). pose proof (align_down_nonneg (phys + len - 1) 4096).
  rewrite frame_range_inclusive_spec;
    [|unfold phys_ok; rewrite align_down_id by done; lia|unfold phys_ok; lia|by apply align_down_mod..].
  rewrite (align_down_id phys) by done. f_equal.
  rewrite <- (span_len_aligned phys) by done. unfold span_len. by rewrite (align_down_id phys).
Qed.

Lemma map_framebuffer_spec config fb (self : loading) n :
  let phys := Level4.addr fb in let len := Info.byte_len (Level4.info fb) in
  ready self → phys mod 4096 = 0 → 0 ≤ phys → 0 < len → phys + len < 2 ^ 52 →
  place_ok (Config.framebuffer (Config.mappings config)) len Size4KiB self →
  supply (frames self) (n + 3 * Z.to_nat (page_count len)) →
  returns (map_framebuffer config (Some fb) self) (region_post (Config.framebuffer (Config.mappings config)) n phys len self).
Proof.
  intros phys len Hr Hm H0 Hl Hb Hp Hs. unfold map_framebuffer. fold phys len.
  rewrite phys_add_ok by (unfold phys_ok; lia). cbn [mbind res_bind].
  rewrite phys_sub_ok by (unfold phys_ok; lia). cbn [mbind res_bind].
  eapply returns_bind; [by apply mapping_addr_page_aligned_spec|].
  intros [a u] (_ & Hpl & Hdyn). rewrite frame_range_region by done. by apply map_region_spec.
Qed.

Lemma map_ramdisk_spec config system_info phys (self : loading) n :
  let len := sys_ramdisk_len system_info in
  sys_ramdisk_addr system_info = Some phys →
  ready self → phys mod 4096 = 0 → 0 ≤ phys → 0 < len → phys + len < 2 ^ 52 →
  place_ok (Config.ramdisk_memory (Config.mappings config)) len Size4KiB self →
  supply (frames self) (n + 3 * Z.to_nat (page_count len)) →
  returns (map_ramdisk config system_info self) (region_post (Config.ramdisk_memory (Config.mappings config)) n phys len self).
Proof.
  intros len Ha Hr Hm H0 Hl Hb Hp Hs. unfold map_ramdisk. rewrite Ha. fold len.
  eapply returns_bind; [by apply mapping_addr_page_aligned_spec|].
  intros [a u] (_ & Hpl & Hdyn). rewrite phys_new_ok by (unfold phys_ok; lia). cbn [mbind res_bind].
  rewrite sub_u_ok by lia. cbn [mbind res_bind]. change Size4KiB with 4096.
  rewrite frame_containing_spec, align_down_id by (done || unfold phys_ok; lia).
  pose proof (Z.mul_div_le (len - 1) 4096 ltac:(lia)).
  assert (0 ≤ (len - 1) / 4096) by (apply Z.div_pos; lia).
  rewrite frame_add_ok by (unfold phys_ok; lia). cbn [mbind res_bind].
  rewrite frame_range_inclusive_spec;
    [|unfold phys_ok; lia|unfold phys_ok; lia|done|by apply add_page_aligned].
  replace (phys + (len - 1) / 4096 * 4096 - phys) with ((len - 1) / 4096 * 4096) by lia.
  rewrite Z.div_mul, page_count_pred by lia. by apply map_region_spec.
Qed.

(** ** The mapping of physical memory *)

(** The 2 MiB page [p] can be mapped. *)
Record big_avail (self : loading) (p : Z) : Prop := {
  ba_canonical : canonical p;
  ba_aligned : p mod Size2MiB = 0;
  ba_big : big_pages (table self) !! p = None;
  ba_level_1 : p ∉ level_1_tables (table self);
  ba_set : level_4_set (table self) !! p4_of p = None;
  ba_used : ¬ Level4.free (used self) (p4_of p);
}.

(** Everything but the 2 MiB pages and the frames is kept. *)
Definition same_small (self self' : loading) : Prop :=
  used self' = used self ∧ mem self' = mem self ∧ control self' = control self ∧
  pages (table self') = pages (table self) ∧
  level_1_tables (table self') = level_1_tables (table self) ∧
  level_4_set (table self') = level_4_set (table self).

Lemma big_mapped_step self page frame n :
  ready self → big_avail self page → frame mod Size2MiB = 0 → supply (frames self) (n + 2) →
  returns (map_big_frame self page frame FLAGS_RW)
    (λ self', grows self self' ∧ same_small self self' ∧ supply (frames self') n ∧
       big_pages (table self') = <[page := (frame, FLAGS_RW)]> (big_pages (table self))).
Proof.
  intros Hr Hav Hfr Hs. unfold map_big_frame.
  destruct (map_big_page_ok (table self) (frames self) page frame FLAGS_RW) as
    (t & f & -> & Ht & Hpg & Hbg & Hl1 & Hl4 & Hun & Hf & Hsub & Hsup & Hal);
    [apply Hr|apply Hr|apply Hav|apply Hav|done|done|apply Hav|apply Hav|apply Hav|eapply supply_le; [|done]; lia|].
  cbn. split_and!; try done; [|by apply Hsup]. split; cbn; [split; cbn; try done; try apply Hr| | | | | |].
  - intros p Hp. pose proof (rd_free _ Hr p Hp) as (H1 & H2 & H3 & H4).
    assert (p4_of p ≠ p4_of page) as Hne by (intros E; rewrite E in Hp; by apply (ba_used _ _ Hav)).
    unfold vacant. rewrite Hpg, Hbg, Hl1, Hl4. split_and!; try done.
    rewrite lookup_insert_ne; [done|]. intros E. apply Hne. by rewrite E, p4_of_align_down.
  - intros i Hi. rewrite Hun; [by apply Hr|]. intros ->. by apply (ba_used _ _ Hav).
  - by rewrite Hpg.
  - rewrite Hbg. apply insert_subseteq, Hav.
  - by rewrite Hl4.
  - done.
  - done.
  - done.
Qed.

Lemma elem_of_big_frames p a n : p ∈ big_frames_from a n ↔ ∃ i, 0 ≤ i < n ∧ p = a + i * Size2MiB.
Proof.
  unfold big_frames_from. rewrite list_elem_of_fmap. setoid_rewrite elem_of_seqZ.
  split; intros (i & ? & ?); exists i; split; (done || lia).
Qed.

(** The loop over the frames: frame [fr] becomes the page at [offset + fr]. *)
Lemma map_big_frames_spec (self : loading) offset fs n :
  ready self → NoDup fs → Forall (λ fr, fr mod Size2MiB = 0) fs →
  Forall (λ fr, 0 ≤ fr ∧ offset + fr < 2 ^ 64) fs → canonical offset →
  Forall (λ fr, big_avail self (offset + fr)) fs → supply (frames self) (n + 2 * length fs) →
  returns (foldM (λ self frame,
                    a ← virt_add offset frame;
                    map_big_frame self (big_page_containing a) frame FLAGS_RW) self fs)
    (λ self', grows self self' ∧ same_small self self' ∧ supply (frames self') n ∧
       (∀ fr, fr ∈ fs → big_pages (table self') !! (offset + fr) = Some (fr, FLAGS_RW)) ∧
       (∀ p, (∀ fr, fr ∈ fs → p ≠ offset + fr) →
          big_pages (table self') !! p = big_pages (table self) !! p)).
Proof.
  intros Hr Hnd Hal Hov Hc Hav Hs.
  eapply returns_mono.
  - apply (foldM_returns _ (λ l1 self', grows self self' ∧ same_small self self' ∧
      supply (frames self') (n + 2 * (length fs - length l1)) ∧
      (∀ fr, fr ∈ l1 → big_pages (table self') !! (offset + fr) = Some (fr, FLAGS_RW)) ∧
      (∀ p, (∀ fr, fr ∈ l1 → p ≠ offset + fr) →
         big_pages (table self') !! p = big_pages (table self) !! p))).
    + rewrite Nat.sub_0_r. split_and!; try done; by apply grows_refl || by intros ? ?%elem_of_nil.
    + intros l1 fr l2 s -> (He & Hsm & Hsup & Hnew & Hold).
      rewrite length_app in Hsup. cbn [length] in Hsup.
      apply NoDup_app in Hnd as (_ & Hnd & _). apply Forall_app in Hal as [_ [Hal _]%Forall_cons].
      apply Forall_app in Hov as [_ [Hov _]%Forall_cons]. apply Forall_app in Hav as [_ [Hav _]%Forall_cons].
      assert (∀ f, f ∈ l1 → offset + fr ≠ offset + f) as Hne.
      { intros f Hf E. apply (Hnd f Hf). replace f with fr by lia. by left. }
      assert (big_avail s (offset + fr)) as Hav'.
      { destruct Hsm as (Hu & _ & _ & _ & H1 & H4). split; rewrite ?Hu, ?H1, ?H4; try apply Hav.
        rewrite Hold by done. apply Hav. }
      rewrite virt_add_new by (done || lia). rewrite virt_new_canonical by apply Hav. cbn [mbind res_bind].
      rewrite big_page_containing_spec, align_down_id by apply Hav.
      eapply returns_mono.
      { apply (big_mapped_step s (offset + fr) fr (n + 2 * length l2)%nat); [apply He|done|done|].
        eapply supply_le; [|done]. lia. }
      intros s' (He' & Hsm' & Hsup' & Hbg). split_and!.
      * by eapply grows_trans.
      * destruct Hsm as (?&?&?&?&?&?), Hsm' as (?&?&?&?&?&?). split_and!; by etrans.
      * rewrite !length_app. cbn. eapply supply_le; [|done]. lia.
      * intros f Hf. rewrite Hbg. apply elem_of_snoc in Hf as [Hf| ->]; [|by rewrite lookup_insert_eq].
        rewrite lookup_insert_ne by (by apply Hne). by apply Hnew.
      * intros p Hp. rewrite Hbg, lookup_insert_ne; [apply Hold|].
        -- intros f Hf. apply Hp, elem_of_snoc. by left.
        -- intros E. apply (Hp fr); [|done]. apply elem_of_snoc. by right.
  - cbn. intros self' (? & ? & Hsup & ? & ?). split_and!; try done.
    eapply supply_le; [|done]. lia.
Qed.

(** The number of 2 MiB pages of [max] bytes. *)
Definition big_count (max : Z) : Z := (max - 1) / Size2MiB + 1.

(** Physical address [x] is at [offset + x]. *)
Definition physical_post (mapping : Config.Mapping) (n : nat) (max : Z) (self : loading) '((v, self') : option Z * loading) : Prop :=
  ∃ offset, v = Some offset ∧ offset mod Size2MiB = 0 ∧ Level4.span_ok offset max ∧
    (∀ x, 0 ≤ x < max →
       big_pages (table self') !! align_down (offset + x) Size2MiB =
         Some (align_down x Size2MiB, FLAGS_RW)) ∧
    pages (table self') = pages (table self) ∧ grows self self' ∧ supply (frames self') n ∧
    room_step (used self) (used self') ∧ mem self' = mem self ∧ control self' = control self ∧
    (mapping = Config.Dynamic → only_free self self').

Lemma map_physical_memory_spec config mapping max (self : loading) n :
  Config.physical_memory (Config.mappings config) = Some mapping →
  ready self → 0 < max < 2 ^ 52 → place_ok mapping max Size2MiB self →
  supply (frames self) (n + 2 * Z.to_nat (big_count max)) →
  returns (map_physical_memory config (Ret max) self) (physical_post mapping n max self).
Proof.
  intros Hm Hr Hmax Hp Hs. unfold map_physical_memory. rewrite Hm.
  rewrite phys_new_ok by (unfold phys_ok; lia). cbn [mbind res_bind].
  rewrite phys_sub_ok by (unfold phys_ok; lia). cbn [mbind res_bind].
  eapply returns_bind; [by apply mapping_addr_spec|].
  intros [r u] (offset & -> & Hc & Hpl & Hdyn). cbn [mbind res_bind].
  destruct (placed_ready _ _ _ _ _ Hr Hpl) as [Hr' He']. pose proof (pl_span _ _ _ _ _ Hpl) as Hspan.
  pose proof (pl_aligned _ _ _ _ _ Hpl) as Hal.
  assert (big_frame_range_inclusive (big_frame_containing 0) (big_frame_containing (max - 1)) =
    big_frames_from 0 (big_count max)) as ->.
  { rewrite !big_frame_containing_spec by (unfold phys_ok; lia). change (align_down 0 Size2MiB) with 0.
    assert (align_down (max - 1) Size2MiB = (max - 1) / Size2MiB * Size2MiB) as E
      by (unfold align_down; rewrite Z.mod_eq by done; lia).
    pose proof (align_down_le (max - 1) Size2MiB ltac:(done)).
    pose proof (align_down_nonneg (max - 1) Size2MiB ltac:(done) ltac:(lia)).
    rewrite big_frame_range_inclusive_spec; [|unfold phys_ok; lia|unfold phys_ok; lia|done|by apply align_down_mod].
    rewrite Z.sub_0_r, E, Z.div_mul by done. done. }
  assert (∀ fr, fr ∈ big_frames_from 0 (big_count max) → 0 ≤ fr < max ∧ fr mod Size2MiB = 0) as Hfr.
  { intros fr (i & Hi & ->)%elem_of_big_frames. rewrite Z.add_0_l. split; [|by apply Z.mod_mul].
    unfold big_count in Hi. pose proof (Z.mul_div_le (max - 1) Size2MiB ltac:(done)).
    change Size2MiB with 2097152 in *. nia. }
  eapply returns_bind.
  { apply (map_big_frames_spec (set_used self u) offset _ n); [done|..]; rewrite ?Forall_forall.
    - apply NoDup_fmap_2; [intros i j; change Size2MiB with 2097152; lia|apply NoDup_seqZ].
    - by intros fr [_ ?]%Hfr.
    - intros fr [? _]%Hfr. unfold Level4.span_ok in Hspan. lia.
    - done.
    - intros fr [Hb Hfm]%Hfr.
      assert ((offset + fr) mod Size2MiB = 0) as Hom by (by rewrite Zplus_mod, Hal, Hfm).
      assert ((offset + fr) mod 4096 = 0) as Hom4.
      { apply Z.mod_divide in Hom as [q ->]; [|done]. change Size2MiB with (512 * 4096).
        rewrite Z.mul_assoc. by apply Z.mod_mul. }
      pose proof (pl_vacant _ _ _ _ _ Hpl (offset + fr) ltac:(lia) Hom4) as (_ & H2 & H3 & H4).
      rewrite align_down_id in H2, H3 by done.
      split; cbn; try done; [apply (Level4.span_canonical offset max); [done|lia]|].
      apply (pl_used _ _ _ _ _ Hpl). lia.
    - unfold big_frames_from. by rewrite length_fmap, length_seqZ. }
  intros self' (He & (Hu & ? & ? & Hpg & _ & Hl4) & Hsup & Hnew & Hold). cbn in Hu.
  exists offset. split_and!; try done; [|by eapply grows_trans|rewrite Hu; apply one_room_step, Hpl|].
  2: { intros Hd p Hnf. rewrite Hpg, Hl4, Hold; [done|]. intros fr [? _]%Hfr E.
       apply Hnf. rewrite <- p4_of_align_down, E. apply Hdyn; [done|lia]. }
  intros x Hx. assert (align_down (offset + x) Size2MiB = offset + align_down x Size2MiB) as ->.
  { unfold align_down. rewrite Zplus_mod, Hal, Z.add_0_l, Z.mod_mod by done. lia. }
  apply Hnew, elem_of_big_frames. exists (x / Size2MiB). unfold align_down, big_count.
  rewrite Z.mod_eq by done. pose proof (Z.div_le_mono x (max - 1) Size2MiB ltac:(done) ltac:(lia)).
  assert (0 ≤ x / Size2MiB) by (apply Z.div_pos; [lia|done]). lia.
Qed.

(** ** Identity mapped frames and the recursive entry *)
Lemma identity_map_frame_spec self frame n :
  ready self → avail self frame → supply (frames self) (n + 3) →
  returns (identity_map_frame self frame PRESENT)
    (λ self', grows self self' ∧ same_rest self self' ∧ supply (frames self') n ∧
       pages (table self') = <[frame := (frame, PRESENT)]> (pages (table self))).
Proof.
  intros Hr Hav Hs. unfold identity_map_frame. apply (mapped_step self frame frame PRESENT n); try done.
  - apply identity_map_spec; apply Hav.
  - apply Hav.
  - by right.
Qed.

Lemma map_context_switch_spec addr (self : loading) n :
  let fr := align_down addr 4096 in
  ready self → 0 ≤ addr → fr + 8192 ≤ 2 ^ 39 → avail self fr → avail self (fr + 4096) →
  supply (frames self) (n + 6) →
  returns (map_context_switch addr self) (λ self',
    grows self self' ∧ same_rest self self' ∧ supply (frames self') n ∧
    pages (table self') = <[fr + 4096 := (fr + 4096, PRESENT)]>
      (<[fr := (fr, PRESENT)]> (pages (table self)))).
Proof.
  intros fr Hr H0 Hb Ha1 Ha2 Hs. unfold map_context_switch.
  pose proof (align_down_gt addr 4096 ltac:(lia)) as Hgt.
  pose proof (align_down_nonneg addr 4096 ltac:(lia) H0) as Hge.
  change (align_down addr 4096) with fr in Hgt, Hge. rewrite phys_new_ok by (unfold phys_ok; lia). cbn [mbind res_bind].
  rewrite frame_containing_spec by (unfold phys_ok; lia). fold fr.
  rewrite frame_add_ok by (unfold phys_ok; lia). cbn [mbind res_bind]. rewrite Z.mul_1_l.
  rewrite frame_range_inclusive_spec; [|unfold phys_ok; lia|unfold phys_ok; lia|apply Ha1|apply Ha2].
  replace (fr + 4096 - fr) with 4096 by lia. change (4096 / 4096 + 1) with 2.
  unfold pages_from. change (seqZ 0 2) with [0; 1]. cbn [fmap list_fmap foldM].
  rewrite Z.mul_0_l, Z.add_0_r, Z.mul_1_l.
  eapply returns_bind; [apply (identity_map_frame_spec self fr (n + 3)); [done|done|eapply supply_le; [|done]; lia]|].
  intros s1 (He1 & Hr1 & Hs1 & Hp1).
  eapply returns_bind.
  { apply (identity_map_frame_spec s1 (fr + 4096) n); [apply He1| |done].
    eapply avail_other; [done|done|lia|done]. }
  intros s2 (He2 & Hr2 & Hs2 & Hp2). cbn. rewrite Hp2, Hp1. split_and!; try done.
  - by eapply grows_trans.
  - by eapply same_rest_trans.
Qed.

Lemma map_gdt_spec `{GdtFormat} (self : loading) n :
  ready self → (∀ fr, fresh (frames self) fr → avail self fr ∧ fr < 2 ^ 47) →
  supply (frames self) (n + 4) →
  returns (map_gdt self) (λ self', ∃ fr, fresh (frames self) fr ∧
    grows self self' ∧ used self' = used self ∧ supply (frames self') n ∧
    big_pages (table self') = big_pages (table self) ∧
    level_4_set (table self') = level_4_set (table self) ∧
    pages (table self') = <[fr := (fr, PRESENT)]> (pages (table self)) ∧
    mem self' = mem_write (mem self) fr gdt_bytes ∧ gdtr (control self') = fr).
Proof.
  intros Hr Hfr Hs. unfold map_gdt.
  eapply returns_bind; [apply (take_frame_spec self _ (n + 3)); [done|eapply supply_le; [|done]; lia]|].
  intros [fr s1] (Hf & Hfa & _ & He1 & (Hu1 & Hm1 & Hc1 & Hb1 & Hl1) & Ht1 & Hs1).
  destruct (Hfr fr Hf) as [Hav Hlt]. destruct (fresh_ok _ _ (rd_frames _ Hr) Hf) as (_ & H0 & _).
  unfold create_and_load. rewrite virt_new_canonical by apply Hav. cbn [mbind res_bind].
  set (s2 := mkLoading _ _ _ _ _).
  assert (ready s2) as Hr2 by (pose proof (ex_ready _ _ He1) as []; by split).
  assert (avail s2 fr) as Hav2 by (split; cbn; rewrite ?Ht1, ?Hu1; apply Hav).
  eapply returns_mono; [by apply (identity_map_frame_spec s2 fr n)|].
  intros s3 (He3 & (Hu3 & Hm3 & Hc3 & Hb3 & Hl3) & Hs3 & Hp3). exists fr. cbn in Hu3, Hb3, Hl3, Hp3.
  rewrite Ht1 in *. split_and!; try done; [|congruence|by rewrite Hm3; cbn; rewrite Hm1|by rewrite Hc3].
  eapply grows_trans; [done|]. destruct He3. by split.
Qed.

Definition recursive_post (level_4_frame : Z) (self : loading) '((v, self') : option Z * loading) : Prop :=
  ∃ i, v = Some i ∧ level_4_set (table self') = <[i := level_4_frame]> (level_4_set (table self)) ∧
    pages (table self') = pages (table self) ∧ big_pages (table self') = big_pages (table self) ∧
    mem self' = mem self ∧ control self' = control self ∧ frames self' = frames self ∧
    ready self' ∧ (∀ j, Level4.free (used self') j ↔ Level4.free (used self) j ∧ j ≠ i).

Lemma map_recursive_spec config level_4_frame (self : loading) k :
  ready self → Config.page_table_recursive (Config.mappings config) = Some Config.Dynamic →
  room (used self) (S k) →
  returns (map_recursive config level_4_frame self) (recursive_post level_4_frame self).
Proof.
  intros Hr Hc (l & _ & Hl & Hf). unfold map_recursive. rewrite Hc. destruct l as [|j l]; [done|].
  apply Forall_cons in Hf as [Hj _].
  eapply returns_bind.
  { apply (Level4.get_free_entries_spec (used self) 1); [apply Hr|lia|].
    exists j. split; [apply Hj|]. intros i Hi. by replace i with j by lia. }
  intros [i u] (Hw & [Hwf Hm] & _). pose proof (Hw i ltac:(lia)) as Hi.
  rewrite (rd_unused _ Hr) by done. cbn.
  destruct (level_4_set_frame_ok (table self) i level_4_frame FLAGS_RW) as (Ht & Hp & Hb & Hl1 & Hs & Hun);
    [apply Hr|by eapply Level4.free_bound; [apply Hr|]|by apply Hr|].
  assert (∀ j, Level4.free u j ↔ Level4.free (used self) j ∧ j ≠ i) as Hfree by (intros x; rewrite Hm; intuition lia).
  exists i. split_and!; try done. split; cbn; [done|apply Hr|done| |].
  - intros p [Hpf Hne]%Hfree. destruct (rd_free _ Hr p Hpf) as (? & ? & ? & ?).
    unfold vacant. rewrite Hp, Hb, Hl1, Hs. by rewrite lookup_insert_ne.
  - intros x [Hx Hne]%Hfree. rewrite Hun by done. by apply Hr.
Qed.

(** ** The whole set-up, with dynamic placement *)

(** A size that fits into one level 4 entry at the given alignment, also with ASLR. *)
Definition fits (size alignment : Z) : Prop :=
  0 < size ∧ Level4.is_power_of_two alignment = true ∧ alignment ≤ Level4.LEVEL_4_SIZE - size.

Lemma fits_place (self : loading) size alignment k :
  fits size alignment → room (used self) (S k) → place_ok Config.Dynamic size alignment self.
Proof.
  intros (H0 & Hp & Ha) (l & _ & Hl & Hf). destruct l as [|j l]; [done|].
  apply Forall_cons in Hf as [Hj _].
  destruct (Level4.is_power_of_two_spec alignment Hp) as (e & He & Hpow).
  assert (0 < alignment) by (subst; apply Z.pow_pos_nonneg; lia).
  cbn. unfold Level4.request_ok. change Level4.LEVEL_4_SIZE with (2 ^ 39) in *.
  rewrite Z.mod_small by lia. split_and!; try done; try lia.
  exists j. split; [apply Hj|]. intros i Hi. by replace i with j by lia.
Qed.

(** The range of physical memory that is mapped as the framebuffer or the ramdisk. *)
Definition phys_range_ok (phys len : Z) : Prop :=
  phys mod 4096 = 0 ∧ 0 ≤ phys ∧ phys + len < 2 ^ 52 ∧ fits len Size4KiB.

Record dynamic_config (config : Config.BootloaderConfig) : Prop := {
  dc_stack : Config.kernel_stack (Config.mappings config) = Config.Dynamic;
  dc_framebuffer : Config.framebuffer (Config.mappings config) = Config.Dynamic;
  dc_ramdisk : Config.ramdisk_memory (Config.mappings config) = Config.Dynamic;
  dc_physical m : Config.physical_memory (Config.mappings config) = Some m → m = Config.Dynamic;
  dc_recursive m : Config.page_table_recursive (Config.mappings config) = Some m → m = Config.Dynamic;
}.

(** The frames that are needed, at most. *)
Definition frames_needed (config : Config.BootloaderConfig)
    (framebuffer : option Level4.RawFrameBufferInfo) (system_info : SystemInfo) (max : Z) : nat :=
  4 * Z.to_nat (page_count (Config.kernel_stack_size config)) + 10 +
  3 * Z.to_nat (page_count (from_option (λ fb, Info.byte_len (Level4.info fb)) 0 framebuffer)) +
  3 * Z.to_nat (page_count (sys_ramdisk_len system_info)) + 2 * Z.to_nat (big_count max).

(** What must hold after the kernel is loaded: nothing but the kernel is mapped, away from the
    lowest entry, in which the frames of the allocator and the context switch function lie. [k] level 4 entries
    and [n] frames are left in the end. *)
Record setup_ok (config : Config.BootloaderConfig) (addr : Z)
    (framebuffer : option Level4.RawFrameBufferInfo) (system_info : SystemInfo)
    (max_phys : F → res Z) (max : Z) (k n : nat) (self : loading) : Prop := {
  so_config : dynamic_config config;
  so_ready : ready self;
  so_low p : 0 ≤ p < 2 ^ 39 → vacant (table self) p;
  so_zero : ¬ Level4.free (used self) 0;
  so_room : room (used self) (5 + k);
  so_frames y : fresh (frames self) y → y + 4096 ≤ 2 ^ 39;
  so_addr : 0 ≤ addr ∧ align_down addr 4096 + 8192 ≤ 2 ^ 39;
  so_code : ¬ fresh (frames self) (align_down addr 4096) ∧ ¬ fresh (frames self) (align_down addr 4096 + 4096);
  so_stack : 0 < Config.kernel_stack_size config ∧ fits (4096 + Config.kernel_stack_size config) Size4KiB;
  so_framebuffer fb : framebuffer = Some fb →
    phys_range_ok (Level4.addr fb) (Info.byte_len (Level4.info fb));
  so_ramdisk a : sys_ramdisk_addr system_info = Some a → phys_range_ok a (sys_ramdisk_len system_info);
  so_physical : fits max Size2MiB;
  so_max f : rtc alloc_step (frames self) f → max_phys f = Ret max;
  so_supply : supply (frames self) (frames_needed config framebuffer system_info max + n);
}.

(** The address space that results. *)
Record setup_post `{GdtFormat} (config : Config.BootloaderConfig) (addr : Z)
    (framebuffer : option Level4.RawFrameBufferInfo) (system_info : SystemInfo) (max level_4_frame : Z)
    (self : loading) (stack_end : Z) (fb_addr ramdisk_addr physical_offset recursive : option Z)
    (self' : loading) : Prop := {
  sp_kernel : pages (table self) ⊆ pages (table self');
  sp_stack : ∃ g frs, stack_end = g + 4096 + Config.kernel_stack_size config ∧ g mod 4096 = 0 ∧
    Level4.span_ok g (4096 + Config.kernel_stack_size config) ∧
    pages (table self') !! g = None ∧ ¬ Level4.free (used self') (p4_of g) ∧
    length frs = Z.to_nat (page_count (Config.kernel_stack_size config)) ∧ NoDup frs ∧
    Forall (fresh (frames self)) frs ∧
    ∀ p fr, (p, fr) ∈ zip (pages_from (g + 4096) (page_count (Config.kernel_stack_size config))) frs →
      pages (table self') !! p = Some (fr, FLAGS_RW);
  sp_switch : ∀ p, p = align_down addr 4096 ∨ p = align_down addr 4096 + 4096 →
    pages (table self') !! p = Some (p, PRESENT);
  sp_gdt : ∃ fr, fresh (frames self) fr ∧ pages (table self') !! fr = Some (fr, PRESENT) ∧
    mem self' = mem_write (mem self) fr gdt_bytes ∧ gdtr (control self') = fr;
  sp_framebuffer : match framebuffer with
    | Some fb => ∃ a, fb_addr = Some a ∧ mirrors self' a (Level4.addr fb) (Info.byte_len (Level4.info fb))
    | None => fb_addr = None
    end;
  sp_ramdisk : match sys_ramdisk_addr system_info with
    | Some phys => ∃ a, ramdisk_addr = Some a ∧ mirrors self' a phys (sys_ramdisk_len system_info)
    | None => ramdisk_addr = None
    end;
  sp_physical : match Config.physical_memory (Config.mappings config) with
    | Some _ => ∃ o, physical_offset = Some o ∧ ∀ x, 0 ≤ x < max →
        big_pages (table self') !! align_down (o + x) Size2MiB = Some (align_down x Size2MiB, FLAGS_RW)
    | None => physical_offset = None
    end;
  sp_recursive : match Config.page_table_recursive (Config.mappings config) with
    | Some _ => ∃ i, recursive = Some i ∧ level_4_set (table self') !! i = Some level_4_frame
    | None => recursive = None
    end;
}.

Lemma p4_of_low p : 0 ≤ p < 2 ^ 39 → p4_of p = 0.
Proof. intros Hp. unfold p4_of. rewrite virt_rank_low by lia. apply Z.div_small. lia. Qed.

(** A page below 512 GiB that is still unmapped can be mapped. *)
Lemma low_avail config addr framebuffer system_info max_phys max k n self p :
  setup_ok config addr framebuffer system_info max_phys max k n self →
  0 ≤ p < 2 ^ 39 → p mod 4096 = 0 → avail self p.
Proof.
  intros Hok Hp Hm. pose proof (so_low _ _ _ _ _ _ _ _ _ Hok p Hp) as (? & ? & _ & ?).
  split; try done; [unfold canonical; lia|]. rewrite p4_of_low by done. apply Hok.
Qed.

Lemma only_free_avail self self' p : only_free self self' → grows self self' →
  avail self p → avail self' p.
Proof.
  intros Ho He Hav. destruct (Ho p (av_used _ _ Hav)) as (H1 & H2 & H3).
  split; rewrite ?H1, ?H2, ?H3; try apply Hav. intros Hf. by apply (av_used _ _ Hav), (ex_free _ _ He).
Qed.

Lemma mirrors_grows self self' a phys len : pages (table self) ⊆ pages (table self') →
  mirrors self a phys len → mirrors self' a phys len.
Proof. intros He Hm i Hi. eapply lookup_weaken; [by apply Hm|done]. Qed.

(** What the optional steps keep; each leaves [k] free entries and [n] frames. *)
Definition step_kept (n k : nat) (self self' : loading) : Prop :=
  grows self self' ∧ only_free self self' ∧ room (used self') k ∧ supply (frames self') n ∧
  mem self' = mem self ∧ control self' = control self.

Lemma room_pred u k : room u (S k) → room u k.
Proof.
  intros (l & Hnd & Hl & Hf). destruct l as [|x l]; [done|]. exists l.
  apply NoDup_cons in Hnd as [_ ?]. apply Forall_cons in Hf as [_ ?].
  split_and!; [done|by injection Hl|done].
Qed.

Lemma step_kept_refl self n m k : ready self → room (used self) (S k) → supply (frames self) (n + m) →
  step_kept n k self self.
Proof.
  intros Hr Hroom Hs. split_and!; [by apply grows_refl|by intros p _|by apply room_pred| |done|done].
  eapply supply_le; [|done]. lia.
Qed.

Lemma region_step mapping n k phys len self v self' :
  mapping = Config.Dynamic → room (used self) (S k) →
  region_post mapping n phys len self (v, self') →
  step_kept n k self self' ∧ ∃ a, v = Some a ∧ mirrors self' a phys len.
Proof.
  intros Hd Hroom (a & -> & _ & _ & _ & Hm & _ & He & Hsup & Hrs & Hmem & Hct & Hof).
  split; [|by exists a]. split_and!; try done; [by apply Hof|by apply Hrs].
Qed.

Lemma optional_framebuffer config framebuffer (self : loading) n k :
  ready self → Config.framebuffer (Config.mappings config) = Config.Dynamic →
  (∀ fb, framebuffer = Some fb → phys_range_ok (Level4.addr fb) (Info.byte_len (Level4.info fb))) →
  room (used self) (S k) →
  supply (frames self)
    (n + 3 * Z.to_nat (page_count (from_option (λ fb, Info.byte_len (Level4.info fb)) 0 framebuffer))) →
  returns (map_framebuffer config framebuffer self) (λ '(v, self'), step_kept n k self self' ∧
    match framebuffer with
    | Some fb => ∃ a, v = Some a ∧ mirrors self' a (Level4.addr fb) (Info.byte_len (Level4.info fb))
    | None => v = None
    end).
Proof.
  intros Hr Hc Hfb Hroom Hs. destruct framebuffer as [fb|]; cbn [from_option] in Hs.
  - destruct (Hfb fb eq_refl) as (? & ? & ? & Hfit).
    eapply returns_mono; [apply map_framebuffer_spec; try done; [apply Hfit|rewrite Hc; by eapply fits_place]|].
    intros [v self'] Hpost. by eapply region_step.
  - cbn. split; [by eapply step_kept_refl|done].
Qed.

Lemma optional_ramdisk config system_info (self : loading) n k :
  ready self → Config.ramdisk_memory (Config.mappings config) = Config.Dynamic →
  (∀ a, sys_ramdisk_addr system_info = Some a → phys_range_ok a (sys_ramdisk_len system_info)) →
  room (used self) (S k) →
  supply (frames self) (n + 3 * Z.to_nat (page_count (sys_ramdisk_len system_info))) →
  returns (map_ramdisk config system_info self) (λ '(v, self'), step_kept n k self self' ∧
    match sys_ramdisk_addr system_info with
    | Some phys => ∃ a, v = Some a ∧ mirrors self' a phys (sys_ramdisk_len system_info)
    | None => v = None
    end).
Proof.
  intros Hr Hc Hrd Hroom Hs. destruct (sys_ramdisk_addr system_info) as [phys|] eqn:E.
  - destruct (Hrd phys eq_refl) as (? & ? & ? & Hfit).
    eapply returns_mono; [apply (map_ramdisk_spec config system_info phys); try done; [apply Hfit|rewrite Hc; by eapply fits_place]|].
    intros [v self'] Hpost. by eapply region_step.
  - unfold map_ramdisk. rewrite E. cbn. split; [by eapply step_kept_refl|done].
Qed.

Lemma optional_physical config max_phys max (self : loading) n k :
  ready self → (∀ m, Config.physical_memory (Config.mappings config) = Some m → m = Config.Dynamic) →
  max_phys = Ret max → fits max Size2MiB → room (used self) (S k) →
  supply (frames self) (n + 2 * Z.to_nat (big_count max)) →
  returns (map_physical_memory config max_phys self) (λ '(v, self'), step_kept n k self self' ∧
    match Config.physical_memory (Config.mappings config) with
    | Some _ => ∃ o, v = Some o ∧ ∀ x, 0 ≤ x < max →
        big_pages (table self') !! align_down (o + x) Size2MiB = Some (align_down x Size2MiB, FLAGS_RW)
    | None => v = None
    end).
Proof.
  intros Hr Hc -> Hfit Hroom Hs.
  destruct (Config.physical_memory (Config.mappings config)) as [m|] eqn:E.
  - destruct Hfit as (H0 & Hp & Ha) eqn:Ef. rewrite (Hc m eq_refl) in E.
    assert (max < 2 ^ 52) by (change Level4.LEVEL_4_SIZE with (2 ^ 39) in Ha; change Size2MiB with 2097152 in Ha; lia).
    eapply returns_mono; [apply (map_physical_memory_spec config Config.Dynamic max self n); try done; by eapply fits_place|].
    intros [v self'] (o & -> & _ & _ & Hx & _ & He & Hsup & Hrs & Hmem & Hct & Hof).
    split; [|by exists o]. split_and!; try done; [by apply Hof|by apply Hrs].
  - unfold map_physical_memory. rewrite E. cbn. split; [by eapply step_kept_refl|done].
Qed.

(** The steps for the stack, the context switch function and the GDT. *)
Lemma early_steps `{GdtFormat} config addr framebuffer system_info max_phys max k n (self : loading) m :
  setup_ok config addr framebuffer system_info max_phys max k n self →
  supply (frames self) (m + 4 * Z.to_nat (page_count (Config.kernel_stack_size config)) + 10) →
  returns ('(e, self) ← map_kernel_stack config self;
           self ← map_context_switch addr self;
           self ← map_gdt self; Ret (e, self)) (λ '(e, self'),
    grows self self' ∧ room (used self') (4 + k) ∧ supply (frames self') m ∧
    (∀ p, p = align_down addr 4096 ∨ p = align_down addr 4096 + 4096 →
       pages (table self') !! p = Some (p, PRESENT)) ∧
    (∃ fr, fresh (frames self) fr ∧ pages (table self') !! fr = Some (fr, PRESENT) ∧
       mem self' = mem_write (mem self) fr gdt_bytes ∧ gdtr (control self') = fr) ∧
    ∃ g frs, e = g + 4096 + Config.kernel_stack_size config ∧ g mod 4096 = 0 ∧
      Level4.span_ok g (4096 + Config.kernel_stack_size config) ∧
      pages (table self') !! g = None ∧ ¬ Level4.free (used self') (p4_of g) ∧
      length frs = Z.to_nat (page_count (Config.kernel_stack_size config)) ∧ NoDup frs ∧
      Forall (fresh (frames self)) frs ∧
      ∀ p fr, (p, fr) ∈ zip (pages_from (g + 4096) (page_count (Config.kernel_stack_size config))) frs →
        pages (table self') !! p = Some (fr, FLAGS_RW)).
Proof.
  intros Hok Hs. pose proof (so_ready _ _ _ _ _ _ _ _ _ Hok) as Hr.
  destruct (so_stack _ _ _ _ _ _ _ _ _ Hok) as [Hsz Hfit]. pose proof (dc_stack _ (so_config _ _ _ _ _ _ _ _ _ Hok)) as Hd.
  destruct (so_addr _ _ _ _ _ _ _ _ _ Hok) as [Ha0 Hab]. set (fr := align_down addr 4096) in *.
  assert (0 ≤ fr ∧ fr mod 4096 = 0) as [Hf0 Hfm]
    by (split; [apply align_down_nonneg; lia|by apply align_down_mod]).
  assert ((fr + 4096) mod 4096 = 0) as Hfm' by (rewrite <- (add_page_aligned fr 1 Hfm); f_equal; lia).
  eapply returns_bind.
  { apply (map_kernel_stack_spec config self (m + 10)); [done| | |eapply supply_le; [|done]; lia].
    - destruct Hfit as (_ & _ & Hle). change Level4.LEVEL_4_SIZE with (2 ^ 39) in Hle. change Size4KiB with 4096 in Hle. lia.
    - rewrite Hd. eapply fits_place; [done|apply Hok]. }
  intros [e s1] (g & frs & -> & Hg & Hgs & _ & Hgn & Hlen & Hnd & Hfr & Hmp & He1 & Hs1 & Hrs & Hm1 & Hc1 & Hgu & Hof).
  destruct (Hof Hd) as [Ho1 Hgf].
  assert (∀ p, 0 ≤ p < 2 ^ 39 → p mod 4096 = 0 → avail s1 p) as Hlow.
  { intros p Hp Hpm. eapply only_free_avail; [done|done|by eapply low_avail]. }
  eapply returns_bind.
  { apply (map_context_switch_spec addr s1 (m + 4)); [apply He1|done|done| | |eapply supply_le; [|done]; lia];
      fold fr; apply Hlow; (done || lia). }
  fold fr. intros s2 (He2 & Hr2 & Hs2 & Hp2).
  assert (¬ fresh (frames self) fr ∧ ¬ fresh (frames self) (fr + 4096)) as [Hnf1 Hnf2] by apply Hok.
  eapply returns_bind.
  { apply (map_gdt_spec s2 m); [apply He2| |eapply supply_le; [|done]; lia].
    intros y Hy. assert (fresh (frames self) y) as Hy0 by (by apply (ex_fresh _ _ He1), (ex_fresh _ _ He2)).
    pose proof (so_frames _ _ _ _ _ _ _ _ _ Hok y Hy0).
    destruct (fresh_ok _ _ (rd_frames _ Hr) Hy0) as (Hym & Hy1 & _). split; [|lia].
    destruct Hr2 as (Hu & _ & _ & Hb & Hl). pose proof (Hlow y ltac:(lia) Hym) as Hav.
    split; rewrite ?Hu, ?Hb, ?Hl, ?Hp2; try apply Hav.
    rewrite !lookup_insert_ne by (by intros <-). apply Hav. }
  intros s3 (gf & Hgf3 & He3 & Hu3 & Hs3 & _ & _ & Hp3 & Hm3 & Hc3). cbn [returns].
  assert (fresh (frames self) gf) as Hgf0 by (by apply (ex_fresh _ _ He1), (ex_fresh _ _ He2)).
  assert (∀ p, 0 ≤ p < 2 ^ 39 → g ≠ p) as Hgl.
  { intros p Hp ->. apply (so_zero _ _ _ _ _ _ _ _ _ Hok). by rewrite <- (p4_of_low p). }
  pose proof (so_frames _ _ _ _ _ _ _ _ _ Hok gf Hgf0). destruct (fresh_ok _ _ (rd_frames _ Hr) Hgf0) as (_ & Hgf1 & _).
  pose proof (grows_trans _ _ _ He2 He3) as He23. destruct Hr2 as (Hu2 & Hm2 & _).
  split_and!; try done.
  - by eapply grows_trans.
  - rewrite Hu3, Hu2. apply Hrs, Hok.
  - intros p Hp. rewrite Hp3, Hp2. rewrite lookup_insert_ne by (intros <-; destruct Hp; congruence).
    destruct Hp as [->| ->]; [rewrite lookup_insert_ne by lia|]; by rewrite lookup_insert_eq.
  - exists gf. split_and!; try done; [by rewrite Hp3, lookup_insert_eq|congruence].
  - exists g, frs. split; [done|]. split; [done|]. split; [exact Hgs|]. split_and!; try done.
    + rewrite Hp3, Hp2, !lookup_insert_ne; [done|..]; symmetry; apply Hgl; lia.
    + by rewrite Hu3, Hu2.
    + intros p q Hpq. eapply lookup_weaken; [by apply (mp_new _ _ _ Hmp)|apply He23].
Qed.

(** What is left: [k] level 4 entries and [n] frames, with tables that are as before the step. *)
Record setup_rest (k n : nat) (self self' : loading) : Prop := {
  sr_ready : ready self';
  sr_free j : Level4.free (used self') j → Level4.free (used self) j;
  sr_room : room (used self') k;
  sr_supply : supply (frames self') n;
  sr_fresh y : fresh (frames self') y → fresh (frames self) y;
  sr_alloc : rtc alloc_step (frames self) (frames self');
}.

Lemma optional_recursive config level_4_frame (self : loading) k n :
  ready self →
  (∀ m, Config.page_table_recursive (Config.mappings config) = Some m → m = Config.Dynamic) →
  room (used self) (S k) → supply (frames self) n →
  returns (map_recursive config level_4_frame self) (λ '(v, self'),
    pages (table self') = pages (table self) ∧ big_pages (table self') = big_pages (table self) ∧
    mem self' = mem self ∧ control self' = control self ∧ setup_rest k n self self' ∧
    match Config.page_table_recursive (Config.mappings config) with
    | Some _ => ∃ i, v = Some i ∧ level_4_set (table self') !! i = Some level_4_frame
    | None => v = None
    end).
Proof.
  intros Hr Hd Hroom Hsup. destruct (Config.page_table_recursive (Config.mappings config)) as [m|] eqn:E.
  - rewrite (Hd m eq_refl) in E. eapply returns_mono; [by eapply map_recursive_spec|].
    intros [v self'] (i & -> & Hl & Hp & Hb & Hm & Hct & Hfr & Hr' & Hfree). split_and!; try done.
    + split; rewrite ?Hfr; try done; [by intros j [? _]%Hfree|].
      apply (one_room_step (used self)); [|done]. exists i. intros j Hj Hf. by apply Hfree.
    + exists i. split; [done|]. by rewrite Hl, lookup_insert_eq.
  - unfold map_recursive. rewrite E. cbn [returns]. split_and!; try done. split; try done. by apply room_pred.
Qed.

(** The steps from the framebuffer on: what they make visible, and that they touch nothing outside
    of the entries that were free. *)
Lemma late_steps config addr framebuffer system_info max_phys max k n (self0 self : loading) level_4_frame :
  setup_ok config addr framebuffer system_info max_phys max k n self0 → grows self0 self →
  room (used self) (4 + k) →
  supply (frames self)
    (3 * Z.to_nat (page_count (from_option (λ fb, Info.byte_len (Level4.info fb)) 0 framebuffer)) +
     3 * Z.to_nat (page_count (sys_ramdisk_len system_info)) + 2 * Z.to_nat (big_count max) + n) →
  returns ('(v4, self) ← map_framebuffer config framebuffer self;
           '(v5, self) ← map_ramdisk config system_info self;
           '(v6, self) ← map_physical_memory config (max_phys (frames self)) self;
           '(v7, self) ← map_recursive config level_4_frame self;
           Ret (v4, v5, v6, v7, self)) (λ '(v4, v5, v6, v7, self'),
    pages (table self) ⊆ pages (table self') ∧
    (∀ p, ¬ Level4.free (used self) (p4_of p) → pages (table self') !! p = pages (table self) !! p) ∧
    mem self' = mem self ∧ control self' = control self ∧ setup_rest k n self self' ∧
    match framebuffer with
    | Some fb => ∃ a, v4 = Some a ∧ mirrors self' a (Level4.addr fb) (Info.byte_len (Level4.info fb))
    | None => v4 = None
    end ∧
    match sys_ramdisk_addr system_info with
    | Some phys => ∃ a, v5 = Some a ∧ mirrors self' a phys (sys_ramdisk_len system_info)
    | None => v5 = None
    end ∧
    match Config.physical_memory (Config.mappings config) with
    | Some _ => ∃ o, v6 = Some o ∧ ∀ x, 0 ≤ x < max →
        big_pages (table self') !! align_down (o + x) Size2MiB = Some (align_down x Size2MiB, FLAGS_RW)
    | None => v6 = None
    end ∧
    match Config.page_table_recursive (Config.mappings config) with
    | Some _ => ∃ i, v7 = Some i ∧ level_4_set (table self') !! i = Some level_4_frame
    | None => v7 = None
    end).
Proof.
  intros Hok He3 Hrm3 Hs3. pose proof (so_config _ _ _ _ _ _ _ _ _ Hok) as Hc.
  set (nr := (3 * Z.to_nat (page_count (sys_ramdisk_len system_info)))%nat) in *.
  set (np := (2 * Z.to_nat (big_count max))%nat) in *.
  eapply returns_bind.
  { apply (optional_framebuffer config framebuffer self (nr + np + n) (3 + k));
      [apply He3|apply Hc|apply Hok|done|eapply supply_le; [|done]; lia]. }
  intros [v4 s4] [(He4 & Ho4 & Hrm4 & Hs4 & Hm4 & Hc4) Hv4].
  eapply returns_bind.
  { apply (optional_ramdisk config system_info s4 (np + n) (2 + k));
      [apply He4|apply Hc|apply Hok|done|eapply supply_le; [|done]; lia]. }
  intros [v5 s5] [(He5 & Ho5 & Hrm5 & Hs5 & Hm5 & Hc5) Hv5].
  eapply returns_bind.
  { apply (optional_physical config (max_phys (frames s5)) max s5 n (1 + k));
      [apply He5|apply Hc| |apply Hok|done|eapply supply_le; [|done]; lia].
    apply (so_max _ _ _ _ _ _ _ _ _ Hok). etrans; [apply He3|]. etrans; [apply He4|apply He5]. }
  intros [v6 s6] [(He6 & Ho6 & Hrm6 & Hs6 & Hm6 & Hc6) Hv6].
  eapply returns_bind; [by apply (optional_recursive config level_4_frame s6 k n); [apply He6|apply Hc|..]|].
  intros [v7 s7] (Hp7 & Hb7 & Hm7 & Hc7 & Hr7 & Hv7). cbn [returns]. rewrite Hp7, Hb7.
  pose proof (grows_trans _ _ _ He4 (grows_trans _ _ _ He5 He6)) as He46.
  split_and!; try congruence.
  - apply He46.
  - intros p Hp. assert (¬ Level4.free (used s4) (p4_of p)) as Hp4 by (intros Hf; by apply Hp, (ex_free _ _ He4)).
    assert (¬ Level4.free (used s5) (p4_of p)) as Hp5 by (intros Hf; by apply Hp4, (ex_free _ _ He5)).
    by rewrite (proj1 (Ho6 p Hp5)), (proj1 (Ho5 p Hp4)), (proj1 (Ho4 p Hp)).
  - destruct Hr7 as [? Hf ? ? Hfr Hal]. split; try done; [|intros y ?; by apply (ex_fresh _ _ He46), Hfr|].
    + intros j ?. by apply (ex_free _ _ He46), Hf.
    + etrans; [apply He46|done].
  - destruct framebuffer; [|done]. destruct Hv4 as (a & -> & Hm). exists a. split; [done|].
    eapply mirrors_grows; [|done]. rewrite Hp7. etrans; [apply He5|apply He6].
  - destruct (sys_ramdisk_addr system_info); [|done]. destruct Hv5 as (a & -> & Hm). exists a. split; [done|].
    eapply mirrors_grows; [|done]. rewrite Hp7. apply He6.
Qed.

Lemma map_all_spec `{GdtFormat} config addr framebuffer system_info max_phys max k n level_4_frame
    (self : loading) :
  setup_ok config addr framebuffer system_info max_phys max k n self →
  returns (map_all config addr framebuffer system_info max_phys level_4_frame self)
    (λ '(stack_end, fb_addr, ramdisk_addr, physical_offset, recursive, self'),
       setup_post config addr framebuffer system_info max level_4_frame self
         stack_end fb_addr ramdisk_addr physical_offset recursive self' ∧
       setup_rest k n self self').
Proof.
  intros Hok. pose proof (so_supply _ _ _ _ _ _ _ _ _ Hok) as Hs. unfold frames_needed in Hs.
  assert (returns ('(e, self) ← map_kernel_stack config self;
    self ← map_context_switch addr self; self ← map_gdt self; Ret (e, self)) _) as Hearly
    by (apply (early_steps config addr framebuffer system_info max_phys max k n self
          (3 * Z.to_nat (page_count (from_option (λ fb, Info.byte_len (Level4.info fb)) 0%Z framebuffer)) +
           3 * Z.to_nat (page_count (sys_ramdisk_len system_info)) + 2 * Z.to_nat (big_count max) + n)%nat);
        [done|eapply supply_le; [|done]; lia]).
  unfold map_all.
  destruct (map_kernel_stack config self) as [[e s1]| |]; try done. cbn [mbind res_bind] in *.
  destruct (map_context_switch addr s1) as [s2| |]; try done. cbn [mbind res_bind] in *.
  destruct (map_gdt s2) as [s3| |]; try done. cbn [mbind res_bind returns] in *.
  destruct Hearly as (He3 & Hrm3 & Hs3 & Hsw & (gf & Hgf1 & Hgf2 & Hgf3 & Hgf4) & g & frs &
    ? & ? & ? & Hgn & Hgu & ? & ? & ? & Hstk).
  pose proof (late_steps config addr framebuffer system_info max_phys max k n self s3 level_4_frame
    Hok He3 Hrm3 Hs3) as Hlate.
  destruct (map_framebuffer config framebuffer s3) as [[v4 s4]| |]; try done. cbn [mbind res_bind] in *.
  destruct (map_ramdisk config system_info s4) as [[v5 s5]| |]; try done. cbn [mbind res_bind] in *.
  destruct (map_physical_memory config _ s5) as [[v6 s6]| |]; try done. cbn [mbind res_bind] in *.
  destruct (map_recursive config level_4_frame s6) as [[v7 s7]| |]; try done. cbn [mbind res_bind returns] in *.
  destruct Hlate as (Hsub & Hkeep & Hm & Hc & Hrest & Hv4 & Hv5 & Hv6 & Hv7).
  split; [split; try done|].
  - etrans; [apply He3|done].
  - exists g, frs. split_and!; try done; [by rewrite Hkeep|intros Hg; by apply Hgu, (sr_free _ _ _ _ Hrest)|].
    intros p fr Hin. eapply lookup_weaken; [by apply Hstk|done].
  - intros p Hp. eapply lookup_weaken; [by apply Hsw|done].
  - exists gf. split_and!; [done|by eapply lookup_weaken|congruence|congruence].
  - destruct Hrest as [? Hf ? ? Hfr Hal]. split; try done; [|intros y ?; by apply (ex_fresh _ _ He3), Hfr|].
    + intros j ?. by apply (ex_free _ _ He3), Hf.
    + etrans; [apply He3|done].
Qed.


(** C3: The address space of the kernel, with dynamic placement: with enough frames and free level
    4 entries, the set-up steps succeed, and afterwards the kernel's own mappings are unchanged;
    the stack is backed by distinct fresh frames, writable, above an unmapped guard page; the
    context switch function and the GDT are identity mapped; the framebuffer, the ramdisk and all
    of physical memory are visible at the reported addresses, byte for byte; and the recursive
    entry points to the level 4 table. No step removes what an earlier one has mapped, and the
    page table still agrees with the record of used entries, with as many entries and frames left as
    were there in excess. *)
Theorem map_all_correct `{GdtFormat} config addr framebuffer system_info max_phys max k n level_4_frame
    (self : loading) :
  setup_ok config addr framebuffer system_info max_phys max k n self →
  returns (map_all config addr framebuffer system_info max_phys level_4_frame self)
    (λ '(stack_end, fb_addr, ramdisk_addr, physical_offset, recursive, self'),
       setup_post config addr framebuffer system_info max level_4_frame self
         stack_end fb_addr ramdisk_addr physical_offset recursive self' ∧
       setup_rest k n self self').
Proof. apply map_all_spec. Qed.

End Proofs.

(** ** The set-up at a concrete input

    An ASLR configuration with everything placed dynamically, 1 GiB of memory, frames from 16 MiB
    on, and the context switch function at 0x130123. *)
Definition sample_config : Config.BootloaderConfig :=
  {| Config.kernel_stack_size := 80 * 1024;
     Config.version := Config.mkApiVersion 0 11 0 false;
     Config.mappings :=
       {| Config.kernel_stack := Config.Dynamic; Config.boot_info := Config.Dynamic;
          Config.framebuffer := Config.Dynamic; Config.physical_memory := Some Config.Dynamic;
          Config.page_table_recursive := Some Config.Dynamic; Config.aslr := true;
          Config.dynamic_range_start := None; Config.dynamic_range_end := None;
          Config.ramdisk_memory := Config.Dynamic |};
     Config.frame_buffer := Config.FrameBuffer_new_default |}.
Definition sample_framebuffer : Level4.RawFrameBufferInfo :=
  Level4.mkRawFrameBufferInfo 0xfd000000
    (Info.mkFrameBufferInfo 0x300000 1024 768 Info.Bgr 4 1024).
Definition sample_system : SystemInfo := mkSystemInfo (Some sample_framebuffer) (Some 0xe0000) (Some 0x800000) 10000.
Definition sample_frames : Bump := mkBump 0x1000000 0x2000000.
Definition sample_loading : Loading Table Bump Z :=
  mkLoading empty_table sample_frames (Level4.sample_used (Some 7)) (λ _, 0) (mkControl 0 0 0 0 0 0 0).
#[local] Existing Instance Level4.rng_ref.
#[local] Instance sample_gdt : GdtFormat := {| gdt_bytes := replicate 24 0; code_selector := 8; data_selector := 16 |}.

Lemma sample_setup_ok :
  setup_ok sample_config 0x130123 (Some sample_framebuffer) sample_system (λ _, Ret (2 ^ 30)) (2 ^ 30)
    1 20 sample_loading.
Proof.
  assert (Level4.is_power_of_two Size4KiB = true) as Hp4 by (by vm_compute).
  assert (Level4.is_power_of_two Size2MiB = true) as Hp2 by (by vm_compute).
  split.
  - split; try done; by intros m [= <-].
  - split; done.
  - done.
  - by intros [_ [=]].
  - exists [1; 2; 3; 4; 5; 6]. split_and!; [|done|].
    + repeat (apply NoDup_cons; split; [set_solver by lia|]). apply NoDup_nil_2.
    + repeat (apply Forall_cons; split; [by vm_compute|]). done.
  - intros y (_ & _ & Hy). cbn in Hy. lia.
  - by vm_compute.
  - split; intros (_ & Hy & _); by vm_compute in Hy.
  - split; [done|]. split_and!; [done|done|by vm_compute].
  - intros fb [= <-]. split_and!; [done|by vm_compute|by vm_compute|]. split_and!; [done|done|by vm_compute].
  - intros a [= <-]. split_and!; [done|by vm_compute|by vm_compute|]. split_and!; [done|done|by vm_compute].
  - split_and!; [done|done|by vm_compute].
  - done.
  - apply bump_supply; by vm_compute.
Qed.

Lemma map_all_correct_witness :
  returns (map_all sample_config 0x130123 (Some sample_framebuffer) sample_system (λ _, Ret (2 ^ 30))
             0x1000 sample_loading)
    (λ '(_, fb_addr, _, _, _, self'), ∃ a, fb_addr = Some a ∧ mirrors self' a 0xfd000000 0x300000).
Proof.
  eapply returns_mono; [exact (map_all_correct sample_config 0x130123 (Some sample_framebuffer) sample_system
    (λ _, Ret (2 ^ 30)) (2 ^ 30) 1 20 0x1000 sample_loading sample_setup_ok)|].
  intros [[[[[e fb] rd] po] ri] self'] [Hpost _]. exact (sp_framebuffer _ _ _ _ _ _ _ _ _ _ _ _ _ Hpost).
Defined.

End SetUpProofs.
