(* ===== verification/BootInfoProofs.v ===== *)
(** * The boot information and the jump to the kernel (common/src/lib.rs)

    [create_boot_info] places the boot information and the memory map in a free
    level 4 entry, maps it into both address spaces on the same frames, and fills
    it; [switch_to_kernel] enters the kernel with the stack as its ABI asks. *)
From stdpp Require Import gmap.
From S2P Require Import Prelude Memory X86 Paging PageTables Config Info Elf FrameAllocator Level4 LoadKernel SetUp SetUpProofs.
Import Memory X86 Paging PageTables LoadKernel SetUp SetUpProofs.

Module BootInfoProofs.

Section Proofs.
Context `{HX : X86Laws, HXB : X86BigLaws} {M : Type} `{HP : BigMapperLaws M}.
Context {D : Type} `{LR : FrameAllocator.LegacyMemoryRegion D} {R : Type} `{HG : Level4.RngLaws R}.
Abbreviation allocator := (FrameAllocator.LegacyFrameAllocator D).
Abbreviation loading := (Loading M allocator R).

(** The page [p] can be mapped in the table [t]. *)
Definition mappable (t : M) (p : Z) : Prop :=
  canonical p ∧ p mod 4096 = 0 ∧ pages t !! p = None ∧
  big_pages t !! align_down p Size2MiB = None ∧ level_4_set t !! p4_of p = None.

(** [t'] has the pages of [l] besides those of [t]. *)
Definition adds (l : list (Z * Z)) (t t' : M) : Prop :=
  table_inv t' ∧ big_pages t' = big_pages t ∧ level_4_set t' = level_4_set t ∧
  (∀ p fr, (p, fr) ∈ l → pages t' !! p = Some (fr, FLAGS_RW)) ∧
  (∀ p, p ∉ l.*1 → pages t' !! p = pages t !! p).

Lemma adds_mappable l t t' p : adds l t t' → p ∉ l.*1 → mappable t p → mappable t' p.
Proof. intros (_ & Hb & Hs & _ & Ho) Hp (? & ? & ? & ? & ?). unfold mappable. by rewrite Hb, Hs, Ho. Qed.

Lemma map_to_adds l t0 t (f : allocator) p fr n :
  adds l t0 t → p ∉ l.*1 → source_inv f → mappable t p → fr mod 4096 = 0 → supply f (n + 3) →
  ∃ t' f', map_to t f p fr FLAGS_RW = Ret (Some (t', f')) ∧ adds (l ++ [(p, fr)]) t0 t' ∧
    source_inv f' ∧ (∀ y, fresh f' y → fresh f y) ∧ supply f' n ∧ rtc alloc_step f f'.
Proof.
  intros (Ht & Hb & Hs & Hn & Ho) Hp Hf (? & ? & ? & ? & ?) Hfr Hsup.
  destruct (map_page_ok t f p fr FLAGS_RW) as
    (t' & f' & E & Ht' & Hpg & Hbg & _ & Hl4 & _ & Hf' & Hsub & Hsup' & Hal); try done.
  { eapply supply_le; [|done]. lia. }
  exists t', f'. split_and!; try done; [|by apply Hsup'].
  split_and!; [done|congruence|congruence| |].
  - intros q fq [Hq|[= -> ->]]%elem_of_snoc; rewrite Hpg; [|by rewrite lookup_insert_eq].
    rewrite lookup_insert_ne; [by apply Hn|]. intros ->. apply Hp.
    by apply (list_elem_of_fmap_2 fst) in Hq.
  - intros q. rewrite fmap_app. cbn [fmap list_fmap]. rewrite elem_of_snoc. intros Hq.
    rewrite Hpg, lookup_insert_ne by (intros ->; apply Hq; by right). apply Ho. tauto.
Qed.

(** The loop: the same fresh frame for each page in both tables. *)
Lemma map_boot_info_pages_spec (k b : M) (f : allocator) pgs n :
  table_inv k → table_inv b → source_inv f → NoDup pgs →
  Forall (mappable k) pgs → Forall (mappable b) pgs → supply f (n + 7 * length pgs) →
  returns (foldM map_boot_info_page (k, b, f) pgs) (λ '(k', b', f'), ∃ frs,
    length frs = length pgs ∧ adds (zip pgs frs) k k' ∧ adds (zip pgs frs) b b' ∧
    Forall (λ fr, fresh f fr ∧ ¬ fresh f' fr) frs ∧ rtc alloc_step f f' ∧ source_inv f').
Proof.
  intros Hk Hb Hf Hnd Hmk Hmb Hs.
  eapply returns_mono.
  - apply (foldM_returns _ (λ l1 '(k', b', f'), ∃ frs,
      length frs = length l1 ∧ adds (zip l1 frs) k k' ∧ adds (zip l1 frs) b b' ∧
      Forall (λ fr, fresh f fr ∧ ¬ fresh f' fr) frs ∧ rtc alloc_step f f' ∧ source_inv f' ∧
      (∀ y, fresh f' y → fresh f y) ∧ supply f' (n + 7 * (length pgs - length l1)))).
    + exists []. rewrite Nat.sub_0_r. split_and!; try done; split_and!; done || by intros ?? ?%elem_of_nil.
    + intros l1 p l2 [[k1 b1] f1] -> (frs & Hlen & Hak & Hab & Hfrs & Hal & Hf1 & Hsub & Hsup).
      rewrite length_app in Hsup. cbn [length] in Hsup.
      apply NoDup_app in Hnd as (_ & Hnd & _).
      apply Forall_app in Hmk as [_ [Hmk _]%Forall_cons]. apply Forall_app in Hmb as [_ [Hmb _]%Forall_cons].
      assert (p ∉ (zip l1 frs).*1) as Hp.
      { rewrite fst_zip by lia. intros Hp. apply (Hnd p Hp). by left. }
      set (m := (n + 7 * length l2)%nat).
      unfold map_boot_info_page.
      pose proof (supply_allocate f1 (m + 3 + 3) Hf1 ltac:(eapply supply_le; [|done]; lia)) as Ha.
      apply returns_alt in Ha as ([o f2] & E & fr & -> & Hfr & Hf2 & Hsup2 & Hfresh2).
      rewrite E. cbn [mbind res_bind expect_some].
      destruct (fresh_ok f1 fr Hf1 Hfr) as [Hfm _].
      destruct (map_to_adds _ k k1 f2 p fr (m + 3) Hak Hp Hf2) as
        (k2 & f3 & -> & Hak2 & Hf3 & Hsub3 & Hsup3 & Hal3); [by eapply adds_mappable|done|done|].
      cbn [mbind res_bind expect_some].
      destruct (map_to_adds _ b b1 f3 p fr m Hab Hp Hf3) as
        (b2 & f4 & -> & Hab2 & Hf4 & Hsub4 & Hsup4 & Hal4); [by eapply adds_mappable|done|done|].
      cbn [mbind res_bind expect_some returns]. exists (frs ++ [fr]).
      rewrite zip_with_app by done. cbn [zip_with]. rewrite !length_app. cbn [length].
      assert (∀ y, fresh f4 y → fresh f2 y) as Hsub24 by eauto.
      split_and!; try done; [lia| | | |].
      * apply Forall_app. split.
        -- eapply Forall_impl; [exact Hfrs|]. intros x [? Hx]. split; [done|].
           intros Hx4%Hsub24. apply Hx. by apply Hfresh2.
        -- apply Forall_singleton. split; [by apply Hsub|]. intros [_ Hx]%Hsub24%Hfresh2. done.
      * etrans; [exact Hal|]. eapply rtc_l; [by eexists|]. by etrans.
      * intros y [Hy _]%Hsub24%Hfresh2. by apply Hsub.
      * eapply supply_le; [|done]. unfold m. lia.
  - cbn. intros [[k' b'] f'] (frs & ? & ? & ? & ? & ? & ? & _). by exists frs.
Qed.

Lemma p4_of_align_down_4k p : p4_of (align_down p 4096) = p4_of p.
Proof.
  rewrite !p4_of_alt. f_equal. unfold align_down. change 4096 with (2 ^ 12).
  change (2 ^ 39) with (2 ^ 12 * 2 ^ 27). rewrite <- !Z.div_div by lia. f_equal.
  rewrite Z.mod_eq by lia. replace (p - (p - 2 ^ 12 * (p / 2 ^ 12))) with (p / 2 ^ 12 * 2 ^ 12) by lia.
  by rewrite Z.div_mul.
Qed.

(** The number of bytes of the boot information and a memory map for [f]. *)
Definition boot_info_size (f : allocator) : Z :=
  216 + (Z.of_nat (FrameAllocator.allocator_len f) + 4) * 24.

(** Before the boot information is created: the kernel's table and the record of used entries
    agree, the bootloader's table is empty in the free entries as well, the firmware's map is
    sorted and page aligned, and the kernel image lies below the frames that are handed out. *)
Record boot_info_ok (config : Config.BootloaderConfig) (f : allocator) (pt : PageTables M)
    (mappings : Mappings R) (system_info : SystemInfo) (mem : Z → Z) (c : Control) : Prop := {
  bo_dynamic : Config.boot_info (Config.mappings config) = Config.Dynamic;
  bo_ready : ready (mkLoading (kernel pt) f (used_entries mappings) mem c);
  bo_bootloader : table_inv (bootloader pt);
  bo_empty p : Level4.free (used_entries mappings) (p4_of p) → vacant (bootloader pt) p;
  bo_room : room (used_entries mappings) 1;
  bo_len : Z.of_nat (FrameAllocator.allocator_len f) < 2 ^ 31;
  bo_supply : supply f (7 * S (S (Z.to_nat (page_count (boot_info_size f)))));
  bo_aligned : Forall (λ d, FrameAllocator.dstart d mod 4096 = 0 ∧ FrameAllocator.dend d mod 4096 = 0)
                 (FrameAllocator.original f);
  bo_kernel : ∀ nf, FrameAllocator.next_frame f ≤ nf →
    FrameAllocator.kernel_placed (FrameAllocator.original f) nf (kernel_slice_start mappings)
      (kernel_slice_start mappings + kernel_slice_len mappings);
  bo_framebuffer : is_Some (framebuffer mappings) → is_Some (sys_framebuffer system_info);
}.

Lemma boot_info_fits (f : allocator) : Z.of_nat (FrameAllocator.allocator_len f) < 2 ^ 31 →
  fits (boot_info_size f) 8.
Proof.
  intros Hl. unfold fits, boot_info_size. change Level4.LEVEL_4_SIZE with (2 ^ 39).
  split_and!; [lia|done|lia].
Qed.

(** The span of [n] bytes meets at most two pages more than it fills. *)
Lemma length_span_pages a n : 0 < n → (length (span_pages a n) ≤ S (S (Z.to_nat (page_count n))))%nat.
Proof.
  intros Hn. unfold span_pages. rewrite length_pages_from. unfold span_len.
  pose proof (align_down_le (a + n - 1) 4096 ltac:(lia)). pose proof (align_down_gt a 4096 ltac:(lia)).
  pose proof (align_down_mono a (a + n - 1) 4096 ltac:(lia) ltac:(lia)).
  assert ((align_down (a + n - 1) 4096 - align_down a 4096) / 4096 ≤ (n - 1 + 1 * 4096) / 4096) as Hd
    by (apply Z.div_le_mono; lia).
  rewrite Z.div_add in Hd by lia. pose proof (page_count_pred n).
  assert (0 ≤ (n - 1) / 4096) by (apply Z.div_pos; lia). lia.
Qed.

(** What the boot information says. *)
Definition boot_info_matches (version_info : Config.ApiVersion) (test_sentinel : Z)
    (mappings : Mappings R) (system_info : SystemInfo) (bi : Info.BootInfo) : Prop :=
  Info.api_version bi = version_info ∧
  Info.Optional_into_option (Info.framebuffer bi) =
    (fb ← sys_framebuffer system_info;
     a ← framebuffer mappings; Some (Info.mkFrameBuffer a (Level4.info fb))) ∧
  Info.Optional_into_option (Info.physical_memory_offset bi) = physical_memory_offset mappings ∧
  Info.Optional_into_option (Info.recursive_index bi) = recursive_index mappings ∧
  Info.Optional_into_option (Info.rsdp_addr bi) = sys_rsdp_addr system_info ∧
  Info.Optional_into_option (Info.tls_template bi) = tls_template mappings ∧
  Info.Optional_into_option (Info.ramdisk_addr bi) = ramdisk_slice_start mappings ∧
  Info.ramdisk_len bi = ramdisk_slice_len mappings ∧
  Info.kernel_addr bi = kernel_slice_start mappings ∧
  Info.kernel_len bi = kernel_slice_len mappings ∧
  Info.kernel_image_offset bi = kernel_image_offset mappings ∧
  Info.test_sentinel bi = test_sentinel.

Lemma fill_boot_info_spec version_info test_sentinel regions (mappings : Mappings R) system_info :
  (is_Some (framebuffer mappings) → is_Some (sys_framebuffer system_info)) →
  returns (fill_boot_info version_info test_sentinel regions mappings system_info) (λ bi,
    Info.memory_regions bi = regions ∧
    boot_info_matches version_info test_sentinel mappings system_info bi).
Proof.
  intros Hfb. unfold fill_boot_info, boot_info_matches. destruct (framebuffer mappings) as [a|].
  - destruct Hfb as [fb ->]; [done|]. cbn. split_and!; try done; by rewrite Info.Optional_into_from.
  - cbn. split_and!; try done; try by rewrite Info.Optional_into_from.
    by destruct (sys_framebuffer system_info).
Qed.

(** An allocated frame of the sorted map lies below the next frame. *)
Lemma taken_below (f f' : allocator) fr : source_inv f → source_inv f' → rtc alloc_step f f' →
  fresh f fr → ¬ fresh f' fr →
  FrameAllocator.usable_frame (FrameAllocator.original f) fr ∧ fr + 4096 ≤ FrameAllocator.next_frame f'.
Proof.
  intros [Hi Hs] [Hi' Hs'] Hal [Hu Hn] Hnf. split; [done|].
  destruct (FrameAllocator.allocate_steps f f' Hal Hi) as (_ & Ho & _).
  assert (fr < FrameAllocator.next_frame f') as Hlt.
  { apply Z.nle_gt. intros Hle. apply Hnf. cbn. by rewrite Ho. }
  pose proof (FrameAllocator.ai_aligned _ Hi') as Ha. destruct Hu as (d & _ & _ & Hm & _).
  apply FrameAllocator.aligned_succ; [done|done|lia].
Qed.

(** A frame that was handed out before. *)
Definition taken (f : allocator) (fr : Z) : Prop :=
  FrameAllocator.usable_frame (FrameAllocator.original f) fr ∧ fr + 4096 ≤ FrameAllocator.next_frame f.

(** What [create_boot_info] leaves behind, besides the fields: at the address [a] (and the memory
    map behind it) both tables map the same fresh frames; the memory map covers the firmware's
    regions, and its usable regions exclude the kernel image, these frames and all that were handed
    out before. *)
Definition boot_info_post (f : allocator) (pt : PageTables M) (mappings : Mappings R)
    (a regions_addr : Z) (bi : Info.BootInfo) (pt' : PageTables M) : Prop :=
  a mod 8 = 0 ∧ regions_addr = a + 216 ∧ kernel_level_4_frame pt' = kernel_level_4_frame pt ∧
  (length (Info.memory_regions bi) ≤ FrameAllocator.allocator_len f + 4)%nat ∧
  (∀ x, (∃ r, r ∈ Info.memory_regions bi ∧ Info.in_region x r) ↔
     ∃ d, d ∈ FrameAllocator.original f ∧ FrameAllocator.dstart d ≤ x < FrameAllocator.dend d) ∧
  (∀ p, p ∈ span_pages a (boot_info_size f) → Level4.free (used_entries mappings) (p4_of p)) ∧
  ∃ frs, length frs = length (span_pages a (boot_info_size f)) ∧
    (∀ p fr, (p, fr) ∈ zip (span_pages a (boot_info_size f)) frs →
       pages (kernel pt') !! p = Some (fr, FLAGS_RW) ∧
       pages (bootloader pt') !! p = Some (fr, FLAGS_RW)) ∧
    (∀ p, p ∉ span_pages a (boot_info_size f) →
       pages (kernel pt') !! p = pages (kernel pt) !! p ∧
       pages (bootloader pt') !! p = pages (bootloader pt) !! p) ∧
    (∀ r x, r ∈ Info.memory_regions bi → Info.kind r = Info.Usable → Info.in_region x r →
       ¬ (kernel_slice_start mappings ≤ x < kernel_slice_start mappings + kernel_slice_len mappings) ∧
       ∀ fr, fr ∈ frs ∨ taken f fr → ¬ (fr ≤ x < fr + 4096)).

(** The memory map that is built after the frames [frs] were taken. *)
Lemma memory_map_spec config (f f' : allocator) pt mappings system_info mem c frs :
  boot_info_ok config f pt mappings system_info mem c → source_inv f' → rtc alloc_step f f' →
  Forall (λ fr, fresh f fr ∧ ¬ fresh f' fr) frs →
  returns (FrameAllocator.construct_memory_map f' (FrameAllocator.allocator_len f + 4)
             (kernel_slice_start mappings) (kernel_slice_len mappings)) (λ out,
    (length out ≤ FrameAllocator.allocator_len f + 4)%nat ∧
    (∀ x, (∃ r, r ∈ out ∧ Info.in_region x r) ↔
       ∃ d, d ∈ FrameAllocator.original f ∧ FrameAllocator.dstart d ≤ x < FrameAllocator.dend d) ∧
    ∀ r x, r ∈ out → Info.kind r = Info.Usable → Info.in_region x r →
      ¬ (kernel_slice_start mappings ≤ x < kernel_slice_start mappings + kernel_slice_len mappings) ∧
      ∀ fr, fr ∈ frs ∨ taken f fr → ¬ (fr ≤ x < fr + 4096)).
Proof.
  intros Hok Hf' Hal Hfrs. pose proof (rd_frames _ (bo_ready _ _ _ _ _ _ _ Hok)) as Hf.
  destruct (FrameAllocator.allocate_steps f f' Hal (proj1 Hf)) as (Hi' & Ho & Hnf).
  set (ks := kernel_slice_start mappings). set (ke := ks + kernel_slice_len mappings).
  pose proof (bo_kernel _ _ _ _ _ _ _ Hok _ Hnf) as Hkp. fold ks in Hkp. fold ke in Hkp.
  rewrite <- Ho in Hkp. pose proof (FrameAllocator.ai_wf _ Hi') as Hwf.
  pose proof (bo_aligned _ _ _ _ _ _ _ Hok) as Hal'. rewrite <- Ho in Hal'.
  replace (kernel_slice_len mappings) with (ke - ks) by (unfold ke; lia).
  assert (length (FrameAllocator.original f') + 3 ≤ FrameAllocator.allocator_len f + 4)%nat as Hcap
    by (rewrite Ho; unfold FrameAllocator.allocator_len; lia).
  pose proof (FrameAllocator.construct_map_partition f' _ ks ke Hwf (proj2 Hf') Hkp Hcap) as H1.
  pose proof (FrameAllocator.construct_map_usable_safe f' _ ks ke Hwf (proj2 Hf') Hal' Hkp Hcap) as H2.
  apply returns_alt in H1 as (out & E & Hlen & _ & _ & Hcov). rewrite E in *. cbn [returns] in *.
  rewrite Ho in *. split_and!; [unfold FrameAllocator.allocator_len in *; lia|exact Hcov|].
  intros r x Hr Hk Hx. destruct (H2 r Hr) as (d & _ & _ & _ & _ & Hu).
  rewrite bool_decide_true in Hu by done. destruct Hu as (_ & Hu1 & Hu2).
  split; [by apply Hu1|]. rewrite Forall_forall in Hfrs. intros fr [Hfr|[? ?]]; [|apply Hu2; [done|lia|done]].
  destruct (Hfrs fr Hfr) as [? ?]. destruct (taken_below f f' fr) as [? ?]; [done..|]. by apply Hu2.
Qed.

(** The pages of the boot information lie in entries that were free. *)
Lemma boot_info_pages (u : Level4.UsedLevel4Entries R) a size p : Level4.span_ok a size →
  (∀ q, a ≤ q < a + size → Level4.free u (p4_of q)) → p ∈ span_pages a size →
  canonical p ∧ p mod 4096 = 0 ∧ Level4.free u (p4_of p).
Proof.
  intros Hspan Hdyn Hp. destruct (span_page_canonical a size p Hspan Hp) as (? & _ & ?).
  apply span_pages_elem in Hp as (x & Hx & <-); [|apply Hspan]. rewrite p4_of_align_down_4k.
  split_and!; [done|done|]. by apply Hdyn.
Qed.

Lemma create_boot_info_spec version_info config test_sentinel (f : allocator) pt
    (mappings : Mappings R) system_info mem c :
  boot_info_ok config f pt mappings system_info mem c →
  returns (create_boot_info version_info config test_sentinel f pt mappings system_info)
    (λ '(a, regions_addr, bi, pt', u'),
       boot_info_post f pt mappings a regions_addr bi pt' ∧
       boot_info_matches version_info test_sentinel mappings system_info bi).
Proof.
  intros Hok. pose proof (bo_ready _ _ _ _ _ _ _ Hok) as Hr. pose proof (bo_len _ _ _ _ _ _ _ Hok) as Hlen.
  set (self := mkLoading (kernel pt) f (used_entries mappings) mem c) in *.
  unfold create_boot_info. rewrite add_u_ok by lia. cbn [mbind res_bind].
  rewrite Info.boot_info_and_regions_ok by lia. cbn [mbind res_bind Info.size Info.align].
  fold (boot_info_size f). set (size := boot_info_size f).
  pose proof (boot_info_fits f Hlen) as Hfits. fold size in Hfits. assert (0 < size) as Hs0 by apply Hfits.
  eapply returns_bind.
  { apply (mapping_addr_spec _ size 8 self); [done|]. rewrite (bo_dynamic _ _ _ _ _ _ _ Hok).
    eapply fits_place; [done|apply Hok]. }
  intros [r u] (a & -> & Hc & Hpl & Hdyn). cbn [mbind res_bind].
  specialize (Hdyn (bo_dynamic _ _ _ _ _ _ _ Hok)).
  pose proof (pl_span _ _ _ _ _ Hpl) as Hspan.
  assert (∀ x, a ≤ x ≤ a + size → canonical x) as Hcan
    by (intros x Hx; apply (Level4.span_canonical a size); [done|lia]).
  assert (216 ≤ size) as H216 by (unfold size, boot_info_size; lia).
  assert (a + size < 2 ^ 64 ∧ 0 ≤ a) as [Hov Ha0] by (unfold Level4.span_ok in Hspan; lia).
  rewrite virt_add_new by (done || lia). rewrite virt_new_canonical by (apply Hcan; lia). cbn [mbind res_bind].
  rewrite virt_add_new by (done || lia). rewrite virt_new_canonical by (apply Hcan; lia). cbn [mbind res_bind].
  rewrite virt_sub_new by (try apply Hcan; lia). rewrite virt_new_canonical by (apply Hcan; lia). cbn [mbind res_bind].
  rewrite page_range_span by done. set (pgs := span_pages a size).
  pose proof (λ p, boot_info_pages (used_entries mappings) a size p Hspan Hdyn) as Hpgs. fold pgs in Hpgs.
  eapply returns_bind.
  { apply (map_boot_info_pages_spec (kernel pt) (bootloader pt) f pgs 0); [apply Hr|apply Hok|apply Hr| | | |].
    - apply NoDup_pages_from.
    - apply Forall_forall. intros p (? & ? & Hfree)%Hpgs. destruct (rd_free _ Hr p Hfree) as (? & ? & _ & ?).
      by split_and!.
    - apply Forall_forall. intros p (? & ? & Hfree)%Hpgs.
      destruct (bo_empty _ _ _ _ _ _ _ Hok p Hfree) as (? & ? & _ & ?). by split_and!.
    - eapply supply_le; [|apply Hok]. pose proof (length_span_pages a size Hs0) as Hl. fold pgs in Hl. fold size. lia. }
  intros [[k' b'] f'] (frs & Hfl & Hak & Hab & Hfrs & Hal & Hf'). cbn [mbind res_bind].
  replace (Z.to_nat (Z.of_nat (FrameAllocator.allocator_len f) + 4)) with (FrameAllocator.allocator_len f + 4)%nat by lia.
  eapply returns_bind; [by eapply memory_map_spec|]. intros out (Hol & Hcov & Huse).
  eapply returns_bind; [apply fill_boot_info_spec, Hok|]. intros bi [<- Hbi]. cbn [returns].
  destruct Hak as (_ & _ & _ & Hk1 & Hk2), Hab as (_ & _ & _ & Hb1 & Hb2).
  rewrite fst_zip in Hk2, Hb2 by lia.
  split; [|done]. split_and!; [apply (pl_aligned _ _ _ _ _ Hpl)|done|done|done|done|by intros p (_ & _ & ?)%Hpgs|].
  exists frs. split_and!; [done|by auto|by auto|done].
Qed.

(** C13: With a dynamic placement, [create_boot_info] succeeds: the boot information is 8-byte
    aligned, it and the memory map behind it are mapped writable, on the same frames, in the
    kernel's and the bootloader's address space, and every other page is untouched. The memory
    map has at most four entries more than the firmware's, covers the same bytes, and declares
    neither the kernel image nor a frame of the boot information or one handed out before usable. The fields report what
    was set up before. *)
Theorem create_boot_info_correct version_info config test_sentinel (f : allocator) pt
    (mappings : Mappings R) system_info mem c :
  boot_info_ok config f pt mappings system_info mem c →
  returns (create_boot_info version_info config test_sentinel f pt mappings system_info)
    (λ '(a, regions_addr, bi, pt', u'),
       boot_info_post f pt mappings a regions_addr bi pt' ∧
       boot_info_matches version_info test_sentinel mappings system_info bi).
Proof. apply create_boot_info_spec. Qed.

(** At the kernel's entry point the stack pointer is as the System V ABI requires at the start of a
    function (16-byte aligned before the return address was pushed), the pushed word is a null
    return address inside of the stack, the page table is the kernel's, and the boot information
    is the first argument. [e] is the end of the stack, of [size] bytes. *)
Theorem switch_to_kernel_abi (pt : PageTables M) (mappings : Mappings R) bi e size :
  canonical e → 32 ≤ size → 0 ≤ e - size → stack_top mappings = virt_align_down e 16 →
  let cpu := switch_to_kernel pt mappings bi in
  (rsp cpu + 8) mod 16 = 0 ∧ e - size ≤ rsp cpu ∧ rsp cpu + 8 ≤ e ∧ pushed cpu = (rsp cpu, 0) ∧
  rbp cpu = 0 ∧ cr3 cpu = kernel_level_4_frame pt ∧ rip cpu = entry_point mappings ∧ rdi cpu = bi.
Proof.
  intros Hc Hs H0 Ht. cbn. rewrite Ht, virt_align_down_spec by (done || lia || (exists (2 ^ 43); lia)).
  pose proof (align_down_le e 16 ltac:(lia)). pose proof (align_down_gt e 16 ltac:(lia)).
  assert (align_down e 16 < 2 ^ 64) by (unfold canonical in Hc; lia).
  unfold wrap_u. rewrite (Z.mod_small (align_down e 16 - 8)) by lia. split_and!; try done; try lia.
  rewrite <- (align_down_mod e 16 ltac:(lia)). f_equal. lia.
Qed.

End Proofs.

(** ** Concrete inputs: a PC memory map, page tables and mappings *)
#[local] Existing Instance Level4.rng_ref.
Definition sample_map : list FrameAllocator.E820MemoryRegion :=
  [ FrameAllocator.mkE820 0 0x9f000 1 0; FrameAllocator.mkE820 0xf0000 0x10000 2 0;
    FrameAllocator.mkE820 0x100000 0x7ee0000 1 0 ].
Definition sample_allocator := FrameAllocator.new_starting_at 0x1200000 sample_map.
Definition sample_tables : PageTables Table := mkPageTables empty_table empty_table 0x1000.
Definition sample_mappings : Mappings Z :=
  mkMappings 0xffff800000000000 0xffff900000010000 (Level4.sample_used (Some 7)) None None None None
    0x1000000 0x180000 0 None 0.
Definition no_devices : SystemInfo := mkSystemInfo None None None 0.

Lemma sample_map_wf : Forall FrameAllocator.wf_desc sample_map.
Proof. repeat (apply Forall_cons; split; [vm_compute; intuition congruence|]). done. Qed.
Lemma sample_source : source_inv sample_allocator.
Proof.
  split; [|repeat constructor; by vm_compute].
  apply FrameAllocator.new_starting_at_inv; [apply sample_map_wf|done|by vm_compute].
Qed.
Lemma sample_supply : supply sample_allocator 21.
Proof.
  exists (pages_from 0x1200000 21). split_and!; [apply NoDup_pages_from|done|].
  apply Forall_forall. intros x (i & Hi & ->)%elem_of_pages_from. split; [|cbn; lia].
  exists (FrameAllocator.mkE820 0x100000 0x7ee0000 1 0). split_and!.
  - do 2 right. by left.
  - done.
  - split; [by apply add_page_aligned|].
    change (FrameAllocator.first_frame _) with 0x100000.
    change (FrameAllocator.last_frame _) with 0x7fdf000. lia.
Qed.

Lemma sample_boot_info_ok :
  boot_info_ok sample_config sample_allocator sample_tables sample_mappings no_devices (λ _, 0)
    (mkControl 0 0 0 0 0 0 0).
Proof.
  split; try done.
  - split; try done. apply sample_source.
  - exists [1]. split_and!; [apply NoDup_singleton|done|]. by apply Forall_singleton.
  - apply sample_supply.
  - repeat (apply Forall_cons; split; [by vm_compute|]). done.
  - intros nf Hnf. split; [by vm_compute|]. exists (FrameAllocator.mkE820 0x100000 0x7ee0000 1 0).
    split_and!; [by do 2 right; left|by vm_compute|by vm_compute|]. intros _. left. cbn in *. lia.
  - by intros [? [=]].
Qed.

Lemma create_boot_info_correct_witness :
  returns (create_boot_info (Config.mkApiVersion 0 11 0 false) sample_config 5 sample_allocator
             sample_tables sample_mappings no_devices)
    (λ '(a, regions_addr, bi, pt', u'),
       boot_info_post sample_allocator sample_tables sample_mappings a regions_addr bi pt' ∧
       boot_info_matches (Config.mkApiVersion 0 11 0 false) 5 sample_mappings no_devices bi).
Proof.
  exact (create_boot_info_correct (Config.mkApiVersion 0 11 0 false) sample_config 5 sample_allocator
    sample_tables sample_mappings no_devices (λ _, 0) (mkControl 0 0 0 0 0 0 0) sample_boot_info_ok).
Defined.

Lemma switch_to_kernel_abi_witness :
  rsp (switch_to_kernel sample_tables sample_mappings 0xffff980000000000) = 0xffff90000000fff8 ∧
  (rsp (switch_to_kernel sample_tables sample_mappings 0xffff980000000000) + 8) mod 16 = 0.
Proof.
  split; [reflexivity|].
  exact (proj1 (switch_to_kernel_abi sample_tables sample_mappings 0xffff980000000000 0xffff900000010008
    4096 ltac:(by right) ltac:(lia) ltac:(lia) eq_refl)).
Defined.

End BootInfoProofs.
