(* ===== verification/LoadAndSwitch.v ===== *)
(** * From the kernel file to its entry point (common/src/lib.rs)

    [load_and_switch_to_kernel] is the composition of the kernel loader, the
    steps of [set_up_mappings], [create_boot_info] and [switch_to_kernel]. The
    loader is verified against [MapperLaws], the later steps against
    [BigMapperLaws]; [confined] is the invariant that connects them: while the
    kernel is loaded, only the level 4 entries of the kernel are touched. *)
From stdpp Require Import gmap relations.
From S2P Require Import Prelude Memory X86 Paging PageTables Config Info Elf FrameAllocator.
From S2P Require Import Level4 LoadKernel LoadKernelProofs LoadSegments SetUp SetUpProofs BootInfoProofs.
Import Memory X86 Paging PageTables.

Module LoadAndSwitch.

(** What the x86_64 crate documents about the remaining operations on 4 KiB pages. *)
Class PageLaws (M : Type) {P : Mapper M} {B : BigMapper M} {L : BigMapperLaws M} := {
  translate_4k m a : table_inv m → big_pages m = ∅ → level_4_set m = ∅ → canonical a →
    translate m a = match pages m !! align_down a 4096 with
                    | Some (fr, fl) => Mapped (MappedSize4KiB fr) (a mod 4096) fl
                    | None => NotMapped
                    end;
  translate_page_4k m p : table_inv m → canonical p → p mod 4096 = 0 → translate_page m p = fst <$> pages m !! p;
  unmap_page_ok m p fr fl : table_inv m → canonical p → p mod 4096 = 0 → pages m !! p = Some (fr, fl) →
    ∃ m', unmap m p = Some (fr, m') ∧ table_inv m' ∧ pages m' = delete p (pages m) ∧ big_pages m' = big_pages m ∧
      level_1_tables m' = level_1_tables m ∧ level_4_set m' = level_4_set m ∧
      ∀ i, level_4_is_unused m' i = level_4_is_unused m i;
  update_page_ok m p fr fl fl' : table_inv m → canonical p → p mod 4096 = 0 → pages m !! p = Some (fr, fl) →
    Z.testbit fl' 0 = true →
    ∃ m', update_flags m p fl' = Some m' ∧ table_inv m' ∧ pages m' = <[p := (fr, fl')]> (pages m) ∧
      big_pages m' = big_pages m ∧ level_1_tables m' = level_1_tables m ∧ level_4_set m' = level_4_set m ∧
      ∀ i, level_4_is_unused m' i = level_4_is_unused m i;
}.
#[global] Instance table_page_laws : PageLaws Table.
Proof.
  split.
  - intros m a _ Hb _ _. cbn in *. by rewrite Hb.
  - done.
  - intros m p fr fl _ _ _ Hp. cbn in *. rewrite Hp. eexists. by split_and!.
  - intros m p fr fl fl' _ _ _ Hp _. cbn in *. rewrite Hp. eexists. by split_and!.
Qed.

Section Confined.
Context `{HX : X86Laws} {M : Type} `{HP : PageLaws M}.
(** The level 4 entries that may be used. *)
Context (E : Z → Prop).

Record confined (m : M) : Prop := {
  cf_table : table_inv m;
  cf_big : big_pages m = ∅;
  cf_set : level_4_set m = ∅;
  cf_pages p : is_Some (pages m !! p) → canonical p ∧ E (p4_of p);
  cf_level_1 p : p ∈ level_1_tables m → E (p4_of p);
  cf_unused i : 0 ≤ i < 512 → ¬ E i → level_4_is_unused m i = true;
}.

(** Outside of these entries a confined table is empty. *)
Lemma confined_vacant m p : confined m → ¬ E (p4_of p) → SetUpProofs.vacant m p.
Proof.
  intros [_ Hb Hs Hp Hl _] Hn. unfold SetUpProofs.vacant. rewrite Hb, Hs, !lookup_empty. split_and!; [|done| |done].
  - destruct (pages m !! p) eqn:Ep; [|done]. destruct (Hp p) as [_ ?]; [by rewrite Ep|done].
  - intros H%Hl. by rewrite SetUpProofs.p4_of_align_down in H.
Qed.

(** A confined table meets the contract of the loader, for pages in these entries. *)
Definition confined_laws : MapperLaws M.
Proof.
  refine {| mapper_inv := confined; view := pages; mappable p := canonical p ∧ E (p4_of p) |}.
  - intros m p Hm. apply Hm.
  - intros m a [] Hc. by apply translate_4k.
  - intros m p [] Hc Hp. by apply translate_page_4k.
  - intros F ?? m f p fr fl Hm Hf Hc Hp Hfr Hfl Hn [_ HE] Hs. pose proof Hm as [Ht Hb Hset Hpg Hl1 Hu].
    destruct (map_page_ok m f p fr fl) as (m' & f' & Hmap & Ht' & Hp' & Hb' & Hl' & Hs' & Hu' & ? & ? & ? & ?);
      try done; [by rewrite Hb|by rewrite Hset|]. exists m', f'. split_and!; try done.
    split; [done|congruence|congruence| | |].
    + intros q. rewrite Hp'. intros [x [[<- _]|[_ Hq]]%lookup_insert_Some]; [done|]. apply Hpg. by rewrite Hq.
    + intros q. rewrite Hl'. intros [Hq%elem_of_singleton|Hq]%elem_of_union; [|by apply Hl1].
      subst q. by rewrite SetUpProofs.p4_of_align_down.
    + intros i Hi Hne. rewrite Hu'; [by apply Hu|]. by intros ->.
  - intros m p fr fl Hm Hc Hp Hv. pose proof Hm as [Ht Hb Hset Hpg Hl1 Hu].
    destruct (unmap_page_ok m p fr fl) as (m' & Hun & Ht' & Hp' & Hb' & Hl' & Hs' & Hu'); try done.
    exists m'. split_and!; try done. split; [done|congruence|congruence| |by rewrite Hl'|].
    + intros q. rewrite Hp'. intros [x [_ Hq]%lookup_delete_Some]. apply Hpg. by rewrite Hq.
    + intros i Hi Hne. rewrite Hu'. by apply Hu.
  - intros m p fr fl fl' Hm Hc Hp Hv Hfl. pose proof Hm as [Ht Hb Hset Hpg Hl1 Hu].
    destruct (update_page_ok m p fr fl fl') as (m' & Hun & Ht' & Hp' & Hb' & Hl' & Hs' & Hu'); try done.
    exists m'. split_and!; try done. split; [done|congruence|congruence| |by rewrite Hl'|].
    + intros q. rewrite Hp'. intros [x [[<- _]|[_ Hq]]%lookup_insert_Some]; apply Hpg; [by rewrite Hv|by rewrite Hq].
    + intros i Hi Hne. rewrite Hu'. by apply Hu.
Defined.
End Confined.

(** ** The kernel loader *)
Section Load.
Context `{HX : X86Laws, HXB : X86BigLaws} {M : Type} `{HP : PageLaws M}.
Context {F : Type} `{HF : FrameSourceLaws F} {R : Type} `{HG : Level4.RngLaws R} {RF : Elf.RelaFormat}.
Import LoadKernel LoadKernelProofs LoadSegments.

(** The loader's state before the first segment, for an empty table [t]. *)
Definition start_state (elf_file : Elf.ElfFile) (vao : Z) (t : M) (f : F) (memory : Z → Z) : Inner M F :=
  mkInner (Elf.input_addr elf_file) vao t f memory.

Definition empty_table_ok (t : M) : Prop :=
  table_inv t ∧ pages t = ∅ ∧ big_pages t = ∅ ∧ level_1_tables t = ∅ ∧ level_4_set t = ∅ ∧
  ∀ i, 0 ≤ i < 512 → level_4_is_unused t i = true.

(** The byte that a table shows at a virtual address. *)
Definition table_byte (t : M) (memory : Z → Z) (a : Z) : option Z :=
  match pages t !! align_down a 4096 with
  | Some (fr, _) => Some (memory (fr + a mod 4096))
  | None => None
  end.

(** With the offset [vao] the kernel can be loaded: all its segments lie in the level 4 entry [i],
    the conditions of the loader hold, and [n] frames are left afterwards. *)
Record image_ok (elf_file : Elf.ElfFile) (t : M) (f : F) (memory : Z → Z) (n : nat) (vao i : Z) : Prop := {
  im_entry : 0 < i < 512;
  im_some : ∃ h, h ∈ Elf.program_iter elf_file ∧ 0 < Elf.mem_size h;
  im_spans h : h ∈ Elf.program_iter elf_file → 0 < Elf.mem_size h →
    Level4.span_ok (vao + Elf.virtual_addr h) (Elf.mem_size h) ∧
    ∀ x, vao + Elf.virtual_addr h ≤ x < vao + Elf.virtual_addr h + Elf.mem_size h → p4_of x = i;
  im_typed : Forall typed (Elf.program_iter elf_file);
  im_segs h : h ∈ Elf.program_iter elf_file → has_type Elf.Load h → seg_ok (start_state elf_file vao t f memory) h;
  im_file h j : h ∈ Elf.program_iter elf_file → has_type Elf.Load h → 0 ≤ j < Z.max 1 (Elf.file_size h) →
    ¬ fresh f (align_down (seg_phys (start_state elf_file vao t f memory) h + j) 4096);
  im_disjoint h h' p : before (Elf.program_iter elf_file) h h' → has_type Elf.Load h → has_type Elf.Load h' →
    p ∈ seg_pages (start_state elf_file vao t f memory) h → p ∈ seg_pages (start_state elf_file vao t f memory) h' → False;
  im_tls h : h ∈ Elf.program_iter elf_file → has_type Elf.Tls h → is_uint 64 (seg_addr (start_state elf_file vao t f memory) h);
  im_one_tls h h' : before (Elf.program_iter elf_file) h h' → has_type Elf.Tls h → ¬ has_type Elf.Tls h';
  im_relro : relro_ok (start_state elf_file vao t f memory) (Elf.program_iter elf_file);
  im_image : is_Some (dynamic_images vao elf_file
    (load_image (start_state elf_file vao t f memory) (Elf.program_iter elf_file) (table_byte t memory)) (Elf.program_iter elf_file));
  im_frames : supply f (n + 8 * reloc_total elf_file (Elf.program_iter elf_file) +
    load_cost (start_state elf_file vao t f memory) (Elf.program_iter elf_file));
  im_offset : canonical (wrap_u 64 vao);
  im_start : canonical (vao + Elf.entry_point elf_file);
}.

(** The offsets that can be chosen: none for an executable; for a shared object any that moves the
    segments into one entry. *)
Definition placement_ok (elf_file : Elf.ElfFile) (t : M) (f : F) (memory : Z → Z) (n : nat) : Prop :=
  match Elf.file_type elf_file with
  | Elf.FExecutable => ∃ i, image_ok elf_file t f memory n 0 i
  | Elf.FSharedObject =>
      Forall (λ h, seg_end h < 2 ^ 64) (load_headers elf_file) ∧
      SetUpProofs.fits (pie_size elf_file) (pie_align elf_file) ∧
      ∀ a i, 0 < i < 512 → canonical a → a mod pie_align elf_file = 0 → i * 2 ^ 39 ≤ virt_rank a →
        virt_rank a + pie_size elf_file < (i + 1) * 2 ^ 39 → image_ok elf_file t f memory n (a - pie_base elf_file) i
  | _ => False
  end.

Record elf_ok (elf_file : Elf.ElfFile) : Prop := {
  eo_len : 0 < Elf.input_len elf_file;
  eo_addr : phys_ok (Elf.input_addr elf_file) ∧ Elf.input_addr elf_file mod 4096 = 0;
  eo_program h : h ∈ Elf.program_iter elf_file → Elf.program_sanity_check elf_file h = Ret ();
  eo_header : Elf.header_sanity_check elf_file = Ret ();
}.

Lemma mark_segments_spec (u : Level4.UsedLevel4Entries R) hs vao : Level4.wf u →
  (∀ h, h ∈ hs → 0 < Elf.mem_size h → Level4.span_ok (vao + Elf.virtual_addr h) (Elf.mem_size h)) →
  returns (Level4.mark_segments u hs vao) (λ u', Level4.rng u' = Level4.rng u ∧
    Level4.marked u u' (λ j, ∃ h, h ∈ hs ∧ 0 < Elf.mem_size h ∧
      Level4.covers (vao + Elf.virtual_addr h) (Elf.mem_size h) j)).
Proof.
  intros Hu Hs. unfold Level4.mark_segments.
  eapply returns_mono.
  { apply (foldM_returns _ (λ l u', Level4.rng u' = Level4.rng u ∧ Level4.marked u u' (λ j, ∃ h, h ∈ l ∧
      Level4.covers (vao + Elf.virtual_addr h) (Elf.mem_size h) j))).
    - split; [done|]. eapply Level4.marked_iff; [|done|by apply Level4.marked_refl].
      intros j _. split; [done|]. by intros (h & ?%elem_of_nil & _).
    - intros l1 h l2 u1 Hl [Hr Hm].
      assert (h ∈ filter (λ s, 0 < Elf.mem_size s) hs) as [Hsz Hh]%list_elem_of_filter by (rewrite Hl; apply elem_of_middle).
      pose proof (Hs h Hh Hsz) as Hsp. rewrite Elf.vao_add_ok.
      2:{ unfold is_uint. destruct Hsp. lia. }
      cbn [mbind res_bind]. eapply returns_mono; [apply Level4.mark_range_as_used_spec; [apply Hm|done]|].
      intros u2 [Hr2 Hm2]. split; [congruence|]. eapply Level4.marked_iff; [|done|by eapply Level4.marked_trans].
      cbn. intros j _. split.
      + intros [(h' & ? & ?)|?]; [exists h'|exists h]; (split; [apply elem_of_snoc; tauto|done]).
      + intros (h' & [?| ->]%elem_of_snoc & ?); [left; by exists h'|by right]. }
  cbn. intros u' [Hr Hm]. split; [done|]. eapply Level4.marked_iff; [|done|done]. cbn. intros j _.
  setoid_rewrite list_elem_of_filter. naive_solver.
Qed.

Lemma room_one (u u' : Level4.UsedLevel4Entries R) i k : (∀ j, j ≠ i → Level4.free u j → Level4.free u' j) →
  SetUpProofs.room u (S k) → SetUpProofs.room u' k.
Proof. intros Hi. apply SetUpProofs.one_room_step. by exists i. Qed.

(** The entries that the segments cover. *)
Lemma covered_entry elf_file t f memory n vao i (u u' : Level4.UsedLevel4Entries R) :
  image_ok elf_file t f memory n vao i →
  Level4.marked u u' (λ j, ∃ h, h ∈ Elf.program_iter elf_file ∧ 0 < Elf.mem_size h ∧
    Level4.covers (vao + Elf.virtual_addr h) (Elf.mem_size h) j) →
  Level4.wf u' ∧ (∀ j, Level4.free u' j → Level4.free u j) ∧ (∀ j, j ≠ i → Level4.free u j → Level4.free u' j).
Proof.
  intros Him [Hwf Hm]. split_and!; [done|by intros j [? _]%Hm|]. intros j Hne Hf. apply Hm. split; [done|].
  intros (h & Hh & Hsz & x & Hx & Hxj). apply Hne. rewrite <- Hxj. destruct (im_spans _ _ _ _ _ _ _ Him h Hh Hsz) as [Hs Hp].
  rewrite p4_index_rank by (apply (Level4.span_canonical _ _ x Hs); lia). exact (Hp x Hx).
Qed.

(** The placement: the offset and the entries that are in use afterwards. *)
Lemma place_spec elf_file t f memory n (u : Level4.UsedLevel4Entries R) k :
  Level4.wf u → ¬ Level4.free u 0 → SetUpProofs.room u (S k) → placement_ok elf_file t f memory n →
  returns ('(vao, u) ← match Elf.file_type elf_file with
                       | Elf.FExecutable => Ret (Elf.VirtualAddressOffset_zero, u)
                       | Elf.FSharedObject => pie_offset elf_file u
                       | _ => Panic "not implemented"
                       end;
           u ← Level4.mark_segments u (Elf.program_iter elf_file) vao; Ret (vao, u)) (λ '(vao, u'), ∃ i,
    image_ok elf_file t f memory n vao i ∧ Level4.wf u' ∧ (∀ j, Level4.free u' j → Level4.free u j) ∧
    SetUpProofs.room u' k ∧ ¬ Level4.free u' i).
Proof.
  intros Hu H0 Hroom Hpl. unfold placement_ok in Hpl.
  eapply (returns_bind _ _ (λ '(vao, u1), ∃ i, image_ok elf_file t f memory n vao i ∧ Level4.wf u1 ∧
    (∀ j, Level4.free u1 j → Level4.free u j) ∧ (∀ j, j ≠ i → Level4.free u j → Level4.free u1 j))).
  { destruct (Elf.file_type elf_file); try done.
    - destruct Hpl as [i Hi]. exists i. by split_and!.
    - destruct Hpl as (Hends & (Hs0 & Hpow & Hal) & Him). change Level4.LEVEL_4_SIZE with (2 ^ 39) in Hal.
      assert (0 < pie_align elf_file) by (destruct (Level4.is_power_of_two_spec _ Hpow) as (e & ? & ->); apply Z.pow_pos_nonneg; lia).
      assert (Level4.entries_for (pie_size elf_file) = 1) as He.
      { unfold Level4.entries_for. change Level4.LEVEL_4_SIZE with (2 ^ 39). symmetry.
        apply Z.div_unique with (r := pie_size elf_file - 1); lia. }
      eapply returns_mono.
      { apply pie_offset_spec; [done|done| |].
        - unfold Level4.request_ok. change Level4.LEVEL_4_SIZE with (2 ^ 39). rewrite Z.mod_small by lia.
          split_and!; (done || lia).
        - destruct Hroom as (l & _ & Hl & Hf). destruct l as [|j l]; [done|]. apply Forall_cons in Hf as [Hj _].
          exists j. split; [apply Hj|]. rewrite He. intros x Hx. by replace x with j by lia. }
      intros [vao u1] (a & -> & Hc & Hm & i & m & -> & Hw & [Hwf Hmk] & _ & Hlo & Hhi & Hlt).
      change Level4.LEVEL_4_SIZE with (2 ^ 39) in *. rewrite He in *. rewrite Z.mod_small in Hlt by lia.
      pose proof (Hw i ltac:(lia)) as Hi. pose proof (Level4.free_bound u i Hu Hi).
      assert (i ≠ 0) by (by intros ->). exists i. split_and!; [apply Him; (done || lia)|done|by intros j [? _]%Hmk|].
      intros j Hj Hf. apply Hmk. split; [done|lia]. }
  intros [vao u1] (i & Him & Hwf1 & Hsub1 & Hkeep1).
  eapply returns_bind; [apply mark_segments_spec; [done|]; intros h Hh Hsz; by apply (im_spans _ _ _ _ _ _ _ Him)|].
  intros u2 [_ Hmk]. destruct (covered_entry _ _ _ _ _ _ _ _ _ Him Hmk) as (Hwf2 & Hsub2 & Hkeep2). cbn [returns].
  exists i. split_and!; [done|done|by auto| |].
  - eapply (room_one u u2 i); [|done]. auto.
  - destruct (im_some _ _ _ _ _ _ _ Him) as (h & Hh & Hsz). intros [_ Hno]%(proj2 Hmk). apply Hno. exists h. split_and!; [done|done|].
    destruct (im_spans _ _ _ _ _ _ _ Him h Hh Hsz) as [Hs Hp]. exists (vao + Elf.virtual_addr h). split; [lia|].
    rewrite p4_index_rank by (apply (Level4.span_canonical _ _ _ Hs); lia). apply (Hp (vao + Elf.virtual_addr h)). lia.
Qed.

(** The state from which the segments are loaded meets the conditions of the loader. *)
Lemma image_ready elf_file t f memory n vao i : empty_table_ok t → source_inv f →
  image_ok elf_file t f memory n vao i →
  LoadSegments.ready (HM := confined_laws (λ j, j = i)) (start_state elf_file vao t f memory) (Elf.program_iter elf_file).
Proof.
  intros (Ht & Hp & Hb & Hl1 & Hs & Hu) Hf Him.
  split; try apply Him; try (intros ? ? ?; apply Him).
  - split; cbn.
    + split; try done; [intros p; rewrite Hp; by intros [? ?%lookup_empty_Some]|by rewrite Hl1; intros p ?%elem_of_empty|auto].
    + done.
    + intros p fr fl. unfold vw. cbn. rewrite Hp. by intros ?%lookup_empty_Some.
    + intros p q fr fl fl'. unfold vw. cbn. rewrite Hp. by intros ?%lookup_empty_Some.
  - intros h Hh Hty. pose proof (im_segs _ _ _ _ _ _ _ Him h Hh Hty) as Hok. split.
    + done.
    + intros p _. unfold vw. cbn. by rewrite Hp.
    + intros p Hpp. cbn. destruct (seg_sizes _ _ Hok) as [_ Hsz].
      destruct (span_page_canonical _ _ p (seg_span_ok _ _ Hok) Hpp) as (Hc & _ & _). split; [done|].
      apply span_pages_elem in Hpp as (x & Hx & <-); [|done]. rewrite BootInfoProofs.p4_of_align_down_4k.
      by apply (proj2 (im_spans _ _ _ _ _ _ _ Him h Hh Hsz)).
    + intros j Hj. split; [by apply (im_file _ _ _ _ _ _ _ Him h j)|].
      intros p fl. unfold vw. cbn. rewrite Hp. by intros ?%lookup_empty_Some.
Qed.

(** What the loader leaves behind: the image of the kernel, with relocations applied, is what the
    table shows; only the entry of the kernel is in use; memory outside of the frames of the
    allocator is unchanged. *)
Record loaded (elf_file : Elf.ElfFile) (t : M) (f : F) (memory0 : Z → Z) (k n : nat) (u u' : Level4.UsedLevel4Entries R)
    (s' : Inner M F) (vao i : Z) (img : image) : Prop := {
  ld_image : image_ok elf_file t f memory0 n vao i ∧
    dynamic_images vao elf_file (load_image (start_state elf_file vao t f memory0) (Elf.program_iter elf_file) (table_byte t memory0))
      (Elf.program_iter elf_file) = Some img;
  ld_confined : confined (λ j, j = i) (page_table s');
  ld_source : source_inv (frame_allocator s') ∧ supply (frame_allocator s') n;
  ld_fresh y : fresh (frame_allocator s') y → fresh f y;
  ld_alloc : rtc alloc_step f (frame_allocator s');
  ld_bytes a : table_byte (page_table s') (memory s') a = img a;
  ld_frames p fr fl : pages (page_table s') !! p = Some (fr, fl) → fr mod 4096 = 0 ∧ 0 ≤ fr ∧ ¬ fresh (frame_allocator s') fr;
  ld_flags h p : h ∈ Elf.program_iter elf_file → has_type Elf.Load h → p ∈ seg_pages (start_state elf_file vao t f memory0) h →
    ∃ fr, pages (page_table s') !! p =
      Some (fr, final_flags (start_state elf_file vao t f memory0) (Elf.program_iter elf_file) h p);
  ld_memory x : ¬ fresh f (align_down x 4096) → memory s' x = memory0 x;
  ld_used : Level4.wf u' ∧ (∀ j, Level4.free u' j → Level4.free u j) ∧ SetUpProofs.room u' k ∧ ¬ Level4.free u' i;
}.

Lemma load_kernel_spec elf_file t f memory0 n (u : Level4.UsedLevel4Entries R) k :
  elf_ok elf_file → empty_table_ok t → source_inv f → Level4.wf u → ¬ Level4.free u 0 → SetUpProofs.room u (S k) →
  placement_ok elf_file t f memory0 n →
  returns (load_kernel elf_file t f memory0 u) (λ '(off, entry, tls, (s', u')), ∃ vao i img,
    loaded elf_file t f memory0 k n u u' s' vao i img ∧
    off = wrap_u 64 vao ∧ entry = vao + Elf.entry_point elf_file ∧
    tls = tls_template (start_state elf_file vao t f memory0) (Elf.program_iter elf_file)).
Proof.
  intros [Hlen [Hpa Hpm] Hprog Hhd] Ht Hf Hu H0 Hroom Hpl. unfold load_kernel, Loader_new.
  rewrite (proj2 (Z.ltb_lt _ _)) by done. cbn [assert_ mbind res_bind]. rewrite phys_new_ok by done. cbn [mbind res_bind].
  change PAGE_SIZE with 4096. rewrite Hpm. cbn [Z.eqb mbind res_bind].
  assert (foldM (λ _ h, Elf.program_sanity_check elf_file h) () (Elf.program_iter elf_file) = Ret ()) as ->.
  { clear - Hprog. induction (Elf.program_iter elf_file) as [|h hs IH]; [done|]. cbn [foldM].
    rewrite Hprog by by left. cbn [mbind res_bind]. apply IH. intros h' Hh'. apply Hprog. by right. }
  cbn [mbind res_bind]. pose proof (place_spec elf_file t f memory0 n u k Hu H0 Hroom Hpl) as Hplace.
  destruct (match Elf.file_type elf_file with Elf.FExecutable => _ | Elf.FSharedObject => _ | _ => _ end) as [[vao u1]| |];
    try done. cbn [mbind res_bind] in *.
  destruct (Level4.mark_segments u1 (Elf.program_iter elf_file) vao) as [u2| |]; try done. cbn [mbind res_bind returns] in *.
  destruct Hplace as (i & Him & Hwf & Hsub & Hroom2 & Hni). rewrite Hhd. cbn [mbind res_bind].
  fold (start_state elf_file vao t f memory0). set (s := start_state elf_file vao t f memory0) in *.
  destruct (im_image _ _ _ _ _ _ _ Him) as [img Himg]. fold s in Himg.
  pose proof Ht as (_ & Hp & _).
  eapply returns_bind.
  { apply (load_segments_spec (HM := confined_laws (λ j, j = i)) s elf_file img n);
      [by apply image_ready with (n := n)|apply Him|exact Himg|apply Him]. }
  intros [tls s'] (Hg & (_ & Hvao & Hfr & Hal) & Hk & Hl & -> & Hi & Hfl & _).
  rewrite Hvao. change (virtual_address_offset s) with vao.
  rewrite virt_new_canonical by apply Him. cbn [mbind res_bind]. unfold Loader_entry_point. rewrite Hvao.
  change (virtual_address_offset s) with vao. pose proof (im_start _ _ _ _ _ _ _ Him) as Hst.
  rewrite Elf.vao_add_ok by (unfold is_uint, canonical in *; lia). cbn [mbind res_bind].
  rewrite virt_new_canonical by done. cbn [mbind res_bind returns]. exists vao, i, img. split_and!; try done.
  split; try done.
  - apply Hg.
  - split; [apply Hg|done].
  - intros p fr fl Hv. destruct (good_frame (HM := confined_laws (λ j, j = i)) s' Hg p fr fl Hv) as (? & ? & _ & _ & ?). done.
  - intros x Hx. apply Hk. split; [exact Hx|]. intros p fl. unfold vw. cbn. rewrite Hp. by intros ?%lookup_empty_Some.
Qed.

End Load.

(** ** The whole way *)
Section Switch.
Context `{HX : X86Laws, HXB : X86BigLaws} {M : Type} `{HP : PageLaws M}.
Context {D : Type} `{LR : FrameAllocator.LegacyMemoryRegion D} {R : Type} `{HG : Level4.RngLaws R}.
Context {RF : Elf.RelaFormat} {GF : SetUp.GdtFormat}.
Abbreviation allocator := (FrameAllocator.LegacyFrameAllocator D).
Import SetUp SetUpProofs BootInfoProofs.

(** The frames for the boot information, at most. *)
Definition boot_info_frames (f : allocator) : nat := (7 * S (S (Z.to_nat (page_count (boot_info_size f)))))%nat.

(** A machine and a kernel for which the loader succeeds: everything placed dynamically, the
    conditions of the kernel loader, of the set-up and of the boot information, and enough frames
    and level 4 entries for all of them together. *)
Record boot_ready (addr : Z) (k : Kernel) (f : allocator) (pt : PageTables M) (memory : Z → Z)
    (system_info : SystemInfo) (max : Z) : Prop := {
  br_elf : elf_ok (elf k);
  br_start : phys_ok (start_address k);
  br_table : empty_table_ok (kernel pt);
  br_source : source_inv f;
  br_max : FrameAllocator.max_phys_addr f = Ret max;
  br_config : Level4.config_ok max (Z.of_nat (FrameAllocator.allocator_len f)) (sys_framebuffer system_info) (config k);
  br_dynamic : dynamic_config (config k) ∧ Config.boot_info (Config.mappings (config k)) = Config.Dynamic;
  br_room : ∃ l, NoDup l ∧ length l = 7%nat ∧ Forall (λ j, 0 ≤ j < 512 ∧ ¬ Level4.reserved_entry max
    (Z.of_nat (FrameAllocator.allocator_len f)) (sys_framebuffer system_info) (config k) j) l;
  br_place : placement_ok (elf k) (kernel pt) f memory
    (frames_needed (config k) (sys_framebuffer system_info) system_info max + boot_info_frames f);
  br_frames y : fresh f y → y + 4096 ≤ 2 ^ 39;
  br_addr : 0 ≤ addr ∧ align_down addr 4096 + 8192 ≤ 2 ^ 39;
  br_code : ¬ fresh f (align_down addr 4096) ∧ ¬ fresh f (align_down addr 4096 + 4096);
  br_stack : 0 < Config.kernel_stack_size (config k) ∧ fits (4096 + Config.kernel_stack_size (config k)) Size4KiB;
  br_framebuffer fb : sys_framebuffer system_info = Some fb → phys_range_ok (Level4.addr fb) (Info.byte_len (Level4.info fb));
  br_ramdisk a : sys_ramdisk_addr system_info = Some a → phys_range_ok a (sys_ramdisk_len system_info);
  br_physical : fits max Size2MiB;
  br_bootloader : table_inv (bootloader pt) ∧ ∀ p, p4_of p ≠ 0 → vacant (bootloader pt) p;
  br_len : Z.of_nat (FrameAllocator.allocator_len f) < 2 ^ 31;
  br_aligned : Forall (λ d, FrameAllocator.dstart d mod 4096 = 0 ∧ FrameAllocator.dend d mod 4096 = 0)
    (FrameAllocator.original f);
  br_placed nf : FrameAllocator.next_frame f ≤ nf →
    FrameAllocator.kernel_placed (FrameAllocator.original f) nf (start_address k) (start_address k + len k);
  br_gdt : (length gdt_bytes ≤ 4096)%nat;
}.

Lemma alloc_original (f f' : allocator) : source_inv f → rtc alloc_step f f' →
  FrameAllocator.original f' = FrameAllocator.original f ∧ FrameAllocator.next_frame f ≤ FrameAllocator.next_frame f' ∧
  FrameAllocator.max_phys_addr f' = FrameAllocator.max_phys_addr f.
Proof.
  intros Hf Hal. destruct (FrameAllocator.allocate_steps f f' Hal (proj1 Hf)) as (_ & Ho & Hn).
  split_and!; [done|done|]. unfold FrameAllocator.max_phys_addr. by rewrite Ho.
Qed.

(** After the kernel is loaded the other mappings can be set up. *)
Lemma setup_after_load addr k f pt memory system_info max (u u' : Level4.UsedLevel4Entries R) s' vao i img c :
  boot_ready addr k f pt memory system_info max → ¬ Level4.free u 0 →
  loaded (elf k) (kernel pt) f memory 6 (frames_needed (config k) (sys_framebuffer system_info) system_info max + boot_info_frames f)
    u u' s' vao i img →
  setup_ok (config k) addr (sys_framebuffer system_info) system_info FrameAllocator.max_phys_addr max 1 (boot_info_frames f)
    (mkLoading (LoadKernel.page_table s') (LoadKernel.frame_allocator s') u' (LoadKernel.memory s') c).
Proof.
  intros Hok H0 [[Him _] Hcf [Hsrc Hsup] Hfr Hal _ _ _ _ (Hwf & Hsub & Hroom & Hni)].
  pose proof (im_entry _ _ _ _ _ _ _ Him) as Hi.
  split; cbn; try apply Hok.
  - split; cbn; [apply Hcf|done|done| |].
    + intros p Hp. eapply confined_vacant; [done|]. intros E. cbn in E. by rewrite E in Hp.
    + intros j Hj. apply (cf_unused _ _ Hcf); [by eapply Level4.free_bound|]. intros ->. done.
  - intros p Hp. eapply confined_vacant; [done|]. rewrite p4_of_low by done. lia.
  - intros Hf%Hsub. done.
  - done.
  - intros y Hy. by apply (br_frames _ _ _ _ _ _ _ Hok), Hfr.
  - destruct (br_code _ _ _ _ _ _ _ Hok). split; intros ?%Hfr; done.
  - intros f' Hal'. cbn in Hal'. destruct (alloc_original f f') as (_ & _ & ->);
      [apply Hok|by etrans|apply Hok].
  - done.
Qed.

(** Byte [x] of the virtual range is byte [x] of the physical one. *)
Definition visible (t : M) (virt phys n : Z) : Prop :=
  ∀ x, 0 ≤ x < n → pages t !! align_down (virt + x) 4096 = Some (align_down (phys + x) 4096, FLAGS_RW).

(** The machine at the kernel's entry point. *)
Record booted (addr : Z) (k : Kernel) (f : allocator) (pt : PageTables M) (memory : Z → Z) (system_info : SystemInfo)
    (max : Z) (vao : Z) (img : LoadKernelProofs.image)
    (cpu : Cpu) (bi : Info.BootInfo) (pt' : PageTables M) (memory' : Z → Z) (c' : Control) : Prop := {
  bt_image : LoadKernelProofs.dynamic_images vao (elf k)
      (LoadSegments.load_image (start_state (elf k) vao (kernel pt) f memory) (Elf.program_iter (elf k))
         (table_byte (kernel pt) memory)) (Elf.program_iter (elf k)) = Some img ∧
    ∀ a b, img a = Some b → table_byte (kernel pt') memory' a = Some b;
  bt_flags h p : h ∈ Elf.program_iter (elf k) → LoadSegments.has_type Elf.Load h →
    p ∈ LoadKernelProofs.seg_pages (start_state (elf k) vao (kernel pt) f memory) h →
    ∃ fr, pages (kernel pt') !! p = Some (fr, LoadSegments.final_flags
      (start_state (elf k) vao (kernel pt) f memory) (Elf.program_iter (elf k)) h p);
  bt_registers : rip cpu = vao + Elf.entry_point (elf k) ∧ cr3 cpu = kernel_level_4_frame pt ∧ rbp cpu = 0;
  bt_stack : ∃ g, rsp cpu = virt_align_down (g + 4096 + Config.kernel_stack_size (config k)) 16 - 8 ∧
    pages (kernel pt') !! g = None ∧
    ∀ x, g + 4096 ≤ x < g + 4096 + Config.kernel_stack_size (config k) →
      ∃ fr, fresh f fr ∧ pages (kernel pt') !! align_down x 4096 = Some (fr, FLAGS_RW);
  bt_switch p : p = align_down addr 4096 ∨ p = align_down addr 4096 + 4096 → pages (kernel pt') !! p = Some (p, PRESENT);
  bt_boot_info x : rdi cpu ≤ x < rdi cpu + boot_info_size f → ∃ fr,
    pages (kernel pt') !! align_down x 4096 = Some (fr, FLAGS_RW) ∧
    pages (bootloader pt') !! align_down x 4096 = Some (fr, FLAGS_RW);
  bt_framebuffer : match sys_framebuffer system_info with
    | Some fb => ∃ a, Info.Optional_into_option (Info.framebuffer bi) = Some (Info.mkFrameBuffer a (Level4.info fb)) ∧
        visible (kernel pt') a (Level4.addr fb) (Info.byte_len (Level4.info fb))
    | None => Info.Optional_into_option (Info.framebuffer bi) = None
    end;
  bt_ramdisk : Info.ramdisk_len bi = sys_ramdisk_len system_info ∧
    match sys_ramdisk_addr system_info with
    | Some phys => ∃ a, Info.Optional_into_option (Info.ramdisk_addr bi) = Some a ∧
        visible (kernel pt') a phys (sys_ramdisk_len system_info)
    | None => Info.Optional_into_option (Info.ramdisk_addr bi) = None
    end;
  bt_fields : Info.Optional_into_option (Info.rsdp_addr bi) = sys_rsdp_addr system_info ∧
    Info.Optional_into_option (Info.tls_template bi) =
      LoadSegments.tls_template (start_state (elf k) vao (kernel pt) f memory) (Elf.program_iter (elf k)) ∧
    Info.kernel_addr bi = start_address k ∧ Info.kernel_len bi = len k ∧ Info.kernel_image_offset bi = wrap_u 64 vao;
  bt_map x : (∃ r, r ∈ Info.memory_regions bi ∧ Info.in_region x r) ↔
    ∃ d, d ∈ FrameAllocator.original f ∧ FrameAllocator.dstart d ≤ x < FrameAllocator.dend d;
  bt_usable r x : r ∈ Info.memory_regions bi → Info.kind r = Info.Usable → Info.in_region x r →
    ¬ (start_address k ≤ x < start_address k + len k) ∧
    ∀ a b fr fl, img a = Some b → pages (kernel pt') !! align_down a 4096 = Some (fr, fl) → fresh f fr → ¬ (fr ≤ x < fr + 4096);
}.

(** Mapping the boot information changes no page that was mapped before. *)
Lemma boot_info_keeps (f : allocator) pt (mappings : Mappings R) a ra bi pt' mem c p v :
  ready (mkLoading (kernel pt) f (used_entries mappings) mem c) →
  boot_info_post f pt mappings a ra bi pt' → pages (kernel pt) !! p = Some v → pages (kernel pt') !! p = Some v.
Proof.
  intros Hr (_ & _ & _ & _ & _ & Hfree & frs & _ & _ & Hkeep & _) Hp.
  assert (p ∉ LoadKernel.span_pages a (boot_info_size f)) as Hn.
  { intros Hin%Hfree. destruct (rd_free _ Hr p Hin) as (Hv & _). cbn in Hv. congruence. }
  by rewrite (proj1 (Hkeep p Hn)).
Qed.

(** The state after [set_up_mappings], with the intermediate states of the loader ([s']) and of the
    set-up ([self]). *)
Definition mapped (addr : Z) (k : Kernel) (f : allocator) (pt : PageTables M) (memory : Z → Z) (system_info : SystemInfo)
    (max : Z) (vao i : Z) (img : LoadKernelProofs.image)
    '((mappings, f', pt', mem', c') : Mappings R * allocator * PageTables M * (Z → Z) * Control) : Prop :=
  ∃ u u' s' stack_end self c,
    ¬ Level4.free u 0 ∧
    loaded (elf k) (kernel pt) f memory 6 (frames_needed (config k) (sys_framebuffer system_info) system_info max + boot_info_frames f)
      u u' s' vao i img ∧
    setup_post (config k) addr (sys_framebuffer system_info) system_info max (kernel_level_4_frame pt)
      (mkLoading (LoadKernel.page_table s') (LoadKernel.frame_allocator s') u' (LoadKernel.memory s') c)
      stack_end (framebuffer mappings) (ramdisk_slice_start mappings) (physical_memory_offset mappings)
      (recursive_index mappings) self ∧
    setup_rest 1 (boot_info_frames f)
      (mkLoading (LoadKernel.page_table s') (LoadKernel.frame_allocator s') u' (LoadKernel.memory s') c) self ∧
    f' = frames self ∧ pt' = mkPageTables (bootloader pt) (table self) (kernel_level_4_frame pt) ∧ mem' = mem self ∧ c' = control self ∧
    entry_point mappings = vao + Elf.entry_point (elf k) ∧ stack_top mappings = virt_align_down stack_end 16 ∧
    used_entries mappings = used self ∧
    tls_template mappings = LoadSegments.tls_template (start_state (elf k) vao (kernel pt) f memory) (Elf.program_iter (elf k)) ∧
    kernel_slice_start mappings = start_address k ∧ kernel_slice_len mappings = len k ∧
    kernel_image_offset mappings = wrap_u 64 vao ∧ ramdisk_slice_len mappings = sys_ramdisk_len system_info.

Lemma set_up_mappings_spec rng addr k f pt memory c system_info max :
  boot_ready addr k f pt memory system_info max →
  returns (set_up_mappings rng addr k f pt memory c (sys_framebuffer system_info) (config k) system_info)
    (λ r, ∃ vao i img, mapped addr k f pt memory system_info max vao i img r).
Proof.
  intros Hok. unfold set_up_mappings. rewrite (br_max _ _ _ _ _ _ _ Hok). cbn [mbind res_bind].
  eapply returns_bind; [apply Level4.new_spec, Hok|]. intros u (Hwf & _ & Hfree).
  assert (¬ Level4.free u 0) as H0 by (intros [_ Hn]%Hfree; apply Hn; by left).
  assert (room u 7) as Hroom.
  { destruct (br_room _ _ _ _ _ _ _ Hok) as (l & Hnd & Hl & Hall). exists l. split_and!; [done|done|].
    eapply Forall_impl; [exact Hall|]. intros j Hj. by apply Hfree. }
  rewrite phys_new_ok by apply Hok. cbn [mbind res_bind].
  eapply returns_bind; [apply returns_expect_ok, (load_kernel_spec _ _ _ _ (frames_needed (config k) (sys_framebuffer system_info) system_info max + boot_info_frames f) u 6);
    try done; apply Hok|].
  intros [[[off entry] tls] [s' u']] (vao & i & img & Hld & -> & -> & ->).
  eapply returns_bind; [apply (map_all_spec _ _ _ _ _ max 1 (boot_info_frames f)); eapply setup_after_load; done|].
  intros [[[[[e fb] rd] po] ri] self] [Hpost Hrest]. cbn [returns]. exists vao, i, img, u, u', s', e, self.
  eexists. split_and!; try done.
Qed.

(** After [set_up_mappings] the boot information can be created. *)
Lemma boot_info_after addr k f pt memory system_info max vao i img mappings f' pt' mem' c' :
  boot_ready addr k f pt memory system_info max →
  mapped addr k f pt memory system_info max vao i img (mappings, f', pt', mem', c') →
  boot_info_ok (config k) f' pt' mappings system_info mem' c' ∧ boot_info_size f' = boot_info_size f ∧
  FrameAllocator.original f' = FrameAllocator.original f.
Proof.
  intros Hok (u & u' & s' & e & self & c & H0 & Hld & Hpost & Hrest & -> & -> & -> & -> & _ & _ & Hu & _ & Hks & Hkl & _ & _).
  pose proof (br_source _ _ _ _ _ _ _ Hok) as Hsrc.
  destruct (alloc_original f (frames self)) as (Ho & Hn & _).
  { done. }
  { etrans; [apply (ld_alloc _ _ _ _ _ _ _ _ _ _ _ _ Hld)|apply (sr_alloc _ _ _ _ Hrest)]. }
  assert (FrameAllocator.allocator_len (frames self) = FrameAllocator.allocator_len f) as Hal
    by (unfold FrameAllocator.allocator_len; by rewrite Ho).
  assert (boot_info_size (frames self) = boot_info_size f) as Hsz by (unfold boot_info_size; by rewrite Hal).
  split_and!; [|done|done]. destruct (br_bootloader _ _ _ _ _ _ _ Hok) as [Hbt Hbv].
  split; cbn [kernel bootloader]; rewrite ?Hu, ?Hal, ?Hks, ?Hkl, ?Ho.
  - apply Hok.
  - destruct (sr_ready _ _ _ _ Hrest). by split.
  - done.
  - intros p Hp. apply Hbv. intros E. rewrite E in Hp. apply H0, (proj1 (proj2 (ld_used _ _ _ _ _ _ _ _ _ _ _ _ Hld))).
    by apply (sr_free _ _ _ _ Hrest).
  - apply Hrest.
  - apply Hok.
  - rewrite Hsz. apply Hrest.
  - apply Hok.
  - intros nf Hnf. apply Hok. lia.
  - intros Hfb. pose proof (sp_framebuffer _ _ _ _ _ _ _ _ _ _ _ _ _ Hpost) as Hs.
    destruct (sys_framebuffer system_info); [done|]. rewrite Hs in Hfb. by destruct Hfb.
Qed.

(** A frame that the loader took is recorded as taken. *)
Lemma loaded_taken addr k f pt memory system_info max vao i img mappings f' pt' mem' c' fr :
  boot_ready addr k f pt memory system_info max →
  mapped addr k f pt memory system_info max vao i img (mappings, f', pt', mem', c') →
  fresh f fr → ¬ fresh f' fr → taken f' fr.
Proof.
  intros Hok Hmp Hfr Hnf. destruct (boot_info_after _ _ _ _ _ _ _ _ _ _ _ _ _ _ _ Hok Hmp) as (Hbo & _ & Ho).
  pose proof (rd_frames _ (bo_ready _ _ _ _ _ _ _ Hbo)) as Hsrc'. cbn in Hsrc'.
  destruct Hmp as (u & u' & s' & e & self & c & _ & Hld & _ & Hrest & -> & _).
  unfold taken. rewrite Ho. eapply taken_below; [apply Hok|exact Hsrc'| |done|done].
  etrans; [apply (ld_alloc _ _ _ _ _ _ _ _ _ _ _ _ Hld)|apply (sr_alloc _ _ _ _ Hrest)].
Qed.

Lemma zip_elem {T T'} (l : list T) (l' : list T') x : length l' = length l → x ∈ l → ∃ y, y ∈ l' ∧ (x, y) ∈ zip l l'.
Proof.
  intros Hl [i Hi]%list_elem_of_lookup. pose proof (lookup_lt_Some _ _ _ Hi).
  destruct (lookup_lt_is_Some_2 l' i) as [y Hy]; [lia|]. exists y.
  split; [by eapply list_elem_of_lookup_2|]. apply (list_elem_of_lookup_2 _ i). rewrite lookup_zip_with, Hi. cbn. by rewrite Hy.
Qed.

(** The bytes of the image, from the loader to the final table. *)
Lemma image_kept addr k f pt memory system_info max vao i img mappings f' pt' mem' c' a b :
  boot_ready addr k f pt memory system_info max →
  mapped addr k f pt memory system_info max vao i img (mappings, f', pt', mem', c') → img a = Some b →
  ∃ fr fl, pages (kernel pt') !! align_down a 4096 = Some (fr, fl) ∧ mem' (fr + a mod 4096) = b ∧ ¬ fresh f' fr.
Proof.
  intros Hok (u & u' & s' & e & self & c & _ & Hld & Hpost & Hrest & -> & -> & -> & _) Hab.
  rewrite <- (ld_bytes _ _ _ _ _ _ _ _ _ _ _ _ Hld) in Hab. unfold table_byte in Hab.
  destruct (pages (LoadKernel.page_table s') !! align_down a 4096) as [[fr fl]|] eqn:Ep; [|done]. injection Hab as Hb.
  destruct (ld_frames _ _ _ _ _ _ _ _ _ _ _ _ Hld _ _ _ Ep) as (Hfm & Hf0 & Hnf).
  destruct (sp_gdt _ _ _ _ _ _ _ _ _ _ _ _ _ Hpost) as (gf & Hgf & _ & Hm & _). cbn in Hgf, Hm.
  exists fr, fl. cbn [kernel]. split_and!.
  - eapply lookup_weaken; [exact Ep|]. apply (sp_kernel _ _ _ _ _ _ _ _ _ _ _ _ _ Hpost).
  - rewrite Hm, mem_write_out; [done|]. intros Hin. pose proof (Z.mod_pos_bound a 4096 ltac:(lia)).
    destruct (ld_source _ _ _ _ _ _ _ _ _ _ _ _ Hld) as [Hsrc _]. destruct (fresh_ok _ _ Hsrc Hgf) as (Hgm & _ & _).
    pose proof (br_gdt _ _ _ _ _ _ _ Hok).
    apply (LoadKernel.aligned_disjoint fr gf (fr + a mod 4096)); [done|done| |lia|lia]. by intros ->.
  - intros Hx%(sr_fresh _ _ _ _ Hrest). done.
Qed.

(** The stack and its guard page in the final table. *)
Lemma stack_kept (config : Config.BootloaderConfig) (f0 : allocator) (t t' : M) g frs :
  (∀ p v, pages t !! p = Some v → pages t' !! p = Some v) → g mod 4096 = 0 →
  length frs = Z.to_nat (page_count (Config.kernel_stack_size config)) → Forall (fresh f0) frs →
  (∀ p fr, (p, fr) ∈ zip (pages_from (g + 4096) (page_count (Config.kernel_stack_size config))) frs →
     pages t !! p = Some (fr, FLAGS_RW)) →
  ∀ x, g + 4096 ≤ x < g + 4096 + Config.kernel_stack_size config →
    ∃ fr, fresh f0 fr ∧ pages t' !! align_down x 4096 = Some (fr, FLAGS_RW).
Proof.
  intros Hk Hg Hl Hf Hz x Hx.
  destruct (zip_elem (pages_from (g + 4096) (page_count (Config.kernel_stack_size config))) frs (align_down x 4096))
    as (fr & Hfr & Hin).
  - by rewrite length_pages_from.
  - apply LoadKernel.elem_of_pages_from. exists ((x - (g + 4096)) / 4096). split.
    + rewrite <- page_count_pred. split; [apply Z.div_pos; lia|].
      assert ((x - (g + 4096)) / 4096 ≤ (Config.kernel_stack_size config - 1) / 4096) by (apply Z.div_le_mono; lia). lia.
    + rewrite <- align_down_page by (rewrite <- (add_page_aligned g 1 Hg); f_equal; lia). f_equal. lia.
  - exists fr. rewrite Forall_forall in Hf. split; [by apply Hf|]. by apply Hk, Hz.
Qed.

Lemma stack_pointer g size : Level4.span_ok g (4096 + size) → 0 < size →
  wrap_u 64 (virt_align_down (g + 4096 + size) 16 - 8) = virt_align_down (g + 4096 + size) 16 - 8.
Proof.
  intros Hs Hz. assert (canonical (g + 4096 + size)) as Hc by (apply (Level4.span_canonical g (4096 + size)); [done|lia]).
  rewrite virt_align_down_spec by (done || lia || by exists (2 ^ 43)).
  pose proof (align_down_le (g + 4096 + size) 16 ltac:(lia)). pose proof (align_down_gt (g + 4096 + size) 16 ltac:(lia)).
  apply Z.mod_small. destruct Hs as [_ Hs]. lia.
Qed.

Lemma booted_spec addr k (f : allocator) pt memory system_info max vao i img (mappings : Mappings R) f1 pt1 mem1 c1
    version_info sentinel a ra bi pt2 :
  boot_ready addr k f pt memory system_info max →
  mapped addr k f pt memory system_info max vao i img (mappings, f1, pt1, mem1, c1) →
  boot_info_post f1 pt1 mappings a ra bi pt2 → boot_info_matches version_info sentinel mappings system_info bi →
  booted addr k f pt memory system_info max vao img (switch_to_kernel pt2 mappings a) bi pt2 mem1 c1.
Proof.
  intros Hok Hmp Hpost Hbi. destruct (boot_info_after _ _ _ _ _ _ _ _ _ _ _ _ _ _ _ Hok Hmp) as (Hbo & Hsz & Ho).
  pose proof (λ p v, boot_info_keeps f1 pt1 mappings a ra bi pt2 mem1 c1 p v (bo_ready _ _ _ _ _ _ _ Hbo) Hpost) as Hkeep.
  pose proof (λ x y, image_kept _ _ _ _ _ _ _ _ _ _ _ _ _ _ _ x y Hok Hmp) as Himg.
  pose proof (λ fr, loaded_taken _ _ _ _ _ _ _ _ _ _ _ _ _ _ _ fr Hok Hmp) as Htaken.
  destruct Hpost as (_ & _ & Hl4 & _ & Hcov & Hfree & frs & Hlen & Hmap & Hout & Huse).
  destruct Hbi as (_ & Hbfb & _ & _ & Hbr & Hbt & Hbrd & Hbrl & Hbk & Hbkl & Hbo' & _).
  destruct Hmp as (u & u' & s' & e & self & c & H0 & Hld & Hsp & Hrest & Ef & Ept & Em & Ec & Een & Est & Eu & Etls & Eks & Ekl & Eko & Erl).
  rewrite Ept in Hl4, Hkeep, Himg, Hout. cbn [kernel kernel_level_4_frame] in Hl4, Hkeep, Himg, Hout.
  rewrite Hsz in *. rewrite Ho in Hcov. rewrite Eks, Ekl in Huse.
  destruct (sp_stack _ _ _ _ _ _ _ _ _ _ _ _ _ Hsp) as (g & sfrs & -> & Hg & Hspan & Hgn & Hgu & Hsl & _ & Hsf & Hsm).
  split.
  - split; [apply (ld_image _ _ _ _ _ _ _ _ _ _ _ _ Hld)|]. intros x y Hxy. destruct (Himg x y Hxy) as (fr & fl & Hp & Hm & _).
    unfold table_byte. rewrite (Hkeep _ _ Hp). by rewrite Hm.
  - intros h p Hh Hty Hp. destruct (ld_flags _ _ _ _ _ _ _ _ _ _ _ _ Hld h p Hh Hty Hp) as [fr Hfr]. exists fr. apply Hkeep.
    eapply lookup_weaken; [exact Hfr|]. apply (sp_kernel _ _ _ _ _ _ _ _ _ _ _ _ _ Hsp).
  - done.
  - exists g. split_and!.
    + cbn [switch_to_kernel context_switch rsp addr_stack_top]. rewrite Est. apply stack_pointer; [done|apply Hok].
    + rewrite (proj1 (Hout g ltac:(intros Hin%Hfree; rewrite Eu in Hin; done))). done.
    + destruct (br_stack _ _ _ _ _ _ _ Hok). eapply (stack_kept (config k) f (table self)); try done.
      eapply Forall_impl; [exact Hsf|]. intros y Hy. by apply (ld_fresh _ _ _ _ _ _ _ _ _ _ _ _ Hld).
  - intros p Hp. apply Hkeep. by apply (sp_switch _ _ _ _ _ _ _ _ _ _ _ _ _ Hsp).
  - intros x Hx. cbn [switch_to_kernel context_switch rdi boot_info] in Hx.
    destruct (zip_elem (LoadKernel.span_pages a (boot_info_size f)) frs (align_down x 4096)) as (fr & _ & Hin); [done| |].
    { apply LoadKernel.span_pages_elem; [lia|]. by exists x. }
    exists fr. by apply Hmap.
  - pose proof (sp_framebuffer _ _ _ _ _ _ _ _ _ _ _ _ _ Hsp) as Hf. rewrite Hbfb.
    destruct (sys_framebuffer system_info) as [fb|]; [|done]. destruct Hf as (v & -> & Hv). cbn. exists v. split; [done|].
    intros x Hx. by apply Hkeep, Hv.
  - split; [congruence|]. pose proof (sp_ramdisk _ _ _ _ _ _ _ _ _ _ _ _ _ Hsp) as Hf. rewrite Hbrd.
    destruct (sys_ramdisk_addr system_info) as [phys|]; [|done]. destruct Hf as (v & -> & Hv). exists v. split; [done|].
    intros x Hx. by apply Hkeep, Hv.
  - split_and!; congruence.
  - done.
  - intros r x Hr Hk Hx. destruct (Huse r x Hr Hk Hx) as [Hu1 Hu2]. split; [done|].
    intros y b fr fl Hy Hp Hfr. destruct (Himg y b Hy) as (fr' & fl' & Hp' & _ & Hnf). rewrite (Hkeep _ _ Hp') in Hp.
    injection Hp as <- <-. apply Hu2. right. by apply Htaken.
Qed.

(** C1: The whole loader: on a machine and with a kernel that meet the conditions,
    [load_and_switch_to_kernel] does not panic and jumps to the kernel's entry point. There, with the
    kernel's page table active, every byte of the relocated image of the kernel is visible at its
    virtual address with the flags of its segment; the stack pointer is at the top of a writable stack
    above an unmapped guard page; the context switch code is mapped; the first argument points to boot
    information that is mapped in both address spaces and reports the framebuffer, the ramdisk, the
    TLS template, the ACPI tables and the kernel as they are mapped; and the memory map covers the
    firmware's regions and declares no memory usable that holds the kernel file or a frame into which
    the kernel was loaded. *)
Theorem load_and_switch_boots version_info sentinel rng addr k (f : allocator) pt memory c system_info max :
  boot_ready addr k f pt memory system_info max →
  returns (load_and_switch_to_kernel version_info sentinel rng addr k f pt memory c system_info)
    (λ '(cpu, bi, pt', memory', c'), ∃ vao img,
       booted addr k f pt memory system_info max vao img cpu bi pt' memory' c').
Proof.
  intros Hok. unfold load_and_switch_to_kernel. eapply returns_bind; [by apply (set_up_mappings_spec rng _ _ _ _ _ c _ max)|].
  intros [[[[mappings f1] pt1] mem1] c1] (vao & i & img & Hmp).
  destruct (boot_info_after _ _ _ _ _ _ _ _ _ _ _ _ _ _ _ Hok Hmp) as (Hbo & Hsz & Ho).
  eapply returns_bind; [by eapply create_boot_info_spec|]. intros [[[[a ra] bi] pt2] u2] [Hpost Hbi]. cbn [returns].
  exists vao, img. by eapply booted_spec.
Qed.
End Switch.

(** ** The loader at a concrete input

    A PC with 128 MiB of memory, a framebuffer and a ramdisk, and an executable of two segments in the
    second level 4 entry. *)
Import SetUp SetUpProofs BootInfoProofs LoadSegments.
#[local] Existing Instance Level4.rng_ref.
#[local] Instance sample_gdt : GdtFormat := {| gdt_bytes := replicate 24 0; code_selector := 8; data_selector := 16 |}.

Definition exec_text := segment Elf.Load 0 (2 ^ 39) 0x120 0x120 true false.
Definition exec_data := segment Elf.Load 0x1f00 (2 ^ 39 + 0x2f00) 0x20 0x1800 false true.
Definition exec_elf : Elf.ElfFile :=
  {| Elf.input_addr := 0x1000000; Elf.input_len := 0x2000; Elf.file_type := Elf.FExecutable;
     Elf.entry_point := 2 ^ 39 + 0x10; Elf.program_iter := [exec_text; exec_data];
     Elf.program_sanity_check _ := Ret (); Elf.header_sanity_check := Ret ();
     Elf.get_data _ := Panic "no dynamic segment" |}.
Definition exec_kernel : Kernel := mkKernel exec_elf sample_config 0x1000000 0x2000.

Lemma exec_headers h : h ∈ Elf.program_iter exec_elf → h = exec_text ∨ h = exec_data.
Proof. cbn. rewrite !elem_of_cons, elem_of_nil. tauto. Qed.
Lemma exec_before h h' : before (Elf.program_iter exec_elf) h h' → h = exec_text ∧ h' = exec_data.
Proof.
  intros (i & j & Hij & Hi & Hj)%before_lookup. cbn in *.
  destruct i as [|[|i]], j as [|[|j]]; cbn in *; simplify_eq; try lia; done.
Qed.

Lemma sample_supply_any n : Z.of_nat n ≤ 28128 → supply sample_allocator n.
Proof.
  intros Hn. exists (pages_from 0x1200000 (Z.of_nat n)). split_and!;
    [apply LoadKernel.NoDup_pages_from|by rewrite length_pages_from, Nat2Z.id|].
  apply Forall_forall. intros x (i & Hi & ->)%LoadKernel.elem_of_pages_from. split; [|cbn; lia].
  exists (FrameAllocator.mkE820 0x100000 0x7ee0000 1 0). split_and!.
  - do 2 right. by left.
  - done.
  - split; [by apply add_page_aligned|].
    change (FrameAllocator.first_frame _) with 0x100000.
    change (FrameAllocator.last_frame _) with 0x7fdf000. lia.
Qed.

Lemma exec_fresh x : x < 0x1200000 → ¬ fresh sample_allocator x.
Proof. intros Hx [_ Hn]. cbn in Hn. lia. Qed.

Lemma exec_entry a n : (2 ^ 39 <=? a) && (a + n <=? 2 ^ 40) = true → ∀ x, a ≤ x < a + n → p4_of x = 1.
Proof.
  intros [H1%Z.leb_le H2%Z.leb_le]%andb_prop x Hx. rewrite p4_of_alt.
  replace (x / 2 ^ 39) with 1; [done|]. apply Z.div_unique with (r := x - 2 ^ 39); lia.
Qed.

Lemma exec_image_ok n : Z.of_nat n ≤ 28000 →
  image_ok exec_elf empty_table sample_allocator (λ x, x mod 256) n 0 1.
Proof.
  intros Hn. split.
  - lia.
  - exists exec_text. split; [by left|done].
  - intros h Hh _. destruct (exec_headers h Hh) as [-> | ->].
    + split; [unfold Level4.span_ok; cbn; lia|]. intros x. apply exec_entry. done.
    + split; [unfold Level4.span_ok; cbn; lia|]. intros x. apply exec_entry. done.
  - repeat constructor; by eexists.
  - intros h Hh _. destruct (exec_headers h Hh) as [-> | ->];
      (split; cbn; unfold Level4.span_ok, LoadKernelProofs.seg_phys, LoadKernelProofs.seg_addr; cbn; lia||done).
  - intros h j Hh _ Hj. apply exec_fresh. destruct (exec_headers h Hh) as [-> | ->]; cbn in Hj;
      (eapply Z.le_lt_trans; [apply align_down_le; lia|]); unfold LoadKernelProofs.seg_phys; cbn; lia.
  - intros h h' p Hb _ _. destruct (exec_before h h' Hb) as [-> ->].
    unfold LoadKernelProofs.seg_pages. rewrite !LoadKernel.span_pages_range.
    change (align_down (LoadKernelProofs.seg_addr _ exec_data) 4096) with (2 ^ 39 + 0x2000).
    unfold LoadKernelProofs.seg_addr. cbn. lia.
  - intros h Hh Hty. by destruct (exec_headers h Hh) as [-> | ->].
  - intros h h' Hb Hty. by destruct (exec_before h h' Hb) as [-> ->].
  - intros h Hh Hty. by destruct (exec_headers h Hh) as [-> | ->].
  - eexists. by cbn.
  - apply sample_supply_any. rewrite !Nat2Z.inj_add, Nat2Z.inj_mul.
    assert (Z.of_nat (load_cost (start_state exec_elf 0 empty_table sample_allocator (λ x, x mod 256))
      (Elf.program_iter exec_elf)) ≤ 100) by (by vm_compute).
    assert (Z.of_nat (LoadKernelProofs.reloc_total exec_elf (Elf.program_iter exec_elf)) = 0) by (by vm_compute). lia.
  - left; by vm_compute.
  - left; by vm_compute.
Qed.

Lemma exec_boot_ready : boot_ready 0x130123 exec_kernel sample_allocator sample_tables (λ x, x mod 256) sample_system 0x7fe0000.
Proof.
  assert (Level4.is_power_of_two Size4KiB = true) as Hp4 by (by vm_compute).
  assert (Level4.is_power_of_two Size2MiB = true) as Hp2 by (by vm_compute).
  split.
  - split; try done. 
  - done.
  - done.
  - apply sample_source.
  - by vm_compute.
  - split; done.
  - split; [split; try done; by intros m [= <-]|done].
  - exists [1; 2; 3; 4; 5; 6; 7]. split_and!; [|done|].
    + repeat (apply NoDup_cons; split; [set_solver by lia|]). apply NoDup_nil_2.
    + apply Forall_forall. intros j Hj. split; [set_solver by lia|].
      unfold Level4.reserved_entry, Level4.physical_memory_entry, Level4.recursive_entry, Level4.kernel_stack_entry,
        Level4.boot_info_entry, Level4.framebuffer_entry, Level4.before_dynamic_entry, Level4.after_dynamic_entry. cbn.
      naive_solver set_solver by lia.
  - exists 1. apply exec_image_ok. by vm_compute.
  - intros y [(d & Hd & _ & _ & Hy) _]. change (d ∈ sample_map) in Hd. unfold sample_map in Hd. rewrite !elem_of_cons, elem_of_nil in Hd.
    assert (FrameAllocator.last_frame d ≤ 0x7fdf000) by (destruct Hd as [-> | [-> | [-> | []]]]; by vm_compute). lia.
  - by vm_compute.
  - split; apply exec_fresh; by vm_compute.
  - split; [done|]. split_and!; [done|done|by vm_compute].
  - intros fb [= <-]. split_and!; [done|by vm_compute|by vm_compute|]. split_and!; [done|done|by vm_compute].
  - intros a [= <-]. split_and!; [done|by vm_compute|by vm_compute|]. split_and!; [done|done|by vm_compute].
  - split_and!; [done|done|by vm_compute].
  - done.
  - done.
  - repeat (apply Forall_cons; split; [by vm_compute|]). done.
  - intros nf Hnf. split; [by vm_compute|]. exists (FrameAllocator.mkE820 0x100000 0x7ee0000 1 0).
    split_and!; [by do 2 right; left|by vm_compute|by vm_compute|]. intros _. left. cbn in *. lia.
  - cbn. lia.
Qed.

(** The kernel of the example is entered at its entry point, on its own page table, with the boot
    information's address as its argument and the framebuffer mapped. *)
Lemma load_and_switch_boots_witness :
  returns (load_and_switch_to_kernel (Config.mkApiVersion 0 11 0 false) 5 9 0x130123 exec_kernel sample_allocator
             sample_tables (λ x, x mod 256) (mkControl 0 0 0 0 0 0 0) sample_system)
    (λ '(cpu, bi, pt', memory', c'), ∃ vao a,
       rip cpu = vao + (2 ^ 39 + 0x10) ∧ cr3 cpu = 0x1000 ∧
       Info.Optional_into_option (Info.framebuffer bi) = Some (Info.mkFrameBuffer a (Level4.info sample_framebuffer)) ∧
       visible (kernel pt') a 0xfd000000 0x300000).
Proof.
  eapply returns_mono; [exact (load_and_switch_boots (Config.mkApiVersion 0 11 0 false) 5 9 0x130123 exec_kernel
    sample_allocator sample_tables (λ x, x mod 256) (mkControl 0 0 0 0 0 0 0) sample_system 0x7fe0000 exec_boot_ready)|].
  intros [[[[cpu bi] pt'] memory'] c'] (vao & img & Hb). exists vao.
  destruct (bt_framebuffer _ _ _ _ _ _ _ _ _ _ _ _ _ _ Hb) as (a & Ha & Hv).
  destruct (bt_registers _ _ _ _ _ _ _ _ _ _ _ _ _ _ Hb) as (Hr & Hc & _). exists a. split_and!; assumption.
Defined.

End LoadAndSwitch.
