(* ===== verification/Api.v ===== *)
(** * The kernel's side of the interface (api/src/lib.rs, api/src/info.rs)

    What the [entry_point] macro puts into a kernel, and how a kernel reads the
    boot information: the slices behind the FFI-safe pointers, and [Optional].
    The configuration that a kernel is built with is the one that the loader
    parses from its executable. *)
From S2P Require Import Prelude Memory Config Info Elf SetUp.
Import Memory.

Module Api.

(** ** [entry_point!(path, config = ...)] *)

(** The static in the section [.bootloader-config], and [_start] *)
Record KernelApi (A : Type) := mkKernelApi {
  bootloader_config_section : list Z;
  impl_start : Info.BootInfo → A;
}.
Arguments bootloader_config_section {_}.
Arguments impl_start {_}.
Definition entry_point {A} (path : Info.BootInfo → A) (config : Config.BootloaderConfig) : KernelApi A :=
  mkKernelApi A (Config.serialize config) (λ boot_info, let f := path in f boot_info).
(** [entry_point!(path)] *)
Definition entry_point_default {A} (version_info : Config.ApiVersion) (path : Info.BootInfo → A) : KernelApi A :=
  entry_point path (Config.BootloaderConfig_new_default version_info).

(** ** Slices *)

(** A fat pointer, and [slice::from_raw_parts] *)
Record Slice := mkSlice { as_ptr : Z; slice_len : Z }.
(** [MemoryRegions] *)
Record MemoryRegions := mkMemoryRegions { ptr : Z; len : Z }.
Definition MemoryRegions_deref (self : MemoryRegions) : Slice := mkSlice (ptr self) (len self).
Definition MemoryRegions_from (regions : Slice) : MemoryRegions := mkMemoryRegions (as_ptr regions) (slice_len regions).
Definition MemoryRegions_into (regions : MemoryRegions) : Slice := mkSlice (ptr regions) (len regions).

(** [FrameBuffer]: the bytes that the kernel sees through a virtual address space *)
Definition create_buffer (self : Info.FrameBuffer) : Slice := mkSlice (Info.buffer_start self) (Info.byte_len (Info.info self)).
Definition buffer (mem : Z → Z) (self : Info.FrameBuffer) : list Z :=
  let s := create_buffer self in mem_read mem (as_ptr s) (slice_len s).
Definition into_buffer (self : Info.FrameBuffer) : Slice := create_buffer self.

(** ** [Optional] *)
Definition into_option {T} (self : Info.Optional T) : option T := Info.Optional_into_option self.
Definition as_ref {T} (self : Info.Optional T) : option T :=
  match self with Info.OSome x => Some x | Info.ONone => None end.
(** [as_mut]: a reference through which the value is replaced *)
Definition as_mut {T} (self : Info.Optional T) : option (T * (T → Info.Optional T)) :=
  match self with Info.OSome x => Some (x, λ y, Info.OSome y) | Info.ONone => None end.

(** ** The configuration of a kernel *)

(** The loader parses the configuration that the kernel was built with. *)
Lemma kernel_parse_entry_point `{SetUp.ElfParser} {A} (path : Info.BootInfo → A) c kernel_addr kernel_slice elf :
  Config.config_ok c → SetUp.elf_new kernel_addr kernel_slice = Ret elf →
  SetUp.section_raw_data elf ".bootloader-config" = Some (bootloader_config_section (entry_point path c)) →
  SetUp.Kernel_parse kernel_addr kernel_slice = Ret (SetUp.mkKernel elf c kernel_addr (Z.of_nat (length kernel_slice))).
Proof.
  intros Hc He Hs. unfold SetUp.Kernel_parse. rewrite He. cbn [expect_ok mbind res_bind]. rewrite Hs.
  cbn [expect_some entry_point bootloader_config_section mbind res_bind]. by rewrite Config.deserialize_serialize_spec.
Qed.

(** Writing through the slice of a framebuffer. *)
Lemma buffer_write mem fb bs : Z.of_nat (length bs) = Info.byte_len (Info.info fb) →
  buffer (mem_write mem (as_ptr (into_buffer fb)) bs) fb = bs.
Proof.
  intros Hl. unfold buffer. cbn. rewrite mem_read_write by lia. rewrite Z.sub_diag. change (drop (Z.to_nat 0) bs) with bs. apply take_ge. lia.
Qed.
Lemma as_mut_as_ref {T} (self : Info.Optional T) x set : as_mut self = Some (x, set) → as_ref self = Some x ∧ ∀ y, as_ref (set y) = Some y.
Proof. destruct self; [|done]. by intros [= <- <-]. Qed.
End Api.
