(* ===== verification/Disk.v ===== *)
(** * Disk access in stage 2 (bios/stage-2/src/disk.rs, dap.rs)

    The second stage reads the disk through the BIOS: [DiskAccess] translates
    byte offsets to sectors and issues extended read calls (INT 13h, AH = 42h)
    of at most 32 sectors. The BIOS is the class [Bios]. The traits [Read] and
    [Seek], through which the FAT code uses a disk, are the class [ReadSeek] with
    the contract [ReadSeekLaws]; [DiskAccess] is shown to meet it. *)
From S2P Require Import Prelude Memory.
Import Memory.

Module Disk.

(** The contents of memory. *)
Definition Mem : Type := Z → Z.

(** [AlignedArrayBuffer<LEN>] at a place in memory *)
Record Buffer := mkBuffer { buf_addr : Z; buf_len : Z }.

(** [AlignedBuffer::slice] *)
Definition buffer_slice (mem : Mem) (buf : Buffer) : list Z := mem_read mem (buf_addr buf) (buf_len buf).

(** ** dap.rs *)
Record DiskAddressPacket := mkDap {
  packet_size : Z;
  zero : Z;
  number_of_sectors : Z;
  offset : Z;
  segment : Z;
  start_lba : Z;
}.

Definition from_lba (start_lba number_of_sectors target_addr target_addr_segment : Z) :
    DiskAddressPacket :=
  {| packet_size := 0x10; zero := 0; number_of_sectors := number_of_sectors;
     offset := target_addr; segment := target_addr_segment; start_lba := start_lba |}.

(** INT 13h with AH = 42h: [None] when the carry flag is set. *)
Class Bios := extended_read : DiskAddressPacket → Z → Mem → option Mem.

(** The extended read function: the sectors of the disk, 512 bytes each, are copied to
    [segment:offset]. Requests of up to 32 sectors that lie on the disk succeed; of larger ones, which
    some firmware refuses, nothing is assumed. *)
Class BiosLaws (B : Bios) := {
  disk_byte : Z → Z → Z;
  disk_sectors : Z → Z;
  extended_read_ok dap disk mem :
    packet_size dap = 0x10 → zero dap = 0 → 0 ≤ number_of_sectors dap ≤ 32 →
    0 ≤ offset dap < 2 ^ 16 → 0 ≤ segment dap < 2 ^ 16 →
    0 ≤ start_lba dap → start_lba dap + number_of_sectors dap ≤ disk_sectors disk →
    extended_read dap disk mem =
      Some (mem_write mem (segment dap * 16 + offset dap)
              (mem_read (disk_byte disk) (start_lba dap * 512) (number_of_sectors dap * 512)));
}.

(** [DiskAddressPacket::perform_load]: [jc fail] *)
Definition perform_load `{B : Bios} (dap : DiskAddressPacket) (disk_number : Z) (mem : Mem) : res Mem :=
  expect_some (extended_read dap disk_number mem) "fail: z".

(** ** disk.rs *)
Record DiskAccess := mkDiskAccess {
  disk_number : Z;
  base_offset : Z;
  current_offset : Z;
}.

(** [SeekFrom::Start] *)
Definition disk_seek (self : DiskAccess) (offset : Z) : DiskAccess :=
  mkDiskAccess (disk_number self) (base_offset self) offset.

Section Model.
Context `{B : Bios} (TMP_BUF : Buffer).

(** The loop of [read_exact_into]. *)
Fixpoint load_loop (fuel : nat) (disk_number : Z) (mem : Mem)
    (start_lba number_of_sectors target_addr : Z) : res Mem :=
  match fuel with
  | O => Panic "out of fuel"
  | S fuel =>
      let sectors := Z.min number_of_sectors 32 in
      segment ← expect_some (try_from_u 16 (Z.shiftr target_addr 4))
        "called `Result::unwrap()` on an `Err` value";
      let dap := from_lba start_lba sectors (Z.land target_addr 15) segment in
      mem ← perform_load dap disk_number mem;
      start_lba ← start_lba +[64] sectors;
      number_of_sectors ← number_of_sectors -! sectors;
      bytes ← sectors *[32] 512;
      target_addr ← target_addr +[32] bytes;
      if number_of_sectors =? 0 then Ret mem
      else load_loop fuel disk_number mem start_lba number_of_sectors target_addr
  end.

(** [DiskAccess::read_exact_into]; the fuel is one step per sector and one more. *)
Definition disk_read_exact_into (self : DiskAccess) (mem : Mem) (len : Z) (buf : Buffer) :
    res (DiskAccess * Mem) :=
  assert_ (len mod 512 =? 0) "assertion `left == right` failed";;
  assert_ (len <=? buf_len buf) "range end index out of range for slice";;
  start_addr ← base_offset self +[64] current_offset self;
  end_addr ← start_addr +[64] len;
  let start_lba := start_addr / 512 in
  last ← end_addr -! 1;
  let end_lba := last / 512 in
  n ← end_lba +[64] 1;
  number_of_sectors ← n -! start_lba;
  let target_addr := buf_addr buf in
  mem ← load_loop (S (Z.to_nat number_of_sectors)) (disk_number self) mem
          start_lba number_of_sectors target_addr;
  Ret (mkDiskAccess (disk_number self) (base_offset self) end_addr, mem).

(** [DiskAccess::read_exact] with its static buffer of 1024 bytes *)
Definition disk_read_exact (self : DiskAccess) (mem : Mem) (len : Z) :
    res (list Z * DiskAccess * Mem) :=
  let current_sector_offset := current_offset self mod 512 in
  assert_ (current_sector_offset + len <=? buf_len TMP_BUF)
    "assertion failed: current_sector_offset + len <= buf.buffer.len()";;
  '(self, mem) ← disk_read_exact_into self mem (buf_len TMP_BUF) TMP_BUF;
  Ret (mem_read mem (buf_addr TMP_BUF + current_sector_offset) len, self, mem).

End Model.

(** ** The traits [Read] and [Seek] *)
Class ReadSeek (D : Type) := {
  seek : D → Z → D;
  read_exact : D → Mem → Z → res (list Z * D * Mem);
  read_exact_into : D → Mem → Z → Buffer → res (D * Mem);
}.

(** What a user of a disk relies on. [content d] are the bytes of the disk from its base on,
    [size d] their number, [position d] the current offset. Reading a few bytes goes through a
    private area of memory, [scratch]. *)
Class ReadSeekLaws (D : Type) {S : ReadSeek D} := {
  disk_inv : D → Prop;
  content : D → Z → Z;
  size : D → Z;
  position : D → Z;
  scratch : Z → Prop;
  seek_spec d p : disk_inv d → 0 ≤ p →
    disk_inv (seek d p) ∧ position (seek d p) = p ∧
    content (seek d p) = content d ∧ size (seek d p) = size d;
  read_exact_spec d mem n : disk_inv d → 0 ≤ n → position d mod 512 + n ≤ 1024 →
    position d + 1536 ≤ size d →
    returns (read_exact d mem n) (λ '(bs, d', mem'),
      bs = mem_read (content d) (position d) n ∧
      disk_inv d' ∧ content d' = content d ∧ size d' = size d ∧
      ∀ x, ¬ scratch x → mem' x = mem x);
  read_exact_into_spec d mem n buf : disk_inv d → 0 < n → n mod 512 = 0 → n ≤ buf_len buf →
    position d mod 512 = 0 → position d + n ≤ size d →
    0 ≤ buf_addr buf → buf_addr buf + n ≤ 2 ^ 20 →
    returns (read_exact_into d mem n buf) (λ '(d', mem'),
      disk_inv d' ∧ content d' = content d ∧ size d' = size d ∧
      ∀ x, mem' x = mem_write mem (buf_addr buf) (mem_read (content d) (position d) n) x);
}.

(** [impl Read for DiskAccess], [impl Seek for DiskAccess] *)
Definition disk_access_read_seek `{B : Bios} (TMP_BUF : Buffer) : ReadSeek DiskAccess := {|
  seek := disk_seek;
  read_exact := disk_read_exact TMP_BUF;
  read_exact_into := disk_read_exact_into;
|}.

(** ** Correctness of [DiskAccess] *)
Section Proofs.
Context `{HB : BiosLaws}.

Lemma segment_offset a : 0 ≤ a → Z.shiftr a 4 * 16 + Z.land a 15 = a.
Proof.
  intros. rewrite Z.shiftr_div_pow2 by lia. change 15 with (Z.ones 4). rewrite Z.land_ones by lia.
  change (2 ^ 4) with 16. pose proof (Z.div_mod a 16). lia.
Qed.

Lemma load_loop_spec fuel disk mem lba n target :
  0 ≤ n → (Z.to_nat n < fuel)%nat → 0 ≤ lba → lba + n ≤ disk_sectors disk → lba + n < 2 ^ 64 →
  0 ≤ target → target + n * 512 ≤ 2 ^ 20 → (n = 0 → target < 2 ^ 20) →
  returns (load_loop fuel disk mem lba n target) (λ mem',
    ∀ x, mem' x = mem_write mem target (mem_read (disk_byte disk) (lba * 512) (n * 512)) x).
Proof.
  revert mem lba n target. induction fuel as [|fuel IH]; intros mem lba n target Hn Hf Hl Hd Ho Ht Hb Hz; [lia|].
  cbn [load_loop].
  assert (Z.shiftr target 4 < 2 ^ 16 ∧ 0 ≤ Z.shiftr target 4) as Hseg.
  { rewrite Z.shiftr_div_pow2 by lia. split; [apply Z.div_lt_upper_bound|apply Z.div_pos]; lia. }
  assert (0 ≤ Z.land target 15 < 16) as Hoff.
  { change 15 with (Z.ones 4). rewrite Z.land_ones by lia. apply Z.mod_pos_bound. lia. }
  rewrite try_from_u_ok by (unfold is_uint; lia). cbn [expect_some mbind res_bind].
  set (k := Z.min n 32) in *. unfold perform_load.
  rewrite (extended_read_ok (from_lba lba k (Z.land target 15) (Z.shiftr target 4)))
    by (cbn; unfold k; lia || done).
  cbn [expect_some mbind res_bind number_of_sectors segment offset start_lba from_lba].
  rewrite segment_offset by done.
  rewrite add_u_ok, sub_u_ok by (unfold k; lia). cbn [mbind res_bind].
  rewrite mul_u_ok by (unfold k; lia). cbn [mbind res_bind].
  rewrite add_u_ok by (unfold k; lia). cbn [mbind res_bind].
  destruct (Z.eqb_spec (n - k) 0) as [He|Hne].
  - cbn. intros x. by replace n with k by lia.
  - assert (k = 32) as Hk by (unfold k; lia).
    eapply returns_mono; [apply IH; unfold k; lia|]. intros mem' Hm x. rewrite Hm.
    assert (mem_read (disk_byte disk) (lba * 512) (n * 512) =
      mem_read (disk_byte disk) (lba * 512) (k * 512) ++
      mem_read (disk_byte disk) ((lba + k) * 512) ((n - k) * 512)) as ->.
    { replace (n * 512) with (k * 512 + (n - k) * 512) by lia. rewrite mem_read_app by lia.
      do 2 f_equal. lia. }
    rewrite <- mem_write_app, length_mem_read. by rewrite Z2Nat.id by lia.
Qed.

Context (TMP_BUF : Buffer).

(** The disk starts at a sector boundary, and the static buffer, with one more sector behind
    it, lies in the memory that real-mode addresses reach. *)
Definition access_ok (d : DiskAccess) : Prop :=
  base_offset d mod 512 = 0 ∧ 0 ≤ base_offset d ∧ 0 ≤ current_offset d ∧
  disk_sectors (disk_number d) < 2 ^ 54 ∧
  buf_len TMP_BUF = 1024 ∧ 0 ≤ buf_addr TMP_BUF ∧ buf_addr TMP_BUF + 1536 ≤ 2 ^ 20.
Definition access_content (d : DiskAccess) (x : Z) : Z :=
  disk_byte (disk_number d) (base_offset d + x).
Definition access_size (d : DiskAccess) : Z := disk_sectors (disk_number d) * 512 - base_offset d.

(** The sectors that are read, for any position: those that hold a byte of the range. *)
Lemma disk_read_exact_into_spec d mem n buf :
  access_ok d → 0 < n → n mod 512 = 0 → n ≤ buf_len buf →
  let a := base_offset d + current_offset d in
  let lba := a / 512 in
  let count := (a + n - 1) / 512 + 1 - lba in
  (lba + count) * 512 ≤ disk_sectors (disk_number d) * 512 →
  0 ≤ buf_addr buf → buf_addr buf + count * 512 ≤ 2 ^ 20 →
  returns (disk_read_exact_into d mem n buf) (λ '(d', mem'),
    d' = mkDiskAccess (disk_number d) (base_offset d) (a + n) ∧
    ∀ x, mem' x = mem_write mem (buf_addr buf)
                    (mem_read (disk_byte (disk_number d)) (lba * 512) (count * 512)) x).
Proof.
  intros (Hbm & Hb0 & Hc0 & Hds & _) Hn Hnm Hlen a lba count Hd Hba Hbb.
  assert (0 ≤ a) as Ha0 by (unfold a; lia).
  assert (0 ≤ lba) as Hl0 by (apply Z.div_pos; lia).
  assert (lba ≤ (a + n - 1) / 512) as Hle by (apply Z.div_le_mono; lia).
  assert (a + n < 2 ^ 64) as Hov.
  { pose proof (Z.div_mod (a + n - 1) 512). pose proof (Z.mod_pos_bound (a + n - 1) 512).
    unfold count in *. lia. }
  unfold disk_read_exact_into. rewrite Hnm. cbn [Z.eqb assert_ mbind res_bind].
  destruct (Z.leb_spec n (buf_len buf)); [|lia]. cbn [assert_ mbind res_bind].
  rewrite add_u_ok by (fold a; lia). cbn [mbind res_bind]. fold a.
  rewrite add_u_ok by lia. cbn [mbind res_bind].
  rewrite sub_u_ok by lia. cbn [mbind res_bind].
  rewrite add_u_ok by (unfold count in *; lia). cbn [mbind res_bind]. fold lba.
  rewrite sub_u_ok by lia. cbn [mbind res_bind]. fold count.
  eapply returns_bind; [apply load_loop_spec; unfold count in *; lia|].
  cbn. intros mem' Hm. by split.
Qed.

(** [read_exact] returns the bytes at the current position. *)
Lemma disk_read_exact_spec d mem n :
  access_ok d → 0 ≤ n → current_offset d mod 512 + n ≤ 1024 →
  current_offset d + 1536 ≤ access_size d →
  returns (disk_read_exact TMP_BUF d mem n) (λ '(bs, d', mem'),
    bs = mem_read (access_content d) (current_offset d) n ∧
    access_ok d' ∧ access_content d' = access_content d ∧ access_size d' = access_size d ∧
    ∀ x, ¬ (buf_addr TMP_BUF ≤ x < buf_addr TMP_BUF + 1536) → mem' x = mem x).
Proof.
  intros Hok Hn Hoff Hsz. pose proof Hok as (Hbm & Hb0 & Hc0 & Hds & Hlen & Ht0 & Ht1).
  unfold disk_read_exact. rewrite Hlen.
  destruct (Z.leb_spec (current_offset d mod 512 + n) 1024); [|lia]. cbn [assert_ mbind res_bind].
  set (a := base_offset d + current_offset d). set (off := current_offset d mod 512) in *.
  assert (a = a / 512 * 512 + off) as Ha.
  { apply Z.mod_divide in Hbm as [k Hk]; [|lia]. unfold a, off. rewrite Hk, Z.add_comm.
    rewrite Z.div_add by lia. pose proof (Z.div_mod (current_offset d) 512). lia. }
  pose proof (Z.mod_pos_bound (current_offset d) 512 ltac:(lia)) as Hob. fold off in Hob.
  set (count := (a + 1024 - 1) / 512 + 1 - a / 512).
  assert (2 ≤ count ≤ 3) as Hcount.
  { unfold count. pose proof (Z.div_mod (a + 1024 - 1) 512). pose proof (Z.mod_pos_bound (a + 1024 - 1) 512). lia. }
  unfold access_size in Hsz.
  eapply returns_bind; [apply (disk_read_exact_into_spec d mem 1024 TMP_BUF); try done; try lia|].
  { fold a. fold count. lia. }
  { fold a. fold count. lia. }
  fold a. fold count. cbn. intros [d' mem'] [-> Hmem]. split_and!; try done.
  - rewrite (mem_read_ext _ mem' _ _ (λ x _, Hmem x)).
    rewrite mem_read_write by (rewrite ?length_mem_read; lia).
    replace (Z.to_nat (buf_addr TMP_BUF + off - buf_addr TMP_BUF)) with (Z.to_nat off) by lia.
    rewrite mem_read_slice by lia. unfold access_content. rewrite mem_read_shift. f_equal. unfold a in *. lia.
  - unfold access_ok. cbn. split_and!; try done. unfold a. lia.
  - intros x Hx. rewrite Hmem. apply mem_write_out. rewrite length_mem_read. lia.
Qed.

(** [read_exact_into] at a sector boundary reads exactly the requested bytes. *)
Lemma disk_read_aligned_spec d mem n buf :
  access_ok d → 0 < n → n mod 512 = 0 → n ≤ buf_len buf → current_offset d mod 512 = 0 →
  current_offset d + n ≤ access_size d → 0 ≤ buf_addr buf → buf_addr buf + n ≤ 2 ^ 20 →
  returns (disk_read_exact_into d mem n buf) (λ '(d', mem'),
    access_ok d' ∧ access_content d' = access_content d ∧ access_size d' = access_size d ∧
    current_offset d' = base_offset d + current_offset d + n ∧
    ∀ x, mem' x = mem_write mem (buf_addr buf) (mem_read (access_content d) (current_offset d) n) x).
Proof.
  intros Hok Hn Hnm Hlen Hcm Hsz Hb0' Hb1. pose proof Hok as (Hbm & Hb0 & Hc0 & Hds & ?).
  unfold access_size in Hsz. set (a := base_offset d + current_offset d).
  apply Z.mod_divide in Hbm as [i Hi]; [|lia]. apply Z.mod_divide in Hcm as [j Hj]; [|lia].
  pose proof Hnm as Hk. apply Z.mod_divide in Hk as [k Hk]; [|lia].
  assert (a / 512 = i + j) as Hl by (unfold a; rewrite Hi, Hj, <- Z.mul_add_distr_r; apply Z.div_mul; lia).
  assert ((a + n - 1) / 512 = i + j + k - 1) as He
    by (symmetry; apply Z.div_unique with (r := 511); unfold a; lia).
  eapply returns_mono; [apply (disk_read_exact_into_spec d mem n buf); try done; fold a; rewrite ?Hl, ?He; lia|].
  fold a. rewrite Hl, He. intros [d' mem'] [-> Hmem]. cbn. split_and!; try done.
  - unfold access_ok. cbn. unfold access_ok in Hok. split_and!; try tauto. unfold a. lia.
  - intros x. rewrite Hmem. f_equal. unfold access_content. rewrite mem_read_shift. f_equal; lia.
Qed.

End Proofs.

(** [DiskAccess] meets the contract of the traits. *)
#[global] Instance disk_access_laws `{HB : BiosLaws} (TMP_BUF : Buffer) :
  ReadSeekLaws DiskAccess (S := disk_access_read_seek TMP_BUF).
Proof.
  refine (@Build_ReadSeekLaws DiskAccess (disk_access_read_seek TMP_BUF)
    (access_ok TMP_BUF) access_content access_size current_offset
    (λ x, buf_addr TMP_BUF ≤ x < buf_addr TMP_BUF + 1536) _ _ _).
  - intros d p (? & ? & ? & ?) Hp. by split_and!.
  - intros d mem n Hok Hn Hp Hs. by apply disk_read_exact_spec.
  - intros d mem n buf Hok Hn Hm Hl Hp Hs Hb0 Hb1.
    eapply returns_mono; [by apply (disk_read_aligned_spec TMP_BUF)|].
    intros [d' mem'] (? & ? & ? & _ & ?). done.
Defined.

(** [read_exact] returns the bytes at the current position, wherever it is in a sector: the
    bytes come from the disk at [base_offset + current_offset], and the disk is not changed. The
    memory that is written is the static buffer and the sector behind it. *)
Theorem disk_read_exact_bytes `{HB : BiosLaws} (TMP_BUF : Buffer) d mem n :
  access_ok TMP_BUF d → 0 ≤ n → current_offset d mod 512 + n ≤ 1024 →
  current_offset d + 1536 ≤ access_size d →
  returns (disk_read_exact TMP_BUF d mem n) (λ '(bs, d', mem'),
    bs = mem_read (disk_byte (disk_number d)) (base_offset d + current_offset d) n ∧
    access_ok TMP_BUF d' ∧ access_content d' = access_content d ∧
    ∀ x, ¬ (buf_addr TMP_BUF ≤ x < buf_addr TMP_BUF + 1536) → mem' x = mem x).
Proof.
  intros. eapply returns_mono; [by apply disk_read_exact_spec|].
  intros [[bs d'] mem'] (-> & ? & ? & _ & ?). split_and!; try done.
  unfold access_content. by rewrite mem_read_shift.
Qed.

(** C32: [read_exact_into] at a sector boundary fills the first [n] bytes of the buffer with the
    bytes at the current position and writes nothing else: the loop loads every sector once, at its
    place. It does so on any BIOS that serves requests of up to 32 sectors, whatever the BIOS does
    with larger ones ([BiosLaws] promises nothing for them). *)
Theorem disk_read_exact_into_bytes `{HB : BiosLaws} (TMP_BUF : Buffer) d mem n buf :
  access_ok TMP_BUF d → 0 < n → n mod 512 = 0 → n ≤ buf_len buf → current_offset d mod 512 = 0 →
  current_offset d + n ≤ access_size d → 0 ≤ buf_addr buf → buf_addr buf + n ≤ 2 ^ 20 →
  returns (disk_read_exact_into d mem n buf) (λ '(d', mem'),
    current_offset d' = base_offset d + current_offset d + n ∧
    mem_read mem' (buf_addr buf) n =
      mem_read (disk_byte (disk_number d)) (base_offset d + current_offset d) n ∧
    ∀ x, ¬ (buf_addr buf ≤ x < buf_addr buf + n) → mem' x = mem x).
Proof.
  intros. eapply returns_mono; [by apply (disk_read_aligned_spec TMP_BUF)|].
  intros [d' mem'] (_ & _ & _ & Hc & Hm). split_and!; [done| |].
  - rewrite (mem_read_ext _ mem' _ _ (λ x _, Hm x)).
    rewrite mem_read_write by (rewrite ?length_mem_read; lia).
    rewrite Z.sub_diag. rewrite mem_read_slice by lia. unfold access_content.
    rewrite mem_read_shift. f_equal. lia.
  - intros x Hx. rewrite Hm. apply mem_write_out. rewrite length_mem_read. lia.
Qed.

(** ** A concrete BIOS, and the theorems at concrete inputs *)
Definition bios_image (img : Z → Z) : Bios := λ dap disk mem,
  if (number_of_sectors dap <=? 32) && (start_lba dap + number_of_sectors dap <=? 10000) then
    Some (mem_write mem (segment dap * 16 + offset dap)
            (mem_read img (start_lba dap * 512) (number_of_sectors dap * 512)))
  else None.
#[global] Instance bios_image_laws img : BiosLaws (bios_image img).
Proof.
  refine (@Build_BiosLaws (bios_image img) (λ _, img) (λ _, 10000) _).
  intros dap disk mem _ _ [_ Hn] _ _ _ Hs. unfold extended_read, bios_image.
  by rewrite (proj2 (Z.leb_le _ 32) Hn), (proj2 (Z.leb_le _ 10000) Hs).
Defined.
Definition bios_ref : Bios := bios_image (λ x, x / 512 mod 256).
#[global] Instance bios_ref_laws : BiosLaws bios_ref := bios_image_laws _.
Existing Instance bios_ref.

Definition sample_tmp : Buffer := mkBuffer 0x8000 1024.
Definition sample_disk : DiskAccess := mkDiskAccess 0x80 (2048 * 512) (5 * 512).

Lemma sample_access_ok p : 0 ≤ p → access_ok sample_tmp (disk_seek sample_disk p).
Proof. intros. by split_and!. Qed.

Lemma disk_read_exact_bytes_witness :
  returns (disk_read_exact sample_tmp (disk_seek sample_disk 3000) (λ _, 0) 4)
    (λ '(bs, _, _), bs = mem_read (λ x, x / 512 mod 256) (2048 * 512 + 3000) 4).
Proof.
  eapply returns_mono.
  - apply (disk_read_exact_bytes sample_tmp (disk_seek sample_disk 3000) (λ _, 0) 4);
      [by apply sample_access_ok|lia|by vm_compute|by vm_compute].
  - intros [[bs d'] mem'] (Hb & _). exact Hb.
Defined.

Lemma disk_read_exact_into_bytes_witness :
  returns (disk_read_exact_into sample_disk (λ _, 0) 32768 (mkBuffer 0x10000 32768))
    (λ '(_, mem'), mem_read mem' 0x10000 32768 =
       mem_read (λ x, x / 512 mod 256) (2048 * 512 + 5 * 512) 32768).
Proof.
  eapply returns_mono.
  - apply (disk_read_exact_into_bytes sample_tmp sample_disk (λ _, 0) 32768 (mkBuffer 0x10000 32768));
      [by apply (sample_access_ok (5 * 512))|lia|done|done|done|by vm_compute|by vm_compute|by vm_compute].
  - intros [d' mem'] (_ & Hb & _). exact Hb.
Defined.

(** When the position is not at a sector boundary, [read_exact] loads three sectors into its
    static buffer of two: here reading two bytes at offset 600 overwrites the 512 bytes of memory
    behind the buffer. *)
Theorem disk_read_exact_overflows :
  returns (disk_read_exact sample_tmp (disk_seek sample_disk 600) (λ _, 0) 2) (λ '(_, _, mem'),
    ∀ x, buf_addr sample_tmp + buf_len sample_tmp ≤ x < buf_addr sample_tmp + buf_len sample_tmp + 512 →
      mem' x = 3).
Proof.
  unfold disk_read_exact. cbn [disk_seek sample_disk current_offset].
  change (600 mod 512 + 2 <=? buf_len sample_tmp) with true. cbn [assert_ mbind res_bind].
  eapply returns_bind.
  - apply (disk_read_exact_into_spec sample_tmp (disk_seek sample_disk 600) (λ _, 0) 1024 sample_tmp);
      [by apply sample_access_ok|lia|done|done|by vm_compute|done|by vm_compute].
  - intros [d' mem'] [_ Hm]. cbn [returns]. intros x Hx. rewrite Hm. cbn in Hx.
    enough (∀ b b' : Z, Some b = Some b' → b = b') as Hinj; [apply Hinj|by intros ?? [= ->]].
    change (buf_addr sample_tmp) with 0x8000.
    change ((base_offset (disk_seek sample_disk 600) + current_offset (disk_seek sample_disk 600)) / 512) with 2049.
    change ((base_offset (disk_seek sample_disk 600) + current_offset (disk_seek sample_disk 600) + 1024 - 1) / 512 + 1 - 2049) with 3.
    rewrite mem_write_in by (rewrite length_mem_read; lia). rewrite mem_read_lookup by lia. f_equal.
    cbn [disk_byte bios_ref_laws bios_image_laws]. rewrite Z2Nat.id by lia.
    replace (2049 * 512 + (x - 32768)) with (2051 * 512 + (x - 33792)) by lia.
    rewrite Z.add_comm, Z.div_add by lia. rewrite (Z.div_small (x - 33792)) by lia. done.
Qed.

End Disk.
