(* ===== verification/Fat.v ===== *)
(** * The FAT file system driver of stage 2 (bios/stage-2/src/fat.rs)

    A read-only driver that finds a file in the root directory of a FAT12 or
    FAT16 volume and enumerates the clusters of the file. It is generic in the
    disk, the class [Disk.ReadSeek]. Strings are lists of characters (code
    points). *)
From S2P Require Import Prelude Memory Disk.
Import Memory Disk.

Module Fat.

(** ** Decoding of strings ([core::str::from_utf8], [char::decode_utf16]) *)
Definition in_range (lo hi b : Z) : bool := (lo <=? b) && (b <=? hi).
Definition cont (b : Z) : bool := in_range 0x80 0xBF b.

Fixpoint from_utf8 (bs : list Z) : option (list Z) :=
  match bs with
  | [] => Some []
  | b0 :: rest =>
      if b0 <? 0x80 then cons b0 <$> from_utf8 rest else
      match rest with
      | b1 :: rest1 =>
          if in_range 0xC2 0xDF b0 && cont b1
          then cons (Z.lor (Z.shiftl (Z.land b0 0x1F) 6) (Z.land b1 0x3F)) <$> from_utf8 rest1 else
          match rest1 with
          | b2 :: rest2 =>
              if ((b0 =? 0xE0) && in_range 0xA0 0xBF b1 || in_range 0xE1 0xEC b0 && cont b1 ||
                  (b0 =? 0xED) && in_range 0x80 0x9F b1 || in_range 0xEE 0xEF b0 && cont b1) && cont b2
              then cons (Z.lor (Z.shiftl (Z.land b0 0xF) 12)
                           (Z.lor (Z.shiftl (Z.land b1 0x3F) 6) (Z.land b2 0x3F))) <$> from_utf8 rest2 else
              match rest2 with
              | b3 :: rest3 =>
                  if ((b0 =? 0xF0) && in_range 0x90 0xBF b1 || in_range 0xF1 0xF3 b0 && cont b1 ||
                      (b0 =? 0xF4) && in_range 0x80 0x8F b1) && cont b2 && cont b3
                  then cons (Z.lor (Z.shiftl (Z.land b0 0x7) 18) (Z.lor (Z.shiftl (Z.land b1 0x3F) 12)
                               (Z.lor (Z.shiftl (Z.land b2 0x3F) 6) (Z.land b3 0x3F)))) <$> from_utf8 rest3
                  else None
              | [] => None
              end
          | [] => None
          end
      | [] => None
      end
  end.

(** [None] is a [DecodeUtf16Error]: an unpaired surrogate. *)
Fixpoint decode_utf16 (us : list Z) : list (option Z) :=
  match us with
  | [] => []
  | u :: rest =>
      if in_range 0xDC00 0xDFFF u then None :: decode_utf16 rest else
      if in_range 0xD800 0xDBFF u then
        match rest with
        | u2 :: rest2 =>
            if in_range 0xDC00 0xDFFF u2
            then Some (0x10000 + Z.lor (Z.shiftl (Z.land u 0x3FF) 10) (Z.land u2 0x3FF)) ::
                 decode_utf16 rest2
            else None :: decode_utf16 rest
        | [] => [None]
        end
      else Some u :: decode_utf16 rest
  end.

(** [slice.chunks(n)] *)
Fixpoint chunks_fuel {A} (fuel : nat) (n : nat) (l : list A) : list (list A) :=
  match fuel, l with
  | O, _ | _, [] => []
  | S fuel, l => take n l :: chunks_fuel fuel n (drop n l)
  end.
Definition chunks {A} (n : nat) (l : list A) : list (list A) := chunks_fuel (length l) n l.

Fixpoint take_while {A} (f : A → bool) (l : list A) : list A :=
  match l with
  | x :: l => if f x then x :: take_while f l else []
  | [] => []
  end.

(** [uN::from_le_bytes(raw[lo..hi].try_into().unwrap())] *)
Definition le_field (raw : list Z) (lo hi : nat) : res Z :=
  s ← slice_range raw lo hi; Ret (le_num s).

(** ** The BIOS parameter block *)
Definition DIRECTORY_ENTRY_BYTES : Z := 32.
Definition UNUSED_ENTRY_PREFIX : Z := 0xE5.
Definition END_OF_DIRECTORY_PREFIX : Z := 0.

Record File := mkFile {
  first_cluster : Z;
  file_size : Z;
}.

Record Bpb := mkBpb {
  bytes_per_sector : Z;
  sectors_per_cluster : Z;
  reserved_sector_count : Z;
  num_fats : Z;
  root_entry_count : Z;
  total_sectors_16 : Z;
  fat_size_16 : Z;
  total_sectors_32 : Z;
  fat_size_32 : Z;
  root_cluster : Z;
}.

(** [Bpb::parse], from the 512 bytes of the boot sector *)
Definition Bpb_from_raw (raw : list Z) : res Bpb :=
  bytes_per_sector ← le_field raw 11 13;
  sectors_per_cluster ← index raw 13;
  reserved_sector_count ← le_field raw 14 16;
  num_fats ← index raw 16;
  root_entry_count ← le_field raw 17 19;
  fat_size_16 ← le_field raw 22 24;
  total_sectors_16 ← le_field raw 19 21;
  total_sectors_32 ← le_field raw 32 36;
  '(fat_size_32, root_cluster) ←
    (if (total_sectors_16 =? 0) && negb (total_sectors_32 =? 0) then
       fat_size_32 ← le_field raw 36 40;
       root_cluster ← le_field raw 44 48;
       Ret (fat_size_32, root_cluster)
     else if negb (total_sectors_16 =? 0) && (total_sectors_32 =? 0) then Ret (0, 0)
     else Panic "ExactlyOneTotalSectorsFieldMustBeZero");
  Ret (mkBpb bytes_per_sector sectors_per_cluster reserved_sector_count num_fats root_entry_count
         total_sectors_16 fat_size_16 total_sectors_32 fat_size_32 root_cluster).

Inductive FatType := Fat12 | Fat16 | Fat32.
#[global] Instance FatType_eq_dec : EqDecision FatType.
Proof. solve_decision. Defined.

Definition fat_entry_defective (self : FatType) : Z :=
  match self with Fat12 => 0xFF7 | Fat16 => 0xFFF7 | Fat32 => 0x0FFFFFF7 end.

Definition fat_size_in_sectors (self : Bpb) : Z :=
  if negb (fat_size_16 self =? 0) && (fat_size_32 self =? 0) then fat_size_16 self
  else fat_size_32 self.

Definition count_of_clusters (self : Bpb) : res Z :=
  a ← root_entry_count self *[32] 32;
  b ← bytes_per_sector self -! 1;
  c ← a +[32] b;
  root_dir_sectors ← div_u c (bytes_per_sector self);
  let total_sectors :=
    if negb (total_sectors_16 self =? 0) then total_sectors_16 self else total_sectors_32 self in
  f ← num_fats self *[32] fat_size_in_sectors self;
  r ← reserved_sector_count self +[32] f;
  r ← r +[32] root_dir_sectors;
  data_sectors ← total_sectors -! r;
  div_u data_sectors (sectors_per_cluster self).

Definition fat_type (self : Bpb) : res FatType :=
  count_of_clusters ← count_of_clusters self;
  Ret (if count_of_clusters <? 4085 then Fat12
       else if count_of_clusters <? 65525 then Fat16 else Fat32).

Definition root_directory_size (self : Bpb) : res Z :=
  _ ← fat_type self;
  root_entry_count self *[32] DIRECTORY_ENTRY_BYTES.

Definition root_directory_offset (self : Bpb) : res Z :=
  a ← num_fats self *[64] fat_size_16 self;
  b ← reserved_sector_count self +[64] a;
  b *[64] bytes_per_sector self.

Definition maximum_valid_cluster (self : Bpb) : res Z :=
  c ← count_of_clusters self; c +[32] 1.

Definition fat_offset (self : Bpb) : res Z :=
  reserved_sector_count self *[64] bytes_per_sector self.

Definition data_offset (self : Bpb) : res Z :=
  r ← root_directory_size self;
  a ← fat_size_in_sectors self *[64] num_fats self;
  b ← reserved_sector_count self +[64] a;
  c ← b *[64] bytes_per_sector self;
  r +[64] c.

Definition bytes_per_cluster (self : Bpb) : res Z :=
  bytes_per_sector self *[32] sectors_per_cluster self.

(** ** Directory entries *)
Definition READ_ONLY : Z := 0x01.
Definition HIDDEN : Z := 0x02.
Definition SYSTEM : Z := 0x04.
Definition VOLUME_ID : Z := 0x08.
Definition DIRECTORY : Z := 0x10.
Definition LONG_NAME : Z := Z.lor READ_ONLY (Z.lor HIDDEN (Z.lor SYSTEM VOLUME_ID)).

Record RawDirectoryEntryNormal := mkNormal {
  short_filename_main : list Z;
  short_filename_extension : list Z;
  normal_attributes : Z;
  normal_first_cluster : Z;
  normal_file_size : Z;
}.
Record RawDirectoryEntryLongName := mkLongName {
  order : Z;
  name_1 : list Z;
  name_2 : list Z;
  name_3 : list Z;
  long_attributes : Z;
  checksum : Z;
}.
Inductive RawDirectoryEntry :=
  | Normal (entry : RawDirectoryEntryNormal)
  | LongName (entry : RawDirectoryEntryLongName).

(** [RawDirectoryEntryLongName::name] *)
Definition long_name_chars (self : RawDirectoryEntryLongName) : list (option Z) :=
  let units := chunks 2 (name_1 self) ++ chunks 2 (name_2 self) ++ chunks 2 (name_3 self) in
  decode_utf16 (take_while (λ c, negb (c =? 0)) (le_num <$> units)).

(** [iter.position(f)] on a slice iterator: the index and the rest of the iterator. *)
Fixpoint position_from (f : Z → bool) (l : list Z) : option (nat * list Z) :=
  match l with
  | [] => None
  | c :: l => if f c then Some (0%nat, l)
              else (λ '(i, r), (S i, r)) <$> position_from f l
  end.

Definition SKIP_SPACE : Z := 0x20.
Definition slice_to_string (slice : list Z) : res (list Z) :=
  match position_from (λ c, negb (c =? SKIP_SPACE)) slice with
  | Some (start_idx, iter) =>
      let end_idx :=
        (start_idx + match position_from (λ c, (c =? SKIP_SPACE)%Z) iter with
                     | Some (i, _) => i
                     | None => length slice
                     end)%nat in
      s ← slice_range slice start_idx end_idx;
      ok_or (from_utf8 s) ""
  | None => Ret []
  end.

Definition RawDirectoryEntry_parse (raw : list Z) : res RawDirectoryEntry :=
  attributes ← index raw 11;
  if attributes =? LONG_NAME then
    order ← index raw 0;
    name_1 ← slice_range raw 1 11;
    checksum ← index raw 13;
    name_2 ← slice_range raw 14 26;
    name_3 ← slice_range raw 28 32;
    Ret (LongName (mkLongName order name_1 name_2 name_3 attributes checksum))
  else
    m ← slice_range raw 0 8;
    short_filename_main ← slice_to_string m;
    e ← slice_range raw 8 11;
    short_filename_extension ← slice_to_string e;
    first_cluster_hi ← le_field raw 20 22;
    first_cluster_lo ← le_field raw 26 28;
    let first_cluster := Z.lor (Z.shiftl first_cluster_hi 16) first_cluster_lo in
    file_size ← le_field raw 28 32;
    Ret (Normal (mkNormal short_filename_main short_filename_extension attributes first_cluster
                   file_size)).

Definition eq_name (self : RawDirectoryEntry) (name : list Z) : bool :=
  match self with
  | Normal entry => bool_decide (short_filename_main entry ++ short_filename_extension entry = name)
  | LongName entry => bool_decide (long_name_chars entry = Some <$> name)
  end.

Record DirectoryEntry := mkDirectoryEntry {
  short_name : list Z;
  short_name_extension : list Z;
  long_name_1 : list Z;
  long_name_2 : list Z;
  long_name_3 : list Z;
  dir_file_size : Z;
  dir_first_cluster : Z;
  attributes : Z;
}.
Definition is_directory (self : DirectoryEntry) : bool :=
  negb (Z.land (attributes self) DIRECTORY =? 0).

(** The entries that the iterator of [read_root_dir] parses, one after the other. *)
Definition raw_entries (slice : list Z) : list (list Z) :=
  filter (λ raw_entry, raw_entry !! 0%nat ≠ Some UNUSED_ENTRY_PREFIX)
    (take_while (λ raw_entry, bool_decide (raw_entry !! 0%nat ≠ Some END_OF_DIRECTORY_PREFIX))
       (chunks (Z.to_nat DIRECTORY_ENTRY_BYTES) slice)).

(** ** The FAT *)
Inductive FileFatEntry :=
  | AllocatedCluster (cluster : Z)
  | EndOfFile.
Inductive FatLookupError := FreeCluster | DefectiveCluster | UnspecifiedEntryOne | ReservedEntry.

Definition classify_fat_entry (fat_type : FatType) (entry maximum_valid_cluster : Z) :
    FileFatEntry + FatLookupError :=
  if entry =? 0 then inr FreeCluster
  else if entry =? 1 then inr UnspecifiedEntryOne
  else if entry <=? maximum_valid_cluster then inl (AllocatedCluster entry)
  else if entry <? fat_entry_defective fat_type then inr ReservedEntry
  else if entry =? fat_entry_defective fat_type then inr DefectiveCluster
  else inl EndOfFile.

Record Cluster := mkCluster {
  cluster_index : Z;
  start_offset : Z;
  len_bytes : Z;
}.

Section Model.
Context {D : Type} `{RS : ReadSeek D}.

Definition Bpb_parse (disk : D) (mem : Mem) : res (Bpb * D * Mem) :=
  let disk := seek disk 0 in
  '(raw, disk, mem) ← read_exact disk mem 512;
  bpb ← Bpb_from_raw raw;
  Ret (bpb, disk, mem).

Record FileSystem := mkFileSystem {
  disk : D;
  bpb : Bpb;
}.

Definition FileSystem_parse (disk : D) (mem : Mem) : res (FileSystem * Mem) :=
  '(bpb, disk, mem) ← Bpb_parse disk mem;
  Ret (mkFileSystem disk bpb, mem).

Definition fat_entry_of_nth_cluster (disk : D) (mem : Mem) (fat_type : FatType) (fat_start n : Z) :
    res (Z * D * Mem) :=
  match fat_type with
  | Fat32 =>
      base ← n *[64] 4;
      p ← fat_start +[64] base;
      '(buf, disk, mem) ← read_exact (seek disk p) mem 4;
      Ret (Z.land (le_num buf) 0x0FFFFFFF, disk, mem)
  | Fat16 =>
      base ← n *[64] 2;
      p ← fat_start +[64] base;
      '(buf, disk, mem) ← read_exact (seek disk p) mem 2;
      Ret (le_num buf, disk, mem)
  | Fat12 =>
      base ← n +[64] (n / 2);
      p ← fat_start +[64] base;
      '(buf, disk, mem) ← read_exact (seek disk p) mem 2;
      let entry16 := le_num buf in
      Ret (if Z.land n 1 =? 0 then Z.land entry16 0xFFF else Z.shiftr entry16 4, disk, mem)
  end.

Definition read_root_dir (self : FileSystem) (mem : Mem) (buffer : Buffer) :
    res (list (list Z) * FileSystem * Mem) :=
  ty ← fat_type (bpb self);
  match ty with
  | Fat32 => Panic "not implemented"
  | Fat12 | Fat16 =>
      root_directory_size ← root_directory_size (bpb self);
      offset ← root_directory_offset (bpb self);
      let disk := seek (disk self) offset in
      '(disk, mem) ← read_exact_into disk mem root_directory_size buffer;
      Ret (raw_entries (buffer_slice mem buffer), mkFileSystem disk (bpb self), mem)
  end.

(** [.filter_map(|e| e.ok()).next()] and [.find(|e| e.eq_name(name))]: the entry and the rest of
    the iterator. *)
Fixpoint next_entry (raws : list (list Z)) : res (option (RawDirectoryEntry * list (list Z))) :=
  match raws with
  | [] => Ret None
  | raw :: raws =>
      match RawDirectoryEntry_parse raw with
      | Ret e => Ret (Some (e, raws))
      | Err _ => next_entry raws
      | Panic e => Panic e
      end
  end.
Fixpoint find_entry (raws : list (list Z)) (name : list Z) :
    res (option (RawDirectoryEntry * list (list Z))) :=
  match raws with
  | [] => Ret None
  | raw :: raws =>
      match RawDirectoryEntry_parse raw with
      | Ret e => if eq_name e name then Ret (Some (e, raws)) else find_entry raws name
      | Err _ => find_entry raws name
      | Panic e => Panic e
      end
  end.

Definition lookup_file (raws : list (list Z)) (name : list Z) : res (option File) :=
  found ← find_entry raws name;
  match found with
  | None => Ret None
  | Some (raw_entry, root_entries) =>
      entry ←
        match raw_entry with
        | Normal entry =>
            Ret (mkDirectoryEntry (short_filename_main entry) (short_filename_extension entry)
                   [] [] [] (normal_file_size entry) (normal_first_cluster entry)
                   (normal_attributes entry))
        | LongName long_name =>
            next ← next_entry root_entries;
            match next with
            | Some (LongName _, _) => Panic "not implemented"
            | Some (Normal entry, _) =>
                Ret (mkDirectoryEntry (short_filename_main entry) (short_filename_extension entry)
                       (name_1 long_name) (name_2 long_name) (name_3 long_name)
                       (normal_file_size entry) (normal_first_cluster entry)
                       (normal_attributes entry))
            | None => Panic "next none"
            end
        end;
      Ret (if is_directory entry then None
           else Some (mkFile (dir_first_cluster entry) (dir_file_size entry)))
  end.

Definition find_file_in_root_dir (self : FileSystem) (mem : Mem) (name : list Z) (buffer : Buffer) :
    res (option File * FileSystem * Mem) :=
  '(raws, self, mem) ← read_root_dir self mem buffer;
  file ← lookup_file raws name;
  Ret (file, self, mem).

Record Traverser := mkTraverser {
  trav_disk : D;
  current_entry : Z;
  trav_bpb : Bpb;
}.

Definition file_clusters (self : FileSystem) (file : File) : Traverser :=
  mkTraverser (disk self) (first_cluster file) (bpb self).

(** [Traverser::next_cluster]; [Err] is its [Err(())]. *)
Definition next_cluster (self : Traverser) (mem : Mem) : res (option Cluster * Traverser * Mem) :=
  ty ← fat_type (trav_bpb self);
  max ← maximum_valid_cluster (trav_bpb self);
  match classify_fat_entry ty (current_entry self) max with
  | inr _ => Err ""
  | inl EndOfFile => Ret (None, self, mem)
  | inl (AllocatedCluster entry) =>
      d ← data_offset (trav_bpb self);
      e ← entry -! 2;
      b ← bytes_per_cluster (trav_bpb self);
      o ← e *[64] b;
      cluster_start ← d +[64] o;
      fat_start ← fat_offset (trav_bpb self);
      '(next_entry, disk, mem) ←
        fat_entry_of_nth_cluster (trav_disk self) mem ty fat_start entry;
      let index := current_entry self in
      Ret (Some (mkCluster index cluster_start b),
           mkTraverser disk next_entry (trav_bpb self), mem)
  end.

End Model.
Arguments FileSystem D : clear implicits.
Arguments Traverser D : clear implicits.

End Fat.
