(* ===== verification/FatProofs.v ===== *)
(** * Correctness of the FAT driver

    The FAT is decoded correctly (12, 16 and 32 bit entries), the traverser walks
    the chain of a file and stays inside the volume, and a file with a long name
    entry is found in the root directory. *)
From S2P Require Import Prelude Memory Disk Fat.
Import Memory Disk Fat.

Module FatProofs.

(** ** The encoding of the FAT

    The table of a FAT12 volume packs two entries into three bytes. *)
Fixpoint pack12 (table : list Z) : list Z :=
  match table with
  | a :: b :: table => a mod 256 :: a / 256 + 16 * (b mod 16) :: b / 16 :: pack12 table
  | [a] => [a mod 256; a / 256]
  | [] => []
  end.
Definition fat_bytes (ty : FatType) (table : list Z) : list Z :=
  match ty with
  | Fat12 => pack12 table
  | Fat16 => table ≫= le_bytes 2
  | Fat32 => table ≫= le_bytes 4
  end.
Definition entry_bits (ty : FatType) : Z :=
  match ty with Fat12 => 12 | Fat16 => 16 | Fat32 => 28 end.

(** The offset of an entry, the number of bytes read for it, and its value in them. *)
Definition entry_offset (ty : FatType) (n : Z) : Z :=
  match ty with Fat12 => n + n / 2 | Fat16 => n * 2 | Fat32 => n * 4 end.
Definition entry_len (ty : FatType) : Z := match ty with Fat32 => 4 | _ => 2 end.
Definition entry_value (ty : FatType) (n : Z) (bs : list Z) : Z :=
  match ty with
  | Fat12 => if Z.land n 1 =? 0 then Z.land (le_num bs) 0xFFF else Z.shiftr (le_num bs) 4
  | Fat16 => le_num bs
  | Fat32 => Z.land (le_num bs) 0x0FFFFFFF
  end.

Lemma le_bytes_bind_slice k (table : list Z) n e : table !! n = Some e →
  take k (drop (n * k) (table ≫= le_bytes k)) = le_bytes k e.
Proof.
  revert n. induction table as [|x table IH]; intros [|n] Hn; [done..| |];
    change ((x :: table) ≫= le_bytes k) with (le_bytes k x ++ (table ≫= le_bytes k)).
  - injection Hn as ->. rewrite Nat.mul_0_l, drop_0.
    by rewrite take_app_length' by (by rewrite length_le_bytes).
  - cbn [Nat.mul]. rewrite <- drop_drop, drop_app_length' by (by rewrite length_le_bytes). by apply IH.
Qed.

Lemma length_le_bytes_bind k (table : list Z) : length (table ≫= le_bytes k) = (length table * k)%nat.
Proof. induction table as [|x t IH]; cbn; [done|]. rewrite length_app, length_le_bytes. f_equal. exact IH. Qed.

(** Induction over a table in steps of two. *)
Lemma list_pair_ind {A} (P : list A → Prop) :
  P [] → (∀ a, P [a]) → (∀ a b l, P l → P (a :: b :: l)) → ∀ l, P l.
Proof.
  intros H0 H1 H2. enough (∀ l, P l ∧ ∀ a, P (a :: l)) as Hall by apply Hall.
  induction l as [|b l [IH1 IH2]]; split; auto.
Qed.

Lemma pack12_even table k e : table !! (2 * k)%nat = Some e → is_uint 12 e →
  ∃ r, 0 ≤ r < 16 ∧
    pack12 table !! (3 * k)%nat = Some (e mod 256) ∧
    pack12 table !! (3 * k + 1)%nat = Some (e / 256 + 16 * r).
Proof.
  revert k. induction table as [|a|a b table IH] using list_pair_ind; intros k Hk He.
  - done.
  - destruct k as [|k]; [|by rewrite Nat.mul_succ_r, Nat.add_comm in Hk]. cbn in *. simplify_eq.
    exists 0. split_and!; [lia..|done|by rewrite Z.mul_0_r, Z.add_0_r].
  - destruct k as [|k]; cbn [pack12].
    + cbn in Hk. simplify_eq. exists (b mod 16). pose proof (Z.mod_pos_bound b 16).
      split_and!; [lia..|done|done].
    + replace (2 * S k)%nat with (S (S (2 * k))) in Hk by lia. cbn in Hk.
      destruct (IH k Hk He) as (r & ? & H1 & H2). exists r.
      replace (3 * S k)%nat with (S (S (S (3 * k)))) by lia. done.
Qed.

Lemma pack12_odd table k e : table !! (2 * k + 1)%nat = Some e → is_uint 12 e →
  (∀ x, x ∈ table → is_uint 12 x) →
  ∃ lo, 0 ≤ lo < 16 ∧
    pack12 table !! (3 * k + 1)%nat = Some (lo + 16 * (e mod 16)) ∧
    pack12 table !! (3 * k + 2)%nat = Some (e / 16).
Proof.
  revert k. induction table as [|a|a b table IH] using list_pair_ind; intros k Hk He Hall.
  - done.
  - replace (2 * k + 1)%nat with (S (2 * k)) in Hk by lia. done.
  - destruct k as [|k]; cbn [pack12].
    + cbn in Hk. simplify_eq. exists (a / 256). split_and!; [| |done..].
      * apply Z.div_pos; [|lia]. apply (Hall a). by left.
      * apply Z.div_lt_upper_bound; [lia|]. apply (Hall a). by left.
    + replace (2 * S k + 1)%nat with (S (S (2 * k + 1))) in Hk by lia. cbn in Hk.
      destruct (IH k Hk He) as (lo & ? & H1 & H2); [intros x Hx; apply Hall; by do 2 right|].
      exists lo. replace (3 * S k + 1)%nat with (S (S (S (3 * k + 1)))) by lia.
      replace (3 * S k + 2)%nat with (S (S (S (3 * k + 2)))) by lia. done.
Qed.

Lemma slice_two {A} (l : list A) i x y : l !! i = Some x → l !! (i + 1)%nat = Some y →
  take 2 (drop i l) = [x; y].
Proof.
  intros Hx Hy. rewrite (drop_S l x i Hx). cbn. f_equal.
  replace (i + 1)%nat with (S i) in Hy by lia. by rewrite (drop_S l y (S i) Hy).
Qed.

(** Each entry can be read back from its bytes in the table. *)
Lemma fat_bytes_entry ty table n e :
  (∀ x, x ∈ table → is_uint (entry_bits ty) x) → table !! Z.to_nat n = Some e → 0 ≤ n →
  entry_value ty n
    (take (Z.to_nat (entry_len ty)) (drop (Z.to_nat (entry_offset ty n)) (fat_bytes ty table))) = e.
Proof.
  intros Hall Hn H0. assert (is_uint (entry_bits ty) e) as He by (eapply Hall, list_elem_of_lookup_2; done).
  destruct ty; cbn [entry_len entry_offset fat_bytes entry_value entry_bits] in *.
  - change (Z.to_nat 2) with 2%nat. unfold is_uint in He. change (Z.land n 1) with (Z.land n (Z.ones 1)). rewrite Z.land_ones by lia.
    change (2 ^ 1) with 2. pose proof (Z.div_mod n 2 ltac:(lia)) as Hd.
    pose proof (Z.mod_pos_bound n 2 ltac:(lia)).
    assert (0 ≤ n / 2) by (apply Z.div_pos; lia).
    change 4095 with (Z.ones 12). rewrite Z.land_ones, Z.shiftr_div_pow2 by lia.
    destruct (Z.eqb_spec (n mod 2) 0) as [Hm|Hm].
    + destruct (pack12_even table (Z.to_nat (n / 2)) e) as (r & Hr & Hb1 & Hb2);
        [by replace (2 * Z.to_nat (n / 2))%nat with (Z.to_nat n) by lia|done|].
      replace (Z.to_nat (n + n / 2)) with (3 * Z.to_nat (n / 2))%nat by lia.
      rewrite (slice_two _ _ _ _ Hb1 Hb2). cbn [le_num].
      pose proof (Z.div_mod e 256 ltac:(lia)).
      symmetry. apply Z.mod_unique with (q := r); lia.
    + destruct (pack12_odd table (Z.to_nat (n / 2)) e) as (lo & Hlo & Hb1 & Hb2);
        [by replace (2 * Z.to_nat (n / 2) + 1)%nat with (Z.to_nat n) by lia|done|done|].
      replace (Z.to_nat (n + n / 2)) with (3 * Z.to_nat (n / 2) + 1)%nat by lia.
      rewrite (slice_two _ _ (lo + 16 * (e mod 16)) (e / 16)); [|done|by replace (3 * Z.to_nat (n / 2) + 1 + 1)%nat with (3 * Z.to_nat (n / 2) + 2)%nat by lia].
      cbn [le_num]. pose proof (Z.div_mod e 16 ltac:(lia)).
      symmetry. apply Z.div_unique with (r := lo); lia.
  - replace (Z.to_nat (n * 2)) with (Z.to_nat n * 2)%nat by lia. change (Z.to_nat 2) with 2%nat.
    rewrite (le_bytes_bind_slice 2 table _ e Hn). by apply le_num_le_bytes.
  - replace (Z.to_nat (n * 4)) with (Z.to_nat n * 4)%nat by lia. change (Z.to_nat 4) with 4%nat.
    rewrite (le_bytes_bind_slice 4 table _ e Hn). unfold is_uint in He.
    rewrite le_num_le_bytes by lia. change 268435455 with (Z.ones 28).
    rewrite Z.land_ones by lia. apply Z.mod_small. lia.
Qed.

Lemma entry_offset_bound ty table n : 0 ≤ n < Z.of_nat (length table) →
  (ty = Fat12 → Nat.Even (length table)) →
  0 ≤ entry_offset ty n ∧ entry_offset ty n + entry_len ty ≤ Z.of_nat (length (fat_bytes ty table)).
Proof.
  intros Hn Hev. destruct ty; cbn [entry_len entry_offset fat_bytes].
  - assert (∀ k l, length l = (2 * k)%nat → length (pack12 l) = (3 * k)%nat) as Hlen.
    { induction k as [|k IH]; intros l Hl; [by destruct l|].
      destruct l as [|a [|b l]]; cbn [length] in Hl; try lia. cbn [pack12 length]. rewrite (IH l); lia. }
    destruct (Hev eq_refl) as [k Hk]. rewrite (Hlen k table Hk). rewrite Hk in Hn.
    pose proof (Z.div_mod n 2 ltac:(lia)). pose proof (Z.mod_pos_bound n 2 ltac:(lia)). lia.
  - rewrite length_le_bytes_bind. lia.
  - rewrite length_le_bytes_bind. lia.
Qed.

(** ** The geometry of a volume *)
Definition total_sectors (b : Bpb) : Z :=
  if negb (total_sectors_16 b =? 0) then total_sectors_16 b else total_sectors_32 b.
Definition root_sectors (b : Bpb) : Z :=
  (root_entry_count b * 32 + (bytes_per_sector b - 1)) / bytes_per_sector b.
Definition system_sectors (b : Bpb) : Z :=
  reserved_sector_count b + num_fats b * fat_size_in_sectors b + root_sectors b.
Definition clusters (b : Bpb) : Z := (total_sectors b - system_sectors b) / sectors_per_cluster b.
Definition data_start (b : Bpb) : Z :=
  root_entry_count b * 32 +
  (reserved_sector_count b + fat_size_in_sectors b * num_fats b) * bytes_per_sector b.
Definition cluster_bytes (b : Bpb) : Z := bytes_per_sector b * sectors_per_cluster b.
Definition cluster_start (b : Bpb) (c : Z) : Z := data_start b + (c - 2) * cluster_bytes b.
Definition type_of_count (n : Z) : FatType :=
  if n <? 4085 then Fat12 else if n <? 65525 then Fat16 else Fat32.

(** A parameter block whose fields fit their types, with a non-empty sector and cluster size
    and a system area that fits into the volume. *)
Record bpb_ok (b : Bpb) : Prop := {
  ok_bytes : 0 < bytes_per_sector b < 2 ^ 16;
  ok_cluster : 0 < sectors_per_cluster b < 2 ^ 8;
  ok_reserved : 1 ≤ reserved_sector_count b < 2 ^ 16;
  ok_fats : is_uint 8 (num_fats b);
  ok_root : is_uint 16 (root_entry_count b);
  ok_total_16 : is_uint 16 (total_sectors_16 b);
  ok_total_32 : is_uint 32 (total_sectors_32 b);
  ok_fat_16 : is_uint 16 (fat_size_16 b);
  ok_fat_32 : is_uint 32 (fat_size_32 b);
  ok_system : system_sectors b ≤ total_sectors b;
}.

Lemma fat_size_bound b : bpb_ok b → 0 ≤ fat_size_in_sectors b < 2 ^ 32.
Proof.
  intros Hb. pose proof (ok_fat_16 b Hb). pose proof (ok_fat_32 b Hb).
  unfold fat_size_in_sectors, is_uint in *. destruct (_ && _); lia.
Qed.
Lemma total_bound b : bpb_ok b → 0 ≤ total_sectors b < 2 ^ 32.
Proof.
  intros Hb. pose proof (ok_total_16 b Hb). pose proof (ok_total_32 b Hb).
  unfold total_sectors, is_uint in *. destruct (negb _); lia.
Qed.
Lemma root_sectors_bound b : bpb_ok b →
  0 ≤ root_sectors b ∧ root_entry_count b * 32 ≤ root_sectors b * bytes_per_sector b.
Proof.
  intros Hb. pose proof (ok_bytes b Hb). pose proof (ok_root b Hb). unfold root_sectors, is_uint in *.
  split; [apply Z.div_pos; lia|].
  pose proof (Z.div_mod (root_entry_count b * 32 + (bytes_per_sector b - 1)) (bytes_per_sector b)).
  pose proof (Z.mod_pos_bound (root_entry_count b * 32 + (bytes_per_sector b - 1)) (bytes_per_sector b)). lia.
Qed.

Lemma count_of_clusters_ok b : bpb_ok b → count_of_clusters b = Ret (clusters b).
Proof.
  intros Hb. pose proof (fat_size_bound b Hb). pose proof (total_bound b Hb).
  destruct (root_sectors_bound b Hb) as [Hr _]. destruct Hb. unfold is_uint, system_sectors in *.
  unfold count_of_clusters. rewrite (mul_u_ok 32 (root_entry_count b) 32) by lia. cbn [mbind res_bind].
  rewrite (sub_u_ok (bytes_per_sector b) 1) by lia. cbn [mbind res_bind].
  rewrite (add_u_ok 32 (root_entry_count b * 32)) by lia. cbn [mbind res_bind].
  rewrite (div_u_ok _ (bytes_per_sector b)) by lia. cbn [mbind res_bind]. fold (root_sectors b).
  rewrite (mul_u_ok 32 (num_fats b)) by nia. cbn [mbind res_bind].
  rewrite (add_u_ok 32 (reserved_sector_count b)) by nia. cbn [mbind res_bind].
  rewrite add_u_ok by nia. cbn [mbind res_bind]. fold (total_sectors b).
  rewrite sub_u_ok by lia. cbn [mbind res_bind]. rewrite div_u_ok by lia. done.
Qed.

Lemma clusters_bound b : bpb_ok b →
  0 ≤ clusters b < 2 ^ 32 - 1 ∧
  clusters b * sectors_per_cluster b + system_sectors b ≤ total_sectors b.
Proof.
  intros Hb. pose proof (total_bound b Hb). pose proof (ok_system b Hb) as Hs.
  pose proof (ok_cluster b Hb). destruct (root_sectors_bound b Hb) as [Hr _].
  pose proof (fat_size_bound b Hb). pose proof (ok_fats b Hb). pose proof (ok_reserved b Hb).
  assert (1 ≤ system_sectors b) by (unfold system_sectors, is_uint in *; nia).
  assert (0 ≤ clusters b) by (apply Z.div_pos; lia).
  pose proof (Z.mul_div_le (total_sectors b - system_sectors b) (sectors_per_cluster b)) as Hm.
  fold (clusters b) in Hm. split; [|lia]. nia.
Qed.

Lemma fat_type_ok b : bpb_ok b → fat_type b = Ret (type_of_count (clusters b)).
Proof. intros Hb. unfold fat_type. by rewrite count_of_clusters_ok. Qed.

Lemma maximum_valid_cluster_ok b : bpb_ok b → maximum_valid_cluster b = Ret (clusters b + 1).
Proof.
  intros Hb. pose proof (clusters_bound b Hb). unfold maximum_valid_cluster.
  rewrite count_of_clusters_ok by done. cbn. by rewrite add_u_ok by lia.
Qed.

Lemma root_directory_size_ok b : bpb_ok b → root_directory_size b = Ret (root_entry_count b * 32).
Proof.
  intros Hb. pose proof (ok_root b Hb). unfold root_directory_size, is_uint in *.
  rewrite fat_type_ok by done. cbn. unfold DIRECTORY_ENTRY_BYTES. by rewrite mul_u_ok by lia.
Qed.

Lemma bytes_per_cluster_ok b : bpb_ok b → bytes_per_cluster b = Ret (cluster_bytes b) ∧ 0 < cluster_bytes b < 2 ^ 24.
Proof.
  intros Hb. pose proof (ok_bytes b Hb). pose proof (ok_cluster b Hb).
  unfold bytes_per_cluster, cluster_bytes. rewrite mul_u_ok by nia. split; [done|nia].
Qed.

Lemma fat_offset_ok b : bpb_ok b → fat_offset b = Ret (reserved_sector_count b * bytes_per_sector b).
Proof.
  intros Hb. pose proof (ok_bytes b Hb). pose proof (ok_reserved b Hb). unfold fat_offset.
  by rewrite mul_u_ok by nia.
Qed.

(** The system area in bytes is at most [2^48], so the 64-bit offsets do not overflow. *)
Lemma system_bytes b : bpb_ok b →
  0 ≤ data_start b ≤ system_sectors b * bytes_per_sector b ∧
  system_sectors b * bytes_per_sector b < 2 ^ 48.
Proof.
  intros Hb. pose proof (total_bound b Hb). pose proof (ok_system b Hb). pose proof (ok_bytes b Hb).
  destruct (root_sectors_bound b Hb) as [Hr1 Hr2]. pose proof (fat_size_bound b Hb).
  pose proof (ok_fats b Hb). pose proof (ok_reserved b Hb). pose proof (ok_root b Hb).
  unfold data_start, system_sectors, is_uint in *. nia.
Qed.

Lemma data_offset_ok b : bpb_ok b → data_offset b = Ret (data_start b).
Proof.
  intros Hb. pose proof (system_bytes b Hb) as Hsb. pose proof (total_bound b Hb).
  pose proof (ok_system b Hb). pose proof (ok_bytes b Hb).
  destruct (root_sectors_bound b Hb) as [Hr1 Hr2]. pose proof (fat_size_bound b Hb).
  pose proof (ok_fats b Hb). pose proof (ok_reserved b Hb). pose proof (ok_root b Hb).
  unfold data_offset. rewrite root_directory_size_ok by done. cbn [mbind res_bind].
  unfold data_start, system_sectors, is_uint in *.
  rewrite (mul_u_ok 64 (fat_size_in_sectors b)) by nia. cbn [mbind res_bind].
  rewrite (add_u_ok 64 (reserved_sector_count b)) by nia. cbn [mbind res_bind].
  rewrite mul_u_ok by nia. cbn [mbind res_bind]. by rewrite add_u_ok by nia.
Qed.

(** The bytes of a valid cluster lie behind the system area and inside the volume. *)
Lemma cluster_in_volume b c : bpb_ok b → 2 ≤ c ≤ clusters b + 1 →
  data_start b ≤ cluster_start b c ∧
  cluster_start b c + cluster_bytes b ≤ total_sectors b * bytes_per_sector b ∧
  total_sectors b * bytes_per_sector b < 2 ^ 48.
Proof.
  intros Hb Hc. destruct (clusters_bound b Hb) as [Hn Htot]. pose proof (total_bound b Hb).
  pose proof (system_bytes b Hb) as [Hd _]. pose proof (ok_bytes b Hb).
  destruct (bytes_per_cluster_ok b Hb) as [_ Hcb].
  unfold cluster_start. split_and!; [nia| |nia].
  assert ((c - 2) * cluster_bytes b + cluster_bytes b ≤ clusters b * cluster_bytes b) by nia.
  assert (clusters b * cluster_bytes b = clusters b * sectors_per_cluster b * bytes_per_sector b)
    by (unfold cluster_bytes; ring).
  assert (clusters b * sectors_per_cluster b * bytes_per_sector b ≤
    (total_sectors b - system_sectors b) * bytes_per_sector b) by nia. lia.
Qed.

(** ** Walking the chain of a file *)
Section Chain.
Context {D : Type} `{HS : ReadSeekLaws D}.

(** The disk is usable, with the same contents, and only scratch memory has changed. *)
Definition disk_step (d d' : D) (mem mem' : Mem) : Prop :=
  disk_inv d' ∧ content d' = content d ∧ size d' = size d ∧ ∀ x, ¬ scratch x → mem' x = mem x.

(** The FAT of the volume holds the given table, with an entry for every cluster. *)
Record fat_on_disk (d : D) (b : Bpb) (ty : FatType) (table : list Z) : Prop := {
  fat_read : mem_read (content d) (reserved_sector_count b * bytes_per_sector b)
               (Z.of_nat (length (fat_bytes ty table))) = fat_bytes ty table;
  fat_entries x : x ∈ table → is_uint (entry_bits ty) x;
  fat_length : clusters b + 2 ≤ Z.of_nat (length table);
  fat_even : ty = Fat12 → Nat.Even (length table);
  fat_space : reserved_sector_count b * bytes_per_sector b +
                Z.of_nat (length (fat_bytes ty table)) + 1536 ≤ size d;
  fat_small : Z.of_nat (length table) < 2 ^ 40;
}.

Lemma read_entry d b ty table mem n : disk_inv d → bpb_ok b → fat_on_disk d b ty table →
  0 ≤ n < Z.of_nat (length table) →
  let p := reserved_sector_count b * bytes_per_sector b + entry_offset ty n in
  p < 2 ^ 64 ∧ n * 4 < 2 ^ 64 ∧
  returns (read_exact (seek d p) mem (entry_len ty)) (λ '(bs, d', mem'),
    table !! Z.to_nat n = Some (entry_value ty n bs) ∧ disk_step d d' mem mem').
Proof.
  intros Hd Hb Hf Hn p. destruct (entry_offset_bound ty table n Hn (fat_even _ _ _ _ Hf)) as [Ho1 Ho2].
  pose proof (fat_space _ _ _ _ Hf) as Hsp. pose proof (fat_small _ _ _ _ Hf) as Hsm.
  pose proof (ok_bytes b Hb). pose proof (ok_reserved b Hb).
  assert (0 ≤ reserved_sector_count b * bytes_per_sector b < 2 ^ 32) as Hst by nia.
  assert (entry_offset ty n ≤ n * 4) by (destruct ty; cbn; [|lia|lia];
    pose proof (Z.div_le_upper_bound n 2 n ltac:(lia) ltac:(lia)); lia).
  split_and!; [lia|lia|].
  destruct (seek_spec d p Hd ltac:(lia)) as (Hi & Hp & Hc & Hs).
  assert (0 ≤ entry_len ty ≤ 4) by (destruct ty; cbn; lia).
  eapply returns_mono; [apply read_exact_spec; rewrite ?Hp, ?Hs|].
  - done.
  - lia.
  - pose proof (Z.mod_pos_bound p 512). lia.
  - lia.
  - intros [[bs d'] mem'] (-> & Hi' & Hc' & Hs' & Hm'). rewrite Hc, Hp. split.
    + destruct (lookup_lt_is_Some_2 table (Z.to_nat n)) as [e He]; [lia|]. rewrite He. f_equal.
      rewrite <- (fat_bytes_entry ty table n e); [|apply Hf|done|lia]. f_equal.
      rewrite <- (fat_read _ _ _ _ Hf), mem_read_slice by lia. done.
    + split_and!; [done|congruence|congruence|done].
Qed.

Lemma fat_entry_spec d b ty table mem n : disk_inv d → bpb_ok b → fat_on_disk d b ty table →
  0 ≤ n < Z.of_nat (length table) →
  returns (fat_entry_of_nth_cluster d mem ty (reserved_sector_count b * bytes_per_sector b) n)
    (λ '(e, d', mem'), table !! Z.to_nat n = Some e ∧ disk_step d d' mem mem').
Proof.
  intros Hd Hb Hf Hn. destruct (read_entry d b ty table mem n Hd Hb Hf Hn) as (Hp & Hn4 & Hr).
  pose proof (ok_bytes b Hb). pose proof (ok_reserved b Hb).
  destruct ty; cbn [fat_entry_of_nth_cluster entry_offset entry_len entry_value] in *.
  - assert (0 ≤ n / 2 ≤ n) by (split; [apply Z.div_pos|apply Z.div_le_upper_bound]; lia).
    rewrite add_u_ok by lia. cbn [mbind res_bind]. rewrite add_u_ok by lia. cbn [mbind res_bind].
    eapply returns_bind; [exact Hr|]. intros [[bs d'] mem'] [? ?]. done.
  - rewrite mul_u_ok by lia. cbn [mbind res_bind]. rewrite add_u_ok by lia. cbn [mbind res_bind].
    eapply returns_bind; [exact Hr|]. intros [[bs d'] mem'] [? ?]. done.
  - rewrite mul_u_ok by lia. cbn [mbind res_bind]. rewrite add_u_ok by lia. cbn [mbind res_bind].
    eapply returns_bind; [exact Hr|]. intros [[bs d'] mem'] [? ?]. done.
Qed.

(** The chain of clusters that begins with the entry [e]: each cluster is valid, the table
    gives the next one, and the last is followed by an end-of-file mark. *)
Inductive chain (ty : FatType) (max : Z) (table : list Z) : Z → list Z → Prop :=
  | chain_end e : classify_fat_entry ty e max = inl EndOfFile → chain ty max table e []
  | chain_next c e cs :
      classify_fat_entry ty c max = inl (AllocatedCluster c) →
      table !! Z.to_nat c = Some e → chain ty max table e cs → chain ty max table c (c :: cs).

Lemma classify_allocated ty e max c : classify_fat_entry ty e max = inl (AllocatedCluster c) →
  c = e ∧ e ≠ 0 ∧ e ≠ 1 ∧ e ≤ max.
Proof.
  unfold classify_fat_entry. destruct (Z.eqb_spec e 0), (Z.eqb_spec e 1); try done.
  destruct (Z.leb_spec e max); [by intros [= <-]|].
  destruct (_ <? _); [done|]. by destruct (_ =? _).
Qed.

Lemma chain_head ty max table e c cs : chain ty max table e (c :: cs) → 0 ≤ e →
  c = e ∧ 2 ≤ c ≤ max.
Proof.
  intros Hch H0. inversion Hch as [|c' e' cs' Hcl]; subst.
  apply classify_allocated in Hcl. lia.
Qed.

(** The entry determines its chain. *)
Lemma chain_functional ty max table e cs cs' : chain ty max table e cs → chain ty max table e cs' → cs = cs'.
Proof.
  intros H. revert cs'. induction H as [e He|c e cs Hc He H IH]; intros cs' H'; inversion H'; subst; try congruence.
  f_equal. apply IH. congruence.
Qed.
Lemma chain_suffix ty max table e cs c : chain ty max table e cs → c ∈ cs → ∃ cs1 cs2, cs = cs1 ++ c :: cs2 ∧ chain ty max table c (c :: cs2).
Proof.
  intros H. induction H as [e He|c' e cs Hc He H IH]; intros Hin; [by apply elem_of_nil in Hin|].
  destruct (decide (c = c')) as [->|Hne].
  - exists [], cs. split; [done|]. by econstructor.
  - apply elem_of_cons in Hin as [?|Hin]; [done|]. destruct (IH Hin) as (cs1 & cs2 & -> & Hch). by exists (c' :: cs1), cs2.
Qed.
(** A chain that ends visits no cluster twice, and so at most all clusters of the volume. *)
Lemma chain_NoDup ty max table e cs : chain ty max table e cs → NoDup cs.
Proof.
  intros H. induction H as [e He|c e cs Hc He H IH]; constructor; [|done]. intros Hin.
  destruct (chain_suffix _ _ _ _ _ _ H Hin) as (cs1 & cs2 & -> & Hch).
  pose proof (chain_functional _ _ _ _ _ _ Hch (chain_next ty max table c e _ Hc He H)) as E. injection E as E.
  apply (f_equal length) in E. rewrite length_app in E. cbn in E. lia.
Qed.
Lemma chain_range ty max table e cs : (∀ x, x ∈ table → 0 ≤ x) → 0 ≤ e → chain ty max table e cs → ∀ c, c ∈ cs → 2 ≤ c ≤ max.
Proof.
  intros Ht H0 H. induction H as [e He|c e cs Hc He H IH]; intros x Hin; [by apply elem_of_nil in Hin|].
  apply elem_of_cons in Hin as [->|Hin]; [apply classify_allocated in Hc; lia|].
  apply IH; [|done]. apply Ht. by eapply list_elem_of_lookup_2.
Qed.
Lemma chain_length ty max table e cs : (∀ x, x ∈ table → 0 ≤ x) → 0 ≤ e → chain ty max table e cs → (length cs ≤ Z.to_nat (max - 1))%nat.
Proof.
  intros Ht H0 H. pose proof (chain_range _ _ _ _ _ Ht H0 H) as Hr.
  rewrite <- (length_seqZ 2 (max - 1)). apply submseteq_length, NoDup_submseteq; [by eapply chain_NoDup|].
  intros c Hc%Hr. apply elem_of_seqZ. lia.
Qed.

Lemma next_cluster_spec (t : Traverser D) b ty table mem cs : trav_bpb t = b → bpb_ok b →
  type_of_count (clusters b) = ty → disk_inv (trav_disk t) → fat_on_disk (trav_disk t) b ty table →
  0 ≤ current_entry t → chain ty (clusters b + 1) table (current_entry t) cs →
  returns (next_cluster t mem) (λ '(o, t', mem'),
    trav_bpb t' = b ∧ disk_step (trav_disk t) (trav_disk t') mem mem' ∧
    match cs with
    | [] => o = None ∧ t' = t
    | c :: cs' => o = Some (mkCluster c (cluster_start b c) (cluster_bytes b)) ∧
        0 ≤ current_entry t' ∧ chain ty (clusters b + 1) table (current_entry t') cs'
    end).
Proof.
  intros Htb Hb Hty Hd Hf H0 Hch. unfold next_cluster. rewrite Htb.
  rewrite fat_type_ok, maximum_valid_cluster_ok, Hty by done. cbn [mbind res_bind].
  destruct Hch as [e He|c e cs Hc He Hch].
  { rewrite He. cbn. by split_and!. }
  rewrite Hc. destruct (classify_allocated _ _ _ _ Hc) as (_ & ? & ? & Hmax).
  pose proof (fat_length _ _ _ _ Hf) as Hlen.
  destruct (cluster_in_volume b c Hb ltac:(lia)) as (Hc1 & Hc2 & Hc3).
  destruct (bytes_per_cluster_ok b Hb) as [Hbc Hbcb]. pose proof (system_bytes b Hb) as [Hds _].
  unfold cluster_start in *.
  rewrite data_offset_ok by done. cbn [mbind res_bind]. rewrite sub_u_ok by lia. cbn [mbind res_bind].
  rewrite Hbc. cbn [mbind res_bind]. rewrite mul_u_ok by lia. cbn [mbind res_bind].
  rewrite add_u_ok by lia. cbn [mbind res_bind]. rewrite fat_offset_ok by done. cbn [mbind res_bind].
  eapply returns_bind; [by apply (fat_entry_spec (trav_disk t) b ty table mem c); [..|lia]|].
  intros [[e' d'] mem'] [He' Hstep]. cbn. rewrite He in He'. injection He' as <-.
  split_and!; try done. apply (fat_entries _ _ _ _ Hf e), (list_elem_of_lookup_2 _ _ _ He).
Qed.

Lemma disk_step_fat d d' mem mem' b ty table :
  disk_step d d' mem mem' → fat_on_disk d b ty table → fat_on_disk d' b ty table.
Proof. intros (_ & Hc & Hs & _) [? ? ? ? ? ?]. split; rewrite ?Hc, ?Hs; done. Qed.

End Chain.

(** ** Directory entries

    The 32 bytes of a long name entry (one piece of up to 13 characters) and of a normal
    entry. *)
Definition lfn_units (name : list Z) : list Z := take 13 (name ++ 0 :: replicate 13 0xFFFF).
Definition lfn_entry (ord cks : Z) (name : list Z) : list Z :=
  let us := lfn_units name in
  [ord] ++ (take 5 us ≫= le_bytes 2) ++ [LONG_NAME; 0; cks] ++
  (take 6 (drop 5 us) ≫= le_bytes 2) ++ [0; 0] ++ (drop 11 us ≫= le_bytes 2).
Definition normal_entry (main ext : list Z) (attr : Z) (times1 times2 : list Z) (cluster size : Z) : list Z :=
  main ++ ext ++ [attr] ++ times1 ++ le_bytes 2 (cluster / 2 ^ 16) ++ times2 ++
  le_bytes 2 (cluster mod 2 ^ 16) ++ le_bytes 4 size.

(** The characters of a name that one entry can hold: not zero and outside of the surrogates. *)
Definition simple_char (c : Z) : Prop := 0 < c < 0xD800.
(** A code unit of UTF-16 that is not the terminator. *)
Definition name_unit (c : Z) : Prop := 0 < c < 2 ^ 16.
Lemma simple_units name : Forall simple_char name → Forall name_unit name.
Proof. intros H. eapply Forall_impl; [exact H|]. unfold simple_char, name_unit. lia. Qed.

Lemma chunks_le_bytes (us : list Z) : Forall (is_uint 16) us →
  le_num <$> chunks 2 (us ≫= le_bytes 2) = us.
Proof.
  intros Hu. unfold chunks.
  enough (∀ fuel, (length (us ≫= le_bytes 2) ≤ fuel)%nat →
    le_num <$> chunks_fuel fuel 2 (us ≫= le_bytes 2) = us) as Hall by (by apply Hall).
  induction Hu as [|u us Huu _ IH]; intros fuel Hf.
  - by destruct fuel.
  - change ((u :: us) ≫= le_bytes 2) with (le_bytes 2 u ++ (us ≫= le_bytes 2)) in *.
    rewrite length_app, length_le_bytes in Hf. destruct fuel as [|fuel]; [lia|].
    cbn [chunks_fuel]. destruct (le_bytes 2 u ++ _) as [|x l] eqn:E; [done|]. rewrite <- E.
    rewrite take_app_length', drop_app_length' by (by rewrite length_le_bytes).
    rewrite fmap_cons, IH by lia. f_equal. by apply le_num_le_bytes.
Qed.

Lemma take_while_app (f : Z → bool) l x r : Forall (λ c, f c = true) l → f x = false →
  take_while f (l ++ x :: r) = l.
Proof. induction 1 as [|c l Hc _ IH]; intros Hx; cbn; [by rewrite Hx|]. rewrite Hc. f_equal. auto. Qed.
Lemma take_while_all (f : Z → bool) l : Forall (λ c, f c = true) l → take_while f l = l.
Proof. induction 1 as [|c l Hc _ IH]; cbn; [done|]. by rewrite Hc, IH. Qed.

Lemma decode_utf16_simple name : Forall simple_char name → decode_utf16 name = Some <$> name.
Proof.
  induction 1 as [|c l Hc _ IH]; [done|]. unfold simple_char in Hc. cbn [decode_utf16].
  unfold in_range. destruct (Z.leb_spec 0xDC00 c); [lia|]. destruct (Z.leb_spec 0xD800 c); [lia|].
  cbn. by rewrite IH.
Qed.

Lemma lfn_units_spec name : Forall name_unit name → (length name ≤ 13)%nat →
  Forall (is_uint 16) (lfn_units name) ∧ length (lfn_units name) = 13%nat ∧
  take_while (λ c, negb (c =? 0)) (lfn_units name) = name.
Proof.
  intros Hn Hl. assert (Forall (λ c, negb (c =? 0) = true) name) as Hnz.
  { eapply Forall_impl; [done|]. unfold name_unit. intros c Hc. destruct (Z.eqb_spec c 0); [lia|done]. }
  unfold lfn_units. split_and!.
  - apply Forall_take, Forall_app. split.
    + eapply Forall_impl; [exact Hn|]. unfold name_unit, is_uint. lia.
    + constructor; [done|]. apply Forall_replicate. done.
  - rewrite length_take, length_app. cbn [length]. rewrite length_replicate. lia.
  - destruct (decide (length name = 13)%nat) as [He|Hne].
    + rewrite take_app_length' by done. by apply take_while_all.
    + rewrite take_app_ge by lia. destruct (13 - length name)%nat as [|k] eqn:Hk; [lia|].
      cbn [take]. by apply take_while_app.
Qed.

Lemma slice_app3 (a b c : list Z) lo hi : length a = lo → hi = (lo + length b)%nat →
  slice_range (a ++ b ++ c) lo hi = Ret b.
Proof.
  intros <- ->. unfold slice_range. rewrite decide_True by (rewrite !length_app; lia).
  rewrite drop_app_length. replace (length a + length b - length a)%nat with (length b) by lia.
  by rewrite take_app_length.
Qed.

Lemma index_app (a c : list Z) x i : length a = i → index (a ++ x :: c) i = Ret x.
Proof. intros <-. unfold index. by rewrite list_lookup_middle. Qed.

Lemma length_units k (us : list Z) : length us = k → length (us ≫= le_bytes 2) = (2 * k)%nat.
Proof. intros <-. rewrite length_le_bytes_bind. lia. Qed.

(** A long name entry is parsed back to its part of a name. *)
Lemma lfn_parse_units ord cks name : Forall name_unit name → (length name ≤ 13)%nat →
  ∃ e, RawDirectoryEntry_parse (lfn_entry ord cks name) = Ret (LongName e) ∧
    long_name_chars e = decode_utf16 name.
Proof.
  intros Hn Hl. destruct (lfn_units_spec name Hn Hl) as (Hu & Hlen & Htw).
  unfold lfn_entry. set (us := lfn_units name) in *.
  set (n1 := take 5 us ≫= le_bytes 2). set (n2 := take 6 (drop 5 us) ≫= le_bytes 2).
  set (n3 := drop 11 us ≫= le_bytes 2).
  assert (length n1 = 10%nat) as H1 by (apply (length_units 5); rewrite length_take; lia).
  assert (length n2 = 12%nat) as H2 by (apply (length_units 6); rewrite length_take, length_drop; lia).
  assert (length n3 = 4%nat) as H3 by (apply (length_units 2); rewrite length_drop; lia).
  exists (mkLongName ord n1 n2 n3 LONG_NAME cks). split.
  - set (raw := [ord] ++ n1 ++ [LONG_NAME; 0; cks] ++ n2 ++ [0; 0] ++ n3).
    assert (index raw 11 = Ret LONG_NAME) as E11
      by (unfold raw; rewrite app_assoc; apply index_app; rewrite length_app, H1; done).
    assert (slice_range raw 1 11 = Ret n1) as E1
      by (apply (slice_app3 [ord] n1); rewrite ?H1; done).
    assert (raw = ([ord] ++ n1 ++ [LONG_NAME; 0]) ++ cks :: n2 ++ [0; 0] ++ n3) as Hr13
      by (unfold raw; by rewrite <- !app_assoc).
    assert (index raw 13 = Ret cks) as E13
      by (rewrite Hr13; apply index_app; rewrite !length_app, H1; done).
    assert (raw = ([ord] ++ n1 ++ [LONG_NAME; 0; cks]) ++ n2 ++ [0; 0] ++ n3) as Hr14
      by (unfold raw; by rewrite <- !app_assoc).
    assert (slice_range raw 14 26 = Ret n2) as E14
      by (rewrite Hr14; apply slice_app3; rewrite ?length_app, ?H1, ?H2; done).
    assert (raw = ([ord] ++ n1 ++ [LONG_NAME; 0; cks] ++ n2 ++ [0; 0]) ++ n3 ++ []) as Hr28
      by (unfold raw; by rewrite <- !app_assoc, app_nil_r).
    assert (slice_range raw 28 32 = Ret n3) as E28
      by (rewrite Hr28; apply slice_app3; rewrite ?length_app, ?H1, ?H2, ?H3; done).
    unfold RawDirectoryEntry_parse. rewrite E11. cbn [mbind res_bind]. rewrite Z.eqb_refl.
    change (index raw 0) with (Ret ord). cbn [mbind res_bind].
    by rewrite E1, E13, E14, E28.
  - unfold long_name_chars. cbn [name_1 name_2 name_3]. rewrite !fmap_app.
    unfold n1, n2, n3. rewrite !chunks_le_bytes by auto using Forall_take, Forall_drop.
    assert (take 5 us ++ take 6 (drop 5 us) ++ drop 11 us = us) as ->.
    { replace (drop 11 us) with (drop 6 (drop 5 us)) by (by rewrite drop_drop).
      by rewrite (take_drop 6), take_drop. }
    by rewrite Htw.
Qed.
Lemma lfn_parse ord cks name : Forall simple_char name → (length name ≤ 13)%nat →
  ∃ e, RawDirectoryEntry_parse (lfn_entry ord cks name) = Ret (LongName e) ∧
    long_name_chars e = Some <$> name.
Proof.
  intros Hn Hl. destruct (lfn_parse_units ord cks name (simple_units _ Hn) Hl) as (e & He & Hc).
  exists e. split; [done|]. by rewrite Hc, decode_utf16_simple.
Qed.

Lemma join_cluster c : is_uint 32 c → Z.lor (Z.shiftl (c / 2 ^ 16) 16) (c mod 2 ^ 16) = c.
Proof.
  intros _. rewrite <- Z.shiftr_div_pow2, <- Z.land_ones by lia.
  rewrite <- Z.ldiff_ones_r by lia. apply Z.lor_ldiff_and.
Qed.

Lemma normal_parse main ext attr t1 t2 cluster size m e :
  length main = 8%nat → length ext = 3%nat → length t1 = 8%nat → length t2 = 4%nat →
  attr ≠ LONG_NAME → is_uint 32 cluster → is_uint 32 size →
  slice_to_string main = Ret m → slice_to_string ext = Ret e →
  RawDirectoryEntry_parse (normal_entry main ext attr t1 t2 cluster size) =
    Ret (Normal (mkNormal m e attr cluster size)).
Proof.
  intros Hm He Ht1 Ht2 Hat Hc Hs Hsm Hse. unfold normal_entry, RawDirectoryEntry_parse, le_field.
  unfold is_uint in Hc, Hs.
  pose proof (length_le_bytes 2 (cluster / 2 ^ 16)) as Lh.
  pose proof (length_le_bytes 2 (cluster mod 2 ^ 16)) as Ll. pose proof (length_le_bytes 4 size) as Ls.
  assert (0 ≤ cluster / 2 ^ 16 < 2 ^ 16) by (split; [apply Z.div_pos|apply Z.div_lt_upper_bound]; lia).
  pose proof (Z.mod_pos_bound cluster (2 ^ 16) ltac:(lia)).
  set (hi := le_bytes 2 (cluster / 2 ^ 16)) in *. set (lo := le_bytes 2 (cluster mod 2 ^ 16)) in *.
  set (sz := le_bytes 4 size) in *.
  set (raw := main ++ ext ++ [attr] ++ t1 ++ hi ++ t2 ++ lo ++ sz).
  assert (index raw 11 = Ret attr) as E11
    by (unfold raw; rewrite app_assoc; apply index_app; rewrite length_app, Hm, He; done).
  assert (slice_range raw 0 8 = Ret main) as E0
    by (apply (slice_app3 [] main); rewrite ?Hm; done).
  assert (slice_range raw 8 11 = Ret ext) as E8
    by (apply (slice_app3 main ext); rewrite ?Hm, ?He; done).
  assert (raw = (main ++ ext ++ [attr] ++ t1) ++ hi ++ t2 ++ lo ++ sz) as Hr20
    by (unfold raw; by rewrite <- !app_assoc).
  assert (slice_range raw 20 22 = Ret hi) as E20
    by (rewrite Hr20; apply slice_app3; rewrite ?length_app, ?Hm, ?He, ?Ht1, ?Lh; done).
  assert (raw = (main ++ ext ++ [attr] ++ t1 ++ hi ++ t2) ++ lo ++ sz) as Hr26
    by (unfold raw; by rewrite <- !app_assoc).
  assert (slice_range raw 26 28 = Ret lo) as E26
    by (rewrite Hr26; apply slice_app3; rewrite ?length_app, ?Hm, ?He, ?Ht1, ?Lh, ?Ht2, ?Ll; done).
  assert (raw = (main ++ ext ++ [attr] ++ t1 ++ hi ++ t2 ++ lo) ++ sz ++ []) as Hr28
    by (unfold raw; by rewrite <- !app_assoc, app_nil_r).
  assert (slice_range raw 28 32 = Ret sz) as E28
    by (rewrite Hr28; apply slice_app3; rewrite ?length_app, ?Hm, ?He, ?Ht1, ?Lh, ?Ht2, ?Ll, ?Ls; done).
  rewrite E11. cbn [mbind res_bind]. destruct (Z.eqb_spec attr LONG_NAME) as [|_]; [done|].
  rewrite E0. cbn [mbind res_bind]. rewrite Hsm, E8. cbn [mbind res_bind]. rewrite Hse, E20, E26, E28.
  cbn [mbind res_bind]. unfold hi, lo, sz.
  rewrite !le_num_le_bytes by (done || lia). by rewrite join_cluster.
Qed.

(** ** Finding a file in the root directory *)

(** An entry that a search for [name] passes over: deleted, unreadable, or of another name. *)
Definition skips (name raw : list Z) : Prop :=
  length raw = 32%nat ∧ raw !! 0%nat ≠ Some END_OF_DIRECTORY_PREFIX ∧
  (raw !! 0%nat = Some UNUSED_ENTRY_PREFIX ∨
   match RawDirectoryEntry_parse raw with
   | Ret e => eq_name e name = false
   | Err _ => True
   | Panic _ => False
   end).

(** The first byte of an entry that is in use. *)
Definition in_use (raw : list Z) : Prop :=
  raw !! 0%nat ≠ Some END_OF_DIRECTORY_PREFIX ∧ raw !! 0%nat ≠ Some UNUSED_ENTRY_PREFIX.

Lemma chunks_fuel_cons (x : list Z) l fuel : length x = 32%nat → (32 + length l ≤ fuel)%nat →
  chunks_fuel fuel 32 (x ++ l) = x :: chunks_fuel (fuel - 1) 32 l.
Proof.
  intros Hx Hf. destruct fuel as [|fuel]; [lia|]. cbn [chunks_fuel].
  destruct (x ++ l) as [|y r] eqn:E; [by destruct x|]. rewrite <- E.
  rewrite take_app_length', drop_app_length' by done. by rewrite Nat.sub_1_r.
Qed.

(** More fuel than the length of the list changes nothing. *)
Lemma chunks_fuel_more (fuel fuel' : nat) (l : list Z) : (length l ≤ fuel)%nat → (length l ≤ fuel')%nat →
  chunks_fuel fuel 32 l = chunks_fuel fuel' 32 l.
Proof.
  revert fuel' l. induction fuel as [|fuel IH]; intros [|fuel'] l Hf Hf'; [done| | |].
  - destruct l; [done|cbn in *; lia].
  - destruct l; [done|cbn in *; lia].
  - destruct l as [|x l]; [done|]. cbn [chunks_fuel]. f_equal. apply IH; rewrite length_drop; cbn in *; lia.
Qed.

Lemma raw_entries_cons x l : length x = 32%nat → x !! 0%nat ≠ Some END_OF_DIRECTORY_PREFIX →
  raw_entries (x ++ l) =
    if bool_decide (x !! 0%nat = Some UNUSED_ENTRY_PREFIX) then raw_entries l else x :: raw_entries l.
Proof.
  intros Hx Hend. unfold raw_entries, chunks. change (Z.to_nat DIRECTORY_ENTRY_BYTES) with 32%nat.
  rewrite chunks_fuel_cons by (rewrite ?length_app, ?Hx; lia).
  rewrite (chunks_fuel_more _ (length l)) by (rewrite ?length_app, ?Hx; lia).
  cbn [take_while]. rewrite bool_decide_true by done. rewrite filter_cons.
  by case_bool_decide; [rewrite decide_False by tauto|rewrite decide_True].
Qed.

Lemma find_entry_skip name pre l : Forall (skips name) pre →
  find_entry (raw_entries (mjoin pre ++ l)) name = find_entry (raw_entries l) name.
Proof.
  induction 1 as [|x pre (Hx & Hend & Hs) _ IH]; [done|].
  cbn [mjoin list_join]. rewrite <- app_assoc, raw_entries_cons by done.
  destruct (bool_decide_reflect (x !! 0%nat = Some UNUSED_ENTRY_PREFIX)) as [_|Hne]; [exact IH|].
  destruct Hs as [?|Hs]; [done|]. cbn [find_entry].
  destruct (RawDirectoryEntry_parse x) as [e| |]; [|exact IH|done]. rewrite Hs. exact IH.
Qed.

Lemma length_lfn_entry ord cks name : Forall name_unit name → (length name ≤ 13)%nat →
  length (lfn_entry ord cks name) = 32%nat.
Proof.
  intros Hn Hl. destruct (lfn_units_spec name Hn Hl) as (_ & Hlen & _). unfold lfn_entry.
  rewrite !length_app, !length_le_bytes_bind, !length_take, !length_drop, Hlen. done.
Qed.

Lemma length_normal_entry main ext attr t1 t2 cluster size :
  length main = 8%nat → length ext = 3%nat → length t1 = 8%nat → length t2 = 4%nat →
  length (normal_entry main ext attr t1 t2 cluster size) = 32%nat.
Proof.
  intros H1 H2 H3 H4. unfold normal_entry. rewrite !length_app, !length_le_bytes, H1, H2, H3, H4. done.
Qed.

Lemma raw_entries_in_use x l : length x = 32%nat → in_use x → raw_entries (x ++ l) = x :: raw_entries l.
Proof. intros Hx [H1 H2]. rewrite raw_entries_cons by done. by rewrite bool_decide_false. Qed.

(** A file with a long name entry of its own, behind entries that are passed over. *)
Lemma lookup_file_spec name pre ord cks main ext attr t1 t2 cluster size post m e :
  Forall (skips name) pre → Forall simple_char name → (length name ≤ 13)%nat →
  length main = 8%nat → length ext = 3%nat → length t1 = 8%nat → length t2 = 4%nat →
  attr ≠ LONG_NAME → is_uint 32 cluster → is_uint 32 size →
  slice_to_string main = Ret m → slice_to_string ext = Ret e →
  in_use [ord] → in_use main →
  lookup_file
    (raw_entries (mjoin pre ++ lfn_entry ord cks name ++
                  normal_entry main ext attr t1 t2 cluster size ++ post)) name =
    Ret (if Z.land attr DIRECTORY =? 0 then Some (mkFile cluster size) else None).
Proof.
  intros Hpre Hn Hl Hm He Ht1 Ht2 Hat Hc Hs Hsm Hse Huo Hum.
  destruct (lfn_parse ord cks name Hn Hl) as (le & Hle & Hchars).
  unfold lookup_file. rewrite find_entry_skip by done.
  rewrite raw_entries_in_use by (done || by apply length_lfn_entry, Hl; apply simple_units).
  assert (in_use (normal_entry main ext attr t1 t2 cluster size)) as Hun.
  { unfold normal_entry. destruct main; [done|]. exact Hum. }
  rewrite raw_entries_in_use by (done || by apply length_normal_entry).
  cbn [find_entry]. rewrite Hle. cbn [eq_name].
  rewrite bool_decide_true by done. cbn [mbind res_bind next_entry].
  rewrite (normal_parse main ext attr t1 t2 cluster size m e) by done. cbn [mbind res_bind].
  unfold is_directory. cbn [attributes dir_first_cluster dir_file_size normal_attributes
    normal_first_cluster normal_file_size].
  by destruct (Z.land attr DIRECTORY =? 0).
Qed.

(** C36: A file that has a long name entry (a name of up to 13 characters, outside of the
    surrogates) is found by that name wherever it is in the root directory: the result is the
    first cluster and the size in the normal entry that follows the long name entry, or nothing
    if the entry is a directory. *)
Theorem lookup_file_long_name name pre ord cks main ext attr t1 t2 cluster size post m e :
  Forall (skips name) pre → Forall simple_char name → (length name ≤ 13)%nat →
  length main = 8%nat → length ext = 3%nat → length t1 = 8%nat → length t2 = 4%nat →
  attr ≠ LONG_NAME → is_uint 32 cluster → is_uint 32 size →
  slice_to_string main = Ret m → slice_to_string ext = Ret e →
  in_use [ord] → in_use main →
  lookup_file
    (raw_entries (mjoin pre ++ lfn_entry ord cks name ++
                  normal_entry main ext attr t1 t2 cluster size ++ post)) name =
    Ret (if Z.land attr DIRECTORY =? 0 then Some (mkFile cluster size) else None).
Proof. apply lookup_file_spec. Qed.

(** A name that no entry before the end of the directory has is not found, and the search does
    not fail. *)
Lemma lookup_file_absent name pre post : Forall (skips name) pre →
  (post = [] ∨ post !! 0%nat = Some END_OF_DIRECTORY_PREFIX) →
  lookup_file (raw_entries (mjoin pre ++ post)) name = Ret None.
Proof.
  intros Hpre Hpost. unfold lookup_file. rewrite find_entry_skip by done.
  enough (raw_entries post = []) as -> by done.
  destruct Hpost as [->|Hp]; [done|]. destruct post as [|x post]; [done|]. injection Hp as ->.
  unfold raw_entries, chunks. cbn [length chunks_fuel take_while]. done.
Qed.

(** C35: The value read for entry [n] of the FAT is the entry of the table that is stored on the
    disk, for the three encodings (12 bits packed, 16 bits, 28 of 32 bits); the disk is left
    usable and only the scratch memory of the disk driver is written. *)
Theorem fat_entry_of_nth_cluster_decodes {D : Type} `{HS : ReadSeekLaws D} (d : D) b ty table mem n :
  disk_inv d → bpb_ok b → fat_on_disk d b ty table → 0 ≤ n < Z.of_nat (length table) →
  returns (fat_entry_of_nth_cluster d mem ty (reserved_sector_count b * bytes_per_sector b) n)
    (λ '(e, d', mem'), table !! Z.to_nat n = Some e ∧ disk_step d d' mem mem').
Proof. apply fat_entry_spec. Qed.

(** C26: The traverser walks the chain of a file: each call returns the next cluster of the chain
    and advances to its successor, or reports the end of the file. The bytes of the returned
    cluster lie behind the root directory and inside of the volume. *)
Theorem next_cluster_follows_chain {D : Type} `{HS : ReadSeekLaws D} (t : Traverser D) b ty table mem cs :
  trav_bpb t = b → bpb_ok b → type_of_count (clusters b) = ty →
  disk_inv (trav_disk t) → fat_on_disk (trav_disk t) b ty table →
  0 ≤ current_entry t → chain ty (clusters b + 1) table (current_entry t) cs →
  returns (next_cluster t mem) (λ '(o, t', mem'),
    match cs with
    | [] => o = None ∧ t' = t
    | c :: cs' => ∃ s, o = Some (mkCluster c s (cluster_bytes b)) ∧
        data_start b ≤ s ∧ s + cluster_bytes b ≤ total_sectors b * bytes_per_sector b ∧
        s = data_start b + (c - 2) * cluster_bytes b ∧
        chain ty (clusters b + 1) table (current_entry t') cs'
    end).
Proof.
  intros Htb Hb Hty Hd Hf H0 Hch. eapply returns_mono; [by apply (next_cluster_spec t b ty table mem cs)|].
  intros [[o t'] mem'] (_ & _ & Hcs). destruct cs as [|c cs]; [done|].
  destruct Hcs as (-> & _ & Hch'). destruct (chain_head _ _ _ _ _ _ Hch H0) as [_ Hc].
  exists (cluster_start b c). destruct (cluster_in_volume b c Hb Hc) as (? & ? & _). done.
Qed.

(** ** A concrete volume

    FAT12 with 8 clusters of 512 bytes, one FAT and a root directory of 512 entries. *)
Definition sample_bpb : Bpb := mkBpb 512 1 1 1 512 42 1 0 0 0.
Definition sample_table : list Z := [0xFF8; 0xFFF; 3; 5; 0; 0xFFF; 0; 0; 0; 0].
(** "kernel" *)
Definition sample_name : list Z := [107; 101; 114; 110; 101; 108].
Definition sample_main : list Z := [75; 69; 82; 78; 69; 76; 32; 32].
Definition sample_lfn : list Z := lfn_entry 0x41 0 sample_name.
Definition sample_normal : list Z :=
  normal_entry sample_main [32; 32; 32] 0x20 (replicate 8 0) (replicate 4 0) 2 1400.
(** A deleted entry comes first. *)
Definition sample_deleted : list Z := 0xE5 :: replicate 31 0x41.
Definition sample_dir : list Z := sample_deleted ++ sample_lfn ++ sample_normal ++ replicate 32 0.
Definition sample_image : Z → Z :=
  mem_write (mem_write (λ x, x mod 251) 512 (fat_bytes Fat12 sample_table)) 1024 sample_dir.

Lemma sample_bpb_ok : bpb_ok sample_bpb.
Proof. split; vm_compute; done || by split. Qed.
Lemma sample_skips : Forall (skips sample_name) [sample_deleted].
Proof. constructor; [|done]. split_and!; [done|done|by left]. Qed.
Lemma sample_chain : chain Fat12 (clusters sample_bpb + 1) sample_table 2 [2; 3; 5].
Proof. repeat (eapply chain_next; [by vm_compute|by vm_compute|]). apply chain_end. by vm_compute. Qed.
Lemma sample_simple : Forall simple_char sample_name.
Proof. unfold sample_name, simple_char. repeat constructor. Qed.

Lemma lookup_file_long_name_witness :
  lookup_file (raw_entries sample_dir) sample_name = Ret (Some (mkFile 2 1400)).
Proof.
  change sample_dir with (mjoin [sample_deleted] ++ lfn_entry 0x41 0 sample_name ++
    normal_entry sample_main [32; 32; 32] 0x20 (replicate 8 0) (replicate 4 0) 2 1400 ++ replicate 32 0).
  exact (lookup_file_long_name sample_name [sample_deleted] 0x41 0 sample_main [32; 32; 32] 0x20
    (replicate 8 0) (replicate 4 0) 2 1400 (replicate 32 0) [75; 69; 82; 78; 69] []
    sample_skips sample_simple ltac:(cbn; lia) eq_refl eq_refl eq_refl eq_refl ltac:(done)
    ltac:(by vm_compute) ltac:(by vm_compute) ltac:(by vm_compute) ltac:(by vm_compute)
    ltac:(by split) ltac:(by split)).
Defined.

Lemma lookup_file_absent_witness :
  lookup_file (raw_entries (mjoin [sample_deleted] ++ replicate 32 0)) sample_name = Ret None.
Proof.
  exact (lookup_file_absent sample_name [sample_deleted] (replicate 32 0) sample_skips
    (or_intror eq_refl)).
Defined.

Section Sample.
Local Existing Instance bios_image.
Local Instance sample_read_seek : ReadSeek DiskAccess :=
  disk_access_read_seek (B := bios_image sample_image) sample_tmp.
Local Instance sample_laws : ReadSeekLaws DiskAccess :=
  disk_access_laws (B := bios_image sample_image) sample_tmp.
Definition sample_volume : DiskAccess := mkDiskAccess 0x80 0 0.

Lemma sample_fat_on_disk : fat_on_disk sample_volume sample_bpb Fat12 sample_table.
Proof.
  split; try (by vm_compute).
  - intros x Hx. assert (Forall (is_uint 12) sample_table) as Hall
      by (unfold sample_table; repeat (apply Forall_cons; split; [by vm_compute|]); done).
    rewrite Forall_forall in Hall. by apply Hall.
  - intros _. by exists 5%nat.
Qed.
Lemma sample_disk_inv : disk_inv sample_volume.
Proof. by split_and!. Qed.

Lemma fat_entry_of_nth_cluster_decodes_witness :
  returns (fat_entry_of_nth_cluster sample_volume (λ _, 0) Fat12 512 3) (λ '(e, _, _), e = 5).
Proof.
  eapply returns_mono.
  - apply (fat_entry_of_nth_cluster_decodes sample_volume sample_bpb Fat12 sample_table (λ _, 0) 3
      sample_disk_inv sample_bpb_ok sample_fat_on_disk). by vm_compute.
  - intros [[e d'] mem'] [He _]. by injection He.
Defined.

Lemma next_cluster_follows_chain_witness :
  returns (next_cluster (mkTraverser sample_volume 2 sample_bpb) (λ _, 0)) (λ '(o, _, _),
    ∃ s, o = Some (mkCluster 2 s 512)).
Proof.
  eapply returns_mono.
  - apply (next_cluster_follows_chain (mkTraverser sample_volume 2 sample_bpb) sample_bpb Fat12
      sample_table (λ _, 0) [2; 3; 5] eq_refl sample_bpb_ok eq_refl sample_disk_inv
      sample_fat_on_disk); [done|exact sample_chain].
  - intros [[o t'] mem'] (s & Ho & _). by exists s.
Defined.
End Sample.

(** ** Short names *)
Lemma position_from_space l r pad : Forall (λ c, c ≠ SKIP_SPACE) l → (0 < pad)%nat →
  ∃ r', position_from (λ c, (c =? SKIP_SPACE)%Z) (l ++ replicate pad SKIP_SPACE ++ r) = Some (length l, r').
Proof.
  intros Hl Hp. induction Hl as [|c l Hc _ [r' IH]].
  - destruct pad as [|pad]; [lia|]. by eexists.
  - exists r'. cbn [app position_from]. destruct (Z.eqb_spec c SKIP_SPACE); [done|]. by rewrite IH.
Qed.
Lemma position_from_none l : Forall (λ c, c ≠ SKIP_SPACE) l →
  position_from (λ c, (c =? SKIP_SPACE)%Z) l = None.
Proof.
  induction 1 as [|c l Hc _ IH]; [done|]. cbn [position_from].
  destruct (Z.eqb_spec c SKIP_SPACE); [done|]. by rewrite IH.
Qed.
Lemma from_utf8_ascii l : Forall (λ c, c < 0x80) l → from_utf8 l = Some l.
Proof.
  induction 1 as [|c l Hc _ IH]; [done|]. cbn [from_utf8].
  destruct (Z.ltb_spec c 0x80); [|lia]. by rewrite IH.
Qed.

(** The name of a short entry loses its last character when it is padded with spaces (the
    position of the padding is counted from the character behind the first), and a name that
    starts with a space and fills its field makes the driver panic. *)
Theorem slice_to_string_truncates name pad :
  name ≠ [] → Forall (λ c, 0x20 < c < 0x80) name → (0 < pad)%nat →
  slice_to_string (name ++ replicate pad SKIP_SPACE) = Ret (take (length name - 1) name) ∧
  ∃ msg, slice_to_string (SKIP_SPACE :: name) = Panic msg.
Proof.
  intros Hne Hn Hpad. destruct name as [|c name]; [done|].
  assert (Forall (λ c, c ≠ SKIP_SPACE) name) as Hsp.
  { apply Forall_cons in Hn as [_ Hn]. eapply Forall_impl; [exact Hn|]. unfold SKIP_SPACE. intros; lia. }
  assert ((c =? SKIP_SPACE) = false) as Hc.
  { apply Forall_cons in Hn as [Hn _]. unfold SKIP_SPACE. lia. }
  split.
  - destruct (position_from_space name [] pad Hsp Hpad) as [r' Hr]. rewrite app_nil_r in Hr.
    unfold slice_to_string. cbn [app position_from]. rewrite Hc. cbn [negb]. rewrite Hr. cbn [Nat.add].
    unfold slice_range. cbn [length]. rewrite decide_True by (rewrite length_app; lia).
    rewrite drop_0, Nat.sub_0_r, app_comm_cons, take_app_le by (cbn; lia). cbn [mbind res_bind length].
    rewrite from_utf8_ascii; [by rewrite Nat.sub_succ, Nat.sub_0_r|].
    apply Forall_take. eapply Forall_impl; [exact Hn|]. intros x Hx; cbv beta in *; lia.
  - unfold slice_to_string. cbn [position_from]. rewrite Z.eqb_refl, Hc. cbn [negb fmap option_fmap option_map].
    rewrite position_from_none by done. unfold slice_range.
    cbn [length]. rewrite decide_False by lia. by eexists.
Qed.

Lemma slice_to_string_truncates_witness :
  slice_to_string ([70; 79; 79] ++ replicate 5 SKIP_SPACE) = Ret [70; 79].
Proof.
  exact (proj1 (slice_to_string_truncates [70; 79; 79] 5 ltac:(done)
    ltac:(repeat constructor) ltac:(lia))).
Defined.

End FatProofs.
