(* ===== verification/Stage2.v ===== *)
(** * Loading files in stage 2 (bios/stage-2/src/main.rs, protected_mode.rs)

    The second stage copies the clusters of a file, through a buffer below 1 MiB,
    to its destination in high memory. Pointers are 32-bit values. *)
From S2P Require Import Prelude Memory Disk Fat FatProofs.
Import Memory Disk Fat FatProofs.

Module Stage2.

(** [ptr.wrapping_add(n)] *)
Definition wrapping_add (ptr n : Z) : Z := wrap_u 32 (ptr + n).

(** [read_from_protected_mode] *)
Definition read_from_protected_mode (mem : Mem) (ptr : Z) : Z := mem ptr.

(** [copy_to_protected_mode], from the byte at [offset] on *)
Fixpoint copy_to_protected_mode (mem : Mem) (target offset : Z) (bytes : list Z) : res Mem :=
  match bytes with
  | [] => Ret mem
  | byte :: bytes =>
      let dst := wrapping_add target offset in
      let mem := mem_write mem dst [byte] in
      assert_ (read_from_protected_mode mem dst =? byte) "assertion `left == right` failed";;
      copy_to_protected_mode mem target (offset + 1) bytes
  end.

Section Model.
Context {D : Type} `{RS : ReadSeek D}.

(** The loop over the parts of one cluster, of at most the size of the buffer each; one step of
    fuel is enough for each byte of the cluster. *)
Fixpoint load_parts (fuel : nat) (disk : D) (mem : Mem) (disk_buffer : Buffer) (dst : Z)
    (cluster_start cluster_end offset total_offset : Z) : res (D * Mem * Z) :=
  match fuel with
  | O => Panic "out of fuel"
  | S fuel =>
      range_start ← cluster_start +[64] offset;
      if cluster_end <=? range_start then Ret (disk, mem, total_offset) else
      e ← range_start +[64] (buf_len disk_buffer);
      let range_end := Z.min e cluster_end in
      len ← range_end -! range_start;
      let disk := seek disk range_start in
      '(disk, mem) ← read_exact_into disk mem (buf_len disk_buffer) disk_buffer;
      len32 ← expect_some (try_from_u 32 len) "called `Result::unwrap()` on an `Err` value";
      slice ← slice_range (buffer_slice mem disk_buffer) 0 (Z.to_nat len32);
      mem ← copy_to_protected_mode mem (wrapping_add dst total_offset) 0 slice;
      let written := read_from_protected_mode mem (wrapping_add dst total_offset) in
      first ← index slice 0;
      assert_ (first =? written) "assertion `left == right` failed";;
      offset ← offset +[64] len;
      total_offset ← total_offset +[32] len32;
      load_parts fuel disk mem disk_buffer dst cluster_start cluster_end offset total_offset
  end.

(** [for cluster in fs.file_clusters(&file)]: one step of fuel for each cluster and one for the
    end of the chain. *)
Fixpoint load_clusters (fuel : nat) (t : Traverser D) (disk : D) (mem : Mem) (disk_buffer : Buffer)
    (dst total_offset : Z) : res (Traverser D * D * Mem * Z) :=
  match fuel with
  | O => Panic "out of fuel"
  | S fuel =>
      '(o, t, mem) ← expect_ok (next_cluster t mem) "called `Result::unwrap()` on an `Err` value";
      match o with
      | None => Ret (t, disk, mem, total_offset)
      | Some cluster =>
          let cluster_start := start_offset cluster in
          cluster_end ← cluster_start +[64] len_bytes cluster;
          '(disk, mem, total_offset) ←
            load_parts (S (Z.to_nat (len_bytes cluster))) disk mem disk_buffer dst
              cluster_start cluster_end 0 total_offset;
          load_clusters fuel t disk mem disk_buffer dst total_offset
      end
  end.

Definition try_load_file (fuel : nat) (file_name : list Z) (dst : Z) (fs : FileSystem D) (disk : D)
    (mem : Mem) (disk_buffer : Buffer) : res (option Z * FileSystem D * D * Mem) :=
  '(file, fs, mem) ← find_file_in_root_dir fs mem file_name disk_buffer;
  match file with
  | None => Ret (None, fs, disk, mem)
  | Some file =>
      let size := file_size file in
      '(t, disk, mem, _) ← load_clusters fuel (file_clusters fs file) disk mem disk_buffer dst 0;
      Ret (Some size, mkFileSystem (trav_disk t) (bpb fs), disk, mem)
  end.

Definition load_file (fuel : nat) (file_name : list Z) (dst : Z) (fs : FileSystem D) (disk : D)
    (mem : Mem) (disk_buffer : Buffer) : res (Z * FileSystem D * D * Mem) :=
  '(o, fs, disk, mem) ← try_load_file fuel file_name dst fs disk mem disk_buffer;
  size ← expect_some o "file not found";
  Ret (size, fs, disk, mem).

End Model.

(** ** Correctness *)
Lemma copy_to_protected_mode_spec mem target offset bytes : 0 ≤ target → 0 ≤ offset →
  target + offset + Z.of_nat (length bytes) ≤ 2 ^ 32 →
  returns (copy_to_protected_mode mem target offset bytes) (λ mem',
    ∀ x, mem' x = mem_write mem (target + offset) bytes x).
Proof.
  revert mem offset. induction bytes as [|b bytes IH]; intros mem offset Ht Ho Hl.
  { cbn. intros x. by rewrite mem_write_nil. }
  cbn [copy_to_protected_mode]. unfold wrapping_add, wrap_u. cbn [length] in Hl.
  rewrite Z.mod_small by lia. set (dst := target + offset).
  assert (mem_write mem dst [b] dst = b) as Hw.
  { enough (Some (mem_write mem dst [b] dst) = Some b) by congruence.
    rewrite mem_write_in by (cbn; lia). by rewrite Z.sub_diag. }
  unfold read_from_protected_mode. rewrite Hw, Z.eqb_refl. cbn [assert_ mbind res_bind].
  eapply returns_mono; [apply IH; lia|]. intros mem' Hm x. rewrite Hm.
  replace (target + (offset + 1)) with (dst + Z.of_nat (length [b])) by (unfold dst; cbn; lia).
  by rewrite mem_write_app.
Qed.

Section Proofs.
Context {D : Type} `{HS : ReadSeekLaws D}.

(** Memory outside of the buffer, the scratch area and the first [n] bytes at [dst] is kept. *)
Definition keeps_outside (buf : Buffer) (dst n : Z) (mem mem' : Mem) : Prop :=
  ∀ x, ¬ scratch x → ¬ (buf_addr buf ≤ x < buf_addr buf + buf_len buf) →
    ¬ (dst ≤ x < dst + n) → mem' x = mem x.

(** Where the pieces are: the buffer and the destination do not overlap, and the scratch area
    is disjoint from the destination. *)
Record layout_ok (buf : Buffer) (dst n : Z) : Prop := {
  lay_buf : 0 ≤ buf_addr buf ∧ buf_addr buf + buf_len buf ≤ 2 ^ 20;
  lay_len : buf_len buf mod 512 = 0 ∧ 512 ≤ buf_len buf;
  lay_dst : buf_addr buf + buf_len buf ≤ dst ∧ dst + n < 2 ^ 32;
  lay_scratch x : dst ≤ x < dst + n → ¬ scratch x;
}.

Lemma load_parts_spec fuel d mem buf dst n b c offset total :
  disk_inv d → layout_ok buf dst n → bpb_ok b →
  0 ≤ cluster_start b c → cluster_start b c mod 512 = 0 → cluster_bytes b mod 512 = 0 →
  cluster_start b c + cluster_bytes b < 2 ^ 48 →
  cluster_start b c + cluster_bytes b + buf_len buf ≤ size d →
  0 ≤ offset ≤ cluster_bytes b → offset mod 512 = 0 → 0 ≤ total →
  total + (cluster_bytes b - offset) ≤ n → (Z.to_nat (cluster_bytes b - offset) < fuel)%nat →
  returns (load_parts fuel d mem buf dst (cluster_start b c) (cluster_start b c + cluster_bytes b)
             offset total)
    (λ '(d', mem', total'), disk_inv d' ∧ content d' = content d ∧ size d' = size d ∧
       total' = total + (cluster_bytes b - offset) ∧
       mem_read mem' (dst + total) (cluster_bytes b - offset) =
         mem_read (content d) (cluster_start b c + offset) (cluster_bytes b - offset) ∧
       ∀ x, ¬ (buf_addr buf ≤ x < buf_addr buf + buf_len buf) →
         ¬ (dst + total ≤ x < dst + total + (cluster_bytes b - offset)) → mem' x = mem x).
Proof.
  intros Hd Hlay Hb H0 Hcm Hbm Hov Hsz. revert d mem offset total Hd Hsz.
  induction fuel as [|fuel IH]; intros d mem offset total Hd Hsz Ho Hom Ht Hn Hf; [lia|].
  destruct (lay_buf _ _ _ Hlay) as [Hb0 Hb1]. destruct (lay_len _ _ _ Hlay) as [Hl1 Hl2].
  destruct (lay_dst _ _ _ Hlay) as [Hd1 Hd2].
  set (cs := cluster_start b c) in *. set (cb := cluster_bytes b) in *.
  cbn [load_parts]. rewrite add_u_ok by lia. cbn [mbind res_bind].
  destruct (Z.leb_spec (cs + cb) (cs + offset)) as [Hle|Hlt].
  { cbn. split_and!; try done; [lia|]. by replace (cb - offset) with 0 by lia. }
  rewrite add_u_ok by lia. cbn [mbind res_bind].
  set (len := Z.min (cs + offset + buf_len buf) (cs + cb) - (cs + offset)).
  assert (0 < len ≤ buf_len buf ∧ len ≤ cb - offset) as Hlen by (unfold len; lia).
  assert (len mod 512 = 0) as Hlm.
  { unfold len. destruct (Z.min_spec (cs + offset + buf_len buf) (cs + cb)) as [[_ ->]|[_ ->]].
    - by replace (cs + offset + buf_len buf - (cs + offset)) with (buf_len buf) by lia.
    - replace (cs + cb - (cs + offset)) with (cb - offset) by lia. by rewrite Zminus_mod, Hbm, Hom. }
  rewrite sub_u_ok by lia. cbn [mbind res_bind]. fold len.
  destruct (seek_spec d (cs + offset) Hd ltac:(lia)) as (Hi & Hp & Hc & Hs).
  eapply returns_bind.
  { apply (read_exact_into_spec (seek d (cs + offset)) mem (buf_len buf) buf); try done; rewrite ?Hp, ?Hs; try lia.
    by rewrite Zplus_mod, Hcm, Hom. }
  intros [d1 mem1] (Hi1 & Hc1 & Hs1 & Hm1). rewrite Hc, Hp in Hm1.
  rewrite try_from_u_ok by (unfold is_uint; lia). cbn [expect_some mbind res_bind].
  set (part := mem_read (content d) (cs + offset) len).
  assert (slice_range (buffer_slice mem1 buf) 0 (Z.to_nat len) = Ret part) as ->.
  { unfold slice_range, buffer_slice. rewrite length_mem_read, decide_True by lia. f_equal.
    rewrite Nat.sub_0_r. change (drop 0 ?l) with l.
    rewrite (mem_read_ext _ mem1 _ _ (λ x _, Hm1 x)).
    rewrite mem_read_write by (rewrite ?length_mem_read; lia). rewrite Z.sub_diag.
    change (drop (Z.to_nat 0) ?l) with l. rewrite take_take.
    replace (Z.to_nat len `min` Z.to_nat (buf_len buf))%nat with (Z.to_nat len) by lia.
    rewrite <- (drop_0 (mem_read (content d) (cs + offset) (buf_len buf))).
    change 0%nat with (Z.to_nat 0). rewrite mem_read_slice by lia. by rewrite Z.add_0_r. }
  cbn [mbind res_bind]. unfold wrapping_add, wrap_u. rewrite Z.mod_small by lia.
  assert (Z.of_nat (length part) = len) as Hpl by (unfold part; rewrite length_mem_read; lia).
  eapply returns_bind; [apply (copy_to_protected_mode_spec mem1 (dst + total) 0 part); lia|].
  intros mem2 Hm2. rewrite Z.add_0_r in Hm2.
  assert (index part 0 = Ret (mem2 (dst + total))) as Hfst.
  { unfold index. rewrite Hm2. apply expect_some_ret_inv. rewrite mem_write_in by lia. f_equal. lia. }
  rewrite Hfst. cbn [mbind res_bind]. unfold read_from_protected_mode. rewrite Z.eqb_refl.
  cbn [assert_ mbind res_bind]. rewrite add_u_ok by lia. cbn [mbind res_bind].
  rewrite add_u_ok by lia. cbn [mbind res_bind].
  eapply returns_mono.
  { apply (IH d1 mem2 (offset + len) (total + len)); try done; try lia.
    by rewrite Zplus_mod, Hom, Hlm. }
  intros [[d3 mem3] total3] (Hi3 & Hc3 & Hs3 & -> & Hr3 & Hk3).
  split_and!; [done|congruence|congruence|lia| |].
  - replace (cb - offset) with (len + (cb - (offset + len))) by lia.
    rewrite !mem_read_app by lia. f_equal.
    + transitivity (mem_read mem2 (dst + total) len).
      * apply mem_read_ext. intros x Hx. apply Hk3; lia.
      * rewrite (mem_read_ext _ mem2 _ _ (λ x _, Hm2 x)), mem_read_write by lia.
        rewrite Z.sub_diag. change (drop (Z.to_nat 0) ?l) with l.
        rewrite take_ge by lia. done.
    + replace (dst + total + len) with (dst + (total + len)) by lia. rewrite Hr3, Hc1, Hc.
      f_equal. lia.
  - intros x Hx1 Hx2. rewrite Hk3 by lia. rewrite Hm2, mem_write_out by lia.
    rewrite Hm1. apply mem_write_out. rewrite length_mem_read. lia.
Qed.

(** The bytes of the clusters of a chain. *)
Definition chain_bytes (d : D) (b : Bpb) (cs : list Z) : list Z :=
  cs ≫= λ c, mem_read (content d) (cluster_start b c) (cluster_bytes b).

Lemma length_chain_bytes d b cs : 0 ≤ cluster_bytes b →
  Z.of_nat (length (chain_bytes d b cs)) = Z.of_nat (length cs) * cluster_bytes b.
Proof.
  intros Hb. induction cs as [|c cs IH]; [done|].
  change (chain_bytes d b (c :: cs)) with
    (mem_read (content d) (cluster_start b c) (cluster_bytes b) ++ chain_bytes d b cs).
  rewrite length_app, length_mem_read, Nat2Z.inj_add, IH. cbn [length]. lia.
Qed.

(** A volume whose clusters are aligned to 512 bytes, on a disk that continues for one buffer
    behind it (the last cluster is read in units of the buffer). *)
Record volume_ok (d : D) (b : Bpb) (ty : FatType) (table : list Z) (buf : Buffer) : Prop := {
  vol_inv : disk_inv d;
  vol_bpb : bpb_ok b;
  vol_type : type_of_count (clusters b) = ty;
  vol_fat : fat_on_disk d b ty table;
  vol_aligned : data_start b mod 512 = 0 ∧ cluster_bytes b mod 512 = 0;
  vol_size : total_sectors b * bytes_per_sector b + buf_len buf ≤ size d;
}.

Lemma volume_cluster d b ty table buf c : volume_ok d b ty table buf → 2 ≤ c ≤ clusters b + 1 →
  0 ≤ cluster_start b c ∧ cluster_start b c mod 512 = 0 ∧
  cluster_start b c + cluster_bytes b < 2 ^ 48 ∧
  cluster_start b c + cluster_bytes b + buf_len buf ≤ size d.
Proof.
  intros Hv Hc. pose proof (vol_bpb _ _ _ _ _ Hv) as Hb. pose proof (vol_size _ _ _ _ _ Hv).
  destruct (vol_aligned _ _ _ _ _ Hv) as [Ha1 Ha2].
  destruct (cluster_in_volume b c Hb Hc) as (H1 & H2 & H3).
  pose proof (system_bytes b Hb) as [? _]. split_and!; try lia.
  unfold cluster_start. rewrite Zplus_mod, Ha1, Zmult_mod, Ha2, Z.mul_0_r. done.
Qed.

Lemma load_clusters_spec fuel t d b ty table mem buf dst n total cs :
  volume_ok d b ty table buf → trav_bpb t = b → content (trav_disk t) = content d →
  disk_inv (trav_disk t) → fat_on_disk (trav_disk t) b ty table → 0 ≤ current_entry t →
  chain ty (clusters b + 1) table (current_entry t) cs → (length cs < fuel)%nat →
  layout_ok buf dst n → 0 ≤ total → total + Z.of_nat (length cs) * cluster_bytes b ≤ n →
  returns (load_clusters fuel t d mem buf dst total) (λ '(t', d', mem', total'),
    disk_inv d' ∧ content d' = content d ∧ size d' = size d ∧
    disk_inv (trav_disk t') ∧ content (trav_disk t') = content d ∧
    size (trav_disk t') = size (trav_disk t) ∧ trav_bpb t' = b ∧
    mem_read mem' (dst + total) (Z.of_nat (length cs) * cluster_bytes b) = chain_bytes d b cs ∧
    ∀ x, ¬ scratch x → ¬ (buf_addr buf ≤ x < buf_addr buf + buf_len buf) →
      ¬ (dst + total ≤ x < dst + total + Z.of_nat (length cs) * cluster_bytes b) → mem' x = mem x).
Proof.
  intros Hv. revert t d Hv mem total cs.
  induction fuel as [|fuel IH]; intros t d Hv mem total cs Htb Hct Hit Hft H0 Hch Hf Hlay Ht Hn; [lia|].
  pose proof (vol_bpb _ _ _ _ _ Hv) as Hb. destruct (bytes_per_cluster_ok b Hb) as [_ Hcb].
  cbn [load_clusters].
  eapply returns_bind.
  { apply returns_expect_ok. apply (next_cluster_spec t b ty table mem cs); try done. apply Hv. }
  intros [[o t1] mem1] (Htb1 & (Hi1 & Hc1 & Hs1 & Hm1) & Hcs).
  destruct cs as [|c cs].
  { destruct Hcs as [-> ->]. cbn. split_and!; try done; try apply Hv. intros x Hx _ _. by apply Hm1. }
  destruct Hcs as (-> & H01 & Hch1). cbn [start_offset len_bytes].
  destruct (chain_head _ _ _ _ _ _ Hch H0) as [_ Hcr].
  destruct (volume_cluster d _ _ _ _ c Hv ltac:(lia)) as (Hc0 & Hca & Hcov & Hcsz).
  rewrite add_u_ok by lia. cbn [mbind res_bind length] in *.
  eapply returns_bind.
  { eapply (load_parts_spec _ d mem1 buf dst n b c 0 total); try done; try lia; try apply Hv; try (rewrite ?Hs1; done). }
  intros [[d2 mem2] total2] (Hi2 & Hc2 & Hs2 & -> & Hr2 & Hk2).
  rewrite Z.sub_0_r, Z.add_0_r in *.
  eapply returns_mono.
  { apply (IH t1 d2) with (cs := cs); try done; try lia.
    - destruct Hv. split; try done; [split; rewrite ?Hc2, ?Hs2; apply vol_fat0|by rewrite Hs2].
    - congruence.
    - by eapply disk_step_fat. }
  intros [[[t3 d3] mem3] total3] (? & Hc3 & Hs3 & ? & Hct3 & Hst3 & Htb3 & Hr3 & Hk3).
  destruct (lay_dst _ _ _ Hlay) as [Hdb _].
  split_and!; try done; try congruence.
  - replace (Z.of_nat (S (length cs)) * cluster_bytes b) with
      (cluster_bytes b + Z.of_nat (length cs) * cluster_bytes b) by lia.
    rewrite mem_read_app by lia.
    change (chain_bytes d b (c :: cs)) with
      (mem_read (content d) (cluster_start b c) (cluster_bytes b) ++
       chain_bytes d b cs). f_equal.
    + rewrite <- Hr2. apply mem_read_ext. intros x Hx. apply Hk3; [|lia|lia].
      apply (lay_scratch _ _ _ Hlay). lia.
    + rewrite <- Z.add_assoc. rewrite Hr3. unfold chain_bytes. by rewrite Hc2.
  - intros x Hx1 Hx2 Hx3. rewrite Hk3 by (done || lia). rewrite Hk2 by (done || lia). by apply Hm1.
Qed.

(** The root directory of a FAT12 or FAT16 volume, in whole sectors, fits into the buffer. *)
Record root_ok (b : Bpb) (buf : Buffer) : Prop := {
  root_type : type_of_count (clusters b) ≠ Fat32;
  root_fat_size : fat_size_in_sectors b = fat_size_16 b;
  root_entries_pos : 0 < root_entry_count b;
  root_size : root_entry_count b * 32 ≤ buf_len buf;
  root_whole : (root_entry_count b * 32) mod 512 = 0;
  root_sector : bytes_per_sector b mod 512 = 0;
}.
Definition root_start (b : Bpb) : Z :=
  (reserved_sector_count b + num_fats b * fat_size_16 b) * bytes_per_sector b.
Definition root_bytes (d : D) (b : Bpb) : list Z :=
  mem_read (content d) (root_start b) (root_entry_count b * 32).

Lemma root_start_bounds b buf : bpb_ok b → root_ok b buf →
  root_directory_offset b = Ret (root_start b) ∧ 0 ≤ root_start b ∧ root_start b mod 512 = 0 ∧
  root_start b + root_entry_count b * 32 ≤ total_sectors b * bytes_per_sector b.
Proof.
  intros Hb Hr. pose proof (ok_fat_16 b Hb). pose proof (ok_fats b Hb). pose proof (ok_reserved b Hb).
  pose proof (ok_bytes b Hb). pose proof (ok_system b Hb) as Hsys.
  destruct (root_sectors_bound b Hb) as [Hr1 Hr2].
  unfold root_directory_offset, root_start, is_uint, system_sectors in *. rewrite (root_fat_size _ _ Hr) in Hsys.
  rewrite mul_u_ok by nia. cbn [mbind res_bind]. rewrite add_u_ok by nia. cbn [mbind res_bind].
  rewrite mul_u_ok by nia. split_and!; [done|nia| |nia].
  rewrite Z.mul_mod, (root_sector _ _ Hr), Z.mul_0_r by lia. done.
Qed.

(** The directory is read from the disk; behind it the buffer keeps its old contents. *)
Lemma read_root_dir_spec (fs : FileSystem D) mem buf n dst :
  disk_inv (disk fs) → bpb_ok (bpb fs) → root_ok (bpb fs) buf → layout_ok buf dst n →
  total_sectors (bpb fs) * bytes_per_sector (bpb fs) ≤ size (disk fs) →
  returns (read_root_dir fs mem buf) (λ '(raws, fs', mem'),
    (∃ stale, Z.of_nat (length stale) = buf_len buf - root_entry_count (bpb fs) * 32 ∧
       raws = raw_entries (root_bytes (disk fs) (bpb fs) ++ stale)) ∧
    bpb fs' = bpb fs ∧ disk_inv (disk fs') ∧ content (disk fs') = content (disk fs) ∧
    size (disk fs') = size (disk fs) ∧
    ∀ x, ¬ (buf_addr buf ≤ x < buf_addr buf + buf_len buf) → mem' x = mem x).
Proof.
  intros Hd Hb Hr Hlay Hsz. destruct (lay_buf _ _ _ Hlay) as [Hb0 Hb1].
  pose proof (root_entries_pos _ _ Hr) as Hpos. pose proof (root_size _ _ Hr) as Hrs.
  destruct (root_start_bounds _ _ Hb Hr) as (Ho & Ho0 & Hom & Hoe).
  set (b := bpb fs) in *. set (n0 := root_entry_count b * 32) in *.
  destruct (seek_spec (disk fs) (root_start b) Hd Ho0) as (Hi & Hp & Hc & Hs).
  assert (returns (read_exact_into (seek (disk fs) (root_start b)) mem n0 buf) (λ '(d', mem'),
    disk_inv d' ∧ content d' = content (disk fs) ∧ size d' = size (disk fs) ∧
    ∀ x, mem' x = mem_write mem (buf_addr buf) (root_bytes (disk fs) b) x)) as Hread.
  { eapply returns_mono; [apply read_exact_into_spec; rewrite ?Hp, ?Hs; try done; try lia; by apply (root_whole _ _ Hr)|].
    intros [d' mem'] (? & Hc' & Hs' & Hm). rewrite Hc, Hp in Hm. split_and!; try done; congruence. }
  assert (Z.of_nat (length (root_bytes (disk fs) b)) = n0) as Hlen
    by (unfold root_bytes; rewrite length_mem_read; unfold n0 in *; lia).
  pose proof (root_type _ _ Hr) as Hty. fold b in Hty.
  unfold read_root_dir. fold b. rewrite fat_type_ok by done. cbn [mbind res_bind].
  destruct (type_of_count (clusters b)); [| |done];
    (rewrite root_directory_size_ok, Ho by done; cbn [mbind res_bind];
     eapply returns_bind; [exact Hread|]; intros [d' mem'] (? & ? & ? & Hm); cbn;
     split_and!; try done;
     [exists (mem_read mem (buf_addr buf + n0) (buf_len buf - n0)); split;
        [rewrite length_mem_read; lia|];
      f_equal; unfold buffer_slice; replace (buf_len buf) with (n0 + (buf_len buf - n0)) at 1 by lia;
      rewrite mem_read_app by lia; f_equal;
        [rewrite (mem_read_ext _ mem' _ _ (λ x _, Hm x)), mem_read_write by lia;
         rewrite Z.sub_diag; change (drop (Z.to_nat 0) ?l) with l; rewrite take_ge by lia; done
        |apply mem_read_ext; intros x Hx; rewrite Hm; apply mem_write_out; lia]
     |intros x Hx; rewrite Hm; apply mem_write_out; lia]).
Qed.

(** A file system and a disk that show the same volume. *)
Record mounted (fs : FileSystem D) (d : D) (b : Bpb) (ty : FatType) (table : list Z) (buf : Buffer) : Prop := {
  mt_vol : volume_ok d b ty table buf;
  mt_root : root_ok b buf;
  mt_bpb : bpb fs = b;
  mt_inv : disk_inv (disk fs);
  mt_content : content (disk fs) = content d;
  mt_size : size (disk fs) = size d;
}.

(** What the root directory of a volume has under a name, with anything behind it in the buffer:
    no file, or a file with its chain of clusters. *)
Definition directory_has (d : D) (b : Bpb) (ty : FatType) (table : list Z) (buf : Buffer) (name : list Z)
    (o : option (File * list Z)) : Prop :=
  (∀ stale, Z.of_nat (length stale) = buf_len buf - root_entry_count b * 32 →
     lookup_file (raw_entries (root_bytes d b ++ stale)) name = Ret (fst <$> o)) ∧
  match o with
  | None => True
  | Some (file, cs) => 0 ≤ first_cluster file ∧ chain ty (clusters b + 1) table (first_cluster file) cs
  end.
Definition clusters_size (b : Bpb) (cs : list Z) : Z := Z.of_nat (length cs) * cluster_bytes b.

Lemma find_file_spec (fs : FileSystem D) (d : D) b ty table buf mem name o dst n :
  mounted fs d b ty table buf → directory_has d b ty table buf name o → layout_ok buf dst n →
  returns (find_file_in_root_dir fs mem name buf) (λ '(r, fs', mem'),
    r = fst <$> o ∧ mounted fs' d b ty table buf ∧
    ∀ x, ¬ (buf_addr buf ≤ x < buf_addr buf + buf_len buf) → mem' x = mem x).
Proof.
  intros [Hv Hr Hb Hi Hc Hs] [Hlook _] Hlay. pose proof (vol_size _ _ _ _ _ Hv) as Hsz. destruct (lay_len _ _ _ Hlay) as [_ Hl].
  pose proof (vol_bpb _ _ _ _ _ Hv). subst b. unfold find_file_in_root_dir.
  eapply returns_bind; [eapply (read_root_dir_spec fs mem buf n dst); try done; lia|].
  intros [[raws fs1] mem1] ((stale & Hst & ->) & Hb1 & Hi1 & Hc1 & Hs1 & Hm1). unfold root_bytes in *. rewrite Hc, Hlook by done.
  cbn. split_and!; [done| |done]. split; try done; congruence.
Qed.

Lemma try_load_file_spec fuel name dst (fs : FileSystem D) (d : D) mem buf b ty table o n :
  mounted fs d b ty table buf → directory_has d b ty table buf name o →
  layout_ok buf dst n → clusters_size b (from_option snd [] o) ≤ n → (length (from_option snd [] o) < fuel)%nat →
  returns (try_load_file fuel name dst fs d mem buf) (λ '(len, fs', d', mem'),
    len = (λ f, file_size f.1) <$> o ∧ mounted fs' d' b ty table buf ∧ content d' = content d ∧
    mem_read mem' dst (clusters_size b (from_option snd [] o)) = chain_bytes d b (from_option snd [] o) ∧
    keeps_outside buf dst (clusters_size b (from_option snd [] o)) mem mem').
Proof.
  intros Hm Hdir Hlay Hn Hf. unfold try_load_file.
  eapply returns_bind; [by eapply find_file_spec|]. intros [[r fs1] mem1] (-> & Hm1 & Hk1).
  destruct o as [[file cs]|]; cbn [fmap option_fmap option_map fst snd from_option] in *.
  2: { cbn. split_and!; try done. intros x _ Hx _. by apply Hk1. }
  destruct Hdir as (_ & H0 & Hch). destruct Hm1 as [Hv Hr Hb Hi Hc Hs]. unfold clusters_size in *.
  eapply returns_bind.
  { apply (load_clusters_spec fuel (file_clusters fs1 file) d b ty table mem1 buf dst n 0 cs); cbn; try done; try lia.
    pose proof (vol_fat _ _ _ _ _ Hv) as Hft. destruct Hft. split; rewrite ?Hc, ?Hs; done. }
  intros [[[t2 d2] mem2] total2] (Hi2 & Hc2 & Hs2 & Hi3 & Hc3 & Hs3 & Hb3 & Hr2 & Hk2). cbn in *.
  rewrite Z.add_0_r in *. split_and!; try done.
  - destruct Hv. split; cbn; try done; try congruence. split; try done; [|by rewrite Hs2].
    destruct vol_fat0. split; rewrite ?Hc2, ?Hs2; done.
  - intros x H1 H2 H3. rewrite Hk2 by done. by apply Hk1.
Qed.

Lemma FileSystem_parse_spec (d : D) mem b : disk_inv d → 1536 ≤ size d →
  Bpb_from_raw (mem_read (content d) 0 512) = Ret b →
  returns (FileSystem_parse d mem) (λ '(fs, mem'),
    bpb fs = b ∧ disk_inv (disk fs) ∧ content (disk fs) = content d ∧ size (disk fs) = size d ∧
    ∀ x, ¬ scratch x → mem' x = mem x).
Proof.
  intros Hd Hs Hb. unfold FileSystem_parse, Bpb_parse. destruct (seek_spec d 0 Hd ltac:(lia)) as (Hi & Hp & Hc & Hsz).
  eapply returns_bind.
  - eapply returns_bind; [apply (read_exact_spec (seek d 0) mem 512); rewrite ?Hp, ?Hsz; (done || lia)|].
    intros [[raw d1] mem1] (-> & Hi1 & Hc1 & Hs1 & Hm1). rewrite Hp, Hc, Hb. cbn [mbind res_bind returns].
    instantiate (1 := λ '(b', d1, mem1), b' = b ∧ disk_inv d1 ∧ content d1 = content d ∧ size d1 = size d ∧
      ∀ x, ¬ scratch x → mem1 x = mem x). cbn. split_and!; congruence || done.
  - intros [[b' d1] mem1] (-> & H). by split.
Qed.

(** C10: Loading a file: when the name is found in the root directory, with whatever the buffer
    held behind it, and the FAT chains the clusters of the file, [try_load_file] returns the size
    of the file and has copied all of its clusters, in the order of the chain, to the
    destination. Apart from the destination it writes only the disk buffer and the scratch
    memory of the disk driver. *)
Theorem try_load_file_correct fuel name dst (fs : FileSystem D) (d : D) mem buf ty table file cs :
  volume_ok d (bpb fs) ty table buf → root_ok (bpb fs) buf →
  disk_inv (disk fs) → content (disk fs) = content d → size (disk fs) = size d →
  (∀ stale, Z.of_nat (length stale) = buf_len buf - root_entry_count (bpb fs) * 32 →
     lookup_file (raw_entries (root_bytes d (bpb fs) ++ stale)) name = Ret (Some file)) →
  0 ≤ first_cluster file → chain ty (clusters (bpb fs) + 1) table (first_cluster file) cs →
  layout_ok buf dst (Z.of_nat (length cs) * cluster_bytes (bpb fs)) → (length cs < fuel)%nat →
  returns (try_load_file fuel name dst fs d mem buf) (λ '(len, fs', d', mem'),
    len = Some (file_size file) ∧
    mem_read mem' dst (Z.of_nat (length cs) * cluster_bytes (bpb fs)) = chain_bytes d (bpb fs) cs ∧
    keeps_outside buf dst (Z.of_nat (length cs) * cluster_bytes (bpb fs)) mem mem' ∧
    bpb fs' = bpb fs ∧ disk_inv d' ∧ content d' = content d ∧
    disk_inv (disk fs') ∧ content (disk fs') = content d).
Proof.
  intros Hv Hr Hfd Hfc Hfs Hlook H0 Hch Hlay Hf.
  eapply returns_mono.
  { apply (try_load_file_spec fuel name dst fs d mem buf (bpb fs) ty table (Some (file, cs))
      (Z.of_nat (length cs) * cluster_bytes (bpb fs))); [by split|by split|done|done|done]. }
  intros [[[len fs'] d'] mem'] (-> & [] & Hc & Hrd & Hk). split_and!; try done; try congruence. by apply mt_vol0.
Qed.

(** More fuel does not change a result. *)
Lemma load_clusters_more fuel k (t : Traverser D) d mem buf dst off r :
  load_clusters fuel t d mem buf dst off = Ret r → load_clusters (fuel + k) t d mem buf dst off = Ret r.
Proof.
  revert t d mem off. induction fuel as [|fuel IH]; intros t d mem off; [done|]. cbn [Nat.add load_clusters].
  destruct (expect_ok (next_cluster t mem) _) as [[[o t'] mem']| |]; cbn [mbind res_bind]; [|done|done].
  destruct o as [c|]; [|done]. destruct (start_offset c +[64] len_bytes c); cbn [mbind res_bind]; [|done|done].
  destruct (load_parts _ _ _ _ _ _ _ _ _) as [[[d' mem''] off']| |]; cbn [mbind res_bind]; [apply IH|done|done].
Qed.
Lemma try_load_file_more fuel k name dst (fs : FileSystem D) (d : D) mem buf r :
  try_load_file fuel name dst fs d mem buf = Ret r → try_load_file (fuel + k) name dst fs d mem buf = Ret r.
Proof.
  unfold try_load_file. destruct (find_file_in_root_dir fs mem name buf) as [[[o fs'] mem']| |]; cbn [mbind res_bind]; [|done|done].
  destruct o as [file|]; [|done]. destruct (load_clusters fuel _ _ _ _ _ _) as [x| |] eqn:E; [|done|done].
  by rewrite (load_clusters_more _ k _ _ _ _ _ _ _ E).
Qed.

(** C27: Loading a file ends after at most as many clusters as the volume has: a chain that reaches an
    end-of-file mark never visits a cluster twice, so with that many steps [try_load_file] returns,
    and what it returns does not depend on how many more it could take. *)
Theorem try_load_file_terminates name dst (fs : FileSystem D) (d : D) mem buf ty table file cs :
  volume_ok d (bpb fs) ty table buf → root_ok (bpb fs) buf →
  disk_inv (disk fs) → content (disk fs) = content d → size (disk fs) = size d →
  (∀ stale, Z.of_nat (length stale) = buf_len buf - root_entry_count (bpb fs) * 32 →
     lookup_file (raw_entries (root_bytes d (bpb fs) ++ stale)) name = Ret (Some file)) →
  0 ≤ first_cluster file → chain ty (clusters (bpb fs) + 1) table (first_cluster file) cs →
  layout_ok buf dst (Z.of_nat (length cs) * cluster_bytes (bpb fs)) →
  returns (try_load_file (S (Z.to_nat (clusters (bpb fs)))) name dst fs d mem buf) (λ r,
    r.1.1.1 = Some (file_size file) ∧
    ∀ fuel, (Z.to_nat (clusters (bpb fs)) < fuel)%nat → try_load_file fuel name dst fs d mem buf = Ret r).
Proof.
  intros Hv Hr Hfd Hfc Hfs Hlook H0 Hch Hlay.
  assert (length cs < S (Z.to_nat (clusters (bpb fs))))%nat as Hlen.
  { pose proof (chain_length ty (clusters (bpb fs) + 1) table (first_cluster file) cs) as H. rewrite Z.add_simpl_r in H.
    apply le_n_S, H; [|done|done]. intros x Hx. apply (fat_entries _ _ _ _ (vol_fat _ _ _ _ _ Hv)) in Hx. apply Hx. }
  destruct (returns_alt (try_load_file (S (Z.to_nat (clusters (bpb fs)))) name dst fs d mem buf) (λ r, r.1.1.1 = Some (file_size file))) as [Ha _].
  destruct Ha as (r & E & Hr1).
  { eapply returns_mono; [apply (try_load_file_spec (S (Z.to_nat (clusters (bpb fs)))) name dst fs d mem buf (bpb fs) ty table (Some (file, cs))
      (Z.of_nat (length cs) * cluster_bytes (bpb fs))); [by split|by split|done|done|done]|].
    by intros [[[len fs'] d'] mem'] (-> & _). }
  rewrite E. split; [done|]. intros fuel Hfuel. replace fuel with (S (Z.to_nat (clusters (bpb fs))) + (fuel - S (Z.to_nat (clusters (bpb fs)))))%nat by lia.
  by apply try_load_file_more.
Qed.

End Proofs.

(** ** The sample volume *)
Section Sample.
Local Instance sample_read_seek : ReadSeek DiskAccess :=
  disk_access_read_seek (B := bios_image sample_image) sample_tmp.
Local Instance sample_laws : ReadSeekLaws DiskAccess :=
  disk_access_laws (B := bios_image sample_image) sample_tmp.
Definition sample_buffer : Buffer := mkBuffer 0x10000 0x4000.
Definition sample_fs : FileSystem DiskAccess := mkFileSystem sample_volume sample_bpb.

Lemma sample_volume_ok : volume_ok sample_volume sample_bpb Fat12 sample_table sample_buffer.
Proof.
  split; [exact sample_disk_inv|exact sample_bpb_ok|done|exact sample_fat_on_disk|by vm_compute|by vm_compute].
Qed.
Lemma sample_root_ok : root_ok sample_bpb sample_buffer.
Proof. split; by vm_compute. Qed.
Lemma sample_layout : layout_ok sample_buffer 0x1000000 1536.
Proof. split; [by vm_compute|by vm_compute|by vm_compute|]. cbn. intros x Hx. cbn. lia. Qed.
Lemma sample_lookup : lookup_file (raw_entries (root_bytes sample_volume sample_bpb)) sample_name =
  Ret (Some (mkFile 2 1400)).
Proof. by vm_compute. Qed.

Lemma try_load_file_correct_witness :
  returns (try_load_file 4 sample_name 0x1000000 sample_fs sample_volume (λ _, 0) sample_buffer)
    (λ '(len, _, _, mem'), len = Some 1400 ∧
       mem_read mem' 0x1000000 1536 = chain_bytes sample_volume sample_bpb [2; 3; 5]).
Proof.
  eapply returns_mono.
  - apply (try_load_file_correct 4 sample_name 0x1000000 sample_fs sample_volume (λ _, 0) sample_buffer
      Fat12 sample_table (mkFile 2 1400) [2; 3; 5] sample_volume_ok sample_root_ok sample_disk_inv
      eq_refl eq_refl).
    + intros stale Hst. destruct stale; [|cbn in Hst; lia]. rewrite app_nil_r. exact sample_lookup.
    + done.
    + exact sample_chain.
    + exact sample_layout.
    + cbn. lia.
  - intros [[[len fs'] d'] mem'] (Hl & Hr & _). split; [exact Hl|exact Hr].
Defined.
Lemma try_load_file_terminates_witness :
  returns (try_load_file (S (Z.to_nat (clusters sample_bpb))) sample_name 0x1000000 sample_fs sample_volume (λ _, 0) sample_buffer)
    (λ r, try_load_file 5000 sample_name 0x1000000 sample_fs sample_volume (λ _, 0) sample_buffer = Ret r).
Proof.
  eapply returns_mono.
  - apply (try_load_file_terminates sample_name 0x1000000 sample_fs sample_volume (λ _, 0) sample_buffer
      Fat12 sample_table (mkFile 2 1400) [2; 3; 5] sample_volume_ok sample_root_ok sample_disk_inv
      eq_refl eq_refl).
    + intros stale Hst. destruct stale; [|cbn in Hst; lia]. rewrite app_nil_r. exact sample_lookup.
    + done.
    + exact sample_chain.
    + exact sample_layout.
  - intros r [_ Hr]. apply Hr. apply Nat.ltb_lt. by vm_compute.
Defined.
End Sample.

End Stage2.
