(* ===== verification/E820.v ===== *)
(** * The BIOS memory map (bios/stage-2/src/memory_map.rs)

    The second stage asks the BIOS for the memory map with INT 15h, EAX = E820h,
    one descriptor per call. The BIOS function is the class [E820Bios]; its
    documentation is [E820Laws]. *)
From S2P Require Import Prelude Memory Config X86 Info FrameAllocator.
Import Memory FrameAllocator.

Module E820.

Definition SMAP : Z := 0x534D4150.
Definition BUF_LEN : nat := 24.
Definition MAP_LEN : nat := 100.

(** The call: from the continuation value and the buffer to EAX, the next continuation value,
    the number of bytes written, and the buffer. *)
Class E820Bios := e820 : Z → list Z → Z * Z * Z * list Z.

(** [fail(code)] in main.rs, and [split_array_ref] *)
Definition fail {A} (code : string) : res A := Panic ("fail: " +:+ code).
Definition split_array (n : nat) (slice : list Z) : res (list Z * list Z) :=
  if decide (length slice < n)%nat then fail "S" else Ret (take n slice, drop n slice).

(** [<[u8; 4]>::try_from(rest).unwrap_or_default()] *)
Definition array4_or_default (rest : list Z) : list Z :=
  if decide (length rest = 4)%nat then rest else replicate 4 0.

(** [memory_map[i] = region; i += 1], for the first [i] entries of the static array *)
Definition push_region (map : list E820MemoryRegion) (r : E820MemoryRegion) : res (list E820MemoryRegion) :=
  if decide (length map < MAP_LEN)%nat then Ret (map ++ [r]) else Panic "index out of bounds".

(** The part of the loop body that decodes the buffer. *)
Definition read_descriptor (map : list E820MemoryRegion) (buf : list Z) (buf_written_len : Z) :
    res (list E820MemoryRegion) :=
  if buf_written_len =? 0 then Ret map else
  buf ← slice_range buf 0 (Z.to_nat buf_written_len);
  '(base_raw, rest) ← split_array 8 buf;
  '(len_raw, rest) ← split_array 8 rest;
  '(kind_raw, rest) ← split_array 4 rest;
  let acpi_extended_raw := array4_or_default rest in
  let len := le_num len_raw in
  if len =? 0 then Ret map else
  push_region map (mkE820 (le_num base_raw) len (le_num kind_raw) (le_num acpi_extended_raw)).

(** The loop; one step of fuel for each descriptor. *)
Fixpoint query_loop `{E820Bios} (fuel : nat) (map : list E820MemoryRegion) (offset : Z) (buf : list Z) :
    res (list E820MemoryRegion) :=
  match fuel with
  | O => Panic "out of fuel"
  | S fuel =>
      let '(ret, offset, buf_written_len, buf) := e820 offset buf in
      if negb (ret =? SMAP) then Err "" else
      map ← read_descriptor map buf buf_written_len;
      if offset =? 0 then Ret map else query_loop fuel map offset buf
  end.

Definition query_memory_map `{E820Bios} (fuel : nat) : res (list E820MemoryRegion) :=
  query_loop fuel [] 0 (replicate BUF_LEN 0).

(** ** The BIOS function as documented

    The descriptors, each with or without the extended attributes, are returned one per call;
    the continuation value of the next call is zero after the last. *)
Definition descriptor_bytes (e : E820MemoryRegion * bool) : list Z :=
  let '(r, extended) := e in
  le_bytes 8 (start_addr r) ++ le_bytes 8 (e820_len r) ++ le_bytes 4 (region_type r) ++
  (if extended then le_bytes 4 (acpi_extended_attributes r) else []).
Definition descriptor_ok (r : E820MemoryRegion) : Prop :=
  is_uint 64 (start_addr r) ∧ is_uint 64 (e820_len r) ∧ is_uint 32 (region_type r) ∧
  is_uint 32 (acpi_extended_attributes r).

Class E820Laws (B : E820Bios) := {
  entries : list (E820MemoryRegion * bool);
  cont : nat → Z;
  cont_first : cont 0 = 0;
  cont_last : cont (length entries) = 0;
  cont_next i : (0 < i < length entries)%nat → cont i ≠ 0;
  entries_ok : Forall (λ e, descriptor_ok e.1) entries;
  e820_entry i e buf : entries !! i = Some e → length buf = BUF_LEN →
    let bs := descriptor_bytes e in
    e820 (cont i) buf = (SMAP, cont (S i), Z.of_nat (length bs), bs ++ drop (length bs) buf);
}.

(** What the loader records: the regions that are not empty; missing attributes are zero. *)
Definition recorded (e : E820MemoryRegion * bool) : E820MemoryRegion :=
  let '(r, extended) := e in
  mkE820 (start_addr r) (e820_len r) (region_type r) (if extended then acpi_extended_attributes r else 0).
Definition reported (es : list (E820MemoryRegion * bool)) : list E820MemoryRegion :=
  recorded <$> filter (λ e, e820_len e.1 ≠ 0) es.

Lemma split_array_app n a b : length a = n → split_array n (a ++ b) = Ret (a, b).
Proof.
  intros <-. unfold split_array. rewrite decide_False by (rewrite length_app; lia).
  by rewrite take_app_length, drop_app_length.
Qed.

Lemma length_descriptor_bytes e : length (descriptor_bytes e) = if e.2 then 24%nat else 20%nat.
Proof. destruct e as [r []]; cbn -[le_bytes]; by rewrite !length_app, !length_le_bytes. Qed.

Lemma read_descriptor_spec map e buf : descriptor_ok e.1 →
  (length map + length (reported [e]) ≤ MAP_LEN)%nat →
  read_descriptor map (descriptor_bytes e ++ buf) (Z.of_nat (length (descriptor_bytes e))) =
    Ret (map ++ reported [e]).
Proof.
  intros (Hs & Hl & Ht & Ha) Hcap. unfold read_descriptor.
  destruct (Z.eqb_spec (Z.of_nat (length (descriptor_bytes e))) 0) as [E|_].
  { rewrite length_descriptor_bytes in E. by destruct e.2. }
  rewrite Nat2Z.id. unfold slice_range. rewrite decide_True by (rewrite length_app; lia).
  rewrite Nat.sub_0_r, drop_0, take_app_length. cbn [mbind res_bind].
  destruct e as [r x]. cbn [descriptor_bytes fst] in *.
  rewrite split_array_app by apply length_le_bytes. cbn [mbind res_bind].
  rewrite split_array_app by apply length_le_bytes. cbn [mbind res_bind].
  rewrite split_array_app by apply length_le_bytes. cbn [mbind res_bind].
  rewrite !le_num_le_bytes by done.
  unfold reported in *. rewrite filter_cons in *. cbn [fst] in *.
  destruct (Z.eqb_spec (e820_len r) 0) as [E|Hne].
  { rewrite decide_False by tauto. cbn. by rewrite app_nil_r. }
  rewrite decide_True in * by done. unfold push_region. cbn [fmap list_fmap length filter list_filter recorded] in *.
  rewrite decide_True by lia. do 4 f_equal.
  unfold array4_or_default. destruct x; [|done].
  rewrite decide_True by apply length_le_bytes. by apply le_num_le_bytes.
Qed.

Lemma reported_app l1 l2 : reported (l1 ++ l2) = reported l1 ++ reported l2.
Proof. unfold reported. by rewrite filter_app, fmap_app. Qed.

(** ** The map in memory

    [E820MemoryRegion] is [repr(C)]: two 64-bit and two 32-bit fields. *)
Definition REGION_SIZE : Z := 24.
Definition region_bytes (r : E820MemoryRegion) : list Z := descriptor_bytes (r, true).
Definition store_map (mem : Z → Z) (a : Z) (map : list E820MemoryRegion) : Z → Z :=
  mem_write mem a (map ≫= region_bytes).
(** [slice::from_raw_parts(a, n)] *)
Definition region_at (mem : Z → Z) (a : Z) : E820MemoryRegion :=
  mkE820 (le_num (mem_read mem a 8)) (le_num (mem_read mem (a + 8) 8)) (le_num (mem_read mem (a + 16) 4))
    (le_num (mem_read mem (a + 20) 4)).
Definition map_at (mem : Z → Z) (a n : Z) : list E820MemoryRegion :=
  (λ i, region_at mem (a + REGION_SIZE * i)) <$> seqZ 0 n.

Lemma recorded_ok es : Forall (λ e, descriptor_ok e.1) es → Forall descriptor_ok (reported es).
Proof.
  rewrite !Forall_forall. intros H r (e & -> & [_ He]%list_elem_of_filter)%list_elem_of_fmap. specialize (H e He).
  destruct e as [r []]; [by destruct r|]. destruct H as (? & ? & ? & _). by split_and!.
Qed.

Lemma length_map_bytes map : length (map ≫= region_bytes) = (24 * length map)%nat.
Proof. induction map as [|r map IH]; [done|]. cbn [mbind list_bind]. rewrite length_app, IH. unfold region_bytes. rewrite length_descriptor_bytes. cbn. lia. Qed.

Lemma region_at_bytes mem a r : descriptor_ok r → mem_read mem a REGION_SIZE = region_bytes r → region_at mem a = r.
Proof.
  intros (H1 & H2 & H3 & H4) Hr. unfold region_bytes, descriptor_bytes, REGION_SIZE in Hr.
  change 24 with (8 + (8 + (4 + 4))) in Hr. rewrite !mem_read_app in Hr by lia.
  apply app_inj_1 in Hr as [R1 Hr]; [|by rewrite length_mem_read, length_le_bytes].
  apply app_inj_1 in Hr as [R2 Hr]; [|by rewrite length_mem_read, length_le_bytes].
  apply app_inj_1 in Hr as [R3 R4]; [|by rewrite length_mem_read, length_le_bytes].
  unfold region_at. replace (a + 8 + 8) with (a + 16) in * by lia. replace (a + 16 + 4) with (a + 20) in * by lia.
  rewrite R1, R2, R3, R4, !le_num_le_bytes by done. by destruct r.
Qed.

Lemma map_at_cons mem a n : 0 ≤ n → map_at mem a (1 + n) = region_at mem a :: map_at mem (a + REGION_SIZE) n.
Proof.
  intros Hn. unfold map_at. rewrite Z.add_1_l, seqZ_cons by lia. cbn [fmap list_fmap]. f_equal; [f_equal; lia|].
  rewrite Z.pred_succ. change (Z.succ 0) with (1 + 0). rewrite <- fmap_add_seqZ, <- list_fmap_compose. apply list_fmap_ext. intros i y _. unfold compose. f_equal. lia.
Qed.

(** The map reads back as it was stored. *)
Lemma map_at_bytes mem a map : Forall descriptor_ok map →
  mem_read mem a (REGION_SIZE * Z.of_nat (length map)) = map ≫= region_bytes →
  map_at mem a (Z.of_nat (length map)) = map.
Proof.
  intros Hok. revert a. induction Hok as [|r map Hr Hok IH]; intros a Hm; [done|].
  cbn [length mbind list_bind] in *. replace (REGION_SIZE * Z.of_nat (S (length map))) with
    (REGION_SIZE + REGION_SIZE * Z.of_nat (length map)) in Hm by lia.
  rewrite mem_read_app in Hm by (unfold REGION_SIZE; lia).
  apply app_inj_1 in Hm as [H1 H2]; [|unfold region_bytes; by rewrite length_mem_read, length_descriptor_bytes].
  rewrite Nat2Z.inj_succ, <- Z.add_1_l, map_at_cons by lia. f_equal; [by apply region_at_bytes|by apply IH].
Qed.

Lemma map_at_ext mem mem' a n : (∀ x, a ≤ x < a + REGION_SIZE * n → mem' x = mem x) → map_at mem' a n = map_at mem a n.
Proof.
  intros Hx. unfold map_at. apply list_fmap_ext. intros j i Hi%list_elem_of_lookup_2%elem_of_seqZ.
  unfold region_at, REGION_SIZE in *. f_equal; f_equal; apply mem_read_ext; intros x ?; apply Hx; lia.
Qed.

Lemma map_at_store mem a map : Forall descriptor_ok map →
  map_at (store_map mem a map) a (Z.of_nat (length map)) = map.
Proof.
  intros Hok. apply map_at_bytes; [done|]. unfold store_map, REGION_SIZE.
  rewrite mem_read_write by (rewrite ?length_map_bytes; lia). rewrite Z.sub_diag. cbn [Z.to_nat drop].
  apply take_ge. rewrite length_map_bytes. lia.
Qed.

Section Proofs.
Context `{HB : E820Laws}.

Lemma query_loop_spec fuel i buf :
  (i < length entries)%nat → (length entries - i ≤ fuel)%nat → length buf = BUF_LEN →
  (length (reported entries) ≤ MAP_LEN)%nat →
  query_loop fuel (reported (take i entries)) (cont i) buf = Ret (reported entries).
Proof.
  revert i buf. induction fuel as [|fuel IH]; intros i buf Hi Hf Hb Hcap; [lia|].
  destruct (lookup_lt_is_Some_2 entries i Hi) as [e He]. cbn [query_loop].
  rewrite (e820_entry i e buf He Hb). rewrite Z.eqb_refl. cbn [negb].
  assert (reported entries = reported (take i entries) ++ reported [e] ++ reported (drop (S i) entries)) as Hrep.
  { rewrite <- !reported_app. cbn [app]. by rewrite <- (drop_S entries e i He), take_drop. }
  assert (descriptor_ok e.1) as Hok.
  { pose proof entries_ok as Hall. rewrite Forall_forall in Hall. by eapply Hall, list_elem_of_lookup_2. }
  rewrite read_descriptor_spec; [|done|].
  2: { apply (f_equal length) in Hrep. rewrite !length_app in Hrep. lia. }
  cbn [mbind res_bind]. rewrite <- reported_app.
  assert (take i entries ++ [e] = take (S i) entries) as -> by (symmetry; by apply take_S_r).
  destruct (decide (S i = length entries)) as [E|Hne].
  - rewrite E, cont_last. cbn. by rewrite firstn_all.
  - destruct (Z.eqb_spec (cont (S i)) 0) as [E|_]; [by destruct (cont_next (S i)); [lia|]|].
    apply IH; [lia|lia| |done]. rewrite length_app, length_drop, Hb, length_descriptor_bytes.
    by destruct e.2.
Qed.

Lemma query_memory_map_spec fuel :
  entries ≠ [] → (length entries ≤ fuel)%nat → (length (reported entries) ≤ MAP_LEN)%nat →
  query_memory_map fuel = Ret (reported entries).
Proof.
  intros Hne Hf Hcap. unfold query_memory_map.
  replace 0 with (cont 0) by apply cont_first. change ([] : list E820MemoryRegion) with (reported (take 0 entries)).
  apply query_loop_spec; [|lia|done|done]. destruct entries; [done|cbn; lia].
Qed.

(** C23: With a BIOS that behaves as documented, [query_memory_map] returns the non-empty descriptors in
    their order, with extended attributes where the BIOS has them and zero elsewhere, as long as
    the static array has room for them. *)
Theorem query_memory_map_complete fuel :
  entries ≠ [] → (length entries ≤ fuel)%nat → (length (reported entries) ≤ MAP_LEN)%nat →
  query_memory_map fuel = Ret (reported entries).
Proof. apply query_memory_map_spec. Qed.

End Proofs.

(** ** A concrete BIOS *)
Definition sample_entries : list (E820MemoryRegion * bool) :=
  [ (mkE820 0 0x9fc00 1 0, false); (mkE820 0x9fc00 0 2 0, false); (mkE820 0x100000 0x7ee0000 1 1, true) ].
#[local] Instance sample_bios : E820Bios := λ offset buf,
  match sample_entries !! Z.to_nat offset with
  | Some e => let bs := descriptor_bytes e in
      (SMAP, (if offset =? 2 then 0 else offset + 1), Z.of_nat (length bs), bs ++ drop (length bs) buf)
  | None => (0, 0, 0, buf)
  end.
#[local] Instance sample_laws : E820Laws sample_bios.
Proof.
  refine (@Build_E820Laws sample_bios sample_entries (λ i, if decide (i = 3)%nat then 0 else Z.of_nat i) _ _ _ _ _).
  - done.
  - done.
  - intros i Hi. cbn in Hi. rewrite decide_False by lia. lia.
  - repeat (apply Forall_cons; split; [by vm_compute|]). done.
  - intros i e buf He Hb. destruct i as [|[|[|i]]]; cbn in He; simplify_eq; reflexivity.
Defined.

Lemma query_memory_map_complete_witness :
  query_memory_map 5 = Ret [mkE820 0 0x9fc00 1 0; mkE820 0x100000 0x7ee0000 1 1].
Proof.
  exact (query_memory_map_complete (HB := sample_laws) 5 ltac:(done) ltac:(cbn; lia) ltac:(vm_compute; lia)).
Defined.

End E820.
