(* ===== verification/BiosCommon.v ===== *)
(** * Data shared by the BIOS stages (bios/common/src/lib.rs)

    The second stage collects a [BiosInfo], which is passed on to the fourth. *)
From S2P Require Import Prelude.

Module BiosCommon.

Inductive PixelFormat :=
  | Rgb
  | Bgr
  | Unknown (red_position green_position blue_position : Z).
#[global] Instance PixelFormat_eq_dec : EqDecision PixelFormat.
Proof. solve_decision. Defined.

Definition is_unknown (self : PixelFormat) : bool :=
  match self with Rgb | Bgr => false | Unknown _ _ _ => true end.

Record Region := mkRegion {
  start : Z;
  len : Z;
}.

Record BiosFramebufferInfo := mkBiosFramebufferInfo {
  region : Region;
  width : Z;
  height : Z;
  bytes_per_pixel : Z;
  stride : Z;
  pixel_format : PixelFormat;
}.

Record BiosInfo := mkBiosInfo {
  stage_4 : Region;
  kernel : Region;
  ramdisk : Region;
  config_file : Region;
  last_used_addr : Z;
  framebuffer : BiosFramebufferInfo;
  memory_map_addr : Z;
  memory_map_len : Z;
}.

(** The bytes of a region. *)
Definition in_region (x : Z) (r : Region) : Prop := start r ≤ x < start r + len r.

End BiosCommon.
