(* ===== verification/Vesa.v ===== *)
(** * The video mode (bios/stage-2/src/vesa.rs)

    The second stage asks the VESA BIOS for its modes and picks one for the
    framebuffer. The VBE functions (INT 10h, AX = 4Fxxh) are the class [Vbe]. *)
From S2P Require Import Prelude Memory Disk Fat FatProofs BiosCommon.
Import Memory Disk.

Module Vesa.

(** The VBE calls: controller information to [0:di], mode information to [es:di], set mode. *)
Class Vbe := {
  vbe_controller_info : Z → Mem → Z * Mem;
  vbe_mode_info : Z → Z → Z → Mem → Z * Mem;
  vbe_set_mode : Z → Z;
}.

(** The block at [info_block] and the rest of the buffer behind it. *)
Record VesaInfo := mkVesaInfo {
  info_block : Z;
  rest_of_buffer : Buffer;
}.
Definition VBE_INFO_BLOCK_SIZE : Z := 512.
Definition VBE_MODE_INFO_SIZE : Z := 256.

Record VesaModeInfo := mkVesaModeInfo {
  mode : Z;
  width : Z;
  height : Z;
  framebuffer_start : Z;
  bytes_per_scanline : Z;
  bytes_per_pixel : Z;
  pixel_format : BiosCommon.PixelFormat;
  memory_model : Z;
  attributes : Z;
}.

(** The little-endian field of [n] bytes at an offset of a block. *)
Definition field (block : list Z) (offset n : nat) : Z := le_num (take n (drop offset block)).

(** The fields of a [VbeModeInfo] block that are used. *)
Definition parse_mode_info (mode : Z) (block : list Z) : VesaModeInfo :=
  let red_position := field block 32 1 in
  let green_position := field block 34 1 in
  let blue_position := field block 36 1 in
  {| mode := mode;
     width := field block 18 2;
     height := field block 20 2;
     framebuffer_start := field block 40 4;
     bytes_per_scanline := field block 16 2;
     bytes_per_pixel := field block 25 1 / 8;
     pixel_format :=
       if bool_decide ((red_position, green_position, blue_position) = (0, 8, 16)) then BiosCommon.Rgb
       else if bool_decide ((red_position, green_position, blue_position) = (16, 8, 0)) then BiosCommon.Bgr
       else BiosCommon.Unknown red_position green_position blue_position;
     memory_model := field block 27 1;
     attributes := field block 0 2 |}.

(** The conditions under which a mode is considered, and whether it replaces the best one. *)
Definition supported (max_width max_height : Z) (m : VesaModeInfo) : bool :=
  (Z.land (attributes m) 0x90 =? 0x90) &&
  ((memory_model m =? 4) || (memory_model m =? 6)) &&
  negb ((max_width <? width m) || (max_height <? height m)).
Definition replaces (best : option VesaModeInfo) (m : VesaModeInfo) : bool :=
  match best with
  | None => true
  | Some best => BiosCommon.is_unknown (pixel_format best) || (width best <? width m)
                 || ((width best =? width m) && (height best <? height m))
  end.
Definition consider (max_width max_height : Z) (best : option VesaModeInfo) (m : VesaModeInfo) :
    option VesaModeInfo :=
  if supported max_width max_height m && replaces best m then Some m else best.

Section Model.
Context `{V : Vbe}.

(** [VesaInfo::query] *)
Definition query (buffer : Buffer) (mem : Mem) : res (VesaInfo * Mem) :=
  assert_ (VBE_INFO_BLOCK_SIZE <=? buf_len buffer) "mid > len";;
  let block_ptr := buf_addr buffer in
  let mem := mem_write mem block_ptr (replicate (Z.to_nat VBE_INFO_BLOCK_SIZE) 0) in
  let '(ret, mem) := vbe_controller_info (wrap_u 16 block_ptr) mem in
  if ret =? 0x4f then
    Ret (mkVesaInfo block_ptr
           (mkBuffer (block_ptr + VBE_INFO_BLOCK_SIZE) (buf_len buffer - VBE_INFO_BLOCK_SIZE)), mem)
  else Err "".

(** [VesaInfo::get_mode] *)
Definition video_mode_ptr (self : VesaInfo) (mem : Mem) : Z :=
  let raw := le_num (mem_read mem (info_block self + 14) 4) in
  let segment := Z.shiftr raw 16 in
  let offset := wrap_u 16 raw in
  Z.shiftl segment 4 + offset.
Definition get_mode (self : VesaInfo) (mem : Mem) (index : Z) : option Z :=
  let mode := le_num (mem_read mem (video_mode_ptr self mem + 2 * index) 2) in
  if mode =? 0xffff then None else Some mode.

(** [VesaModeInfo::query] *)
Definition query_mode (mode : Z) (buffer : Buffer) (mem : Mem) : res (VesaModeInfo * Mem) :=
  assert_ (VBE_MODE_INFO_SIZE <=? buf_len buffer) "range end index out of range for slice";;
  let block_ptr := buf_addr buffer in
  let mem := mem_write mem block_ptr (replicate (Z.to_nat VBE_MODE_INFO_SIZE) 0) in
  let segment := Z.shiftr block_ptr 4 in
  target_addr ← block_ptr -! Z.shiftl segment 4;
  let '(ret, mem) := vbe_mode_info mode (wrap_u 16 segment) (wrap_u 16 target_addr) mem in
  if ret =? 0x4f then Ret (parse_mode_info mode (mem_read mem block_ptr VBE_MODE_INFO_SIZE), mem)
  else Err "".

(** [get_best_mode]: one step of fuel for each mode of the list and one for its end *)
Fixpoint best_mode_loop (fuel : nat) (self : VesaInfo) (max_width max_height i : Z)
    (best : option VesaModeInfo) (mem : Mem) : res (option VesaModeInfo * Mem) :=
  match fuel with
  | O => Panic "out of fuel"
  | S fuel =>
      match get_mode self mem i with
      | None => Ret (best, mem)
      | Some mode =>
          '(mode_info, mem) ← expect_ok (query_mode mode (rest_of_buffer self) mem) "unwrap";
          best_mode_loop fuel self max_width max_height (i + 1)
            (consider max_width max_height best mode_info) mem
      end
  end.
Definition get_best_mode (fuel : nat) (self : VesaInfo) (max_width max_height : Z) (mem : Mem) :
    res (option VesaModeInfo * Mem) :=
  best_mode_loop fuel self max_width max_height 0 None mem.

(** [VesaModeInfo::enable] *)
Definition enable (self : VesaModeInfo) : res unit :=
  if vbe_set_mode (mode self) =? 0x4f then Ret () else Err "".

End Model.

(** ** The choice of the mode *)

(** The order by width, then height. *)
Definition smaller (a b : VesaModeInfo) : Prop :=
  width a < width b ∨ (width a = width b ∧ height a < height b).

Lemma consider_cases w h best m :
  consider w h best m = best ∨ (consider w h best m = Some m ∧ supported w h m = true).
Proof. unfold consider. destruct (supported w h m); cbn; [|by left]. destruct (replaces best m); auto. Qed.

(** The loop over a list of modes keeps a supported mode, and a maximal one when all formats of
    supported modes are known. *)
Lemma consider_fold w h ms (best : option VesaModeInfo) :
  (∀ b, best = Some b → supported w h b = true) →
  match foldl (consider w h) best ms with
  | Some b => supported w h b = true ∧ (best = Some b ∨ b ∈ ms)
  | None => best = None ∧ ∀ m, m ∈ ms → supported w h m = false
  end.
Proof.
  revert best. induction ms as [|m ms IH]; intros best Hb; cbn [foldl].
  { destruct best as [b|]; [|split; [done|by intros ? ?%elem_of_nil]]. split; [by apply Hb|by left]. }
  assert (∀ b, consider w h best m = Some b → supported w h b = true) as Hb'.
  { intros b Hc. destruct (consider_cases w h best m) as [E|[E ?]]; rewrite E in Hc; [by apply Hb|by simplify_eq]. }
  specialize (IH (consider w h best m) Hb').
  destruct (foldl (consider w h) (consider w h best m) ms) as [b|] eqn:E.
  - destruct IH as [Hs Hin]. split; [done|]. destruct Hin as [Hin|Hin]; [|by right; right].
    destruct (consider_cases w h best m) as [E'|[E' _]]; rewrite E' in Hin; [by left|]. right. simplify_eq. by left.
  - destruct IH as [Hn Hms]. unfold consider in Hn.
    destruct (supported w h m) eqn:Hsup, (replaces best m) eqn:Hrep; cbn in Hn; simplify_eq;
      (split; [done|]; intros m' [->|?]%elem_of_cons; [done|by apply Hms]).
Qed.

Lemma consider_max w h ms best b :
  (∀ m, m ∈ ms → supported w h m = true → BiosCommon.is_unknown (pixel_format m) = false) →
  (∀ b, best = Some b → BiosCommon.is_unknown (pixel_format b) = false) →
  foldl (consider w h) best ms = Some b →
  (∀ b0, best = Some b0 → ¬ smaller b b0) ∧
  ∀ m, m ∈ ms → supported w h m = true → ¬ smaller b m.
Proof.
  revert best. induction ms as [|m ms IH]; intros best Hk Hb Hf; cbn [foldl] in Hf.
  { subst. split; [|by intros ? ?%elem_of_nil]. intros b0 [= <-]. unfold smaller. lia. }
  destruct (IH (consider w h best m)) as [H1 H2].
  - intros m' Hm'. apply Hk. by right.
  - intros b' Hc. unfold consider in Hc. destruct (supported w h m) eqn:Hs; cbn in Hc; [|by apply Hb].
    destruct (replaces best m); [|by apply Hb]. simplify_eq. apply Hk; [by left|done].
  - done.
  - unfold consider in H1. destruct (supported w h m) eqn:Hs; cbn in H1.
    + destruct (replaces best m) eqn:Hr.
      * split.
        -- intros b0 ->. specialize (H1 m eq_refl). cbn in Hr. rewrite (Hb b0 eq_refl) in Hr. cbn in Hr.
           unfold smaller in *. lia.
        -- intros m' [->|Hm']%elem_of_cons Hs'; [by apply H1|by apply H2].
      * split; [done|]. intros m' [->|Hm']%elem_of_cons Hs'; [|by apply H2].
        destruct best as [b0|]; [|done]. specialize (H1 b0 eq_refl). cbn in Hr.
        rewrite (Hb b0 eq_refl) in Hr. cbn in Hr. unfold smaller in *. lia.
    + split; [done|]. intros m' [->|Hm']%elem_of_cons Hs'; [congruence|by apply H2].
Qed.

(** ** The loop over the mode list *)

(** The documented behaviour of the mode information call: for the modes in the list, the block of
    256 bytes is written to [es:di]. *)
Class VbeLaws (V : Vbe) := {
  mode_block : Z → list Z;
  listed : Z → Prop;
  mode_block_length m : listed m → length (mode_block m) = 256%nat;
  vbe_mode_info_ok m segment offset mem : listed m → 0 ≤ segment < 2 ^ 16 → 0 ≤ offset < 2 ^ 16 →
    vbe_mode_info m segment offset mem = (0x4f, mem_write mem (segment * 16 + offset) (mode_block m));
}.

Section Proofs.
Context `{HV : VbeLaws}.

(** The list of modes is in memory, with its end mark, outside of the buffer for the blocks. *)
Record mode_list (self : VesaInfo) (mem : Mem) (ms : list Z) : Prop := {
  ml_modes : Forall (λ m, listed m ∧ 0 ≤ m < 0xffff) ms;
  ml_list : mem_read mem (video_mode_ptr self mem) (2 * Z.of_nat (S (length ms))) =
              (ms ++ [0xffff]) ≫= le_bytes 2;
  ml_buffer : 0 ≤ buf_addr (rest_of_buffer self) ∧ buf_addr (rest_of_buffer self) < 2 ^ 20 ∧
              256 ≤ buf_len (rest_of_buffer self);
  ml_info : info_block self + 512 ≤ buf_addr (rest_of_buffer self);
  ml_outside x : video_mode_ptr self mem ≤ x < video_mode_ptr self mem + 2 * Z.of_nat (S (length ms)) →
    ¬ (buf_addr (rest_of_buffer self) ≤ x < buf_addr (rest_of_buffer self) + 256);
}.

Lemma query_mode_spec m (buf : Buffer) mem : listed m → 0 ≤ buf_addr buf < 2 ^ 20 → 256 ≤ buf_len buf →
  returns (query_mode m buf mem) (λ '(info, mem'),
    info = parse_mode_info m (mode_block m) ∧
    ∀ x, ¬ (buf_addr buf ≤ x < buf_addr buf + 256) → mem' x = mem x).
Proof.
  intros Hm Ha Hl. unfold query_mode. change VBE_MODE_INFO_SIZE with 256.
  rewrite (proj2 (Z.leb_le _ _) Hl). cbn [assert_ mbind res_bind].
  rewrite Z.shiftr_div_pow2, Z.shiftl_mul_pow2 by lia. change (2 ^ 4) with 16.
  pose proof (Z.div_mod (buf_addr buf) 16 ltac:(lia)). pose proof (Z.mod_pos_bound (buf_addr buf) 16 ltac:(lia)).
  assert (0 ≤ buf_addr buf / 16 < 2 ^ 16) as Hs by (split; [apply Z.div_pos|apply Z.div_lt_upper_bound]; lia).
  rewrite sub_u_ok by lia. cbn [mbind res_bind]. unfold wrap_u.
  rewrite (Z.mod_small (buf_addr buf / 16)), (Z.mod_small (buf_addr buf - _)) by lia.
  rewrite vbe_mode_info_ok by (done || lia). cbn [Z.eqb].
  replace (buf_addr buf / 16 * 16 + (buf_addr buf - buf_addr buf / 16 * 16)) with (buf_addr buf) by lia.
  pose proof (mode_block_length m Hm) as Hlen. cbn. split.
  - f_equal. rewrite mem_read_write by lia. rewrite Z.sub_diag. change (Z.to_nat 0) with O. rewrite drop_0.
    change (Z.to_nat 256) with 256%nat. by rewrite take_ge by lia.
  - intros x Hx. rewrite mem_write_out by lia. apply mem_write_out. rewrite length_replicate. lia.
Qed.

(** Entry [i] of the list. *)
Lemma get_mode_spec self mem ms i : mode_list self mem ms → (i ≤ length ms)%nat →
  get_mode self mem (Z.of_nat i) = ms !! i.
Proof.
  intros Hl Hi. unfold get_mode.
  assert (mem_read mem (video_mode_ptr self mem + 2 * Z.of_nat i) 2 =
    le_bytes 2 (default 0xffff (ms !! i))) as ->.
  { rewrite <- (mem_read_slice mem _ (2 * Z.of_nat (S (length ms)))) by lia.
    rewrite (ml_list _ _ _ Hl). change (Z.to_nat 2) with 2%nat.
    replace (Z.to_nat (2 * Z.of_nat i)) with (i * 2)%nat by lia.
    apply FatProofs.le_bytes_bind_slice. destruct (decide (i = length ms)) as [->|Hne].
    - rewrite list_lookup_middle by done. by rewrite lookup_ge_None_2 by lia.
    - rewrite lookup_app_l by lia. by destruct (lookup_lt_is_Some_2 ms i ltac:(lia)) as [m ->]. }
  destruct (ms !! i) as [m|] eqn:E; cbn [default from_option id].
  - pose proof (ml_modes _ _ _ Hl) as Hall. rewrite Forall_forall in Hall.
    destruct (Hall m) as [_ ?]; [by eapply list_elem_of_lookup_2|].
    rewrite le_num_le_bytes by (change (256 ^ Z.of_nat 2) with 0x10000; lia).
    destruct (Z.eqb_spec m 0xffff); [lia|done].
  - by rewrite le_num_le_bytes.
Qed.

Lemma mode_list_kept self mem mem' ms : mode_list self mem ms →
  (∀ x, ¬ (buf_addr (rest_of_buffer self) ≤ x < buf_addr (rest_of_buffer self) + 256) → mem' x = mem x) →
  mode_list self mem' ms ∧ video_mode_ptr self mem' = video_mode_ptr self mem.
Proof.
  intros Hl Hm. assert (video_mode_ptr self mem' = video_mode_ptr self mem) as Hp.
  { unfold video_mode_ptr. rewrite (mem_read_ext mem mem'); [done|].
    intros x Hx. apply Hm. pose proof (ml_info _ _ _ Hl). lia. }
  split; [|done]. destruct Hl. split; rewrite ?Hp; try done.
  rewrite (mem_read_ext mem mem'); [done|]. intros x Hx. by apply Hm, ml_outside0.
Qed.

Lemma best_mode_loop_spec fuel self w h ms i best mem :
  mode_list self mem ms → (i ≤ length ms)%nat → (length ms - i < fuel)%nat →
  returns (best_mode_loop fuel self w h (Z.of_nat i) best mem) (λ '(r, mem'),
    r = foldl (consider w h) best ((λ m, parse_mode_info m (mode_block m)) <$> drop i ms) ∧
    ∀ x, ¬ (buf_addr (rest_of_buffer self) ≤ x < buf_addr (rest_of_buffer self) + 256) → mem' x = mem x).
Proof.
  revert i best mem. induction fuel as [|fuel IH]; intros i best mem Hl Hi Hf; [lia|].
  cbn [best_mode_loop]. rewrite (get_mode_spec _ _ ms) by done.
  destruct (ms !! i) as [m|] eqn:E.
  - pose proof (lookup_lt_Some _ _ _ E) as Hlt. pose proof (ml_modes _ _ _ Hl) as Hall. rewrite Forall_forall in Hall.
    destruct (Hall m) as [Hm _]; [by eapply list_elem_of_lookup_2|].
    destruct (ml_buffer _ _ _ Hl) as (Hb0 & Hb1 & Hb2).
    eapply returns_bind; [apply returns_expect_ok, (query_mode_spec m); [done|lia|lia]|].
    intros [info mem'] [-> Hmem]. destruct (mode_list_kept _ _ _ _ Hl Hmem) as [Hl' _].
    replace (Z.of_nat i + 1) with (Z.of_nat (S i)) by lia.
    eapply returns_mono; [apply IH; [done|lia|lia]|]. intros [r mem''] [-> Hm'']. split.
    + by rewrite (drop_S ms m i E).
    + intros x Hx. by rewrite Hm'', Hmem.
  - cbn. by rewrite drop_ge by (by apply lookup_ge_None).
Qed.

(** C24: The mode that is chosen: a supported mode of the list within the limits, and when the pixel
    formats of all supported modes are known, no supported mode is wider, or as wide and
    higher. There is none only when no mode of the list is supported. *)
Theorem get_best_mode_max fuel self w h ms mem :
  mode_list self mem ms → (length ms < fuel)%nat →
  let infos := (λ m, parse_mode_info m (mode_block m)) <$> ms in
  returns (get_best_mode fuel self w h mem) (λ '(r, _),
    match r with
    | Some b => b ∈ infos ∧ supported w h b = true ∧
        ((∀ m, m ∈ infos → supported w h m = true → BiosCommon.is_unknown (pixel_format m) = false) →
         ∀ m, m ∈ infos → supported w h m = true → ¬ smaller b m)
    | None => ∀ m, m ∈ infos → supported w h m = false
    end).
Proof.
  intros Hl Hf infos. eapply returns_mono.
  { apply (best_mode_loop_spec fuel self w h ms 0 None mem Hl); lia. }
  intros [r mem'] [-> _]. rewrite drop_0. fold infos.
  pose proof (consider_fold w h infos None ltac:(done)) as Hc.
  destruct (foldl (consider w h) None infos) as [b|] eqn:E; [|by destruct Hc].
  destruct Hc as [Hs [?|Hin]]; [done|]. split_and!; [done|done|].
  intros Hk. by apply (consider_max w h infos None b Hk ltac:(done) E).
Qed.

End Proofs.

(** ** Concrete modes *)
Definition sample_block (w h red blue : Z) : list Z :=
  [0x9b; 0] ++ replicate 14 0 ++ le_bytes 2 (w * 4) ++ le_bytes 2 w ++ le_bytes 2 h ++ replicate 3 0 ++
  [32; 1; 6] ++ replicate 4 0 ++ [red; 8; 8; 8; blue; 8; 24; 0] ++ le_bytes 4 0xfd000000 ++ replicate 212 0.
#[local] Instance sample_vbe : Vbe := {|
  vbe_controller_info _ mem := (0x4f, mem);
  vbe_mode_info m segment offset mem :=
    (0x4f, mem_write mem (segment * 16 + offset) (sample_block (m * 10) (m * 5) 16 0));
  vbe_set_mode _ := 0x4f;
|}.
#[local] Instance sample_vbe_laws : VbeLaws sample_vbe.
Proof.
  refine (@Build_VbeLaws sample_vbe (λ m, sample_block (m * 10) (m * 5) 16 0) (λ m, True) _ _); [|done].
  intros m _. done.
Defined.
Definition sample_info : VesaInfo := mkVesaInfo 0x8000 (mkBuffer 0x8200 0x3e00).
Definition sample_modes : list Z := [64; 128; 100].
Definition sample_mem : Mem :=
  mem_write (mem_write (λ _, 0) (0x8000 + 14) [0x40; 0; 0x00; 0x08]) 0x8040 ((sample_modes ++ [0xffff]) ≫= le_bytes 2).
Lemma sample_mode_list : mode_list sample_info sample_mem sample_modes.
Proof.
  split.
  - repeat (apply Forall_cons; split; [by vm_compute|]). done.
  - by vm_compute.
  - by vm_compute.
  - by vm_compute.
  - assert (video_mode_ptr sample_info sample_mem = 0x8040) as -> by (by vm_compute). cbn. lia.
Qed.

Lemma get_best_mode_max_witness :
  returns (get_best_mode 4 sample_info 1280 720 sample_mem) (λ '(r, _),
    match r with
    | Some b => b ∈ (λ m, parse_mode_info m (sample_block (m * 10) (m * 5) 16 0)) <$> sample_modes
    | None => False
    end).
Proof.
  pose proof (get_best_mode_max 4 sample_info 1280 720 sample_modes sample_mem sample_mode_list
    ltac:(by apply Nat.ltb_lt)) as H.
  cbv zeta in H. revert H. generalize (get_best_mode 4 sample_info 1280 720 sample_mem).
  intros r H. refine (returns_mono _ _ _ H _).
  intros [[b|] mem'] Hb; [exact (proj1 Hb)|].
  assert (supported 1280 720 (parse_mode_info 64 (sample_block 640 320 16 0)) = false) as Hn.
  { apply Hb. by left. }
  by vm_compute in Hn.
Defined.

(** As soon as the best mode so far has an unknown pixel format it is replaced by any supported
    mode, also a smaller one of unknown format: of two such modes of 1280x720 and 640x480 the
    smaller is chosen. *)
Theorem get_best_mode_unknown_shrinks :
  let big := parse_mode_info 1 (sample_block 1280 720 0 0) in
  let small := parse_mode_info 2 (sample_block 640 480 0 0) in
  supported 1280 720 big = true ∧ smaller small big ∧
  foldl (consider 1280 720) None [big; small] = Some small.
Proof. split_and!; [by vm_compute|left; by vm_compute|by vm_compute]. Qed.

End Vesa.
