(* ===== verification/BootSector.v ===== *)
(** * The first stage (bios/boot_sector/src: main.rs, mbr.rs, dap.rs, fail.rs)

    The boot sector finds the partition of the second stage in the partition
    table, loads it behind itself and jumps to it. It is built with
    [overflow-checks = false]: arithmetic wraps. A failure prints a code and
    halts, which is a [Panic] here. *)
From S2P Require Import Prelude Memory Disk.
Import Memory Disk.

Module BootSector.

(** [UnwrapOrFail::unwrap_or_fail] *)
Definition unwrap_or_fail {A} (o : option A) (code : string) : res A :=
  match o with Some v => Ret v | None => Panic ("fail: " +:+ code) end.

(** ** mbr.rs *)
Record PartitionTableEntry := mkEntry {
  bootable : bool;
  partition_type : Z;
  logical_block_address : Z;
  sector_count : Z;
}.

(** [slice.get(lo..)], [slice.get(..hi)] *)
Definition get_from (s : list Z) (lo : nat) : option (list Z) :=
  if decide (lo ≤ length s)%nat then Some (drop lo s) else None.
Definition get_to (s : list Z) (hi : nat) : option (list Z) :=
  if decide (hi ≤ length s)%nat then Some (take hi s) else None.

Definition get_partition (partitions_raw : list Z) (index : nat) : res PartitionTableEntry :=
  let ENTRY_SIZE := 16%nat in
  let offset := (index * ENTRY_SIZE)%nat in
  buffer ← unwrap_or_fail (get_from partitions_raw offset) "c";
  bootable_raw ← unwrap_or_fail (buffer !! 0%nat) "d";
  let bootable := bootable_raw =? 0x80 in
  partition_type ← unwrap_or_fail (buffer !! 4%nat) "e";
  lba ← unwrap_or_fail (s ← get_from buffer 8; get_to s 4) "e";
  len ← unwrap_or_fail (s ← get_from buffer 12; get_to s 4) "f";
  Ret (mkEntry bootable partition_type (le_num lba) (le_num len)).

(** ** dap.rs *)
Definition from_lba (start_lba number_of_sectors target_offset target_segment : Z) :
    DiskAddressPacket :=
  {| packet_size := 0x10; zero := 0; number_of_sectors := number_of_sectors;
     offset := target_offset; segment := target_segment; start_lba := start_lba |}.
Definition perform_load `{B : Bios} (self : DiskAddressPacket) (disk_number : Z) (mem : Mem) : res Mem :=
  unwrap_or_fail (extended_read self disk_number mem) "z".

(** ** main.rs *)
(** The call of the second stage: where it jumps to, and the arguments. *)
Record Jump := mkJump {
  entry_point : Z;
  jump_disk_number : Z;
  partition_table_start : Z;
}.

Section Model.
Context `{B : Bios}.
(** The symbols of the linker script. *)
Context (_partition_table _second_stage_start : Z).

(** The loop of [first_stage]; one step of fuel per sector and one more is enough. *)
Fixpoint first_stage_loop (fuel : nat) (disk_number : Z) (mem : Mem)
    (start_lba number_of_sectors target_addr : Z) : res Mem :=
  match fuel with
  | O => Panic "out of fuel"
  | S fuel =>
      let sectors := wrap_u 16 (Z.min number_of_sectors 32) in
      segment ← unwrap_or_fail (try_from_u 16 (Z.shiftr target_addr 4)) "a";
      let dap := from_lba start_lba sectors (wrap_u 16 (Z.land target_addr 15)) segment in
      mem ← perform_load dap disk_number mem;
      let start_lba := wrap_u 64 (start_lba + sectors) in
      let number_of_sectors := wrap_u 32 (number_of_sectors - sectors) in
      let target_addr := wrap_u 32 (target_addr + wrap_u 32 (sectors * 512)) in
      if number_of_sectors =? 0 then Ret mem
      else first_stage_loop fuel disk_number mem start_lba number_of_sectors target_addr
  end.

Definition first_stage (disk_number : Z) (mem : Mem) : res (Jump * Mem) :=
  let partition_table := mem_read mem _partition_table (16 * 4) in
  second_stage_partition ← get_partition partition_table 0;
  let entry_point_address := wrap_u 32 _second_stage_start in
  let start_lba := logical_block_address second_stage_partition in
  let number_of_sectors := sector_count second_stage_partition in
  mem ← first_stage_loop (S (Z.to_nat number_of_sectors)) disk_number mem start_lba number_of_sectors
          entry_point_address;
  Ret (mkJump entry_point_address disk_number _partition_table, mem).
End Model.

(** ** Correctness *)

(** An entry of the partition table as it is stored; the two CHS addresses are not used. *)
Definition entry_bytes (e : PartitionTableEntry) (status : Z) (chs_first chs_last : list Z) : list Z :=
  status :: chs_first ++ partition_type e :: chs_last ++
  le_bytes 4 (logical_block_address e) ++ le_bytes 4 (sector_count e).
Record entry_ok (e : PartitionTableEntry) (status : Z) (chs_first chs_last : list Z) : Prop := {
  eo_status : bootable e = (status =? 0x80);
  eo_chs : length chs_first = 3%nat ∧ length chs_last = 3%nat;
  eo_lba : is_uint 32 (logical_block_address e);
  eo_len : is_uint 32 (sector_count e);
}.

Lemma get_from_app a b : get_from (a ++ b) (length a) = Some b.
Proof. unfold get_from. by rewrite decide_True, drop_app_length by (rewrite length_app; lia). Qed.
Lemma get_to_app a b : get_to (a ++ b) (length a) = Some a.
Proof. unfold get_to. by rewrite decide_True, take_app_length by (rewrite length_app; lia). Qed.

Lemma get_partition_encoded i before after e status c1 c2 : entry_ok e status c1 c2 →
  length before = (i * 16)%nat →
  get_partition (before ++ entry_bytes e status c1 c2 ++ after) i = Ret e.
Proof.
  intros [Hs [H1 H2] Hl Hn] Hb. unfold get_partition. rewrite <- Hb, get_from_app.
  cbn [unwrap_or_fail mbind res_bind]. unfold entry_bytes.
  destruct c1 as [|x1 [|x2 [|x3 [|]]]]; try done. destruct c2 as [|y1 [|y2 [|y3 [|]]]]; try done.
  set (lba := le_bytes 4 (logical_block_address e)). set (n := le_bytes 4 (sector_count e)).
  assert (length lba = 4%nat ∧ length n = 4%nat) as [L1 L2] by (split; apply length_le_bytes).
  cbn [app]. rewrite <- app_assoc.
  change (status :: x1 :: x2 :: x3 :: partition_type e :: y1 :: y2 :: y3 :: lba ++ n ++ after)
    with ([status; x1; x2; x3; partition_type e; y1; y2; y3] ++ lba ++ n ++ after).
  set (h := [status; x1; x2; x3; partition_type e; y1; y2; y3]).
  change 8%nat with (length h). rewrite get_from_app. cbn [mbind option_bind].
  replace (get_to (lba ++ n ++ after) 4) with (Some lba) by (by rewrite <- L1, get_to_app).
  replace 12%nat with (length (h ++ lba)) by (rewrite length_app, L1; done).
  rewrite (app_assoc h), get_from_app. cbn [mbind option_bind].
  replace (get_to (n ++ after) 4) with (Some n) by (by rewrite <- L2, get_to_app).
  cbn -[le_num le_bytes]. unfold lba, n. rewrite !le_num_le_bytes by done. destruct e; cbn in *. by rewrite Hs.
Qed.

(** The wrapping loop of the first stage does what the checked loop of the second does, wherever
    that one returns. *)
Lemma first_stage_loop_refines `{B : Bios} fuel disk mem lba n target mem' :
  0 ≤ lba → 0 ≤ n < 2 ^ 32 → 0 ≤ target →
  load_loop fuel disk mem lba n target = Ret mem' →
  first_stage_loop fuel disk mem lba n target = Ret mem'.
Proof.
  revert mem lba n target. induction fuel as [|fuel IH]; intros mem lba n target Hl Hn Ht; [done|].
  cbn [load_loop first_stage_loop]. intros H. inv_arith.
  rewrite try_from_u_ok by done. cbn [unwrap_or_fail mbind res_bind].
  unfold Disk.perform_load in *. unfold perform_load.
  assert (0 ≤ Z.land target 15 < 16).
  { change 15 with (Z.ones 4). rewrite Z.land_ones by lia. apply Z.mod_pos_bound. lia. }
  unfold wrap_u. rewrite (Z.mod_small (Z.min n 32)), (Z.mod_small (Z.land target 15)) by lia.
  apply expect_some_ret_inv in E0. change (from_lba ?a ?b ?c ?d) with (Disk.from_lba a b c d). rewrite E0.
  cbn [unwrap_or_fail mbind res_bind].
  rewrite (Z.mod_small (n - _)), (Z.mod_small (lba + _)), (Z.mod_small (_ * 512)), (Z.mod_small (target + _)) by lia.
  destruct (Z.eqb_spec (n - Z.min n 32) 0); [done|]. apply IH; (done || lia).
Qed.

(** [first_stage] with a partition table in which it finds the entry [e]. *)
Lemma first_stage_spec `{HB : BiosLaws} table start disk mem e :
  get_partition (mem_read mem table 64) 0 = Ret e → is_uint 32 (logical_block_address e) → is_uint 32 (sector_count e) →
  logical_block_address e + sector_count e ≤ disk_sectors disk →
  table + 64 ≤ start → 0 ≤ start < 2 ^ 20 → start + sector_count e * 512 ≤ 2 ^ 20 →
  returns (first_stage table start disk mem) (λ '(j, mem'),
    j = mkJump start disk table ∧
    mem_read mem' start (sector_count e * 512) =
      mem_read (disk_byte disk) (logical_block_address e * 512) (sector_count e * 512) ∧
    mem_read mem' table 64 = mem_read mem table 64 ∧
    ∀ x, ¬ (start ≤ x < start + sector_count e * 512) → mem' x = mem x).
Proof.
  intros Hp [Hl0 Hl1] [Hn0 Hn1] Hd Hts Hs Hend. unfold first_stage. change (16 * 4) with 64. rewrite Hp. cbn [mbind res_bind].
  unfold wrap_u. rewrite (Z.mod_small start) by lia.
  set (n := sector_count e) in *. set (lba := logical_block_address e) in *.
  destruct (returns_alt (load_loop (S (Z.to_nat n)) disk mem lba n start) (λ mem',
    ∀ x, mem' x = mem_write mem start (mem_read (disk_byte disk) (lba * 512) (n * 512)) x)) as [Hl _].
  destruct Hl as (mem' & Hm & Hw); [apply load_loop_spec; lia|].
  rewrite (first_stage_loop_refines _ _ _ _ _ _ mem') by (done || lia). cbn [mbind res_bind returns].
  assert (∀ x, ¬ (start ≤ x < start + n * 512) → mem' x = mem x) as Hout.
  { intros x Hx. rewrite Hw. apply mem_write_out. rewrite length_mem_read. lia. }
  split_and!; [done| |apply mem_read_ext; intros; apply Hout; lia|done].
  rewrite (mem_read_ext _ mem' _ _ (λ x _, Hw x)), mem_read_write by (rewrite ?length_mem_read; lia).
  rewrite Z.sub_diag. change (drop (Z.to_nat 0) ?l) with l. apply take_ge. rewrite length_mem_read. lia.
Qed.

(** C12: The boot sector loads the second stage: the sectors of the first partition of the partition
    table are copied to the address behind the boot sector, for any size up to the real-mode limit
    of 1 MiB, and the second stage is entered with the disk number and the partition table, which
    is still intact; no other byte of memory is changed. *)
Theorem first_stage_loads_second_stage `{HB : BiosLaws} table start disk mem e status c1 c2 rest :
  entry_ok e status c1 c2 → mem_read mem table 64 = entry_bytes e status c1 c2 ++ rest →
  logical_block_address e + sector_count e ≤ disk_sectors disk →
  table + 64 ≤ start → 0 ≤ start < 2 ^ 20 → start + sector_count e * 512 ≤ 2 ^ 20 →
  returns (first_stage table start disk mem) (λ '(j, mem'),
    j = mkJump start disk table ∧
    mem_read mem' start (sector_count e * 512) =
      mem_read (disk_byte disk) (logical_block_address e * 512) (sector_count e * 512) ∧
    mem_read mem' table 64 = mem_read mem table 64 ∧
    ∀ x, ¬ (start ≤ x < start + sector_count e * 512) → mem' x = mem x).
Proof.
  intros Hok Ht. pose proof (get_partition_encoded 0 [] rest e status c1 c2 Hok eq_refl) as Hp. cbn [app] in Hp.
  apply first_stage_spec; [by rewrite Ht|apply Hok|apply Hok].
Qed.

(** The partition table of a disk whose second stage has 90 sectors. *)
Definition sample_entry : PartitionTableEntry := mkEntry true 0x20 1 90.
Definition sample_sector : Mem :=
  mem_write (λ _, 0) 0x7dbe (entry_bytes sample_entry 0x80 [0; 2; 0] [0; 0; 0] ++ replicate 48 0).
Lemma first_stage_loads_second_stage_witness :
  returns (first_stage (B := bios_image (λ x, x mod 251)) 0x7dbe 0x7e00 0x80 sample_sector) (λ '(j, mem'),
    entry_point j = 0x7e00 ∧ mem_read mem' 0x7e00 (90 * 512) = mem_read (λ x, x mod 251) 512 (90 * 512)).
Proof.
  eapply returns_mono.
  - apply (first_stage_loads_second_stage (B := bios_image (λ x, x mod 251)) 0x7dbe 0x7e00 0x80 sample_sector
      sample_entry 0x80 [0; 2; 0] [0; 0; 0] (replicate 48 0)).
    + split; [done|done|by vm_compute|by vm_compute].
    + by vm_compute.
    + by vm_compute.
    + done.
    + done.
    + by vm_compute.
  - intros [j mem'] (-> & Hr & _). split; [done|exact Hr].
Defined.

End BootSector.
