(* ===== verification/Cpu.v ===== *)
(** * The processor, as far as the mode switches of the BIOS stages use it

    Real mode, protected mode and long mode of an x86-64 processor: control
    registers, segment registers with their hidden parts, descriptor tables,
    the stack and the four-level page walk, as the processor manuals describe
    them. An instruction is a function to [option]; [None] is a fault. *)
From S2P Require Import Prelude Memory Disk.
Import Memory Disk.

Module Cpu.

(** A segment register: the selector, and the hidden part that is used for accesses. *)
Record Segment := mkSegment {
  selector : Z;
  seg_base : Z;
  seg_limit : Z;
  seg_executable : bool;
  seg_default32 : bool;
  seg_long : bool;
}.

Record Cpu := mkCpu {
  cr0 : Z;
  cr3 : Z;
  cr4 : Z;
  efer : Z;
  gdt : list Z;
  interrupts : bool;
  cs : Segment;
  ds : Segment;
  es : Segment;
  ss : Segment;
  sp : Z;
  ip : Z;
  memory : Mem;
}.

Definition set_gdt (c : Cpu) (t : list Z) : Cpu :=
  mkCpu (cr0 c) (cr3 c) (cr4 c) (efer c) t (interrupts c) (cs c) (ds c) (es c) (ss c) (sp c) (ip c) (memory c).
Definition set_interrupts (c : Cpu) (b : bool) : Cpu :=
  mkCpu (cr0 c) (cr3 c) (cr4 c) (efer c) (gdt c) b (cs c) (ds c) (es c) (ss c) (sp c) (ip c) (memory c).
Definition set_cs (c : Cpu) (s : Segment) : Cpu :=
  mkCpu (cr0 c) (cr3 c) (cr4 c) (efer c) (gdt c) (interrupts c) s (ds c) (es c) (ss c) (sp c) (ip c) (memory c).
Definition set_ds (c : Cpu) (s : Segment) : Cpu :=
  mkCpu (cr0 c) (cr3 c) (cr4 c) (efer c) (gdt c) (interrupts c) (cs c) s (es c) (ss c) (sp c) (ip c) (memory c).
Definition set_es (c : Cpu) (s : Segment) : Cpu :=
  mkCpu (cr0 c) (cr3 c) (cr4 c) (efer c) (gdt c) (interrupts c) (cs c) (ds c) s (ss c) (sp c) (ip c) (memory c).
Definition set_ss (c : Cpu) (s : Segment) : Cpu :=
  mkCpu (cr0 c) (cr3 c) (cr4 c) (efer c) (gdt c) (interrupts c) (cs c) (ds c) (es c) s (sp c) (ip c) (memory c).
Definition set_sp (c : Cpu) (v : Z) : Cpu :=
  mkCpu (cr0 c) (cr3 c) (cr4 c) (efer c) (gdt c) (interrupts c) (cs c) (ds c) (es c) (ss c) v (ip c) (memory c).
Definition set_ip (c : Cpu) (v : Z) : Cpu :=
  mkCpu (cr0 c) (cr3 c) (cr4 c) (efer c) (gdt c) (interrupts c) (cs c) (ds c) (es c) (ss c) (sp c) v (memory c).
Definition set_memory (c : Cpu) (m : Mem) : Cpu :=
  mkCpu (cr0 c) (cr3 c) (cr4 c) (efer c) (gdt c) (interrupts c) (cs c) (ds c) (es c) (ss c) (sp c) (ip c) m.
Definition set_control (c : Cpu) (v0 v3 v4 e : Z) : Cpu :=
  mkCpu v0 v3 v4 e (gdt c) (interrupts c) (cs c) (ds c) (es c) (ss c) (sp c) (ip c) (memory c).

(** ** Control registers *)
Definition PE (c : Cpu) : bool := Z.testbit (cr0 c) 0.
Definition PG (c : Cpu) : bool := Z.testbit (cr0 c) 31.
Definition PAE (c : Cpu) : bool := Z.testbit (cr4 c) 5.
Definition LME (c : Cpu) : bool := Z.testbit (efer c) 8.

(** Paging needs protected mode, and with [LME] set also [PAE]. *)
Definition mov_cr0 (c : Cpu) (v : Z) : option Cpu :=
  if Z.testbit v 31 && (negb (Z.testbit v 0) || (LME c && negb (PAE c))) then None
  else Some (set_control c v (cr3 c) (cr4 c) (efer c)).
Definition mov_cr3 (c : Cpu) (v : Z) : option Cpu := Some (set_control c (cr0 c) v (cr4 c) (efer c)).
Definition mov_cr4 (c : Cpu) (v : Z) : option Cpu := Some (set_control c (cr0 c) (cr3 c) v (efer c)).
(** [LME] cannot be changed while paging is on. *)
Definition wrmsr_efer (c : Cpu) (v : Z) : option Cpu :=
  if PG c && negb (eqb (LME c) (Z.testbit v 8)) then None
  else Some (set_control c (cr0 c) (cr3 c) (cr4 c) v).

(** ** Segments *)
(** The hidden part that a descriptor describes. *)
Definition descriptor_segment (sel d : Z) : Segment :=
  let raw := Z.lor (Z.land d 0xffff) (Z.shiftl (Z.land (Z.shiftr d 48) 0xf) 16) in
  {| selector := sel;
     seg_base := Z.lor (Z.land (Z.shiftr d 16) 0xffffff) (Z.shiftl (Z.land (Z.shiftr d 56) 0xff) 24);
     seg_limit := if Z.testbit d 55 then raw * 4096 + 4095 else raw;
     seg_executable := Z.testbit d 43;
     seg_default32 := Z.testbit d 54;
     seg_long := Z.testbit d 53 |}.

(** Loading a segment register: in real mode the base is computed from the selector and the rest
    of the hidden part is kept; in protected mode the descriptor is read from the table. *)
Definition load_segment (c : Cpu) (old : Segment) (sel : Z) : option Segment :=
  if PE c then
    d ← gdt c !! Z.to_nat (sel / 8);
    if Z.testbit d 47 && Z.testbit d 44 then Some (descriptor_segment sel d) else None
  else
    Some (mkSegment sel (sel * 16) (seg_limit old) (seg_executable old) (seg_default32 old) (seg_long old)).
Definition mov_ds (c : Cpu) (sel : Z) : option Cpu := set_ds c <$> load_segment c (ds c) sel.
Definition mov_es (c : Cpu) (sel : Z) : option Cpu := set_es c <$> load_segment c (es c) sel.
Definition mov_ss (c : Cpu) (sel : Z) : option Cpu := set_ss c <$> load_segment c (ss c) sel.
(** A far jump to the next instruction: the code segment is reloaded and must be executable. *)
Definition ljmp (c : Cpu) (sel : Z) : option Cpu :=
  s ← load_segment c (cs c) sel;
  if seg_executable s then Some (set_cs c s) else None.
(** [lgdt]: a pointer to the table and its size in bytes less one. *)
Definition lgdt (c : Cpu) (table : list Z) (limit : Z) : option Cpu :=
  Some (set_gdt c (take (Z.to_nat ((limit + 1) / 8)) table)).

(** ** The mode *)
Inductive Mode := Real | Protected16 | Protected32 | Compatibility | Long64.
#[global] Instance Mode_eq_dec : EqDecision Mode.
Proof. solve_decision. Defined.
Definition mode (c : Cpu) : Mode :=
  if PE c then
    if PG c && LME c then if seg_long (cs c) then Long64 else Compatibility
    else if seg_default32 (cs c) then Protected32 else Protected16
  else Real.

(** ** The stack: [w] bytes at a time *)
Definition push (c : Cpu) (w : nat) (v : Z) : Cpu :=
  let p := sp c - Z.of_nat w in
  set_memory (set_sp c p) (mem_write (memory c) (seg_base (ss c) + p) (le_bytes w v)).
Definition pop (c : Cpu) (w : nat) : Z * Cpu :=
  (le_num (mem_read (memory c) (seg_base (ss c) + sp c) (Z.of_nat w)), set_sp c (sp c + Z.of_nat w)).
(** [call]: [ret] is the address of the next instruction. *)
Definition call (c : Cpu) (w : nat) (target ret : Z) : Cpu := set_ip (push c w ret) target.

(** ** The page walk of long mode

    Entries are 64-bit values in memory; bit 0 is the present bit, bit 7 of a level 3 or level 2
    entry marks a huge page, bits 12 to 51 are the address. *)
Definition read_entry (mem : Mem) (table index : Z) : Z := le_num (mem_read mem (table + 8 * index) 8).
Definition entry_address (e bits : Z) : Z := Z.shiftl (Z.land (Z.shiftr e bits) (Z.ones (52 - bits))) bits.

(** The walk below [table] of the given level. *)
Fixpoint walk_level (mem : Mem) (level : nat) (table va : Z) : option Z :=
  match level with
  | O => Some (table + Z.land va 0xfff)
  | S below =>
      let shift := 12 + 9 * Z.of_nat below in
      let e := read_entry mem table (Z.land (Z.shiftr va shift) 511) in
      if Z.testbit e 0 then
        if Z.testbit e 7 && ((1 <=? below)%nat && (below <=? 2)%nat)
        then Some (entry_address e shift + Z.land va (Z.ones shift))
        else walk_level mem below (entry_address e 12) va
      else None
  end.
Definition walk (c : Cpu) (va : Z) : option Z := walk_level (memory c) 4 (entry_address (cr3 c) 12) va.

(** ** Values in memory *)
Lemma read_write_same mem a w v : 0 ≤ v < 256 ^ Z.of_nat w →
  le_num (mem_read (mem_write mem a (le_bytes w v)) a (Z.of_nat w)) = v.
Proof.
  intros Hv. rewrite mem_read_write by (rewrite ?length_le_bytes; lia).
  rewrite Z.sub_diag, Nat2Z.id. change (drop (Z.to_nat 0) ?l) with l.
  rewrite take_ge by (rewrite length_le_bytes; lia). by apply le_num_le_bytes.
Qed.
Lemma read_write_other mem a bs b n : b + n ≤ a ∨ a + Z.of_nat (length bs) ≤ b →
  mem_read (mem_write mem a bs) b n = mem_read mem b n.
Proof. intros. apply mem_read_ext. intros x Hx. apply mem_write_out. lia. Qed.

Lemma pop_push c w v : 0 ≤ v < 256 ^ Z.of_nat w → pop (push c w v) w = (v, set_sp (push c w v) (sp c)).
Proof.
  intros Hv. unfold pop, push. cbn [memory sp ss set_memory set_sp seg_base]. rewrite read_write_same by done.
  do 2 f_equal. lia.
Qed.

Lemma pop_value c w v : le_num (mem_read (memory c) (seg_base (ss c) + sp c) (Z.of_nat w)) = v →
  pop c w = (v, set_sp c (sp c + Z.of_nat w)).
Proof. unfold pop. by intros ->. Qed.

(** Reloading all segment registers in protected mode. *)
Definition with_segments (c : Cpu) (code data : Segment) : Cpu :=
  set_ss (set_es (set_ds (set_cs c code) data) data) data.
Lemma load_segment_ext c c' old sel : cr0 c' = cr0 c → gdt c' = gdt c → load_segment c' old sel =
  if PE c then load_segment c old sel
  else Some (mkSegment sel (sel * 16) (seg_limit old) (seg_executable old) (seg_default32 old) (seg_long old)).
Proof. unfold load_segment, PE. intros -> ->. by destruct (Z.testbit (cr0 c) 0). Qed.
Lemma reload_segments {A} c code data (f : Cpu → option A) : PE c = true → seg_executable code = true →
  (∀ old, load_segment c old 0x8 = Some code) → (∀ old, load_segment c old 0x10 = Some data) →
  (c ← ljmp c 0x8; c ← mov_ds c 0x10; c ← mov_es c 0x10; c ← mov_ss c 0x10; f c) = f (with_segments c code data).
Proof.
  intros He Hx Hc Hd. unfold ljmp. rewrite Hc, some_bind, Hx, some_bind; cbv beta. 
  unfold mov_ds. rewrite (load_segment_ext c), He, Hd by done. cbn [fmap option_fmap option_map]. rewrite some_bind.
  unfold mov_es. rewrite (load_segment_ext c), He, Hd by done. cbn [fmap option_fmap option_map]. rewrite some_bind.
  unfold mov_ss. rewrite (load_segment_ext c), He, Hd by done. cbn [fmap option_fmap option_map]. by rewrite some_bind.
Qed.

End Cpu.
