(* ===== verification/ProtectedMode.v ===== *)
(** * Unreal mode and protected mode (bios/stage-2/src/protected_mode.rs)

    The second stage runs in real mode with the segment limits of protected
    mode ("unreal mode"), which lets it write above 1 MiB, and at its end it
    switches to protected mode and calls the third stage. *)
From S2P Require Import Prelude Memory Disk Cpu.
Import Memory Disk Cpu.

Module ProtectedMode.

(** [GdtProtectedMode] as the three entries that the processor reads. *)
Definition GdtProtectedMode : list Z :=
  let limit :=
    let limit_low := 0xffff in
    let limit_high := Z.shiftl 0xf 48 in
    Z.lor limit_high limit_low in
  let access_common :=
    let present := Z.shiftl 1 47 in
    let user_segment := Z.shiftl 1 44 in
    let read_write := Z.shiftl 1 41 in
    Z.lor (Z.lor present user_segment) read_write in
  let protected_mode := Z.shiftl 1 54 in
  let granularity := Z.shiftl 1 55 in
  let base_flags := Z.lor (Z.lor (Z.lor protected_mode granularity) access_common) limit in
  let executable := Z.shiftl 1 43 in
  let zero := 0 in
  let code := Z.lor base_flags executable in
  let data := base_flags in
  [zero; code; data].

Definition clear_interrupts_and_load (table : list Z) (c : Cpu) : option Cpu :=
  lgdt (set_interrupts c false) table (3 * 8 - 1).

Definition write_cr0 (c : Cpu) (val : Z) : option Cpu := mov_cr0 c val.
Definition set_protected_mode_bit (c : Cpu) : option (Z * Cpu) :=
  let cr0 := cr0 c in
  let cr0_protected := Z.lor cr0 1 in
  c ← write_cr0 c cr0_protected;
  Some (cr0, c).

Definition enter_unreal_mode (c : Cpu) : option Cpu :=
  let ds := selector (ds c) in
  let ss := selector (ss c) in
  c ← clear_interrupts_and_load GdtProtectedMode c;
  '(cr0, c) ← set_protected_mode_bit c;
  c ← mov_ds c 0x10;
  c ← mov_ss c 0x10;
  c ← write_cr0 c cr0;
  c ← mov_ds c ds;
  c ← mov_ss c ss;
  Some (set_interrupts c true).

(** [ret] is the address behind the [call], which is not reached again when the third stage does
    not return. *)
Definition enter_protected_mode_and_jump_to_stage_3 (entry_point info ret : Z) (c : Cpu) : option Cpu :=
  let c := set_interrupts c false in
  '(_, c) ← set_protected_mode_bit c;
  let c := set_sp c (Z.land (sp c) 0xffffff00) in
  let c := push c 4 info in
  let c := push c 4 entry_point in
  c ← ljmp c 0x8;
  c ← mov_ds c 0x10;
  c ← mov_es c 0x10;
  c ← mov_ss c 0x10;
  let '(target, c) := pop c 4 in
  Some (call c 4 target ret).

(** ** Correctness *)

(** A segment that covers the 4 GiB of a 32-bit address space. *)
Definition flat (s : Segment) : Prop := seg_base s = 0 ∧ seg_limit s = 0xffffffff.
Definition flat_segment (sel : Z) (executable : bool) : Segment := mkSegment sel 0 0xffffffff executable true false.

Lemma lor_1_bits v i : 0 ≤ i → Z.testbit (Z.lor v 1) i = Z.testbit v i || (i =? 0).
Proof.
  intros Hi. rewrite Z.lor_spec. destruct (Z.eqb_spec i 0) as [->|]; f_equal.
  apply (Z.bits_above_log2 1); cbn; lia.
Qed.

Lemma set_protected_mode_bit_ok c : PG c = false →
  set_protected_mode_bit c = Some (cr0 c, set_control c (Z.lor (cr0 c) 1) (cr3 c) (cr4 c) (efer c)).
Proof.
  unfold PG, set_protected_mode_bit, write_cr0, mov_cr0. intros Hg.
  by rewrite (lor_1_bits _ 31), Hg by lia.
Qed.

(** Loading the segment registers in protected mode and in real mode. *)
Lemma load_flat c : PE c = true → gdt c = GdtProtectedMode →
  mov_ds c 0x10 = Some (set_ds c (flat_segment 0x10 false)) ∧
  mov_es c 0x10 = Some (set_es c (flat_segment 0x10 false)) ∧
  mov_ss c 0x10 = Some (set_ss c (flat_segment 0x10 false)) ∧
  ljmp c 0x8 = Some (set_cs c (flat_segment 0x8 true)).
Proof. unfold mov_ds, mov_es, mov_ss, ljmp, load_segment. by intros -> ->. Qed.
Definition real_segment (old : Segment) (sel : Z) : Segment :=
  mkSegment sel (sel * 16) (seg_limit old) (seg_executable old) (seg_default32 old) (seg_long old).
Lemma load_real c sel : PE c = false →
  mov_ds c sel = Some (set_ds c (real_segment (ds c) sel)) ∧
  mov_ss c sel = Some (set_ss c (real_segment (ss c) sel)).
Proof. unfold mov_ds, mov_ss, load_segment. by intros ->. Qed.

(** [enter_unreal_mode] switches to protected mode and back without a fault: the processor is in
    real mode again with interrupts enabled, the data and stack segments have their former
    selectors and bases, but their limits are 4 GiB, and nothing else is changed but the
    descriptor table. *)
Theorem enter_unreal_mode_limits c : PE c = false → PG c = false →
  ∃ c', enter_unreal_mode c = Some c' ∧ mode c' = Real ∧ interrupts c' = true ∧
    selector (ds c') = selector (ds c) ∧ seg_base (ds c') = selector (ds c) * 16 ∧ seg_limit (ds c') = 0xffffffff ∧
    selector (ss c') = selector (ss c) ∧ seg_base (ss c') = selector (ss c) * 16 ∧ seg_limit (ss c') = 0xffffffff ∧
    gdt c' = GdtProtectedMode ∧ cr0 c' = cr0 c ∧ cs c' = cs c ∧ es c' = es c ∧ sp c' = sp c ∧ memory c' = memory c.
Proof.
  intros He Hg. unfold enter_unreal_mode.
  set (c1 := set_gdt (set_interrupts c false) GdtProtectedMode).
  change (clear_interrupts_and_load GdtProtectedMode c) with (Some c1). cbn [mbind option_bind].
  rewrite set_protected_mode_bit_ok by done. cbn [mbind option_bind].
  set (c2 := set_control c1 _ _ _ _). assert (PE c2 = true) as He2.
  { unfold PE, c2. cbn [set_control cr0]. by rewrite lor_1_bits, orb_true_r by lia. }
  rewrite (proj1 (load_flat c2 He2 eq_refl)). cbn [mbind option_bind].
  rewrite (proj1 (proj2 (proj2 (load_flat (set_ds c2 (flat_segment 0x10 false)) He2 eq_refl)))). cbn [mbind option_bind].
  unfold write_cr0, mov_cr0. change (cr0 c1) with (cr0 c). unfold PG in Hg. rewrite Hg. cbn [andb mbind option_bind].
  set (c3 := set_control _ _ _ _ _). assert (PE c3 = false) as He3 by done.
  rewrite (proj1 (load_real c3 _ He3)). cbn [mbind option_bind].
  rewrite (proj2 (load_real (set_ds c3 (real_segment (ds c3) (selector (ds c)))) _ He3)). cbn [mbind option_bind].
  eexists. split; [done|]. unfold mode. change (PE _) with (PE c) at 1. rewrite He. cbn. by split_and!.
Qed.

Lemma uint32_bytes v : is_uint 32 v → 0 ≤ v < 256 ^ Z.of_nat 4.
Proof. unfold is_uint. change (256 ^ Z.of_nat 4) with 0x100000000. lia. Qed.

(** C22: The jump to the third stage, from real mode with the descriptor table of unreal mode and a stack
    segment at address 0: the processor ends up in 32-bit protected mode with interrupts disabled
    and flat 4 GiB segments, at the entry point, with the return address on top of the stack and the
    pointer to the boot information above it; memory is changed only in the eight bytes below the
    aligned stack pointer. *)
Theorem enter_protected_mode_calls_stage_3 c entry_point info ret :
  PE c = false → PG c = false → gdt c = GdtProtectedMode → seg_base (ss c) = 0 → 
  is_uint 32 entry_point → is_uint 32 info → is_uint 32 ret →
  let top := Z.land (sp c) 0xffffff00 in
  ∃ c', enter_protected_mode_and_jump_to_stage_3 entry_point info ret c = Some c' ∧
    mode c' = Protected32 ∧ interrupts c' = false ∧ ip c' = entry_point ∧
    flat (cs c') ∧ flat (ds c') ∧ flat (es c') ∧ flat (ss c') ∧ seg_executable (cs c') = true ∧
    sp c' = top - 8 ∧
    le_num (mem_read (memory c') (sp c') 4) = ret ∧ le_num (mem_read (memory c') (sp c' + 4) 4) = info ∧
    ∀ x, ¬ (top - 8 ≤ x < top) → memory c' x = memory c x.
Proof.
  intros He Hg Hgdt Hss Hentry Hinfo Hret top. unfold enter_protected_mode_and_jump_to_stage_3.
  rewrite set_protected_mode_bit_ok by done. rewrite some_bind; cbv beta.
  set (c1 := set_control _ _ _ _ _). change (sp c1) with (sp c). fold top.
  set (c2 := push (push (set_sp c1 top) 4 info) 4 entry_point).
  assert (PE c2 = true) as He2.
  { unfold PE, c2. cbn [push set_memory set_sp c1 set_control cr0]. by rewrite lor_1_bits, orb_true_r by lia. }
  rewrite (reload_segments c2 (flat_segment 0x8 true) (flat_segment 0x10 false)); [|done|done|..].
  2,3: intros old; unfold load_segment; rewrite He2; change (gdt c2) with (gdt c); by rewrite Hgdt.
  set (m1 := mem_write (memory c) (top - 4) (le_bytes 4 info)).
  set (m2 := mem_write m1 (top - 8) (le_bytes 4 entry_point)).
  assert (memory c2 = m2 ∧ sp c2 = top - 8) as [Hm Hs].
  { cbn -[Z.sub Z.add le_bytes]. rewrite Hss, !Z.add_0_l. unfold m2, m1.
    change (Z.of_nat 4) with 4. by replace (top - 4 - 4) with (top - 8) by lia. }
  assert (PG c2 = false ∧ interrupts c2 = false) as [Hg2 H5].
  { split; [|done]. unfold PG in *. cbn [c2 c1 push set_memory set_sp set_control set_interrupts cr0].
    by rewrite lor_1_bits, Hg by lia. }
  clearbody c2. clear c1. unfold pop, with_segments. cbn [set_ss set_es set_ds set_cs ss seg_base flat_segment memory sp].
  rewrite Hm, Hs, !Z.add_0_l.
  unfold m2 at 1. rewrite (read_write_same m1 (top - 8) 4) by (by apply uint32_bytes).
  eexists. split; [reflexivity|]. unfold call, push, mode, PE, PG in *.
  cbn [set_ip set_memory set_sp memory sp ip interrupts cs ds es ss cr0].
  cbn [set_ss set_es set_ds set_cs set_sp cr0 cs ds es ss efer memory interrupts]. rewrite Hm, He2, Hg2, H5. cbn [flat_segment seg_base andb seg_default32 seg_executable].
  change (Z.of_nat 4) with 4. rewrite Z.add_0_l. replace (top - 8 + 4 - 4) with (top - 8) by lia.
  replace (top - 8 + 4) with (top - 4) by lia.
  split_and!; try reflexivity; try (by split).
  - exact (read_write_same m2 (top - 8) 4 ret (uint32_bytes _ Hret)).
  - rewrite read_write_other by (rewrite ?length_le_bytes; lia). unfold m2.
    rewrite read_write_other by (rewrite ?length_le_bytes; lia). exact (read_write_same (memory c) (top - 4) 4 info (uint32_bytes _ Hinfo)).
  - intros x Hx. unfold m2, m1. rewrite !mem_write_out by (rewrite ?length_le_bytes; lia). done.
Qed.

(** The state in which the boot sector leaves the processor, and real mode segments. *)
Definition real_mode_segment : Segment := mkSegment 0 0 0xffff false false false.
Definition sample_cpu : Cpu :=
  mkCpu 0x10 0 0 0 [] true (mkSegment 0 0 0xffff true false false) real_mode_segment real_mode_segment real_mode_segment
    0x7bf0 0x7e00 (λ _, 0).
Lemma enter_unreal_mode_limits_witness : ∃ c', enter_unreal_mode sample_cpu = Some c' ∧ seg_limit (ds c') = 0xffffffff.
Proof.
  destruct (enter_unreal_mode_limits sample_cpu eq_refl eq_refl) as (c' & H & _ & _ & _ & _ & Hl & _).
  exists c'. split; [exact H|exact Hl].
Defined.
Lemma enter_protected_mode_calls_stage_3_witness :
  ∃ c', enter_protected_mode_and_jump_to_stage_3 0x100000 0x7a00 0x8123 (set_gdt sample_cpu GdtProtectedMode) = Some c' ∧
    mode c' = Protected32 ∧ ip c' = 0x100000.
Proof.
  destruct (enter_protected_mode_calls_stage_3 (set_gdt sample_cpu GdtProtectedMode) 0x100000 0x7a00 0x8123
    eq_refl eq_refl eq_refl eq_refl ltac:(by vm_compute) ltac:(by vm_compute) ltac:(by vm_compute))
    as (c' & H & Hm & _ & Hip & _).
  exists c'. split; [exact H|]. split; [exact Hm|exact Hip].
Defined.

End ProtectedMode.
