(* ===== verification/Stage3.v ===== *)
(** * The third stage (bios/stage-3/src: main.rs, paging.rs, gdt.rs)

    In 32-bit protected mode, the third stage identity-maps the first 10 GiB
    with 2 MiB pages, turns on paging and long mode, and calls the fourth stage
    in 64-bit mode. Its screen output is in the file Screen. *)
From S2P Require Import Prelude Memory Disk Cpu ProtectedMode BiosCommon.
Import Memory Disk Cpu.

Module Stage3.

(** The addresses of the static tables [LEVEL_4], [LEVEL_3] and [LEVEL_2] (an array of 10). *)
Record Tables := mkTables { LEVEL_4 : Z; LEVEL_3 : Z; LEVEL_2 : Z }.
Definition level_2 (t : Tables) (i : nat) : Z := LEVEL_2 t + 4096 * Z.of_nat i.

(** [table.entries[i] = value] *)
Definition set_entry (mem : Mem) (table : Z) (i : nat) (value : Z) : Mem :=
  mem_write mem (table + 8 * Z.of_nat i) (le_bytes 8 value).

Definition common_flags : Z := 3.
(** The inner loop over the entries of a level 2 table, and the outer loop. *)
Definition map_level_2 (l2 : Z) (offset : Z) (mem : Mem) : Mem :=
  foldl (λ mem j, set_entry mem l2 j
    (Z.lor (Z.lor (offset + Z.of_nat j * (2 * 1024 * 1024)) common_flags) (Z.shiftl 1 7))) mem (seq 0 512).
Definition create_mappings (t : Tables) (mem : Mem) : Mem :=
  let mem := set_entry mem (LEVEL_4 t) 0 (Z.lor (LEVEL_3 t) common_flags) in
  foldl (λ mem i,
    let l2 := level_2 t i in
    let mem := set_entry mem (LEVEL_3 t) i (Z.lor l2 common_flags) in
    let offset := Z.of_nat i * 1024 * 1024 * 1024 in
    map_level_2 l2 offset mem) mem (seq 0 10).

Definition enable_paging (t : Tables) (c : Cpu) : option Cpu :=
  c ← mov_cr3 c (LEVEL_4 t);
  c ← mov_cr4 c (Z.lor (cr4 c) (Z.shiftl 1 5));
  c ← wrmsr_efer c (Z.lor (efer c) (Z.shiftl 1 8));
  mov_cr0 c (Z.lor (cr0 c) (Z.shiftl 1 31)).

(** [paging::init] *)
Definition init (t : Tables) (c : Cpu) : option Cpu :=
  let c := set_memory c (create_mappings t (memory c)) in
  enable_paging t c.

(** gdt.rs: [GdtLongMode::new] and [load] *)
Definition GdtLongMode : list Z :=
  let common_flags := Z.lor (Z.lor (Z.lor (Z.shiftl 1 44) (Z.shiftl 1 47)) (Z.shiftl 1 41)) (Z.shiftl 1 40) in
  let zero := 0 in
  let code := Z.lor (Z.lor common_flags (Z.shiftl 1 43)) (Z.shiftl 1 53) in
  let data := common_flags in
  [zero; code; data].
Definition load (table : list Z) (c : Cpu) : option Cpu := lgdt c table (3 * 8 - 1).

(** The registers with which the fourth stage is entered are those of the processor and [rdi]. *)
Definition enter_long_mode_and_jump_to_stage_4 (info stage_4_start ret : Z) (c : Cpu) : option (Cpu * Z) :=
  let c := set_sp c (Z.land (sp c) 0xffffff00) in
  let c := push c 4 0 in
  let c := push c 4 info in
  let c := push c 4 0 in
  let c := push c 4 (wrap_u 32 stage_4_start) in
  c ← ljmp c 0x8;
  c ← mov_ds c 0x10;
  c ← mov_es c 0x10;
  c ← mov_ss c 0x10;
  let '(rax, c) := pop c 8 in
  let '(rdi, c) := pop c 8 in
  Some (call c 8 rax ret, rdi).

(** [_start], without the output on the screen *)
Definition start (t : Tables) (info_addr ret : Z) (info : BiosCommon.BiosInfo) (c : Cpu) : option (Cpu * Z) :=
  c ← init t c;
  c ← load GdtLongMode c;
  enter_long_mode_and_jump_to_stage_4 info_addr (BiosCommon.start (BiosCommon.stage_4 info)) ret c.

(** ** The page tables *)

(** Static tables: page aligned, disjoint, below 4 GiB. *)
Record tables_ok (t : Tables) : Prop := {
  to_4 : 0 ≤ LEVEL_4 t < 2 ^ 32 ∧ LEVEL_4 t mod 4096 = 0;
  to_3 : 0 ≤ LEVEL_3 t < 2 ^ 32 ∧ LEVEL_3 t mod 4096 = 0;
  to_2 : 0 ≤ LEVEL_2 t < 2 ^ 32 - 10 * 4096 ∧ LEVEL_2 t mod 4096 = 0;
  to_43 : LEVEL_4 t ≠ LEVEL_3 t;
  to_42 : LEVEL_4 t + 4096 ≤ LEVEL_2 t ∨ LEVEL_2 t + 10 * 4096 ≤ LEVEL_4 t;
  to_32 : LEVEL_3 t + 4096 ≤ LEVEL_2 t ∨ LEVEL_2 t + 10 * 4096 ≤ LEVEL_3 t;
}.

Lemma lor_add_low x k n : 0 ≤ n → x mod 2 ^ n = 0 → 0 ≤ k < 2 ^ n → Z.lor x k = x + k.
Proof.
  intros Hn Hx Hk. assert (Z.land x k = 0) as Hl.
  { apply Z.bits_inj'. intros i Hi. rewrite Z.land_spec, Z.bits_0. destruct (Z.lt_ge_cases i n) as [Hlt|Hge].
    - by rewrite <- (Z.mod_pow2_bits_low x n i), Hx, Z.bits_0 by lia.
    - rewrite <- (Z.mod_small k (2 ^ n)), Z.mod_pow2_bits_high by lia. apply andb_false_r. }
  by rewrite <- Z.lxor_lor, <- Z.add_nocarry_lxor by done.
Qed.

(** An entry: the address and the flags are found again. *)
Lemma entry_address_ok a flags bits : 12 ≤ bits ≤ 52 → 0 ≤ a < 2 ^ 52 → a mod 2 ^ bits = 0 → 0 ≤ flags < 2 ^ bits →
  entry_address (a + flags) bits = a.
Proof.
  intros Hb Ha Hm Hf. unfold entry_address. rewrite Z.land_ones, Z.shiftr_div_pow2, Z.shiftl_mul_pow2 by lia.
  apply Z.mod_divide in Hm as [q ->]; [|lia].
  rewrite Z.div_add_l, (Z.div_small flags), Z.add_0_r by lia.
  rewrite Z.mod_small; [done|]. split; [nia|]. apply (Z.mul_lt_mono_pos_r (2 ^ bits)); [lia|].
  rewrite <- Z.pow_add_r by lia. replace (52 - bits + bits) with 52 by lia. lia.
Qed.
Lemma entry_flag_ok a flags i : 0 ≤ i < 12 → a mod 4096 = 0 → Z.testbit (a + flags) i = Z.testbit flags i.
Proof.
  intros Hi Hm. rewrite <- (Z.mod_pow2_bits_low (a + flags) 12), <- (Z.mod_pow2_bits_low flags 12) by lia.
  change (2 ^ 12) with 4096. by rewrite Zplus_mod, Hm, Z.add_0_l, Z.mod_mod by lia.
Qed.

(** A loop that sets the first [n] entries of a table. *)
Lemma set_entries table (f : nat → Z) n mem : (∀ j, (j < n)%nat → is_uint 64 (f j)) →
  let mem' := foldl (λ mem j, set_entry mem table j (f j)) mem (seq 0 n) in
  (∀ j, (j < n)%nat → read_entry mem' table (Z.of_nat j) = f j) ∧
  ∀ x, ¬ (table ≤ x < table + 8 * Z.of_nat n) → mem' x = mem x.
Proof.
  induction n as [|n IH]; intros Hf; [by split; [lia|]|].
  destruct IH as [IH1 IH2]; [auto|]. cbv zeta. rewrite seq_S, foldl_app. cbn [foldl Nat.add].
  set (m := foldl _ mem (seq 0 n)) in *. split.
  - intros j Hj. unfold read_entry, set_entry. destruct (decide (j = n)) as [->|Hne].
    + apply (read_write_same m _ 8). apply (Hf n). lia.
    + rewrite read_write_other by (rewrite length_le_bytes; lia). apply IH1. lia.
  - intros x Hx. unfold set_entry. rewrite mem_write_out by (rewrite length_le_bytes; lia). apply IH2. lia.
Qed.

Definition leaf (i j : nat) : Z := Z.of_nat i * 2 ^ 30 + Z.of_nat j * 2 ^ 21.

Lemma map_level_2_spec l2 i mem : (i < 10)%nat →
  let mem' := map_level_2 l2 (Z.of_nat i * 1024 * 1024 * 1024) mem in
  (∀ j, (j < 512)%nat → read_entry mem' l2 (Z.of_nat j) = leaf i j + 131) ∧
  ∀ x, ¬ (l2 ≤ x < l2 + 4096) → mem' x = mem x.
Proof.
  intros Hi. unfold map_level_2.
  assert (∀ j, (j < 512)%nat →
    Z.lor (Z.lor (Z.of_nat i * 1024 * 1024 * 1024 + Z.of_nat j * (2 * 1024 * 1024)) common_flags) (Z.shiftl 1 7) =
    leaf i j + 131) as Hv.
  { intros j Hj. rewrite <- Z.lor_assoc. change (Z.lor common_flags (Z.shiftl 1 7)) with 131.
    replace (Z.of_nat i * 1024 * 1024 * 1024 + Z.of_nat j * (2 * 1024 * 1024)) with (leaf i j) by (unfold leaf; lia).
    apply (lor_add_low _ _ 21); [lia| |lia]. unfold leaf.
    replace (Z.of_nat i * 2 ^ 30 + Z.of_nat j * 2 ^ 21) with ((Z.of_nat i * 512 + Z.of_nat j) * 2 ^ 21) by lia.
    by rewrite Z.mod_mul. }
  destruct (set_entries l2 (λ j, Z.lor (Z.lor (Z.of_nat i * 1024 * 1024 * 1024 + Z.of_nat j * (2 * 1024 * 1024))
    common_flags) (Z.shiftl 1 7)) 512 mem) as [H1 H2].
  { intros j Hj. rewrite Hv by done. unfold leaf, is_uint. lia. }
  split; [intros j Hj; by rewrite H1, Hv by done|]. intros x Hx. apply H2. lia.
Qed.

Lemma read_entry_ext mem mem' table i : (∀ x, table + 8 * i ≤ x < table + 8 * i + 8 → mem' x = mem x) →
  read_entry mem' table i = read_entry mem table i.
Proof. intros H. unfold read_entry. by rewrite (mem_read_ext mem mem'). Qed.

(** The entries after [n] rounds of the outer loop; everything else is as in [mem]. *)
Record mapped (t : Tables) (n : nat) (mem mem' : Mem) : Prop := {
  mp_3 i : (i < n)%nat → read_entry mem' (LEVEL_3 t) (Z.of_nat i) = level_2 t i + 3;
  mp_2 i j : (i < n)%nat → (j < 512)%nat → read_entry mem' (level_2 t i) (Z.of_nat j) = leaf i j + 131;
  mp_out x : ¬ (LEVEL_3 t ≤ x < LEVEL_3 t + 8 * Z.of_nat n) →
    ¬ (LEVEL_2 t ≤ x < LEVEL_2 t + 4096 * Z.of_nat n) → mem' x = mem x;
}.

Lemma level_2_aligned t i : tables_ok t → (i < 10)%nat → 0 ≤ level_2 t i < 2 ^ 32 ∧ level_2 t i mod 4096 = 0.
Proof.
  intros Ht Hi. destruct (to_2 _ Ht) as [Hr Hm]. unfold level_2. split; [lia|].
  rewrite Zplus_mod, Hm, Z.mul_comm, Z.mod_mul by lia. done.
Qed.

Lemma level_2_mapped_step t n mem mem' : tables_ok t → (n < 10)%nat → mapped t n mem mem' →
  mapped t (S n) mem
    (map_level_2 (level_2 t n) (Z.of_nat n * 1024 * 1024 * 1024)
       (set_entry mem' (LEVEL_3 t) n (Z.lor (level_2 t n) common_flags))).
Proof.
  intros Ht Hn [H3 H2 Ho]. set (m1 := set_entry _ _ _ _). destruct (level_2_aligned t n Ht Hn) as [Hr Ha].
  assert (Z.lor (level_2 t n) common_flags = level_2 t n + 3) as Hv by (by apply (lor_add_low _ _ 12)).
  destruct (map_level_2_spec (level_2 t n) n m1 Hn) as [M1 M2]. set (m2 := map_level_2 _ _ m1) in *.
  pose proof (to_32 _ Ht) as Hdis. unfold level_2 in M2.
  assert (∀ x, ¬ (LEVEL_3 t + 8 * Z.of_nat n ≤ x < LEVEL_3 t + 8 * Z.of_nat n + 8) → m1 x = mem' x) as Hm1.
  { intros x Hx. unfold m1, set_entry. apply mem_write_out. rewrite length_le_bytes. lia. }
  split.
  - intros i Hi. rewrite (read_entry_ext m1) by (intros x Hx; apply M2; lia).
    destruct (decide (i = n)) as [->|Hne].
    + unfold m1, read_entry, set_entry. rewrite Hv. apply (read_write_same mem' _ 8).
      change (256 ^ Z.of_nat 8) with (2 ^ 64). lia.
    + rewrite (read_entry_ext mem') by (intros x Hx; apply Hm1; lia). apply H3. lia.
  - intros i j Hi Hj. destruct (decide (i = n)) as [->|Hne]; [by apply M1|].
    rewrite (read_entry_ext mem'); [apply H2; lia|]. intros x Hx. unfold level_2 in Hx.
    rewrite M2 by lia. apply Hm1. lia.
  - intros x Hx1 Hx2. rewrite M2, Hm1 by lia. apply Ho; lia.
Qed.

Lemma create_mappings_spec t mem : tables_ok t →
  mapped t 10 (set_entry mem (LEVEL_4 t) 0 (Z.lor (LEVEL_3 t) common_flags)) (create_mappings t mem).
Proof.
  intros Ht. unfold create_mappings. set (m0 := set_entry mem _ _ _).
  assert (∀ n, (n ≤ 10)%nat → mapped t n m0 (foldl (λ mem i, map_level_2 (level_2 t i)
    (Z.of_nat i * 1024 * 1024 * 1024) (set_entry mem (LEVEL_3 t) i (Z.lor (level_2 t i) common_flags))) m0 (seq 0 n)))
    as H; [|by apply H].
  induction n as [|n IH]; intros Hn; [by split; lia || done|].
  rewrite seq_S, foldl_app. cbn [foldl Nat.add]. apply level_2_mapped_step; [done|lia|apply IH; lia].
Qed.

(** The walk through the tables, for memories that agree with them. *)
Lemma walk_level_step mem below table va e :
  read_entry mem table (Z.land (Z.shiftr va (12 + 9 * Z.of_nat below)) 511) = e →
  walk_level mem (S below) table va =
    if Z.testbit e 0 then
      if Z.testbit e 7 && ((1 <=? below)%nat && (below <=? 2)%nat)
      then Some (entry_address e (12 + 9 * Z.of_nat below) + Z.land va (Z.ones (12 + 9 * Z.of_nat below)))
      else walk_level mem below (entry_address e 12) va
    else None.
Proof. by intros <-. Qed.

Lemma index_bits va shift : 0 ≤ shift → Z.land (Z.shiftr va shift) 511 = va / 2 ^ shift mod 512.
Proof. intros. change 511 with (Z.ones 9). by rewrite Z.land_ones, Z.shiftr_div_pow2 by lia. Qed.

Record walkable (t : Tables) (mem : Mem) : Prop := {
  wk_4 : read_entry mem (LEVEL_4 t) 0 = LEVEL_3 t + 3;
  wk_4_rest i : 0 < i < 512 → read_entry mem (LEVEL_4 t) i = 0;
  wk_3 i : (i < 10)%nat → read_entry mem (LEVEL_3 t) (Z.of_nat i) = level_2 t i + 3;
  wk_3_rest i : 10 ≤ i < 512 → read_entry mem (LEVEL_3 t) i = 0;
  wk_2 i j : (i < 10)%nat → (j < 512)%nat → read_entry mem (level_2 t i) (Z.of_nat j) = leaf i j + 131;
}.

(** The first two steps of a walk: the level 2 table, or none. *)
Lemma walk_to_level_2 t mem va : tables_ok t → walkable t mem → 0 ≤ va < 2 ^ 48 →
  walk_level mem 4 (LEVEL_4 t) va =
    if va <? 10 * 2 ^ 30 then walk_level mem 2 (level_2 t (Z.to_nat (va / 2 ^ 30))) va else None.
Proof.
  intros Ht Hw Hva. destruct (to_3 _ Ht) as [H3r H3m].
  set (i4 := va / 2 ^ 39). assert (0 ≤ i4 < 512) as Hi4.
  { unfold i4. split; [apply Z.div_pos|apply Z.div_lt_upper_bound]; lia. }
  assert (Z.land (Z.shiftr va (12 + 9 * Z.of_nat 3)) 511 = i4) as Hidx4.
  { rewrite index_bits by lia. by apply Z.mod_small. }
  destruct (decide (i4 = 0)) as [H0|Hne].
  2: { erewrite walk_level_step by (rewrite Hidx4; apply (wk_4_rest _ _ Hw); lia). cbn [Z.testbit].
       destruct (Z.ltb_spec va (10 * 2 ^ 30)); [|done]. exfalso. apply Hne. apply Z.div_small. lia. }
  assert (va < 2 ^ 39) as Hlt.
  { pose proof (Z.div_mod va (2 ^ 39)). pose proof (Z.mod_pos_bound va (2 ^ 39)). unfold i4 in H0. lia. }
  erewrite walk_level_step by (rewrite Hidx4, H0; apply (wk_4 _ _ Hw)).
  rewrite !entry_flag_ok by (done || lia). change (Z.testbit 3 0) with true. change (Z.testbit 3 7) with false. cbn [andb].
  rewrite entry_address_ok by (done || lia).
  set (i3 := va / 2 ^ 30). assert (0 ≤ i3 < 512) as Hi3.
  { unfold i3. split; [apply Z.div_pos|apply Z.div_lt_upper_bound]; lia. }
  assert (Z.land (Z.shiftr va (12 + 9 * Z.of_nat 2)) 511 = i3) as Hidx3.
  { rewrite index_bits by lia. by apply Z.mod_small. }
  destruct (Z.ltb_spec va (10 * 2 ^ 30)) as [Hlo|Hhi].
  - assert (i3 < 10) as Hi10 by (apply Z.div_lt_upper_bound; lia).
    destruct (level_2_aligned t (Z.to_nat i3) Ht ltac:(lia)) as [Hr Hm].
    erewrite walk_level_step.
    2: { rewrite Hidx3. rewrite <- (Z2Nat.id i3) by lia. apply (wk_3 _ _ Hw). lia. }
    rewrite !entry_flag_ok by (done || lia). change (Z.testbit 3 0) with true. change (Z.testbit 3 7) with false.
    cbn [andb]. fold i3. by rewrite entry_address_ok by (done || lia).
  - assert (10 ≤ i3) by (apply Z.div_le_lower_bound; lia).
    erewrite walk_level_step by (rewrite Hidx3; apply (wk_3_rest _ _ Hw); lia). done.
Qed.

(** The last step: a huge page at its own address. *)
Lemma walk_huge t mem va : walkable t mem → 0 ≤ va < 10 * 2 ^ 30 →
  walk_level mem 2 (level_2 t (Z.to_nat (va / 2 ^ 30))) va = Some va.
Proof.
  intros Hw Hva. set (i := Z.to_nat (va / 2 ^ 30)). set (j := Z.to_nat (va / 2 ^ 21 mod 512)).
  pose proof (Z.mod_pos_bound (va / 2 ^ 21) 512 ltac:(lia)) as Hj.
  assert (0 ≤ va / 2 ^ 30 < 10) as Hi.
  { split; [apply Z.div_pos|apply Z.div_lt_upper_bound]; lia. }
  erewrite walk_level_step.
  2: { rewrite index_bits by lia. change (12 + 9 * Z.of_nat 1) with 21. rewrite <- (Z2Nat.id (_ mod _)) by lia.
       apply (wk_2 _ _ Hw); lia. }
  change (12 + 9 * Z.of_nat 1) with 21. fold i j.
  assert (leaf i j = va / 2 ^ 21 * 2 ^ 21) as Hleaf.
  { unfold leaf, i, j. rewrite !Z2Nat.id by lia. change (2 ^ 30) with (2 ^ 21 * 512) at 1. rewrite <- Z.div_div by lia.
    pose proof (Z.div_mod (va / 2 ^ 21) 512). lia. }
  assert (leaf i j mod 4096 = 0) as Hm.
  { rewrite Hleaf. change (2 ^ 21) with (512 * 4096) at 2. by rewrite Z.mul_assoc, Z.mod_mul. }
  rewrite !entry_flag_ok by (done || lia). change (Z.testbit 131 0) with true. change (Z.testbit 131 7) with true. cbn [andb Nat.leb].
  rewrite entry_address_ok; [|lia| |rewrite Hleaf; by apply Z.mod_mul|lia].
  - rewrite Z.land_ones, Hleaf by lia. f_equal. pose proof (Z.div_mod va (2 ^ 21)). lia.
  - rewrite Hleaf. pose proof (Z.div_mod va (2 ^ 21)). pose proof (Z.mod_pos_bound va (2 ^ 21)). lia.
Qed.

(** ** The switch to long mode *)
Lemma enable_paging_ok t c : PE c = true → PG c = false →
  enable_paging t c = Some (set_control c (Z.lor (cr0 c) (Z.shiftl 1 31)) (LEVEL_4 t)
    (Z.lor (cr4 c) (Z.shiftl 1 5)) (Z.lor (efer c) (Z.shiftl 1 8))).
Proof.
  unfold PE, PG. intros He Hg. unfold enable_paging, mov_cr3, mov_cr4. rewrite some_bind; cbv beta.
  rewrite some_bind; cbv beta. unfold wrmsr_efer at 1, PG at 1. cbn [cr0 set_control]. rewrite Hg. cbn [andb].
  rewrite some_bind; cbv beta. unfold mov_cr0, LME, PAE. cbn [cr0 cr4 efer set_control].
  by rewrite !Z.lor_spec, He, !orb_true_r.
Qed.

Definition long_code : Segment := mkSegment 0x8 0 0 true false true.
Definition long_data : Segment := mkSegment 0x10 0 0 false false false.
Lemma load_long c old : PE c = true → gdt c = GdtLongMode →
  load_segment c old 0x8 = Some long_code ∧ load_segment c old 0x10 = Some long_data.
Proof. unfold load_segment. by intros -> ->. Qed.

(** Two 32-bit values pushed one after the other are popped as one 64-bit value. *)
Lemma read_two mem a v : 0 ≤ v < 2 ^ 32 →
  mem_read mem a 4 = le_bytes 4 v → mem_read mem (a + 4) 4 = le_bytes 4 0 → le_num (mem_read mem a 8) = v.
Proof.
  intros Hv H1 H2. change 8 with (4 + 4). rewrite mem_read_app, H1, H2 by lia.
  assert (∀ l, le_num (l ++ [0; 0; 0; 0]) = le_num l) as Hz by (induction l as [|b l IH]; cbn in *; [done|by rewrite IH]).
  change (le_bytes 4 0) with [0; 0; 0; 0]. rewrite Hz. apply le_num_le_bytes. done.
Qed.

Lemma read_written mem a w v n : n = Z.of_nat w → mem_read (mem_write mem a (le_bytes w v)) a n = le_bytes w v.
Proof.
  intros ->. rewrite mem_read_write by (rewrite ?length_le_bytes; lia). rewrite Z.sub_diag, Nat2Z.id.
  change (drop (Z.to_nat 0) ?l) with l. apply take_ge. rewrite length_le_bytes. lia.
Qed.

(** The memory after the four pushes. *)
Definition pushed (mem : Mem) (top info entry : Z) : Mem :=
  mem_write (mem_write (mem_write (mem_write mem (top - 4) (le_bytes 4 0)) (top - 8) (le_bytes 4 info))
    (top - 12) (le_bytes 4 0)) (top - 16) (le_bytes 4 entry).
Lemma pushed_values mem top info entry : 0 ≤ info < 2 ^ 32 → 0 ≤ entry < 2 ^ 32 →
  le_num (mem_read (pushed mem top info entry) (top - 16) 8) = entry ∧
  le_num (mem_read (pushed mem top info entry) (top - 8) 8) = info.
Proof.
  intros Hi He. unfold pushed. split; apply read_two; try done;
    repeat (rewrite read_write_other by (rewrite ?length_le_bytes; lia));
    replace (top - 16 + 4) with (top - 12) by lia; replace (top - 8 + 4) with (top - 4) by lia;
    by apply read_written.
Qed.
Lemma pushed_out mem top info entry x : ¬ (top - 16 ≤ x < top) → pushed mem top info entry x = mem x.
Proof. intros Hx. unfold pushed. by rewrite !mem_write_out by (rewrite ?length_le_bytes; lia). Qed.

Lemma far_call_ok c m top info entry ret : PE c = true → gdt c = GdtLongMode →
  memory c = pushed m top info entry → sp c = top - 16 → is_uint 32 info → is_uint 32 entry →
  (c ← ljmp c 0x8; c ← mov_ds c 0x10; c ← mov_es c 0x10; c ← mov_ss c 0x10;
   let '(rax, c) := pop c 8 in
   let '(rdi, c) := pop c 8 in
   Some (call c 8 rax ret, rdi)) =
  Some (set_ip (set_memory (set_sp (with_segments c long_code long_data) (top - 8))
                  (mem_write (memory c) (top - 8) (le_bytes 8 ret))) entry, info).
Proof.
  intros He Hg Hm Hs Hi Hen.
  rewrite (reload_segments c long_code long_data); [|done|done|intros old; by apply load_long..].
  destruct (pushed_values m top info entry Hi Hen) as [V1 V2]. rewrite <- Hm in V1, V2.
  rewrite (pop_value _ 8 entry) by (cbn [with_segments set_ss set_es set_ds set_cs memory ss sp long_data seg_base];
    by rewrite Hs, Z.add_0_l).
  rewrite (pop_value _ 8 info).
  2: { cbn [with_segments set_sp set_ss set_es set_ds set_cs memory ss sp long_data seg_base].
       rewrite Hs, Z.add_0_l. by replace (top - 16 + Z.of_nat 8) with (top - 8) by lia. }
  do 2 f_equal. unfold call, push, with_segments. destruct c. cbn in Hs. rewrite Hs.
  cbn [set_ip set_memory set_sp set_ss set_es set_ds set_cs memory ss sp long_data seg_base cr0 cr3 cr4 efer gdt interrupts cs ds es].
  rewrite Z.add_0_l. by replace (top - 16 + Z.of_nat 8 + Z.of_nat 8 - Z.of_nat 8) with (top - 8) by lia.
Qed.

Lemma push4_ok c top info entry : seg_base (ss c) = 0 →
  let c' := push (push (push (push (set_sp c top) 4 0) 4 info) 4 0) 4 entry in
  memory c' = pushed (memory c) top info entry ∧ sp c' = top - 16 ∧
  cr0 c' = cr0 c ∧ cr3 c' = cr3 c ∧ cr4 c' = cr4 c ∧ efer c' = efer c ∧ gdt c' = gdt c ∧ interrupts c' = interrupts c.
Proof.
  intros Hs. destruct c; cbn -[Z.sub Z.add le_bytes] in *. rewrite Hs, !Z.add_0_l. unfold pushed. change (Z.of_nat 4) with 4.
  replace (top - 4 - 4) with (top - 8) by lia. replace (top - 8 - 4) with (top - 12) by lia.
  by replace (top - 12 - 4) with (top - 16) by lia.
Qed.

Lemma enter_long_mode_ok c info stage_4 ret : PE c = true → gdt c = GdtLongMode → seg_base (ss c) = 0 →
  is_uint 32 info → is_uint 32 stage_4 →
  let top := Z.land (sp c) 0xffffff00 in
  ∃ c', enter_long_mode_and_jump_to_stage_4 info stage_4 ret c = Some (c', info) ∧
    cr0 c' = cr0 c ∧ cr3 c' = cr3 c ∧ cr4 c' = cr4 c ∧ efer c' = efer c ∧ cs c' = long_code ∧
    interrupts c' = interrupts c ∧ ip c' = stage_4 ∧ sp c' = top - 8 ∧
    ∀ x, ¬ (top - 16 ≤ x < top) → memory c' x = memory c x.
Proof.
  intros He Hg Hs Hi Hst top. unfold enter_long_mode_and_jump_to_stage_4, wrap_u. rewrite Z.mod_small by done. fold top.
  destruct (push4_ok c top info stage_4 Hs) as (Hm & Hsp & E0 & E3 & E4 & E5 & E6 & E7).
  set (c2 := push _ 4 stage_4) in *. clearbody c2.
  rewrite (far_call_ok c2 (memory c) top info stage_4 ret); [|by unfold PE; rewrite E0|by rewrite E6|done..].
  eexists. split; [reflexivity|]. destruct c2; cbn -[Z.sub le_bytes pushed mem_write] in *. split_and!; try done.
  intros x Hx. rewrite mem_write_out by (rewrite length_le_bytes; lia). rewrite Hm. by apply pushed_out.
Qed.

(** The stack below [top] does not touch the tables. *)
Definition stack_apart (t : Tables) (top : Z) : Prop :=
  (top ≤ LEVEL_4 t ∨ LEVEL_4 t + 4096 ≤ top - 16) ∧ (top ≤ LEVEL_3 t ∨ LEVEL_3 t + 4096 ≤ top - 16) ∧
  (top ≤ LEVEL_2 t ∨ LEVEL_2 t + 10 * 4096 ≤ top - 16).

Lemma zero_entry mem table i : (∀ x, table ≤ x < table + 4096 → mem x = 0) → 0 ≤ i < 512 → read_entry mem table i = 0.
Proof.
  intros Hz Hi. unfold read_entry. rewrite (mem_read_ext (λ _, 0) mem) by (intros x Hx; apply Hz; lia). done.
Qed.

(** The tables after [create_mappings], in any memory that differs only outside of them. *)
Lemma create_mappings_walkable t mem mem' : tables_ok t →
  (∀ x, LEVEL_4 t ≤ x < LEVEL_4 t + 4096 → mem x = 0) → (∀ x, LEVEL_3 t ≤ x < LEVEL_3 t + 4096 → mem x = 0) →
  (∀ x, LEVEL_4 t ≤ x < LEVEL_4 t + 4096 ∨ LEVEL_3 t ≤ x < LEVEL_3 t + 4096 ∨ LEVEL_2 t ≤ x < LEVEL_2 t + 40960 →
     mem' x = create_mappings t mem x) →
  walkable t mem'.
Proof.
  intros Ht Hz4 Hz3 Hm. destruct (create_mappings_spec t mem Ht) as [M3 M2 Mo].
  set (m0 := set_entry mem _ _ _) in *. pose proof (to_43 _ Ht) as H43. pose proof (to_42 _ Ht). pose proof (to_32 _ Ht).
  destruct (to_4 _ Ht) as [H4r H4m]. destruct (to_3 _ Ht) as [H3r H3m].
  assert (LEVEL_4 t + 4096 ≤ LEVEL_3 t ∨ LEVEL_3 t + 4096 ≤ LEVEL_4 t) as Hdis.
  { apply Z.mod_divide in H4m as [a Ha]; [|lia]. apply Z.mod_divide in H3m as [b Hb]; [|lia]. lia. }
  assert (Z.lor (LEVEL_3 t) common_flags = LEVEL_3 t + 3) as Hv by (by apply (lor_add_low _ _ 12)).
  assert (∀ x, ¬ (LEVEL_4 t ≤ x < LEVEL_4 t + 8) → m0 x = mem x) as Hm0.
  { intros x Hx. unfold m0, set_entry. apply mem_write_out. rewrite length_le_bytes. lia. }
  split.
  - rewrite (read_entry_ext m0) by (intros x Hx; rewrite Hm, Mo by lia; done).
    unfold m0, read_entry, set_entry. rewrite Hv. apply (read_write_same mem _ 8).
    change (256 ^ Z.of_nat 8) with (2 ^ 64). lia.
  - intros i Hi. rewrite (read_entry_ext mem) by (intros x Hx; rewrite Hm, Mo, Hm0 by lia; done).
    apply zero_entry; [done|lia].
  - intros i Hi. rewrite <- M3 by done. apply read_entry_ext. intros x Hx. apply Hm. lia.
  - intros i Hi. rewrite (read_entry_ext mem) by (intros x Hx; rewrite Hm, Mo, Hm0 by lia; done).
    apply zero_entry; [done|lia].
  - intros i j Hi Hj. rewrite <- M2 by done. apply read_entry_ext. intros x Hx. apply Hm. unfold level_2 in Hx. lia.
Qed.

(** C11: The third stage, entered in protected mode with zeroed static tables and a flat stack segment:
    no instruction faults, the fourth stage is entered at its start address in 64-bit mode with the
    pointer to the boot information in [rdi] and a stack pointer aligned as the ABI requires, the
    active page tables map exactly the first 10 GiB, each address to itself, and memory is changed
    only in the tables and in 16 bytes of the stack. *)
Theorem start_enters_long_mode t info_addr ret info c :
  tables_ok t → PE c = true → PG c = false → seg_base (ss c) = 0 →
  is_uint 32 info_addr → is_uint 32 (BiosCommon.start (BiosCommon.stage_4 info)) →
  (∀ x, LEVEL_4 t ≤ x < LEVEL_4 t + 4096 → memory c x = 0) → (∀ x, LEVEL_3 t ≤ x < LEVEL_3 t + 4096 → memory c x = 0) →
  let top := Z.land (sp c) 0xffffff00 in
  stack_apart t top →
  ∃ c', start t info_addr ret info c = Some (c', info_addr) ∧
    mode c' = Long64 ∧ ip c' = BiosCommon.start (BiosCommon.stage_4 info) ∧ (sp c' + 8) mod 16 = 0 ∧
    (∀ va, 0 ≤ va < 10 * 2 ^ 30 → walk c' va = Some va) ∧
    (∀ va, 10 * 2 ^ 30 ≤ va < 2 ^ 48 → walk c' va = None) ∧
    ∀ x, ¬ (top - 16 ≤ x < top) → ¬ (LEVEL_4 t ≤ x < LEVEL_4 t + 4096) → ¬ (LEVEL_3 t ≤ x < LEVEL_3 t + 4096) →
      ¬ (LEVEL_2 t ≤ x < LEVEL_2 t + 10 * 4096) → memory c' x = memory c x.
Proof.
  intros Ht He Hg Hss Hinfo Hst Hz4 Hz3 top Hap. unfold start, init.
  rewrite enable_paging_ok by done. rewrite some_bind; cbv beta. unfold load, lgdt. rewrite some_bind; cbv beta.
  set (c1 := set_gdt _ _).
  assert (PE c1 = true) as He1 by (unfold PE in *; cbn [c1 set_gdt set_control set_memory cr0]; by rewrite Z.lor_spec, He).
  destruct (enter_long_mode_ok c1 info_addr _ ret He1 eq_refl Hss Hinfo Hst)
    as (c' & Hc & E0 & E3 & E4 & E5 & Ecs & Ei & Eip & Esp & Em).
  change (sp c1) with (sp c) in *. fold top in Esp, Em. change (memory c1) with (create_mappings t (memory c)) in Em.
  exists c'. destruct Hap as (A4 & A3 & A2).
  assert (walkable t (memory c')) as Hw.
  { apply (create_mappings_walkable t (memory c)); try done. intros x Hx. apply Em. lia. }
  assert (∀ va, walk c' va = walk_level (memory c') 4 (LEVEL_4 t) va) as Hwalk.
  { intros va. unfold walk. rewrite E3. change (cr3 c1) with (LEVEL_4 t). f_equal. destruct (to_4 _ Ht).
    rewrite <- (Z.add_0_r (LEVEL_4 t)) at 1. apply entry_address_ok; (done || lia). }
  split_and!; [done| |done| | | |].
  - unfold mode, PE, PG, LME. rewrite E0, E5, Ecs. cbn [c1 set_gdt set_control set_memory cr0 efer].
    rewrite !Z.lor_spec. unfold PE in He. by rewrite He, !orb_true_r.
  - rewrite Esp. replace (top - 8 + 8) with top by lia. unfold top. change 0xffffff00 with (Z.shiftl 0xffffff 8).
    rewrite <- (Z.land_ones _ 4), <- Z.land_assoc by lia. change (Z.land (Z.shiftl 0xffffff 8) (Z.ones 4)) with 0. apply Z.land_0_r.
  - intros va Hva. rewrite Hwalk, walk_to_level_2 by (done || lia). rewrite (proj2 (Z.ltb_lt _ _)) by lia. by apply walk_huge.
  - intros va Hva. rewrite Hwalk, walk_to_level_2 by (done || lia). by rewrite (proj2 (Z.ltb_ge _ _)) by lia.
  - intros x X1 X4 X3 X2. rewrite Em by done. rewrite (mp_out _ _ _ _ (create_mappings_spec t (memory c) Ht)) by lia.
    apply mem_write_out. rewrite length_le_bytes. lia.
Qed.

(** The tables of a build of the third stage, and the state in which the second stage leaves the
    processor. *)
Definition sample_tables : Tables := mkTables 0x103000 0x104000 0x105000.
Definition sample_cpu : Cpu := set_control (set_gdt ProtectedMode.sample_cpu ProtectedMode.GdtProtectedMode) 0x11 0 0 0.
Definition sample_info : BiosCommon.BiosInfo :=
  BiosCommon.mkBiosInfo (BiosCommon.mkRegion 0x130000 0x20000) (BiosCommon.mkRegion 0x1000000 0x5000)
    (BiosCommon.mkRegion 0x1005000 0) (BiosCommon.mkRegion 0x1005000 0) 0x1004fff
    (BiosCommon.mkBiosFramebufferInfo (BiosCommon.mkRegion 0xfd000000 0x300000) 1280 720 4 1280 BiosCommon.Bgr) 0x9000 5.
Lemma sample_tables_ok : tables_ok sample_tables.
Proof. split; (by vm_compute) || (left; by vm_compute). Qed.
Lemma start_enters_long_mode_witness :
  ∃ c', start sample_tables 0x7a00 0x100200 sample_info sample_cpu = Some (c', 0x7a00) ∧ mode c' = Long64 ∧
    walk c' 0xb8000 = Some 0xb8000.
Proof.
  destruct (start_enters_long_mode sample_tables 0x7a00 0x100200 sample_info sample_cpu sample_tables_ok eq_refl eq_refl eq_refl
    ltac:(by vm_compute) ltac:(by vm_compute) ltac:(done) ltac:(done)) as (c' & H & Hm & _ & _ & Hw & _).
  { unfold stack_apart. split; [|split]; left; by vm_compute. }
  exists c'. split; [exact H|]. split; [exact Hm|]. apply Hw. lia.
Defined.

End Stage3.
