(* ===== verification/Framebuffer.v ===== *)
(** * Text on a framebuffer (common/src/framebuffer.rs)

    [Pixels] holds what the two writers of the loader share: bytes of a
    framebuffer seen as pixels, and loops over a raster. [Framebuffer] is the
    writer of the common crate, used by the logger of the fourth stage and of
    the UEFI loader. The font (noto_sans_mono_bitmap) is the class [Font]. *)
From S2P Require Import Prelude Info.

Module Pixels.

(** [l.iter().enumerate()] *)
Definition enumerate {A} (l : list A) : list (Z * A) := imap (λ i a, (Z.of_nat i, a)) l.

(** [fb[lo..hi].copy_from_slice(src)] *)
Definition copy_from_slice (fb : list Z) (lo hi : Z) (src : list Z) : res (list Z) :=
  if decide (lo ≤ hi ∧ hi ≤ Z.of_nat (length fb)) then
    if decide (hi - lo = Z.of_nat (length src)) then Ret (list_inserts (Z.to_nat lo) src fb)
    else Panic "copy_from_slice: source slice length does not match destination slice length"
  else Panic "slice index out of range".

(** The bytes of the pixel with number [p]. *)
Definition pixel (fb : list Z) (bpp p : Z) : list Z := take (Z.to_nat bpp) (drop (Z.to_nat (p * bpp)) fb).

Lemma enumerate_split {A} (l : list A) l1 i a l2 : enumerate l = l1 ++ (i, a) :: l2 →
  i = Z.of_nat (length l1) ∧ l !! length l1 = Some a.
Proof.
  intros H. assert (enumerate l !! length l1 = Some (i, a)) as Hl by (rewrite H; by apply list_lookup_middle).
  unfold enumerate in Hl. rewrite list_lookup_imap in Hl. destruct (l !! length l1); by simplify_eq/=.
Qed.
Lemma length_enumerate {A} (l : list A) : length (enumerate l) = length l.
Proof. apply length_imap. Qed.

Lemma pixel_copy fb src p q bpp : 0 < bpp → 0 ≤ p → 0 ≤ q → (p + 1) * bpp ≤ Z.of_nat (length fb) →
  Z.of_nat (length src) = bpp →
  pixel (list_inserts (Z.to_nat (p * bpp)) src fb) bpp q = if decide (q = p) then src else pixel fb bpp q.
Proof.
  intros Hb Hp Hq Hl Hs. unfold pixel. apply list_eq. intros i.
  destruct (decide (i < Z.to_nat bpp)%nat) as [Hi|Hi].
  - rewrite lookup_take_lt, lookup_drop by done. destruct (decide (q = p)) as [->|Hne].
    + rewrite list_lookup_inserts by lia. f_equal. lia.
    + rewrite lookup_take_lt, lookup_drop by done. destruct (Z.lt_ge_cases q p).
      * apply list_lookup_inserts_lt. nia.
      * apply list_lookup_inserts_ge. nia.
  - rewrite lookup_take_ge by lia. symmetry. destruct (decide (q = p)); [apply lookup_ge_None_2|apply lookup_take_ge]; lia.
Qed.

(** The pixels of a cell of the given size at [x0] and [y0]. *)
Definition in_cell (x0 y0 w h x y : Z) : Prop := x0 ≤ x < x0 + w ∧ y0 ≤ y < y0 + h.
#[global] Instance in_cell_dec x0 y0 w h x y : Decision (in_cell x0 y0 w h x y).
Proof. unfold in_cell. apply _. Defined.

(** The intensity of a raster at column [dx] and row [dy]. *)
Definition raster_cell (raster : list (list Z)) (dx dy : Z) : Z :=
  default 0 (row ← raster !! Z.to_nat dy; row !! Z.to_nat dx).

(** Setting the pixel in column [x] of row [y], with [usize] of the given width. *)
Definition room (len : nat) (height stride bpp bits : Z) : Prop :=
  height * stride * bpp ≤ Z.of_nat len < 2 ^ bits ∧ 1 ≤ bpp ≤ 4.
Lemma room_pixel len height stride bpp bits x y : room len height stride bpp bits → 0 ≤ x < stride → 0 ≤ y < height →
  0 ≤ y * stride + x ∧ (y * stride + x + 1) * bpp ≤ Z.of_nat len.
Proof.
  intros [[Hl _] Hb] Hx Hy. split; [nia|]. assert (y * stride + x + 1 ≤ height * stride) by nia.
  etransitivity; [apply Z.mul_le_mono_nonneg_r; [lia|eassumption]|exact Hl].
Qed.
Lemma store_pixel {W} (k : list Z → W) fb height stride bpp bits x y color : room (length fb) height stride bpp bits →
  0 ≤ x < stride → 0 ≤ y < height → length color = 4%nat →
  (a ← y *[bits] stride; pixel_offset ← a +[bits] x;
   color ← Ret color;
   byte_offset ← pixel_offset *[bits] bpp; e ← byte_offset +[bits] bpp;
   src ← slice_range color 0 (Z.to_nat bpp); fb ← copy_from_slice fb byte_offset e src;
   _ ← index fb (Z.to_nat byte_offset); Ret (k fb)) =
  Ret (k (list_inserts (Z.to_nat ((y * stride + x) * bpp)) (take (Z.to_nat bpp) color) fb)).
Proof.
  intros Hr Hx Hy Hc. destruct (room_pixel _ _ _ _ _ x y Hr Hx Hy) as [Hp Hend]. destruct Hr as [[_ Hl] Hb].
  assert (0 ≤ y * stride) by nia. set (p := y * stride + x) in *. assert (0 ≤ p * bpp) by nia. assert (p + 1 ≤ Z.of_nat (length fb)) by nia.
  rewrite mul_u_ok by lia. cbn [mbind res_bind]. rewrite add_u_ok by lia. cbn [mbind res_bind]. fold p.
  rewrite mul_u_ok by lia. cbn [mbind res_bind]. rewrite add_u_ok by lia. cbn [mbind res_bind].
  unfold slice_range. rewrite decide_True by lia. rewrite Nat.sub_0_r. change (drop 0 color) with color. cbn [mbind res_bind].
  assert (length (take (Z.to_nat bpp) color) = Z.to_nat bpp) as Ht by (rewrite length_take; lia).
  unfold copy_from_slice. rewrite !decide_True by lia. cbn [mbind res_bind]. unfold index.
  destruct (lookup_lt_is_Some_2 (list_inserts (Z.to_nat (p * bpp)) (take (Z.to_nat bpp) color) fb) (Z.to_nat (p * bpp)))
    as [z ->]; [rewrite length_inserts; lia|]. done.
Qed.
Lemma pixel_store fb src height stride bpp bits x y x' y' : room (length fb) height stride bpp bits →
  0 ≤ x < stride → 0 ≤ y < height → Z.of_nat (length src) = bpp → 0 ≤ x' < stride → 0 ≤ y' →
  pixel (list_inserts (Z.to_nat ((y * stride + x) * bpp)) src fb) bpp (y' * stride + x') =
    if decide (x' = x ∧ y' = y) then src else pixel fb bpp (y' * stride + x').
Proof.
  intros Hr Hx Hy Hs Hx' Hy'. destruct (room_pixel _ _ _ _ _ x y Hr Hx Hy) as [Hp Hend]. destruct Hr as [[_ Hl] Hb].
  rewrite pixel_copy by (nia || done). destruct (decide (y' * stride + x' = y * stride + x)) as [E|Hne].
  - assert (y' = y) as -> by nia. by rewrite decide_True by lia.
  - by rewrite decide_False by (intros [-> ->]; lia).
Qed.

(** ** Drawing a raster with a writer of pixels

    The two nested loops of both writers, over a type of writers with a cursor, an operation that
    sets a pixel and a relation that says that nothing but pixels was changed. *)
Section Draw.
Context {W : Type} (x_pos y_pos : W → Z) (write_pixel : W → Z → Z → Z → res W) (at_ : W → Z → Z → list Z).
Context (same : W → W → Prop) `{!PreOrder same} (self : W) (shown : Z → list Z) (bits width height stride : Z).
Hypothesis same_pos : ∀ s, same self s → x_pos s = x_pos self ∧ y_pos s = y_pos self.
Hypothesis write_pixel_ok : ∀ s x y v, same self s → 0 ≤ x < width → 0 ≤ y < height →
  returns (write_pixel s x y v) (λ s', same s s' ∧ ∀ x' y', 0 ≤ x' < stride → 0 ≤ y' →
    at_ s' x' y' = if decide (x' = x ∧ y' = y) then shown v else at_ s x' y').
Hypothesis pos_ok : 0 ≤ x_pos self ∧ 0 ≤ y_pos self ∧ width < 2 ^ bits ∧ height < 2 ^ bits.

(** The first [n] pixels of a row are drawn at the position of the writer. *)
Definition row_drawn (s : W) (y : Z) (row : list Z) (n : nat) (s' : W) : Prop :=
  same s s' ∧ ∀ x' y', 0 ≤ x' < stride → 0 ≤ y' →
    at_ s' x' y' = if decide (in_cell (x_pos self) (y_pos self + y) (Z.of_nat n) 1 x' y')
                   then shown (default 0 (row !! Z.to_nat (x' - x_pos self))) else at_ s x' y'.
Definition draw_row (s : W) (y : Z) (row : list Z) : res W :=
  foldM (λ s '(x, byte), px ← x_pos s +[bits] x; py ← y_pos s +[bits] y; write_pixel s px py byte) s (enumerate row).

Lemma draw_row_ok s y row : same self s → 0 ≤ y → x_pos self + Z.of_nat (length row) ≤ width → y_pos self + y < height →
  returns (draw_row s y row) (row_drawn s y row (length row)).
Proof.
  intros Hs Hy Hw Hh. unfold draw_row. rewrite <- (length_enumerate row).
  apply (foldM_returns _ (λ l1, row_drawn s y row (length l1))).
  { split; [done|]. intros x' y' _ _. rewrite decide_False; [done|unfold in_cell; cbn; lia]. }
  intros l1 [x v] l2 s1 Hl [Hs1 Hat]. destruct (enumerate_split _ _ _ _ _ Hl) as [-> Hv].
  pose proof (lookup_lt_Some _ _ _ Hv) as Hlt. assert (same self s1) as Hs' by by etransitivity.
  destruct (same_pos s1 Hs') as [Hsx Hsy]. rewrite Hsx, Hsy.
  rewrite add_u_ok by lia. cbn [mbind res_bind]. rewrite add_u_ok by lia. cbn [mbind res_bind].
  eapply returns_mono; [apply write_pixel_ok; (done || lia)|]. intros s2 [Hs2 Hat2]. split; [by etransitivity|].
  intros x' y' Hx' Hy'. rewrite Hat2, Hat by done. rewrite length_app. cbn [length]. unfold in_cell.
  destruct (decide (x' = x_pos self + Z.of_nat (length l1) ∧ y' = y_pos self + y)) as [[-> ->]|Hne].
  - rewrite decide_True by lia. f_equal. replace (Z.to_nat _) with (length l1) by lia. by rewrite Hv.
  - case_decide; [by rewrite decide_True by lia|by rewrite decide_False by lia].
Qed.

(** The first [n] rows of a raster are drawn at the position of the writer. *)
Definition rows_drawn (raster : list (list Z)) (w : Z) (n : nat) (s' : W) : Prop :=
  same self s' ∧ ∀ x' y', 0 ≤ x' < stride → 0 ≤ y' →
    at_ s' x' y' = if decide (in_cell (x_pos self) (y_pos self) w (Z.of_nat n) x' y')
                   then shown (raster_cell raster (x' - x_pos self) (y' - y_pos self)) else at_ self x' y'.

Lemma draw_rows_ok raster w : Forall (λ row, Z.of_nat (length row) = w) raster → x_pos self + w ≤ width →
  y_pos self + Z.of_nat (length raster) ≤ height →
  returns (foldM (λ s '(y, row), draw_row s y row) self (enumerate raster)) (rows_drawn raster w (length raster)).
Proof.
  intros Hrow Hw Hh. rewrite <- (length_enumerate raster).
  apply (foldM_returns _ (λ l1, rows_drawn raster w (length l1))).
  { split; [done|]. intros x' y' _ _. rewrite decide_False; [done|unfold in_cell; cbn; lia]. }
  intros l1 [y row] l2 s1 Hl [Hs Hat]. destruct (enumerate_split _ _ _ _ _ Hl) as [-> Hv].
  pose proof (lookup_lt_Some _ _ _ Hv) as Hlt.
  assert (Z.of_nat (length row) = w) as Hrw by (rewrite Forall_lookup in Hrow; by eapply Hrow).
  eapply returns_mono; [apply draw_row_ok; (done || lia)|].
  intros s2 [Hs2 Hat2]. split; [by etransitivity|].
  intros x' y' Hx' Hy'. rewrite Hat2, Hat by done. rewrite Hrw, length_app. cbn [length]. unfold in_cell.
  destruct (decide (x_pos self ≤ x' < x_pos self + w ∧
    y_pos self + Z.of_nat (length l1) ≤ y' < y_pos self + Z.of_nat (length l1) + 1)) as [Hin|Hne].
  - rewrite decide_True by lia. f_equal. unfold raster_cell.
    replace (Z.to_nat (y' - y_pos self)) with (length l1) by lia. by rewrite Hv.
  - case_decide; [by rewrite decide_True by lia|by rewrite decide_False by lia].
Qed.
End Draw.

End Pixels.

Module Framebuffer.
Import Pixels.

(** ** The font *)
Record RasterizedChar := mkRaster { raster : list (list Z); raster_width : Z }.
Class Font := {
  get_raster : Z → option RasterizedChar;
  CHAR_RASTER_WIDTH : Z;
  CHAR_RASTER_HEIGHT : Z;
}.
Definition BACKUP_CHAR : Z := 0xFFFD.
(** What the font crate documents: the rasters of a monospace font of one size have the same number
    of rows and columns, and the replacement character is included. *)
Class FontLaws (F : Font) := {
  font_rows c r : get_raster c = Some r →
    Z.of_nat (length (raster r)) = CHAR_RASTER_HEIGHT ∧
    Forall (λ row, Z.of_nat (length row) = CHAR_RASTER_WIDTH) (raster r) ∧ raster_width r = CHAR_RASTER_WIDTH;
  font_backup : is_Some (get_raster BACKUP_CHAR);
  font_size : 0 < CHAR_RASTER_WIDTH < 2 ^ 16 ∧ 0 < CHAR_RASTER_HEIGHT < 2 ^ 16;
}.

Definition LINE_SPACING : Z := 2.
Definition LETTER_SPACING : Z := 0.
Definition BORDER_PADDING : Z := 1.

Record FrameBufferWriter := mkWriter {
  framebuffer : list Z;
  info : Info.FrameBufferInfo;
  x_pos : Z;
  y_pos : Z;
}.
Definition set_pos (self : FrameBufferWriter) (x y : Z) : FrameBufferWriter :=
  mkWriter (framebuffer self) (info self) x y.

Section Model.
Context `{F : Font}.

Definition get_char_raster (c : Z) : res RasterizedChar :=
  match get_raster c with
  | Some r => Ret r
  | None => expect_some (get_raster BACKUP_CHAR) "Should get raster of backup char."
  end.

Definition carriage_return (self : FrameBufferWriter) : FrameBufferWriter :=
  set_pos self BORDER_PADDING (y_pos self).
Definition newline (self : FrameBufferWriter) : res FrameBufferWriter :=
  h ← CHAR_RASTER_HEIGHT +[64] LINE_SPACING;
  y ← y_pos self +[64] h;
  Ret (carriage_return (set_pos self (x_pos self) y)).
Definition clear (self : FrameBufferWriter) : FrameBufferWriter :=
  mkWriter (replicate (length (framebuffer self)) 0) (info self) BORDER_PADDING BORDER_PADDING.
Definition new (framebuffer : list Z) (info : Info.FrameBufferInfo) : FrameBufferWriter :=
  clear (mkWriter framebuffer info 0 0).

(** The bytes of a pixel of the given intensity. *)
Definition pixel_color (format : Info.PixelFormat) (intensity : Z) : res (list Z) :=
  match format with
  | Info.Rgb => Ret [intensity; intensity; intensity / 2; 0]
  | Info.Bgr => Ret [intensity / 2; intensity; intensity; 0]
  | Info.U8 => Ret [if 200 <? intensity then 0xf else 0; 0; 0; 0]
  | Info.Unknown _ _ _ => Panic "pixel format not supported in logger"
  end.
Definition write_pixel (self : FrameBufferWriter) (x y intensity : Z) : res FrameBufferWriter :=
  a ← y *[64] Info.stride (info self);
  pixel_offset ← a +[64] x;
  color ← pixel_color (Info.pixel_format (info self)) intensity;
  let bytes_per_pixel := Info.bytes_per_pixel (info self) in
  byte_offset ← pixel_offset *[64] bytes_per_pixel;
  e ← byte_offset +[64] bytes_per_pixel;
  src ← slice_range color 0 (Z.to_nat bytes_per_pixel);
  fb ← copy_from_slice (framebuffer self) byte_offset e src;
  _ ← index fb (Z.to_nat byte_offset);
  Ret (mkWriter fb (info self) (x_pos self) (y_pos self)).

(** The loop over a row, and [write_rendered_char] *)
Definition write_row (self : FrameBufferWriter) (y : Z) (row : list Z) : res FrameBufferWriter :=
  foldM (λ self '(x, byte),
    px ← x_pos self +[64] x;
    py ← y_pos self +[64] y;
    write_pixel self px py byte) self (enumerate row).
Definition write_rendered_char (self : FrameBufferWriter) (rendered_char : RasterizedChar) :
    res FrameBufferWriter :=
  self ← foldM (λ self '(y, row), write_row self y row) self (enumerate (raster rendered_char));
  w ← raster_width rendered_char +[64] LETTER_SPACING;
  x ← x_pos self +[64] w;
  Ret (set_pos self x (y_pos self)).

Definition write_char (self : FrameBufferWriter) (c : Z) : res FrameBufferWriter :=
  if c =? 10 then newline self
  else if c =? 13 then Ret (carriage_return self)
  else
    new_xpos ← x_pos self +[64] CHAR_RASTER_WIDTH;
    self ← (if Info.width (info self) <=? new_xpos then newline self else Ret self);
    a ← y_pos self +[64] CHAR_RASTER_HEIGHT;
    new_ypos ← a +[64] BORDER_PADDING;
    let self := if Info.height (info self) <=? new_ypos then clear self else self in
    r ← get_char_raster c;
    write_rendered_char self r.

(** [fmt::Write::write_str] *)
Definition write_str (self : FrameBufferWriter) (s : list Z) : res FrameBufferWriter :=
  foldM write_char self s.
End Model.

(** ** Correctness *)

(** A framebuffer with a supported pixel format, large enough for its dimensions and for one
    character. *)
Record fb_ok `{Font} (len : nat) (i : Info.FrameBufferInfo) : Prop := {
  fo_format : match Info.pixel_format i with Info.Unknown _ _ _ => False | _ => True end;
  fo_bpp : 1 ≤ Info.bytes_per_pixel i ≤ 4;
  fo_stride : 0 ≤ Info.width i ≤ Info.stride i;
  fo_len : Info.height i * Info.stride i * Info.bytes_per_pixel i ≤ Z.of_nat len;
  fo_bound : Z.of_nat len < 2 ^ 62 ∧ Info.width i < 2 ^ 62 ∧ Info.height i < 2 ^ 62;
  fo_fits : BORDER_PADDING + CHAR_RASTER_WIDTH < Info.width i ∧
            BORDER_PADDING + CHAR_RASTER_HEIGHT + BORDER_PADDING < Info.height i;
}.

(** The pixel at column [x] and row [y]. *)
Definition at_ (self : FrameBufferWriter) (x y : Z) : list Z :=
  pixel (framebuffer self) (Info.bytes_per_pixel (info self)) (y * Info.stride (info self) + x).
(** The bytes that the source stores for an intensity. *)
Definition shown (i : Info.FrameBufferInfo) (intensity : Z) : list Z :=
  match pixel_color (Info.pixel_format i) intensity with
  | Ret color => take (Z.to_nat (Info.bytes_per_pixel i)) color
  | _ => []
  end.

Definition same_frame (self self' : FrameBufferWriter) : Prop :=
  info self' = info self ∧ x_pos self' = x_pos self ∧ y_pos self' = y_pos self ∧
  length (framebuffer self') = length (framebuffer self).

Section Proofs.
Context `{HF : FontLaws}.

Lemma fb_ok_room len i : fb_ok len i → room len (Info.height i) (Info.stride i) (Info.bytes_per_pixel i) 64.
Proof. intros Hok. destruct (fo_bound _ _ Hok). pose proof (fo_len _ _ Hok). pose proof (fo_bpp _ _ Hok). split; [lia|done]. Qed.

Lemma write_pixel_spec self x y v :
  fb_ok (length (framebuffer self)) (info self) →
  0 ≤ x < Info.width (info self) → 0 ≤ y < Info.height (info self) →
  returns (write_pixel self x y v) (λ self',
    same_frame self self' ∧
    ∀ x' y', 0 ≤ x' < Info.stride (info self) → 0 ≤ y' →
      at_ self' x' y' = if decide (x' = x ∧ y' = y) then shown (info self) v else at_ self x' y').
Proof.
  intros Hok Hx Hy. pose proof (fb_ok_room _ _ Hok) as Hr. pose proof (fo_stride _ _ Hok). pose proof (fo_bpp _ _ Hok).
  assert (∃ color, pixel_color (Info.pixel_format (info self)) v = Ret color ∧ length color = 4%nat) as (color & Hc & Hcl).
  { pose proof (fo_format _ _ Hok) as Hf. unfold pixel_color. destruct (Info.pixel_format (info self)); try done; eauto. }
  assert (shown (info self) v = take (Z.to_nat (Info.bytes_per_pixel (info self))) color) as Hsh by (unfold shown; by rewrite Hc).
  eapply returns_eq; [unfold write_pixel; rewrite Hc; eapply (store_pixel (λ fb, mkWriter fb _ _ _)); (done || lia)|].
  split; [unfold same_frame; cbn; by rewrite length_inserts|]. intros x' y' Hx' Hy'. rewrite Hsh. unfold at_.
  eapply pixel_store; try done; [lia|]. rewrite length_take, Hcl. lia.
Qed.

#[local] Instance same_frame_preorder : PreOrder same_frame.
Proof. split; [done|]. unfold same_frame. intros a b c (?&?&?&?) (?&?&?&?). split_and!; congruence. Qed.
Lemma same_frame_ok a b : same_frame a b → fb_ok (length (framebuffer a)) (info a) → fb_ok (length (framebuffer b)) (info b).
Proof. by intros (-> & _ & _ & ->). Qed.

(** The intensity of a raster at column [dx] and row [dy]. *)
Definition cell (r : RasterizedChar) (dx dy : Z) : Z := raster_cell (raster r) dx dy.

Lemma write_rows_spec self r w :
  fb_ok (length (framebuffer self)) (info self) → 0 ≤ x_pos self → 0 ≤ y_pos self →
  Forall (λ row, Z.of_nat (length row) = w) (raster r) → x_pos self + w ≤ Info.width (info self) →
  y_pos self + Z.of_nat (length (raster r)) ≤ Info.height (info self) →
  returns (foldM (λ self '(y, row), write_row self y row) self (enumerate (raster r)))
    (rows_drawn x_pos y_pos at_ same_frame self (shown (info self)) (Info.stride (info self)) (raster r) w (length (raster r))).
Proof.
  intros Hok Hx Hy Hrow Hw Hh. destruct (fo_bound _ _ Hok) as (_ & Hbw & Hbh).
  apply (draw_rows_ok x_pos y_pos write_pixel at_ same_frame self (shown (info self)) 64 (Info.width (info self))
    (Info.height (info self)) (Info.stride (info self))); [by intros s (_ & ? & ? & _)| |lia|done|done|done].
  intros s x y v Hs Hx' Hy'. pose proof Hs as (Hi & _). rewrite <- Hi in Hx', Hy' |- *.
  apply write_pixel_spec; [by eapply same_frame_ok|done|done].
Qed.

(** Where a character is drawn: at the position of the writer, in the next line when the line is
    full, at the top of a cleared screen when the screen is full. *)
Definition wrapped (self : FrameBufferWriter) : FrameBufferWriter :=
  if Info.width (info self) <=? x_pos self + CHAR_RASTER_WIDTH
  then set_pos self BORDER_PADDING (y_pos self + (CHAR_RASTER_HEIGHT + LINE_SPACING)) else self.
Definition placed (self : FrameBufferWriter) : FrameBufferWriter :=
  let self := wrapped self in
  if Info.height (info self) <=? y_pos self + CHAR_RASTER_HEIGHT + BORDER_PADDING then clear self else self.

(** The cursor of a writer that has [n] more characters to write. *)
Record writer_ok (n : nat) (self : FrameBufferWriter) : Prop := {
  wo_fb : fb_ok (length (framebuffer self)) (info self);
  wo_x : 0 ≤ x_pos self ≤ Info.width (info self);
  wo_y : 0 ≤ y_pos self ∧ y_pos self + Z.of_nat n * (CHAR_RASTER_HEIGHT + LINE_SPACING) < 2 ^ 63;
}.

Lemma newline_ok n self : writer_ok (S n) self →
  newline self = Ret (set_pos self BORDER_PADDING (y_pos self + (CHAR_RASTER_HEIGHT + LINE_SPACING))).
Proof.
  intros Hok. destruct (wo_y _ _ Hok). destruct font_size as [_ ?]. unfold newline, LINE_SPACING in *.
  rewrite add_u_ok by lia. cbn [mbind res_bind]. by rewrite add_u_ok by lia.
Qed.

Lemma placed_ok n self : writer_ok (S n) self →
  info (placed self) = info self ∧ length (framebuffer (placed self)) = length (framebuffer self) ∧
  0 ≤ x_pos (placed self) ∧ x_pos (placed self) + CHAR_RASTER_WIDTH < Info.width (info self) ∧
  0 ≤ y_pos (placed self) ∧ y_pos (placed self) + CHAR_RASTER_HEIGHT + BORDER_PADDING < Info.height (info self) ∧
  y_pos (placed self) ≤ y_pos self + (CHAR_RASTER_HEIGHT + LINE_SPACING).
Proof.
  intros [Hfb Hx [Hy _]]. destruct (fo_fits _ _ Hfb) as [Hfw Hfh]. destruct font_size as [Hw Hh]. unfold placed, wrapped.
  unfold LINE_SPACING, BORDER_PADDING in *.
  destruct (Z.leb_spec (Info.width (info self)) (x_pos self + CHAR_RASTER_WIDTH)); cbn [clear set_pos info x_pos y_pos framebuffer];
    (match goal with |- context [?a <=? ?b] => destruct (Z.leb_spec a b) end); cbn [clear set_pos info x_pos y_pos framebuffer]; rewrite ?length_replicate;
    unfold BORDER_PADDING; split_and!; (done || lia).
Qed.

Lemma get_char_raster_ok c : ∃ r, get_char_raster c = Ret r ∧ (get_raster c = Some r ∨ get_raster c = None ∧ get_raster BACKUP_CHAR = Some r) ∧
  Z.of_nat (length (raster r)) = CHAR_RASTER_HEIGHT ∧
  Forall (λ row, Z.of_nat (length row) = CHAR_RASTER_WIDTH) (raster r) ∧ raster_width r = CHAR_RASTER_WIDTH.
Proof.
  unfold get_char_raster. destruct font_backup as [b Hb]. destruct (get_raster c) as [r|] eqn:E.
  - exists r. split_and!; [done|by left|by eapply font_rows..].
  - rewrite Hb. exists b. split_and!; [done|by right|by eapply font_rows..].
Qed.

Lemma write_char_spec n self c : writer_ok (S n) self → c ≠ 10 → c ≠ 13 →
  returns (write_char self c) (λ self', ∃ r, (get_raster c = Some r ∨ get_raster c = None ∧ get_raster BACKUP_CHAR = Some r) ∧
    info self' = info self ∧ length (framebuffer self') = length (framebuffer self) ∧
    x_pos self' = x_pos (placed self) + CHAR_RASTER_WIDTH ∧ y_pos self' = y_pos (placed self) ∧
    ∀ x y, 0 ≤ x < Info.stride (info self) → 0 ≤ y →
      at_ self' x y =
        if decide (in_cell (x_pos (placed self)) (y_pos (placed self)) CHAR_RASTER_WIDTH CHAR_RASTER_HEIGHT x y)
        then shown (info self) (cell r (x - x_pos (placed self)) (y - y_pos (placed self)))
        else at_ (placed self) x y).
Proof.
  intros Hok H10 H13. destruct (placed_ok _ _ Hok) as (Hi & Hl & Hx0 & Hx1 & Hy0 & Hy1 & _).
  destruct (get_char_raster_ok c) as (r & Hr & Hrr & Hrl & Hrw & Hw).
  pose proof (wo_fb _ _ Hok) as Hfb. destruct (wo_x _ _ Hok). destruct (wo_y _ _ Hok). destruct font_size as [Hfw Hfh].
  destruct (fo_bound _ _ Hfb) as (_ & Hbw & Hbh). unfold write_char.
  rewrite (proj2 (Z.eqb_neq c 10)), (proj2 (Z.eqb_neq c 13)) by done. rewrite add_u_ok by lia. cbn [mbind res_bind].
  assert ((if Info.width (info self) <=? x_pos self + CHAR_RASTER_WIDTH then newline self else Ret self) =
    Ret (wrapped self)) as ->.
  { unfold wrapped. destruct (_ <=? _); [by apply (newline_ok n)|done]. }
  assert (0 ≤ y_pos (wrapped self) ≤ y_pos self + (CHAR_RASTER_HEIGHT + LINE_SPACING)).
  { unfold wrapped, LINE_SPACING in *. destruct (_ <=? _); cbn [clear set_pos info x_pos y_pos framebuffer]; lia. }
  unfold LINE_SPACING, BORDER_PADDING in *. cbn [mbind res_bind]. rewrite add_u_ok by lia. cbn [mbind res_bind].
  rewrite add_u_ok by lia. cbn [mbind res_bind]. rewrite Hr. cbn [mbind res_bind].
  change (if Info.height (info (wrapped self)) <=? y_pos (wrapped self) + CHAR_RASTER_HEIGHT + 1
    then clear (wrapped self) else wrapped self) with (placed self).
  unfold write_rendered_char. eapply returns_bind.
  { apply (write_rows_spec (placed self) r CHAR_RASTER_WIDTH); rewrite ?Hi, ?Hl, ?Hrl; (done || lia). }
  intros s1 [(Hi1 & Hsx & Hsy & Hsl) Hat]. rewrite Hw, Hsx. unfold LETTER_SPACING. rewrite add_u_ok by lia.
  cbn [mbind res_bind]. rewrite add_u_ok by lia. cbn [mbind res_bind returns set_pos info x_pos y_pos framebuffer]. exists r. split_and!; try done; try congruence; try lia.
  rewrite Hi, Hrl in Hat. exact Hat.
Qed.

Lemma write_char_keeps n self c : writer_ok (S n) self → returns (write_char self c) (λ self',
  writer_ok n self' ∧ info self' = info self ∧ length (framebuffer self') = length (framebuffer self)).
Proof.
  intros Hok. pose proof (wo_fb _ _ Hok) as Hfb. destruct (wo_x _ _ Hok). destruct (wo_y _ _ Hok).
  destruct (fo_fits _ _ Hfb). destruct font_size as [Hfw Hfh].
  destruct (decide (c = 10)) as [->|H10]; [|destruct (decide (c = 13)) as [->|H13]].
  - unfold write_char. cbn [Z.eqb Pos.eqb]. rewrite (newline_ok n) by done. unfold LINE_SPACING, BORDER_PADDING in *.
    split_and!; [split|done|done]; cbn [clear carriage_return set_pos info x_pos y_pos framebuffer]; unfold LINE_SPACING, BORDER_PADDING; (done || lia).
  - unfold write_char. cbn [Z.eqb Pos.eqb returns carriage_return]. unfold LINE_SPACING, BORDER_PADDING in *. split_and!; [split|done|done]; cbn [clear carriage_return set_pos info x_pos y_pos framebuffer]; unfold LINE_SPACING, BORDER_PADDING; (done || lia).
  - destruct (placed_ok _ _ Hok) as (Hi & Hl & Hx0 & Hx1 & Hy0 & Hy1 & Hy2).
    eapply returns_mono; [by apply (write_char_spec n)|]. intros s' (r & _ & Hi' & Hl' & Hx' & Hy' & _).
    split_and!; [split|done|done]; rewrite ?Hi', ?Hl', ?Hx', ?Hy'; unfold LINE_SPACING in *; (done || lia).
Qed.

(** C18: Writing a printable character draws its raster (or that of the replacement character) pixel by
    pixel at the cursor, in the next line when the current one is full and on a cleared screen when
    the screen is full; the cell lies inside of the visible area, the cursor moves behind it, and
    no pixel outside of the cell is changed. *)
Theorem write_char_draws n self c : writer_ok (S n) self → c ≠ 10 → c ≠ 13 →
  let X := x_pos (placed self) in
  let Y := y_pos (placed self) in
  0 ≤ X ∧ X + CHAR_RASTER_WIDTH < Info.width (info self) ∧ 0 ≤ Y ∧ Y + CHAR_RASTER_HEIGHT < Info.height (info self) ∧
  returns (write_char self c) (λ self', ∃ r, (get_raster c = Some r ∨ get_raster c = None ∧ get_raster BACKUP_CHAR = Some r) ∧
    x_pos self' = X + CHAR_RASTER_WIDTH ∧ y_pos self' = Y ∧
    ∀ x y, 0 ≤ x < Info.stride (info self) → 0 ≤ y →
      at_ self' x y =
        if decide (in_cell X Y CHAR_RASTER_WIDTH CHAR_RASTER_HEIGHT x y)
        then shown (info self) (cell r (x - X) (y - Y)) else at_ (placed self) x y).
Proof.
  intros Hok H10 H13 X Y. destruct (placed_ok _ _ Hok) as (_ & _ & Hx0 & Hx1 & Hy0 & Hy1 & _).
  unfold BORDER_PADDING in *. split_and!; [done|done|done|unfold Y; lia|].
  eapply returns_mono; [by apply (write_char_spec n)|]. intros s' (r & Hr & _ & _ & Hx & Hy & Hat). by exists r.
Qed.

(** Writing any text to a framebuffer of a supported pixel format that has room for one character
    never panics: no index is out of range and no sum overflows, the framebuffer keeps its size
    and description, and the cursor stays in a state from which more can be written. *)
Lemma write_str_ok self s m : writer_ok (length s + m) self →
  returns (write_str self s) (λ self', writer_ok m self' ∧ info self' = info self ∧
    length (framebuffer self') = length (framebuffer self)).
Proof.
  revert self. induction s as [|c s IH]; intros self Hok; [done|]. unfold write_str in *. cbn [foldM].
  eapply returns_bind; [by apply (write_char_keeps (length s + m))|]. intros s1 (Hok1 & Hi1 & Hl1).
  eapply returns_mono; [by apply IH|]. intros s2 (Hok2 & Hi2 & Hl2). split_and!; congruence || done.
Qed.

End Proofs.

(** ** A concrete font and framebuffer *)
Definition sample_font : Font := {|
  get_raster c := if c =? 0x41 then Some (mkRaster [[0; 255]; [255; 0]] 2)
                  else if c =? BACKUP_CHAR then Some (mkRaster [[255; 255]; [255; 255]] 2) else None;
  CHAR_RASTER_WIDTH := 2;
  CHAR_RASTER_HEIGHT := 2;
|}.
#[local] Existing Instance sample_font.
#[global] Instance sample_font_laws : FontLaws sample_font.
Proof.
  split.
  - intros c r. cbn. destruct (c =? 0x41); [|destruct (c =? BACKUP_CHAR); [|done]];
      (intros [= <-]; split_and!; [done|repeat constructor|done]).
  - by eexists.
  - done.
Defined.
Definition sample_writer : FrameBufferWriter :=
  new (replicate 200 7) (Info.mkFrameBufferInfo 200 6 6 Info.Bgr 4 8).
Lemma sample_writer_ok : writer_ok 10 sample_writer.
Proof. split; [split|..]; by vm_compute. Qed.

Lemma write_char_draws_witness : returns (write_char sample_writer 0x41) (λ self', at_ self' 2 1 = [127; 255; 255; 0]).
Proof.
  destruct (write_char_draws 9 sample_writer 0x41 sample_writer_ok ltac:(done) ltac:(done)) as (_ & _ & _ & _ & H).
  eapply returns_mono; [exact H|]. intros s' (r & [Hr|[Hr _]] & _ & _ & Hat); [|discriminate Hr].
  injection Hr as <-. rewrite Hat; [by vm_compute|split; by vm_compute|done].
Defined.

End Framebuffer.
