(* ===== verification/Screen.v ===== *)
(** * The screen of the BIOS stages (bios/stage-3/src/screen.rs, bios/stage-2/src/screen.rs)

    [TextMode] is the output of the second stage through the BIOS. [Screen] is
    the third stage's writer on the framebuffer, for a 32-bit [usize]: text
    without line spacing or border. Its specification is a terminal, a table of
    characters with a cursor. The font is the class [BitmapFont]; the static
    [WRITER] is an option that the operations thread, and what it holds after a
    panic is not modelled. *)
From stdpp Require Import gmap.
From S2P Require Import Prelude Framebuffer BiosCommon.

Module TextMode.
(** The bytes for which [int 0x10] is called, with [ah = 0x0e], in order; [print_char] and [print_str] *)
Definition print_char (out : list Z) (c : Z) : list Z := out ++ [c].
Definition print_str (out : list Z) (s : list Z) : list Z :=
  foldl (λ out c,
    if c <? 128 then
      let out := print_char out c in
      if c =? 10 then print_char out 13 else out
    else print_char out 0x58) out s.
End TextMode.

Module Screen.
Import Pixels.

(** ** The font *)
Record BitmapChar := mkBitmap { bitmap : list (list Z); bitmap_width : Z; bitmap_height : Z }.
Class BitmapFont := get_bitmap : Z → option BitmapChar.
(** The bitmaps of a monospace font of 14 rows. *)
Class BitmapFontLaws (F : BitmapFont) := {
  font_width : Z;
  font_bitmap c r : get_bitmap c = Some r → length (bitmap r) = 14%nat ∧ bitmap_height r = 14 ∧
    bitmap_width r = font_width ∧ Forall (λ row, Z.of_nat (length row) = font_width) (bitmap r);
  font_width_ok : 0 < font_width < 2 ^ 16;
}.

Definition LINE_SPACING : Z := 0.
Record ScreenWriter := mkScreen {
  framebuffer : list Z;
  info : BiosCommon.BiosFramebufferInfo;
  x_pos : Z;
  y_pos : Z;
}.

Section Model.
Context `{F : BitmapFont}.

Definition clear (self : ScreenWriter) : ScreenWriter :=
  mkScreen (replicate (length (framebuffer self)) 0) (info self) 0 0.
Definition new (framebuffer : list Z) (info : BiosCommon.BiosFramebufferInfo) : ScreenWriter :=
  clear (mkScreen framebuffer info 0 0).
Definition carriage_return (self : ScreenWriter) : ScreenWriter :=
  mkScreen (framebuffer self) (info self) 0 (y_pos self).
Definition newline (self : ScreenWriter) : res ScreenWriter :=
  y ← y_pos self +[32] (14 + LINE_SPACING);
  Ret (carriage_return (mkScreen (framebuffer self) (info self) (x_pos self) y)).
Definition width (self : ScreenWriter) : Z := BiosCommon.width (info self).
Definition height (self : ScreenWriter) : Z := BiosCommon.height (info self).

(** The bytes of a pixel of the given intensity. *)
Definition pixel_color (format : BiosCommon.PixelFormat) (intensity : Z) : res (list Z) :=
  match format with
  | BiosCommon.Rgb => Ret [intensity; intensity; intensity / 2; 0]
  | BiosCommon.Bgr => Ret [intensity / 2; intensity; intensity; 0]
  | BiosCommon.Unknown _ _ _ => Panic "pixel format not supported in logger"
  end.
Definition write_pixel (self : ScreenWriter) (x y intensity : Z) : res ScreenWriter :=
  a ← y *[32] BiosCommon.stride (info self);
  pixel_offset ← a +[32] x;
  color ← pixel_color (BiosCommon.pixel_format (info self)) intensity;
  let bytes_per_pixel := BiosCommon.bytes_per_pixel (info self) in
  byte_offset ← pixel_offset *[32] bytes_per_pixel;
  e ← byte_offset +[32] bytes_per_pixel;
  src ← slice_range color 0 (Z.to_nat bytes_per_pixel);
  fb ← copy_from_slice (framebuffer self) byte_offset e src;
  _ ← index fb (Z.to_nat byte_offset);
  Ret (mkScreen fb (info self) (x_pos self) (y_pos self)).

Definition write_rendered_char (self : ScreenWriter) (rendered_char : BitmapChar) : res ScreenWriter :=
  self ← foldM (λ self '(y, row),
           foldM (λ self '(x, byte),
             px ← x_pos self +[32] x;
             py ← y_pos self +[32] y;
             write_pixel self px py byte) self (enumerate row)) self (enumerate (bitmap rendered_char));
  x ← x_pos self +[32] bitmap_width rendered_char;
  Ret (mkScreen (framebuffer self) (info self) x (y_pos self)).

Definition write_char (self : ScreenWriter) (c : Z) : res ScreenWriter :=
  if c =? 10 then newline self
  else if c =? 13 then Ret (carriage_return self)
  else
    bitmap_char ← expect_some (get_bitmap c) "called `Option::unwrap()` on a `None` value";
    x ← x_pos self +[32] bitmap_width bitmap_char;
    self ← (if width self <? x then newline self else Ret self);
    y ← y_pos self +[32] bitmap_height bitmap_char;
    let self := if height self <? y then clear self else self in
    write_rendered_char self bitmap_char.

(** [fmt::Write::write_str] of [ScreenWriter], and of [Writer] on the static [WRITER] *)
Definition write_str (self : ScreenWriter) (s : list Z) : res ScreenWriter := foldM write_char self s.
Definition Writer_write_str (WRITER : option ScreenWriter) (s : list Z) : res (option ScreenWriter) :=
  writer ← expect_some WRITER "called `Option::unwrap()` on a `None` value";
  writer ← write_str writer s;
  Ret (Some writer).

(** [screen::init], with the bytes of memory from the start of the region on *)
Definition init (memory : Z → nat → list Z) (info : BiosCommon.BiosFramebufferInfo) : res (option ScreenWriter) :=
  len ← expect_some (try_from_u 32 (BiosCommon.len (BiosCommon.region info))) "called `Result::unwrap()` on an `Err` value";
  let framebuffer := memory (wrap_u 32 (BiosCommon.start (BiosCommon.region info))) (Z.to_nat len) in
  Ret (Some (new framebuffer info)).
End Model.

(** ** A terminal *)
Record Terminal := mkTerminal { text : gmap (Z * Z) Z; column : Z; line : Z }.
Definition blank : Terminal := mkTerminal ∅ 0 0.
(** A character goes to the cursor, to the next line when the line is full, to the top of an empty
    screen when the screen is full. *)
Definition type_char (columns lines : Z) (t : Terminal) (c : Z) : Terminal :=
  if c =? 10 then mkTerminal (text t) 0 (line t + 1)
  else if c =? 13 then mkTerminal (text t) 0 (line t)
  else
    let t := if columns <=? column t then mkTerminal (text t) 0 (line t + 1) else t in
    let t := if lines <=? line t then blank else t in
    mkTerminal (<[(column t, line t) := c]> (text t)) (column t + 1) (line t).
Definition type_str (columns lines : Z) (t : Terminal) (s : list Z) : Terminal := foldl (type_char columns lines) t s.

(** A framebuffer with a supported pixel format, large enough for its dimensions and a character. *)
Record screen_ok `{BitmapFontLaws} (len : nat) (i : BiosCommon.BiosFramebufferInfo) : Prop := {
  so_format : BiosCommon.is_unknown (BiosCommon.pixel_format i) = false;
  so_width : font_width ≤ BiosCommon.width i ≤ BiosCommon.stride i ∧ BiosCommon.width i < 2 ^ 16;
  so_height : 14 ≤ BiosCommon.height i < 2 ^ 16;
  so_room : room len (BiosCommon.height i) (BiosCommon.stride i) (BiosCommon.bytes_per_pixel i) 32;
}.

(** The pixel at column [x] and row [y], and the bytes that are stored for an intensity. *)
Definition at_ (self : ScreenWriter) (x y : Z) : list Z :=
  pixel (framebuffer self) (BiosCommon.bytes_per_pixel (info self)) (y * BiosCommon.stride (info self) + x).
Definition shown (i : BiosCommon.BiosFramebufferInfo) (intensity : Z) : list Z :=
  match pixel_color (BiosCommon.pixel_format i) intensity with
  | Ret color => take (Z.to_nat (BiosCommon.bytes_per_pixel i)) color
  | _ => []
  end.
Definition same_frame (self self' : ScreenWriter) : Prop :=
  info self' = info self ∧ x_pos self' = x_pos self ∧ y_pos self' = y_pos self ∧
  length (framebuffer self') = length (framebuffer self).
#[local] Instance same_frame_preorder : PreOrder same_frame.
Proof. split; [done|]. unfold same_frame. intros a b c (?&?&?&?) (?&?&?&?). split_and!; congruence. Qed.

Section Proofs.
Context `{HF : BitmapFontLaws}.

Lemma screen_write_pixel_spec self x y v : screen_ok (length (framebuffer self)) (info self) →
  0 ≤ x < width self → 0 ≤ y < height self →
  returns (write_pixel self x y v) (λ self', same_frame self self' ∧
    ∀ x' y', 0 ≤ x' < BiosCommon.stride (info self) → 0 ≤ y' →
      at_ self' x' y' = if decide (x' = x ∧ y' = y) then shown (info self) v else at_ self x' y').
Proof.
  intros Hok Hx Hy. pose proof (so_room _ _ Hok) as Hr. pose proof (so_width _ _ Hok). unfold width, height in *.
  assert (∃ color, pixel_color (BiosCommon.pixel_format (info self)) v = Ret color ∧ length color = 4%nat) as (color & Hc & Hcl).
  { pose proof (so_format _ _ Hok) as Hf. unfold pixel_color. destruct (BiosCommon.pixel_format (info self)); try done; eauto. }
  assert (shown (info self) v = take (Z.to_nat (BiosCommon.bytes_per_pixel (info self))) color) as Hsh by (unfold shown; by rewrite Hc).
  eapply returns_eq; [unfold write_pixel; rewrite Hc; eapply (store_pixel (λ fb, mkScreen fb _ _ _)); (done || lia)|].
  split; [unfold same_frame; cbn; by rewrite length_inserts|]. intros x' y' Hx' Hy'. rewrite Hsh. unfold at_.
  eapply pixel_store; try done; [lia|]. rewrite length_take, Hcl. destruct Hr. lia.
Qed.

Lemma write_rendered_char_spec self r : screen_ok (length (framebuffer self)) (info self) →
  (∃ c, get_bitmap c = Some r) → 0 ≤ x_pos self → 0 ≤ y_pos self → x_pos self + font_width ≤ width self → y_pos self + 14 ≤ height self →
  returns (write_rendered_char self r) (λ self', info self' = info self ∧ length (framebuffer self') = length (framebuffer self) ∧
    x_pos self' = x_pos self + font_width ∧ y_pos self' = y_pos self ∧
    ∀ x y, 0 ≤ x < BiosCommon.stride (info self) → 0 ≤ y →
      at_ self' x y = if decide (in_cell (x_pos self) (y_pos self) font_width 14 x y)
                      then shown (info self) (raster_cell (bitmap r) (x - x_pos self) (y - y_pos self)) else at_ self x y).
Proof.
  intros Hok [c Hc] Hx Hy Hw Hh. destruct (font_bitmap c r Hc) as (Hlen & _ & Hbw & Hrow).
  pose proof (so_width _ _ Hok). pose proof (so_height _ _ Hok). pose proof font_width_ok. unfold width, height in *.
  unfold write_rendered_char. eapply returns_bind.
  { apply (draw_rows_ok x_pos y_pos write_pixel at_ same_frame self (shown (info self)) 32 (BiosCommon.width (info self))
      (BiosCommon.height (info self)) (BiosCommon.stride (info self))) with (w := font_width);
      [by intros s (_ & ? & ? & _)| |lia|done|done|lia].
    intros s x y v (Hi & _ & _ & Hl) Hx' Hy'. rewrite <- Hi in Hx', Hy' |- *. apply screen_write_pixel_spec; [by rewrite Hi, Hl|done|done]. }
  intros s1 [(Hi & Hsx & Hsy & Hsl) Hat]. rewrite Hsx, Hbw, add_u_ok by lia. cbn [mbind res_bind returns info framebuffer x_pos y_pos].
  split_and!; try done. rewrite Hlen in Hat. exact Hat.
Qed.

(** The screen shows the text of a terminal: every visible pixel is that of the character in its cell,
    or dark. *)
Definition columns (i : BiosCommon.BiosFramebufferInfo) : Z := BiosCommon.width i / font_width.
Definition lines (i : BiosCommon.BiosFramebufferInfo) : Z := BiosCommon.height i / 14.
Definition glyph (c : Z) : list (list Z) := from_option bitmap [] (get_bitmap c).
Definition dark (i : BiosCommon.BiosFramebufferInfo) : list Z := replicate (Z.to_nat (BiosCommon.bytes_per_pixel i)) 0.
Definition shows (i : BiosCommon.BiosFramebufferInfo) (self : ScreenWriter) (t : Terminal) : Prop :=
  ∀ x y, 0 ≤ x < BiosCommon.width i → 0 ≤ y < BiosCommon.height i →
    at_ self x y = match text t !! (x / font_width, y / 14) with
                   | Some c => shown i (raster_cell (glyph c) (x mod font_width) (y mod 14))
                   | None => dark i
                   end.
Record displays (i : BiosCommon.BiosFramebufferInfo) (n : nat) (self : ScreenWriter) (t : Terminal) : Prop := {
  d_info : info self = i;
  d_ok : screen_ok (length (framebuffer self)) i;
  d_x : x_pos self = column t * font_width ∧ 0 ≤ column t ≤ columns i;
  d_y : y_pos self = line t * 14 ∧ 0 ≤ line t ∧ line t * 14 + Z.of_nat n * 14 < 2 ^ 31;
  d_text : shows i self t;
}.

Lemma clear_displays i n self : info self = i → screen_ok (length (framebuffer self)) i → Z.of_nat n * 14 < 2 ^ 31 →
  displays i n (clear self) blank.
Proof.
  intros <- Hok Hn. pose proof (so_width _ _ Hok) as Hw. pose proof (so_height _ _ Hok). pose proof font_width_ok.
  assert (0 ≤ columns (info self)) by (apply Z.div_pos; lia).
  split; cbn [clear info framebuffer x_pos y_pos blank column line]; [done|by rewrite length_replicate|lia|lia|].
  intros x y Hx Hy. cbn [blank text]. rewrite lookup_empty. unfold at_, pixel, dark. cbn [clear framebuffer info].
  destruct (room_pixel _ _ _ _ _ x y (so_room _ _ Hok)) as [Hp1 Hp2]; [lia|lia|]. destruct (so_room _ _ Hok) as [_ ?].
  rewrite drop_replicate, take_replicate. f_equal. nia.
Qed.

(** The next line, for a line feed and for a full line. *)
Lemma newline_displays i n self t : displays i (S n) self t →
  returns (newline self) (λ self', displays i n self' (mkTerminal (text t) 0 (line t + 1))).
Proof.
  intros [<- Hok [Hx Hc] (Hy & Hl & Hb) Ht]. unfold newline, LINE_SPACING. rewrite add_u_ok by lia. cbn [mbind res_bind returns].
  split; cbn [carriage_return info framebuffer x_pos y_pos column line]; (done || lia).
Qed.

(** The cell of a pixel. *)
Lemma in_cell_div w h cx cy x y : 0 < w → 0 < h → in_cell (cx * w) (cy * h) w h x y ↔ (x / w, y / h) = (cx, cy).
Proof.
  intros Hw Hh. unfold in_cell. pose proof (Z.div_mod x w ltac:(lia)). pose proof (Z.mod_pos_bound x w ltac:(lia)).
  pose proof (Z.div_mod y h ltac:(lia)). pose proof (Z.mod_pos_bound y h ltac:(lia)). split.
  - intros [? ?]. f_equal; nia.
  - intros [= <- <-]. nia.
Qed.

Lemma draw_displays i n self t c r : displays i n self t → get_bitmap c = Some r → column t < columns i → line t < lines i →
  returns (write_rendered_char self r) (λ self',
    displays i n self' (mkTerminal (<[(column t, line t) := c]> (text t)) (column t + 1) (line t))).
Proof.
  intros [<- Hok [Hx Hc] (Hy & Hl & Hb) Ht] Hr Hcol Hline. pose proof font_width_ok. pose proof (so_width _ _ Hok).
  unfold columns, lines in *. pose proof (Z.mul_div_le (BiosCommon.width (info self)) font_width (proj1 font_width_ok)).
  pose proof (Z.mul_div_le (BiosCommon.height (info self)) 14 ltac:(lia)).
  eapply returns_mono; [apply write_rendered_char_spec; unfold width, height; (nia || eauto)|].
  intros s' (Hi & Hlen & Hx' & Hy' & Hat). split; [done|by rewrite Hlen|unfold columns; cbn [column]; nia|cbn [line]; nia|].
  intros x y Hpx Hpy. rewrite Hat by lia. cbn [text]. rewrite Hx, Hy.
  destruct (decide (in_cell _ _ _ _ x y)) as [Hin|Hout].
  - apply in_cell_div in Hin as [= Hqx Hqy]; [|lia|lia]. rewrite Hqx, Hqy, lookup_insert_eq. unfold glyph. rewrite Hr. cbn [from_option].
    rewrite (Z.mod_eq x), (Z.mod_eq y), Hqx, Hqy by lia. do 2 f_equal; lia.
  - rewrite lookup_insert_ne; [by apply Ht|]. intros E. apply Hout, in_cell_div; [lia|lia|done].
Qed.

Definition displayable (c : Z) : Prop := c = 10 ∨ c = 13 ∨ is_Some (get_bitmap c).

Lemma write_char_displays i n self t c : displays i (S n) self t → displayable c →
  returns (write_char self c) (λ self', displays i n self' (type_char (columns i) (lines i) t c)).
Proof.
  intros Hd Hc. unfold write_char, type_char. destruct (Z.eqb_spec c 10); [by apply newline_displays|].
  pose proof Hd as [Hi Hok [Hx Hcol] (Hy & Hl & Hb) Ht]. pose proof font_width_ok. pose proof (so_width _ _ Hok). pose proof (so_height _ _ Hok).
  destruct (Z.eqb_spec c 13).
  { split; cbn [carriage_return info framebuffer x_pos y_pos column line]; (done || lia). }
  destruct Hc as [Hc|[Hc|[r Hr]]]; [done|done|]. rewrite Hr. cbn [expect_some mbind res_bind].
  destruct (font_bitmap c r Hr) as (_ & Hh & Hw & _). rewrite Hw, Hh.
  assert (∀ a w k, 0 < w → (a <? k * w + w) = (a / w <=? k)) as Hdiv.
  { intros a w k Hpos. pose proof (Z.div_mod a w ltac:(lia)). pose proof (Z.mod_pos_bound a w ltac:(lia)).
    destruct (Z.ltb_spec a (k * w + w)), (Z.leb_spec (a / w) k); (done || nia). }
  assert (column t * font_width ≤ BiosCommon.width i).
  { unfold columns in *. pose proof (Z.mul_div_le (BiosCommon.width i) font_width (proj1 font_width_ok)). nia. }
  rewrite Hx, add_u_ok by lia. cbn [mbind res_bind]. unfold width at 1. rewrite Hi, Hdiv by lia. fold (columns i).
  set (t1 := if columns i <=? column t then mkTerminal (text t) 0 (line t + 1) else t).
  eapply (returns_bind _ _ (λ s1, displays i n s1 t1 ∧ column t1 < columns i)).
  { assert (1 ≤ columns i) by (apply Z.div_le_lower_bound; lia). unfold t1. destruct (Z.leb_spec (columns i) (column t)).
    - eapply returns_mono; [by apply (newline_displays i n)|]. intros s1 Hs. split; [done|cbn; lia].
    - split; [|done]. split; (done || lia). }
  intros s1 [Hd1 Hc1]. pose proof Hd1 as [Hi1 Hok1 [Hx1 _] (Hy1 & Hl1 & Hb1) Ht1]. rewrite Hy1, add_u_ok by lia. cbn [mbind res_bind].
  unfold height. rewrite Hi1, Hdiv by lia. fold (lines i).
  assert (1 ≤ lines i ∧ 1 ≤ columns i) as [] by (split; apply Z.div_le_lower_bound; lia).
  destruct (Z.leb_spec (lines i) (line t1)).
  - apply (draw_displays i n (clear s1) blank c r); [apply clear_displays; (done || lia)|done|cbn; lia|cbn; lia].
  - by apply draw_displays.
Qed.

Lemma write_str_displays i n self t s : displays i (length s + n) self t → Forall displayable s →
  returns (write_str self s) (λ self', displays i n self' (type_str (columns i) (lines i) t s)).
Proof.
  intros Hd Hs. revert self t Hd. induction Hs as [|c s Hc Hs IH]; intros self t Hd; [done|]. unfold write_str, type_str in *. cbn [foldM foldl].
  eapply returns_bind; [by apply (write_char_displays i (length s + n))|]. intros s1 H1. by apply IH.
Qed.

Lemma Writer_displays i n self t s : displays i (length s + n) self t → Forall displayable s →
  returns (Writer_write_str (Some self) s) (λ W, ∃ self', W = Some self' ∧
    displays i n self' (type_str (columns i) (lines i) t s)).
Proof.
  intros Hd Hs. unfold Writer_write_str. cbn [expect_some mbind res_bind].
  eapply returns_bind; [by apply write_str_displays|]. cbn. eauto.
Qed.
Lemma writes_display i n self t ss : displays i (length (concat ss) + n) self t → Forall displayable (concat ss) →
  returns (foldM Writer_write_str (Some self) ss) (λ W, ∃ self', W = Some self' ∧
    displays i n self' (type_str (columns i) (lines i) t (concat ss))).
Proof.
  revert self t. induction ss as [|s ss IH]; intros self t Hd Hs; [by exists self|]. cbn [concat foldM] in *.
  apply Forall_app in Hs as [Hs Hss]. rewrite length_app, <- Nat.add_assoc in Hd.
  eapply returns_bind; [by apply (Writer_displays i (length (concat ss) + n))|]. intros W (s1 & -> & Hd1).
  eapply returns_mono; [by apply IH|]. unfold type_str. by rewrite foldl_app.
Qed.

(** C20: After [init] the third stage can write any text of characters that the font has, in any
    number of pieces, without a panic (no index is out of range and no 32-bit sum overflows), and the
    visible screen shows exactly what a terminal shows to which the text was typed: lines wrap at the
    last column that fits, a full screen is cleared, and a carriage return overwrites a line. *)
Theorem screen_is_terminal memory info ss : (∀ a n, length (memory a n) = n) →
  is_uint 32 (BiosCommon.len (BiosCommon.region info)) → screen_ok (Z.to_nat (BiosCommon.len (BiosCommon.region info))) info →
  Forall displayable (concat ss) → Z.of_nat (length (concat ss)) * 14 < 2 ^ 31 →
  returns (WRITER ← init memory info; foldM Writer_write_str WRITER ss) (λ WRITER, ∃ self, WRITER = Some self ∧
    shows info self (type_str (columns info) (lines info) blank (concat ss))).
Proof.
  intros Hm Hl Hok Hs Hn. unfold init. rewrite try_from_u_ok by done. cbn [expect_some mbind res_bind].
  eapply returns_mono; [apply (writes_display info 0); [|done]|].
  - rewrite Nat.add_0_r. apply clear_displays; [done|by cbn; rewrite Hm|done].
  - intros W (self & -> & Hd). exists self. split; [done|apply Hd].
Qed.

(** In a video mode whose pixel format is not known the first visible character panics. *)
Lemma unknown_format_panics self c r : BiosCommon.is_unknown (BiosCommon.pixel_format (info self)) = true →
  get_bitmap c = Some r → c ≠ 10 → c ≠ 13 → is_uint 16 (x_pos self) → is_uint 15 (y_pos self) → is_uint 16 (BiosCommon.stride (info self)) →
  ∃ msg, write_char self c = Panic msg.
Proof.
  intros Hu Hr H10 H13 Hx Hy Hst. destruct (font_bitmap c r Hr) as (Hlen & Hh & Hw & Hrow). pose proof font_width_ok. unfold is_uint in *.
  unfold write_char. rewrite (proj2 (Z.eqb_neq c 10)), (proj2 (Z.eqb_neq c 13)) by done. rewrite Hr. cbn [expect_some mbind res_bind].
  rewrite Hw, Hh, add_u_ok by lia. cbn [mbind res_bind].
  assert (∀ s, info s = info self → 0 ≤ x_pos s < 2 ^ 16 → 0 ≤ y_pos s < 2 ^ 16 - 1 → ∃ msg, write_rendered_char s r = Panic msg) as Hdraw.
  { intros s Hi Hx' Hy'. unfold write_rendered_char. destruct (bitmap r) as [|row rows]; [done|].
    apply Forall_cons in Hrow as [Hrl _]. destruct row as [|v row]; [cbn in Hrl; lia|]. unfold enumerate. cbn [imap foldM].
    change (Z.of_nat 0) with 0. rewrite add_u_ok by lia. cbn [mbind res_bind]. rewrite add_u_ok by lia. cbn [mbind res_bind].
    unfold write_pixel. rewrite Hi, !Z.add_0_r.
    assert (0 ≤ y_pos s * BiosCommon.stride (info self) ≤ (2 ^ 16 - 2) * (2 ^ 16 - 1)) by (split; [nia|apply Z.mul_le_mono_nonneg; lia]).
    rewrite mul_u_ok by lia. cbn [mbind res_bind]. rewrite add_u_ok by lia. cbn [mbind res_bind].
    destruct (BiosCommon.pixel_format (info self)); [done|done|]. by eexists. }
  destruct (_ <? _); unfold newline, LINE_SPACING, height; [rewrite add_u_ok by lia|]; cbn [mbind res_bind carriage_return y_pos info x_pos framebuffer];
    rewrite add_u_ok by lia; cbn [mbind res_bind]; destruct (_ <? _); apply Hdraw; cbn [clear carriage_return info x_pos y_pos]; (done || lia).
Qed.
End Proofs.

(** ** A font with one letter, and a screen of three columns and two lines *)
#[local] Instance sample_bitmaps : BitmapFont := λ c,
  if c =? 0x41 then Some (mkBitmap (replicate 7 [0; 255] ++ replicate 7 [255; 0]) 2 14) else None.
#[local] Instance sample_bitmaps_laws : BitmapFontLaws sample_bitmaps.
Proof.
  refine {| font_width := 2 |}; [|done]. intros c r. unfold get_bitmap, sample_bitmaps. destruct (c =? 0x41); [|done].
  intros [= <-]. split_and!; [done..|]. repeat constructor.
Defined.
Definition sample_info : BiosCommon.BiosFramebufferInfo :=
  BiosCommon.mkBiosFramebufferInfo (BiosCommon.mkRegion 0xfd000000 960) 7 30 4 8 BiosCommon.Bgr.

Lemma screen_is_terminal_witness :
  returns (WRITER ← init (λ _ n, replicate n 7) sample_info; foldM Writer_write_str WRITER [[0x41; 0x41]; [0x41; 0x41; 10]; [0x41]])
    (λ WRITER, ∃ self, WRITER = Some self ∧ at_ self 0 0 = [0; 0; 0; 0] ∧ at_ self 1 0 = [127; 255; 255; 0] ∧ at_ self 3 1 = [0; 0; 0; 0]).
Proof.
  eapply returns_mono; [apply (screen_is_terminal (λ _ n, replicate n 7) sample_info [[0x41; 0x41]; [0x41; 0x41; 10]; [0x41]])|].
  - intros _ n. apply length_replicate.
  - by vm_compute.
  - split; [done|done|done|]. by vm_compute.
  - cbn [concat app]. repeat (apply Forall_cons; split; [(by left) || (right; right; by eexists)|]). by apply Forall_nil.
  - done.
  - intros W (self & -> & Hs). exists self. split; [done|]. split_and!; (rewrite Hs by (by vm_compute)); by vm_compute.
Defined.
End Screen.
