(* ===== verification/Logger.v ===== *)
(** * The boot configuration and the logger
      (common/config/src/lib.rs, common/src/logger.rs, serial.rs, lib.rs)

    [BootConfig] is the configuration file [boot.json]. The global logger
    writes every line to the framebuffer and to the serial port, as the
    configuration asks. The UART (uart_16550) is the class [Uart]. *)
From S2P Require Import Prelude Info Framebuffer.

Module BootConfig.

Inductive LevelFilter := Off | Error | Warn | Info_ | Debug | Trace.
#[global] Instance LevelFilter_eq_dec : EqDecision LevelFilter.
Proof. solve_decision. Defined.

Record FrameBuffer := mkFrameBuffer {
  minimum_framebuffer_height : option Z;
  minimum_framebuffer_width : option Z;
}.

Record BootConfig := mkBootConfig {
  frame_buffer : FrameBuffer;
  log_level : LevelFilter;
  frame_buffer_logging : bool;
  serial_logging : bool;
  test_sentinel : Z;
}.

Definition LevelFilter_default : LevelFilter := Trace.
Definition FrameBuffer_default : FrameBuffer := mkFrameBuffer None None.
Definition BootConfig_default : BootConfig :=
  {| frame_buffer := FrameBuffer_default;
     log_level := LevelFilter_default;
     frame_buffer_logging := true;
     serial_logging := true;
     test_sentinel := 0 |}.

End BootConfig.

Module Logger.
Import Framebuffer.

(** [log::LevelFilter] and [log::Level] *)
Module Log.
Inductive LogLevelFilter := Off | Error | Warn | Info_ | Debug | Trace.
Inductive Level := LError | LWarn | LInfo | LDebug | LTrace.

(** The order of the log crate: a record is passed on when its level is at most the filter. *)
Definition level_number (l : Level) : Z :=
  match l with LError => 1 | LWarn => 2 | LInfo => 3 | LDebug => 4 | LTrace => 5 end.
Definition filter_number (f : LogLevelFilter) : Z :=
  match f with Off => 0 | Error => 1 | Warn => 2 | Info_ => 3 | Debug => 4 | Trace => 5 end.

(** [Level]'s [Display] with [{:5}]: padded to five columns *)
Definition display (l : Level) : string :=
  match l with LError => "ERROR" | LWarn => "WARN" | LInfo => "INFO" | LDebug => "DEBUG" | LTrace => "TRACE" end.
End Log.

Definition chars (s : string) : list Z := (λ b, Z.of_N (Ascii.N_of_ascii b)) <$> String.list_ascii_of_string s.
Definition padded (w : nat) (s : list Z) : list Z := s ++ replicate (w - length s) 0x20.

(** [uart_16550::SerialPort]: [new], [init] and [write_str] *)
Class Uart := {
  UartPort : Type;
  uart_new : Z → UartPort;
  uart_init : UartPort → UartPort;
  uart_write_str : UartPort → list Z → option UartPort;
}.

Section Model.
Context `{F : Font} `{U : Uart}.

(** ** serial.rs *)
Record SerialPort := mkSerialPort { port : UartPort }.
Definition SerialPort_init : SerialPort :=
  let port := uart_new 0x3F8 in
  mkSerialPort (uart_init port).
Definition SerialPort_write_str (self : SerialPort) (s : list Z) : res SerialPort :=
  p ← expect_some (uart_write_str (port self) s) "called `Result::unwrap()` on an `Err` value";
  Ret (mkSerialPort p).

(** ** logger.rs *)
(** [Spinlock<T>]: the value and whether it is locked *)
Record Spinlock (T : Type) := mkSpinlock { value : T; locked : bool }.

Record LockedLogger := mkLockedLogger {
  l_framebuffer : option (Spinlock FrameBufferWriter);
  l_serial : option (Spinlock SerialPort);
}.

Definition LockedLogger_new (framebuffer : list Z) (info : Info.FrameBufferInfo)
    (frame_buffer_logger_status serial_logger_status : bool) : LockedLogger :=
  let framebuffer :=
    if frame_buffer_logger_status then Some (mkSpinlock _ (Framebuffer.new framebuffer info) false) else None in
  let serial := if serial_logger_status then Some (mkSpinlock _ SerialPort_init false) else None in
  mkLockedLogger framebuffer serial.

Definition unlocked {T} (l : Spinlock T) : Spinlock T := mkSpinlock _ (value _ l) false.
Definition force_unlock (self : LockedLogger) : LockedLogger :=
  mkLockedLogger (unlocked <$> l_framebuffer self) (unlocked <$> l_serial self).

(** [lock()] spins for ever on a lock that is held; the model stops there. *)
Definition with_lock {T} (l : Spinlock T) (f : T → res T) : res (Spinlock T) :=
  if locked _ l then Panic "deadlock" else v ← f (value _ l); Ret (mkSpinlock _ v false).

(** What [writeln!(.., "{:5}: {}", record.level(), record.args())] writes *)
Definition line (level : Log.Level) (args : list Z) : list Z :=
  padded 5 (chars (Log.display level)) ++ chars ": " ++ args ++ [0x0a].

Definition log (self : LockedLogger) (level : Log.Level) (args : list Z) : res LockedLogger :=
  fb ← match l_framebuffer self with
       | Some l => l ← with_lock l (λ w, write_str w (line level args)); Ret (Some l)
       | None => Ret None
       end;
  serial ← match l_serial self with
           | Some l => l ← with_lock l (λ p, SerialPort_write_str p (line level args)); Ret (Some l)
           | None => Ret None
           end;
  Ret (mkLockedLogger fb serial).

(** ** The global logger (lib.rs)

    The cell [LOGGER], whether [log::set_logger] was called, and the maximum level. *)
Record LogState := mkLogState {
  LOGGER : option LockedLogger;
  logger_set : bool;
  max_level : Log.LogLevelFilter;
}.
Definition log_start : LogState := mkLogState None false Log.Off.

Definition convert_level (level : BootConfig.LevelFilter) : Log.LogLevelFilter :=
  match level with
  | BootConfig.Off => Log.Off
  | BootConfig.Error => Log.Error
  | BootConfig.Warn => Log.Warn
  | BootConfig.Info_ => Log.Info_
  | BootConfig.Debug => Log.Debug
  | BootConfig.Trace => Log.Trace
  end.

(** [log!(level, ..)] *)
Definition log_record (st : LogState) (level : Log.Level) (args : list Z) : res LogState :=
  if negb (logger_set st) || (Log.filter_number (max_level st) <? Log.level_number level) then Ret st else
  match LOGGER st with
  | Some l => l ← log l level args; Ret (mkLogState (Some l) true (max_level st))
  | None => Ret st
  end.

(** [text] is the formatted line about the framebuffer. *)
Definition init_logger (st : LogState) (framebuffer : list Z) (info : Info.FrameBufferInfo)
    (log_level : BootConfig.LevelFilter) (frame_buffer_logger_status serial_logger_status : bool)
    (text : list Z) : res LogState :=
  let logger := default (LockedLogger_new framebuffer info frame_buffer_logger_status serial_logger_status)
                  (LOGGER st) in
  assert_ (negb (logger_set st)) "logger already set";;
  let st := mkLogState (Some logger) true (convert_level log_level) in
  log_record st Log.LInfo text.
End Model.

(** ** What is logged *)

(** How [uart_16550::SerialPort::send] puts a character on the line: backspace and delete erase the
    character before them. *)
Definition serial_char (c : Z) : list Z := if (c =? 0x08) || (c =? 0x7f) then [0x08; 0x20; 0x08] else [c].
Definition serial_text (s : list Z) : list Z := s ≫= serial_char.
Lemma serial_text_app s t : serial_text (s ++ t) = serial_text s ++ serial_text t.
Proof. apply bind_app. Qed.

(** What the UART sent, in characters: [write_str] sends the text character by character. *)
Class UartLaws (U : Uart) := {
  sent : UartPort → list Z;
  uart_init_sent a : sent (uart_init (uart_new a)) = [];
  uart_write_sent p s : ∃ p', uart_write_str p s = Some p' ∧ sent p' = sent p ++ serial_text s;
}.

Section Proofs.
Context `{HF : FontLaws} `{HU : UartLaws}.

(** The text of the records that pass the filter. *)
Definition passes (f : Log.LogLevelFilter) (r : Log.Level * list Z) : bool :=
  Log.level_number r.1 <=? Log.filter_number f.
Definition lines (f : Log.LogLevelFilter) (rs : list (Log.Level * list Z)) : list Z :=
  mjoin ((λ r, if passes f r then line r.1 r.2 else []) <$> rs).

(** The logger is installed, with room for [n] more characters, and has sent [text]. *)
Record log_ok (info0 : Info.FrameBufferInfo) (len : nat) (fbs ss : bool) (f : Log.LogLevelFilter) (n : nat)
    (text : list Z) (st : LogState) : Prop := {
  lo_level : max_level st = f;
  lo_set : logger_set st = true;
  lo_logger : ∃ l, LOGGER st = Some l ∧
    match l_framebuffer l with
    | Some w => fbs = true ∧ locked _ w = false ∧ writer_ok n (value _ w) ∧
        info (value _ w) = info0 ∧ length (framebuffer (value _ w)) = len
    | None => fbs = false
    end ∧
    match l_serial l with
    | Some p => ss = true ∧ locked _ p = false ∧ sent (port (value _ p)) = serial_text text
    | None => ss = false
    end;
}.

Lemma serial_write_ok (p : Spinlock SerialPort) s text : locked _ p = false → sent (port (value _ p)) = serial_text text →
  returns (with_lock p (λ p, SerialPort_write_str p s)) (λ p', locked _ p' = false ∧ sent (port (value _ p')) = serial_text (text ++ s)).
Proof.
  intros Hl Ht. unfold with_lock, SerialPort_write_str. rewrite Hl, serial_text_app, <- Ht.
  destruct (uart_write_sent (port (value _ p)) s) as (q & -> & Hq). done.
Qed.

Lemma framebuffer_write_ok (w : Spinlock FrameBufferWriter) s m : locked _ w = false →
  writer_ok (length s + m) (value _ w) →
  returns (with_lock w (λ w, write_str w s)) (λ w', locked _ w' = false ∧ writer_ok m (value _ w') ∧
    info (value _ w') = info (value _ w) ∧ length (framebuffer (value _ w')) = length (framebuffer (value _ w))).
Proof.
  intros Hl Hok. unfold with_lock. rewrite Hl. eapply returns_bind; [by apply write_str_ok|]. done.
Qed.

Lemma log_record_ok info0 len fbs ss f m text st level args :
  log_ok info0 len fbs ss f (length (lines f [(level, args)]) + m) text st →
  returns (log_record st level args) (log_ok info0 len fbs ss f m (text ++ lines f [(level, args)])).
Proof.
  intros [Hf Hs (l & Hl & Hfb & Hse)]. unfold lines, passes in *. cbn [fmap list_fmap fst snd mjoin list_join app] in *.
  rewrite app_nil_r in *. unfold log_record. rewrite Hs, Hf. cbn [negb orb].
  destruct (Z.ltb_spec (Log.filter_number f) (Log.level_number level)).
  { rewrite (proj2 (Z.leb_gt _ _)) in * by done. cbn [returns]. rewrite app_nil_r. split; [done|done|by exists l]. }
  rewrite (proj2 (Z.leb_le _ _)) in * by done. rewrite Hl. unfold log.
  eapply (returns_bind _ _ (log_ok info0 len fbs ss f m (text ++ line level args) ∘ λ l, mkLogState (Some l) true f)).
  2:{ done. }
  eapply (returns_bind _ _ (λ o, match o with
    | Some w => fbs = true ∧ locked _ w = false ∧ writer_ok m (value _ w) ∧
        info (value _ w) = info0 ∧ length (framebuffer (value _ w)) = len
    | None => fbs = false end)).
  { destruct (l_framebuffer l) as [w|]; [|done]. destruct Hfb as (? & ? & Hok & <- & <-).
    eapply returns_bind; [by apply framebuffer_write_ok|]. intros w' (? & ? & ? & ?). done. }
  intros o Ho. eapply (returns_bind _ _ (λ o, match o with
    | Some p => ss = true ∧ locked _ p = false ∧ sent (port (value _ p)) = serial_text (text ++ line level args)
    | None => ss = false end)).
  { destruct (l_serial l) as [p|]; [|done]. destruct Hse as (? & ? & ?).
    eapply returns_bind; [by eapply serial_write_ok|]. intros p' (? & ?). done. }
  intros o' Ho'. split; [done|done|]. eexists. split; [done|]. done.
Qed.

Lemma lines_cons f r rs : lines f (r :: rs) = lines f [r] ++ lines f rs.
Proof. unfold lines. cbn. by rewrite app_nil_r. Qed.

Lemma new_writer_ok n fb i : fb_ok (length fb) i → Z.of_nat n * (CHAR_RASTER_HEIGHT + LINE_SPACING) < 2 ^ 62 →
  writer_ok n (Framebuffer.new fb i).
Proof.
  intros Hfb Hn. destruct (fo_fits _ _ Hfb). destruct font_size.
  split; cbn [new clear framebuffer info x_pos y_pos]; rewrite ?length_replicate; unfold BORDER_PADDING in *; (done || lia).
Qed.

Lemma init_logger_ok fb (info : Info.FrameBufferInfo) level fbs ss text m :
  let f := convert_level level in
  fb_ok (length fb) info →
  Z.of_nat (length (lines f [(Log.LInfo, text)]) + m) * (CHAR_RASTER_HEIGHT + LINE_SPACING) < 2 ^ 62 →
  returns (init_logger log_start fb info level fbs ss text)
    (log_ok info (length fb) fbs ss f m (lines f [(Log.LInfo, text)])).
Proof.
  intros f Hfb Hm. unfold init_logger. cbn [log_start LOGGER logger_set default assert_ negb mbind res_bind]. fold f.
  apply (log_record_ok info (length fb) fbs ss f m []). split; [done|done|]. eexists. split; [done|]. split.
  - destruct fbs; [|done]. split_and!; [done|done|by apply new_writer_ok|done|apply length_replicate].
  - destruct ss; [|done]. split_and!; [done|done|apply uart_init_sent].
Qed.

(** The same with a bound on the first line alone. *)
Lemma init_logger_first fb (info : Info.FrameBufferInfo) level fbs ss text :
  fb_ok (length fb) info → Z.of_nat (length (line Log.LInfo text)) * (CHAR_RASTER_HEIGHT + LINE_SPACING) < 2 ^ 62 →
  returns (init_logger log_start fb info level fbs ss text)
    (λ st, ∃ l, LOGGER st = Some l ∧ ∀ w, l_framebuffer l = Some w → length (framebuffer (value _ w)) = length fb).
Proof.
  intros Hfb Ht. eapply returns_mono; [apply (init_logger_ok fb info level fbs ss text 0 Hfb)|].
  - eapply Z.le_lt_trans; [|exact Ht]. destruct font_size. unfold LINE_SPACING.
    apply Z.mul_le_mono_nonneg_r; [lia|]. unfold lines. cbn [fmap list_fmap mjoin list_join fst snd].
    rewrite app_nil_r. destruct (passes _ _); cbn [length]; lia.
  - intros st [_ _ (l & Hl & Hw & _)]. exists l. split; [done|]. intros w Hlw. rewrite Hlw in Hw. apply Hw.
Qed.

(** C19: From the initialisation of the logger on, any sequence of log records is written without a
    panic, as long as the cursor can be counted in the machine's integers: no index of the
    framebuffer is out of range, no sum overflows and no lock is held. The serial port has sent
    exactly the lines whose level the configured filter admits, in order, and the framebuffer keeps
    its size and description. An output that is switched off in the configuration is not used.
    (Backspace and delete go over the line as the UART driver writes them, [serial_text].) *)
Theorem logged_lines fb (info : Info.FrameBufferInfo) level fbs ss text rs m :
  let f := convert_level level in
  let rs' := (Log.LInfo, text) :: rs in
  fb_ok (length fb) info → Z.of_nat (length (lines f rs') + m) * (CHAR_RASTER_HEIGHT + LINE_SPACING) < 2 ^ 62 →
  returns (st ← init_logger log_start fb info level fbs ss text;
           foldM (λ st '(level, args), log_record st level args) st rs)
    (log_ok info (length fb) fbs ss f m (lines f rs')).
Proof.
  intros f rs' Hfb Hm. unfold rs' in *. clear rs'. rewrite lines_cons in *. rewrite length_app, <- Nat.add_assoc in Hm.
  eapply returns_bind; [by apply (init_logger_ok fb info level fbs ss text (length (lines f rs) + m))|]. clear Hm.
  intros st. fold f. generalize (lines f [(Log.LInfo, text)]). intros text0 Hok. revert text0 st Hok. induction rs as [|[l a] rs IH]; intros text0 st Hok; cbn [foldM].
  { change (lines f []) with ([] : list Z) in *. rewrite app_nil_r. exact Hok. }
  rewrite lines_cons in *. rewrite length_app, <- Nat.add_assoc in Hok.
  eapply returns_bind; [by apply log_record_ok|]. intros st' Hst'. rewrite (assoc_L app). by apply IH.
Qed.
End Proofs.

(** ** A concrete UART: the bytes sent *)
Definition list_uart : Uart := {|
  UartPort := list Z;
  uart_new _ := [];
  uart_init p := p;
  uart_write_str p s := Some (p ++ serial_text s);
|}.
#[local] Existing Instance list_uart.
#[local] Existing Instance sample_font.
#[local] Instance list_uart_laws : UartLaws list_uart.
Proof. refine {| sent := λ p : @UartPort list_uart, (p : list Z) |}; [done|by eexists]. Defined.

Lemma logged_lines_witness :
  returns (st ← init_logger log_start (replicate 200 7) (Info.mkFrameBufferInfo 200 6 6 Info.Bgr 4 8) BootConfig.Warn
             true true (chars "fb");
           foldM (λ st '(level, args), log_record st level args) st [(Log.LWarn, chars "low"); (Log.LDebug, chars "x")])
    (λ st, ∃ l p, LOGGER st = Some l ∧ l_serial l = Some p ∧ sent (port (value _ p)) = chars "WARN : low" ++ [0x0a]).
Proof.
  eapply returns_mono.
  - apply (logged_lines (replicate 200 7) (Info.mkFrameBufferInfo 200 6 6 Info.Bgr 4 8) BootConfig.Warn true true (chars "fb")
      [(Log.LWarn, chars "low"); (Log.LDebug, chars "x")] 5); [split; by vm_compute|by vm_compute].
  - intros st [_ _ (l & Hl & _ & Hs)]. destruct (l_serial l) as [p|] eqn:E; [|done]. destruct Hs as (_ & _ & Hs).
    exists l, p. split_and!; [done|done|]. rewrite Hs. by vm_compute.
Defined.

End Logger.
