(* ===== verification/Stage2Start.v ===== *)
(** * The second stage (bios/stage-2/src/main.rs, [start])

    The second stage finds the FAT partition in the partition table, loads the
    third and fourth stage, the kernel, the ramdisk and the configuration to
    their places, asks for the memory map and sets a video mode, and describes
    all of this in a [BiosInfo]. The partition types of mbr_nostd are the class
    [Mbr]; the screen output is left out. *)
From S2P Require Import Prelude Memory Disk BootSector Fat FatProofs Stage2 X86 FrameAllocator E820 BiosCommon Vesa.
Import Memory Disk Fat FatProofs Stage2.

Module Stage2Start.

Class Mbr := {
  PartitionType : Type;
  from_mbr_tag_byte : Z → PartitionType;
  (** [t == PartitionType::Unknown(tag)] *)
  is_unknown_type : PartitionType → Z → bool;
  (** [matches!(t, PartitionType::Fat12(_) | PartitionType::Fat16(_) | PartitionType::Fat32(_))] *)
  is_fat_type : PartitionType → bool;
}.

Definition BOOTLOADER_SECOND_STAGE_PARTITION_TYPE : Z := 0x20.
Definition STAGE_3_DST : Z := 0x00100000.
Definition STAGE_4_DST : Z := 0x00130000.
Definition KERNEL_DST : Z := 0x01000000.
Definition MAX_ENTRIES : nat := 4.
Definition ENTRY_SIZE : nat := 16.

(** The names of the files, as characters. *)
Definition chars (s : string) : list Z := (λ b, Z.of_N (Ascii.N_of_ascii b)) <$> String.list_ascii_of_string s.
Definition BOOT_STAGE_3 : list Z := chars "boot-stage-3".
Definition BOOT_STAGE_4 : list Z := chars "boot-stage-4".
Definition KERNEL : list Z := chars "kernel-x86_64".
Definition RAMDISK : list Z := chars "ramdisk".
Definition BOOT_JSON : list Z := chars "boot.json".

(** The files: their lengths, and where the ramdisk and the configuration start. *)
Record Loaded := mkLoaded {
  l_stage_3_len : Z;
  l_stage_4_len : Z;
  l_kernel_len : Z;
  l_ramdisk_start : Z;
  l_ramdisk_len : Z;
  l_config_file_start : Z;
  l_config_file_len : Z;
}.
Definition load_files {D} `{RS : ReadSeek D} (DISK_BUFFER : Buffer) (fuel : nat) (fs : FileSystem D) (disk : D) (mem : Mem) :
    res (Loaded * Mem) :=
  '(stage_3_len, fs, disk, mem) ← load_file fuel BOOT_STAGE_3 STAGE_3_DST fs disk mem DISK_BUFFER;
  l ← expect_some (try_from_u 32 stage_3_len) "called `Result::unwrap()` on an `Err` value";
  let stage_3_end := wrapping_add STAGE_3_DST l in
  assert_ (stage_3_end <? STAGE_4_DST) "assertion failed: STAGE_4_DST > stage_3_end";;
  '(stage_4_len, fs, disk, mem) ← load_file fuel BOOT_STAGE_4 STAGE_4_DST fs disk mem DISK_BUFFER;
  '(kernel_len, fs, disk, mem) ← load_file fuel KERNEL KERNEL_DST fs disk mem DISK_BUFFER;
  k ← kernel_len -! 1;
  k ← (k / 4096) +[64] 1;
  let kernel_page_size := wrap_u 32 k in
  n ← kernel_page_size *[32] 4096;
  let ramdisk_start := wrapping_add KERNEL_DST n in
  '(o, fs, disk, mem) ← try_load_file fuel RAMDISK ramdisk_start fs disk mem DISK_BUFFER;
  let ramdisk_len := default 0 o in
  r ← expect_some (try_from_u 32 ramdisk_len) "called `Result::unwrap()` on an `Err` value";
  let config_file_start := wrapping_add ramdisk_start r in
  '(o, fs, disk, mem) ← try_load_file fuel BOOT_JSON config_file_start fs disk mem DISK_BUFFER;
  let config_file_len := default 0 o in
  Ret (mkLoaded stage_3_len stage_4_len kernel_len ramdisk_start ramdisk_len config_file_start config_file_len, mem).

Section Model.
Context `{M : Mbr} `{B : Bios} `{E : E820.E820Bios} `{V : Vesa.Vbe}.
(** The static buffers and arrays of the program. *)
Context (TMP_BUF DISK_BUFFER : Buffer) (MEMORY_MAP : Z).
#[local] Instance disk_rs : ReadSeek DiskAccess := disk_access_read_seek TMP_BUF.

Record PartitionTableEntry := mkPartition {
  partition_type : PartitionType;
  logical_block_address : Z;
  sector_count : Z;
}.

(** [LittleEndian::read_u32(&raw[lo..])] *)
Definition read_u32 (raw : list Z) (lo : nat) : res Z :=
  s ← slice_range raw lo (length raw);
  s ← slice_range s 0 4;
  Ret (le_num s).

Definition parse_entry (raw : list Z) (idx : nat) : res PartitionTableEntry :=
  let offset := (idx * ENTRY_SIZE)%nat in
  tag ← index raw (offset + 4);
  let partition_type := from_mbr_tag_byte tag in
  lba ← read_u32 raw (offset + 8);
  len ← read_u32 raw (offset + 12);
  Ret (mkPartition partition_type lba len).
Definition parse_partitions (raw : list Z) : res (list PartitionTableEntry) :=
  foldM (λ entries idx, e ← parse_entry raw idx; Ret (entries ++ [e])) [] (seq 0 MAX_ENTRIES).

(** The partition behind that of the second stage. *)
Definition find_fat_partition (partitions : list PartitionTableEntry) : res PartitionTableEntry :=
  '(second_stage_partition_idx, _) ←
    expect_some (list_find (λ e, is_unknown_type (partition_type e) BOOTLOADER_SECOND_STAGE_PARTITION_TYPE = true) partitions)
      "called `Option::unwrap()` on a `None` value";
  fat_partition ← expect_some (partitions !! S second_stage_partition_idx)
    "called `Option::unwrap()` on a `None` value";
  assert_ (is_fat_type (partition_type fat_partition)) "assertion failed: matches!(fat_partition.partition_type, ..)";;
  Ret fat_partition.

(** [BiosInfo] from the loaded files, the memory map and the video mode *)
Definition bios_info (stage_4_len kernel_len ramdisk_start ramdisk_len config_file_start config_file_len : Z)
    (memory_map : list FrameAllocator.E820MemoryRegion) (vesa_mode : Vesa.VesaModeInfo) : res BiosCommon.BiosInfo :=
  e ← config_file_start +[64] config_file_len;
  last_used_addr ← e -! 1;
  memory_map_len ← expect_some (try_from_u 16 (Z.of_nat (length memory_map)))
    "called `Result::unwrap()` on an `Err` value";
  fb_len ← Vesa.height vesa_mode *[64] Vesa.bytes_per_scanline vesa_mode;
  stride ← div_u (Vesa.bytes_per_scanline vesa_mode) (Vesa.bytes_per_pixel vesa_mode);
  Ret {| BiosCommon.stage_4 := BiosCommon.mkRegion STAGE_4_DST stage_4_len;
         BiosCommon.kernel := BiosCommon.mkRegion KERNEL_DST kernel_len;
         BiosCommon.ramdisk := BiosCommon.mkRegion ramdisk_start ramdisk_len;
         BiosCommon.config_file := BiosCommon.mkRegion config_file_start config_file_len;
         BiosCommon.last_used_addr := last_used_addr;
         BiosCommon.memory_map_addr := MEMORY_MAP;
         BiosCommon.memory_map_len := memory_map_len;
         BiosCommon.framebuffer :=
           {| BiosCommon.region := BiosCommon.mkRegion (Vesa.framebuffer_start vesa_mode) fb_len;
              BiosCommon.width := Vesa.width vesa_mode;
              BiosCommon.height := Vesa.height vesa_mode;
              BiosCommon.bytes_per_pixel := Vesa.bytes_per_pixel vesa_mode;
              BiosCommon.stride := stride;
              BiosCommon.pixel_format := Vesa.pixel_format vesa_mode |} |}.

Definition MAX_WIDTH : Z := 1280.
Definition MAX_HEIGHT : Z := 720.

(** [start], up to the jump to the third stage: the information for the later stages and the
    memory. The fuel bounds the clusters of a file, the descriptors of the memory map and the
    video modes. *)
Definition start (fuel : nat) (disk_number partition_table_start : Z) (mem : Mem) : res (BiosCommon.BiosInfo * Mem) :=
  let raw := mem_read mem partition_table_start (Z.of_nat (ENTRY_SIZE * MAX_ENTRIES)) in
  partitions ← parse_partitions raw;
  fat_partition ← find_fat_partition partitions;
  base_offset ← logical_block_address fat_partition *[64] 512;
  let disk := mkDiskAccess disk_number base_offset 0 in
  '(fs, mem) ← FileSystem_parse disk mem;
  '(l, mem) ← load_files DISK_BUFFER fuel fs disk mem;
  memory_map ← expect_ok (E820.query_memory_map fuel) "called `Result::unwrap()` on an `Err` value";
  let mem := E820.store_map mem MEMORY_MAP memory_map in
  '(vesa_info, mem) ← expect_ok (Vesa.query DISK_BUFFER mem) "called `Result::unwrap()` on an `Err` value";
  '(o, mem) ← expect_ok (Vesa.get_best_mode fuel vesa_info MAX_WIDTH MAX_HEIGHT mem)
    "called `Result::unwrap()` on an `Err` value";
  vesa_mode ← expect_some o "no suitable VESA mode found";
  expect_ok (Vesa.enable vesa_mode) "called `Result::unwrap()` on an `Err` value";;
  info ← bios_info (l_stage_4_len l) (l_kernel_len l) (l_ramdisk_start l) (l_ramdisk_len l)
           (l_config_file_start l) (l_config_file_len l) memory_map vesa_mode;
  Ret (info, mem).
End Model.

(** ** The files in memory *)
Section Files.
Context {D : Type} `{HS : ReadSeekLaws D}.
Context (d0 : D) (b : Bpb) (ty : FatType) (table : list Z) (buf : Buffer).

(** The length of a file that may be missing, and its chain of clusters. *)
Definition o_len (o : option (File * list Z)) : Z := default 0 ((λ f, file_size f.1) <$> o).
Definition o_chain (o : option (File * list Z)) : list Z := from_option snd [] o.

(** The file is in memory at [dst]. *)
Definition in_memory (mem : Mem) (dst : Z) (o : option (File * list Z)) : Prop :=
  mem_read mem dst (o_len o) = take (Z.to_nat (o_len o)) (chain_bytes d0 b (o_chain o)).

(** A file of the volume that has as many clusters as it needs, with room below [limit]. *)
Record file_ok (fuel : nat) (limit dst : Z) (name : list Z) (o : option (File * list Z)) : Prop := {
  fi_dir : directory_has d0 b ty table buf name o;
  fi_len : 0 ≤ o_len o ≤ clusters_size b (o_chain o);
  fi_fuel : (length (o_chain o) < fuel)%nat;
  fi_room : dst + clusters_size b (o_chain o) ≤ limit;
}.

Lemma layout_sub dst n dst' n' : layout_ok buf dst n → dst ≤ dst' → dst' + n' ≤ dst + n → layout_ok buf dst' n'.
Proof. intros [H1 H2 H3 H4] Hd Hn. split; [done|done|lia|]. intros x Hx. apply H4. lia. Qed.

Lemma directory_has_ext d d' name o : content d' = content d →
  directory_has d b ty table buf name o → directory_has d' b ty table buf name o.
Proof. unfold directory_has, root_bytes. by intros ->. Qed.

Lemma load_step fuel name dst (fs : FileSystem D) d mem o limit :
  mounted fs d b ty table buf → content d = content d0 → layout_ok buf STAGE_3_DST (limit - STAGE_3_DST) →
  STAGE_3_DST ≤ dst → file_ok fuel limit dst name o →
  returns (try_load_file fuel name dst fs d mem buf) (λ '(len, fs', d', mem'),
    len = (λ f, file_size f.1) <$> o ∧ mounted fs' d' b ty table buf ∧ content d' = content d0 ∧
    in_memory mem' dst o ∧ (∀ x, STAGE_3_DST ≤ x < dst → mem' x = mem x) ∧
    ∀ x, ¬ scratch x → ¬ (buf_addr buf ≤ x < buf_addr buf + buf_len buf) → x < STAGE_3_DST → mem' x = mem x).
Proof.
  intros Hm Hc Hlay Hd [Hdir Hl Hf Hr]. unfold o_chain in *.
  assert (layout_ok buf dst (clusters_size b (from_option snd [] o))) as Hlay' by (eapply layout_sub; [done|lia|lia]).
  eapply returns_mono.
  { eapply (try_load_file_spec fuel name dst fs d mem buf b ty table o); try done. by eapply directory_has_ext. }
  intros [[[len fs'] d'] mem'] (-> & Hm' & Hc' & Hrd & Hk). destruct (lay_dst _ _ _ Hlay) as [Hbd _].
  split_and!; [done|done|congruence| | |].
  - unfold in_memory. rewrite <- (drop_0 (mem_read mem' dst (o_len o))). unfold chain_bytes in *. rewrite Hc in Hrd.
    fold (o_chain o) in *. rewrite <- Hrd, <- (drop_0 (mem_read _ _ (clusters_size _ _))). change 0%nat with (Z.to_nat 0).
    rewrite mem_read_slice by lia. rewrite Z.add_0_r. by rewrite drop_0.
  - intros x Hx. apply Hk; [|lia|lia]. intros Hs. apply (lay_scratch _ _ _ Hlay x); [|done].
    assert (0 ≤ clusters_size b (from_option snd [] o)) by lia. lia.
  - intros x H1 H2 H3. apply Hk; [done|done|]. lia.
Qed.

Lemma in_memory_kept mem mem' dst o : (∀ x, dst ≤ x < dst + o_len o → mem' x = mem x) →
  in_memory mem dst o → in_memory mem' dst o.
Proof. unfold in_memory. intros Hx <-. by apply mem_read_ext. Qed.

(** The places: page aligned behind the kernel, the configuration right behind the ramdisk. *)
Definition ramdisk_place (kernel : File * list Z) : Z := KERNEL_DST + ((file_size kernel.1 - 1) / 4096 + 1) * 4096.
Definition config_place (kernel : File * list Z) (ramdisk : option (File * list Z)) : Z :=
  ramdisk_place kernel + o_len ramdisk.

(** The five files, with room below [limit]. *)
Record files_ok (fuel : nat) (limit : Z) (stage_3 stage_4 kernel : File * list Z)
    (ramdisk config : option (File * list Z)) : Prop := {
  fs_layout : layout_ok buf STAGE_3_DST (limit - STAGE_3_DST);
  fs_limit : limit < 2 ^ 32;
  fs_stage_3 : file_ok fuel limit STAGE_3_DST BOOT_STAGE_3 (Some stage_3);
  fs_stage_4 : file_ok fuel limit STAGE_4_DST BOOT_STAGE_4 (Some stage_4);
  fs_kernel : file_ok fuel limit KERNEL_DST KERNEL (Some kernel);
  fs_ramdisk : file_ok fuel limit (ramdisk_place kernel) RAMDISK ramdisk;
  fs_config : file_ok fuel limit (config_place kernel ramdisk) BOOT_JSON config;
  fs_stage_3_fits : STAGE_3_DST + file_size stage_3.1 < STAGE_4_DST;
  fs_stage_4_fits : STAGE_4_DST + file_size stage_4.1 ≤ KERNEL_DST;
  fs_kernel_size : 0 < file_size kernel.1;
}.

Lemma load_file_step fuel name dst (fs : FileSystem D) d mem f limit :
  mounted fs d b ty table buf → content d = content d0 → layout_ok buf STAGE_3_DST (limit - STAGE_3_DST) →
  STAGE_3_DST ≤ dst → file_ok fuel limit dst name (Some f) →
  returns (load_file fuel name dst fs d mem buf) (λ '(len, fs', d', mem'),
    len = file_size f.1 ∧ mounted fs' d' b ty table buf ∧ content d' = content d0 ∧
    in_memory mem' dst (Some f) ∧ (∀ x, STAGE_3_DST ≤ x < dst → mem' x = mem x) ∧
    ∀ x, ¬ scratch x → ¬ (buf_addr buf ≤ x < buf_addr buf + buf_len buf) → x < STAGE_3_DST → mem' x = mem x).
Proof.
  intros. unfold load_file. eapply returns_bind; [by eapply load_step|].
  intros [[[len fs'] d'] mem'] (-> & H'). cbn. done.
Qed.

Lemma ramdisk_place_bounds kernel : 0 < file_size kernel.1 →
  KERNEL_DST + file_size kernel.1 ≤ ramdisk_place kernel < KERNEL_DST + file_size kernel.1 + 4096.
Proof.
  intros Hk. unfold ramdisk_place. pose proof (Z.div_mod (file_size kernel.1 - 1) 4096).
  pose proof (Z.mod_pos_bound (file_size kernel.1 - 1) 4096). lia.
Qed.

Lemma wrapping_add_ok a n : 0 ≤ a + n < 2 ^ 32 → wrapping_add a n = a + n.
Proof. apply Z.mod_small. Qed.

Lemma load_files_spec fuel (fs : FileSystem D) mem limit stage_3 stage_4 kernel ramdisk config :
  mounted fs d0 b ty table buf → files_ok fuel limit stage_3 stage_4 kernel ramdisk config →
  returns (load_files buf fuel fs d0 mem) (λ '(l, mem'),
    l = mkLoaded (file_size stage_3.1) (file_size stage_4.1) (file_size kernel.1) (ramdisk_place kernel) (o_len ramdisk)
          (config_place kernel ramdisk) (o_len config) ∧
    in_memory mem' STAGE_3_DST (Some stage_3) ∧ in_memory mem' STAGE_4_DST (Some stage_4) ∧
    in_memory mem' KERNEL_DST (Some kernel) ∧ in_memory mem' (ramdisk_place kernel) ramdisk ∧
    in_memory mem' (config_place kernel ramdisk) config ∧
    ∀ x, ¬ scratch x → ¬ (buf_addr buf ≤ x < buf_addr buf + buf_len buf) → x < STAGE_3_DST → mem' x = mem x).
Proof.
  intros Hm [Hlay Hlim F3 F4 Fk Fr Fc S3 S4 Sk]. pose proof (ramdisk_place_bounds kernel Sk) as Hrp.
  pose proof (fi_len _ _ _ _ _ F3) as L3. pose proof (fi_len _ _ _ _ _ F4) as L4. pose proof (fi_len _ _ _ _ _ Fk) as Lk.
  pose proof (fi_len _ _ _ _ _ Fr) as Lr. pose proof (fi_len _ _ _ _ _ Fc) as Lc.
  change (o_len (Some ?f)) with (file_size f.1) in L3, L4, Lk.
  pose proof (fi_room _ _ _ _ _ Fk) as Rk. pose proof (fi_room _ _ _ _ _ Fr) as Rr. pose proof (fi_room _ _ _ _ _ Fc) as Rc.
  assert (STAGE_3_DST = 0x100000 ∧ STAGE_4_DST = 0x130000 ∧ KERNEL_DST = 0x1000000) as (E3 & E4 & Ek) by done.
  unfold load_files.
  eapply returns_bind; [by eapply load_file_step|]. intros [[[? fs1] d1] m1] (-> & M1 & C1 & I1 & _ & O1).
  rewrite try_from_u_ok by (unfold is_uint; lia). cbn [expect_some mbind res_bind].
  rewrite (wrapping_add_ok STAGE_3_DST) by lia. rewrite (proj2 (Z.ltb_lt _ _)) by lia. cbn [assert_ mbind res_bind].
  eapply returns_bind; [eapply load_file_step; (done || lia)|]. intros [[[? fs2] d2] m2] (-> & M2 & C2 & I2 & K2 & O2).
  eapply returns_bind; [eapply load_file_step; (done || lia)|]. intros [[[? fs3] d3] m3] (-> & M3 & C3 & I3 & K3 & O3).
  rewrite sub_u_ok by lia. cbn [mbind res_bind].
  assert (0 ≤ (file_size kernel.1 - 1) / 4096 < 2 ^ 20) as Hkp.
  { split; [apply Z.div_pos|apply Z.div_lt_upper_bound]; lia. }
  rewrite add_u_ok by lia. cbn [mbind res_bind]. unfold wrap_u at 1. rewrite Z.mod_small by lia.
  rewrite mul_u_ok by (unfold ramdisk_place in Hrp; lia). cbn [mbind res_bind].
  rewrite wrapping_add_ok by (unfold ramdisk_place in Hrp, Rr; lia). fold (ramdisk_place kernel).
  eapply returns_bind; [eapply load_step; (done || lia)|]. intros [[[? fs4] d4] m4] (-> & M4 & C4 & I4 & K4 & O4).
  fold (o_len ramdisk). rewrite try_from_u_ok by (unfold is_uint; lia). cbn [expect_some mbind res_bind].
  rewrite wrapping_add_ok by lia. fold (config_place kernel ramdisk).
  assert (config_place kernel ramdisk = ramdisk_place kernel + o_len ramdisk) as Hcp by done.
  eapply returns_bind; [eapply load_step; (done || lia)|]. intros [[[? fs5] d5] m5] (-> & _ & _ & I5 & K5 & O5).
  cbn [returns]. split_and!; [done| | | | |done|].
  - eapply in_memory_kept; [|exact I1]. cbn. intros x Hx. rewrite K5, K4, K3, K2 by lia. done.
  - eapply in_memory_kept; [|exact I2]. cbn. intros x Hx. rewrite K5, K4, K3 by lia. done.
  - eapply in_memory_kept; [|exact I3]. cbn. intros x Hx. rewrite K5, K4 by lia. done.
  - eapply in_memory_kept; [|exact I4]. intros x Hx. rewrite K5 by lia. done.
  - intros x X1 X2 X3. rewrite O5, O4, O3, O2, O1 by done. done.
Qed.

End Files.

(** ** The partition table *)
(** The partition types that the disk images use. *)
Class MbrLaws (M : Mbr) := {
  second_stage_type : is_unknown_type (from_mbr_tag_byte 0x20) 0x20 = true;
  fat32_lba_type : is_fat_type (from_mbr_tag_byte 0x0c) = true;
}.

Definition partition_of `{Mbr} (e : BootSector.PartitionTableEntry) : PartitionTableEntry :=
  mkPartition (from_mbr_tag_byte (BootSector.partition_type e)) (BootSector.logical_block_address e)
    (BootSector.sector_count e).

(** An entry with its status byte and the two addresses that are not used. *)
Record RawEntry := mkRawEntry {
  re_entry : BootSector.PartitionTableEntry;
  re_status : Z;
  re_first : list Z;
  re_last : list Z;
}.
Definition raw_entry_ok (r : RawEntry) : Prop := BootSector.entry_ok (re_entry r) (re_status r) (re_first r) (re_last r).
Definition raw_bytes (r : RawEntry) : list Z :=
  BootSector.entry_bytes (re_entry r) (re_status r) (re_first r) (re_last r).

Lemma raw_bytes_length r : raw_entry_ok r → length (raw_bytes r) = 16%nat.
Proof.
  intros [_ [H1 H2] _ _]. unfold raw_bytes, BootSector.entry_bytes.
  rewrite length_cons, length_app, length_cons, !length_app, !length_le_bytes, H1, H2. done.
Qed.

Lemma read_u32_app before v after : is_uint 32 v → read_u32 (before ++ le_bytes 4 v ++ after) (length before) = Ret v.
Proof.
  intros Hv. unfold read_u32, slice_range. rewrite decide_True by (rewrite !length_app; lia). cbn [mbind res_bind].
  rewrite drop_app_length, take_ge by (rewrite !length_app; lia).
  rewrite decide_True by (rewrite length_app, length_le_bytes; lia). cbn [mbind res_bind]. rewrite drop_0.
  replace (4 - 0)%nat with (length (le_bytes 4 v)) by (by rewrite length_le_bytes).
  rewrite take_app_length, le_num_le_bytes by done. done.
Qed.

Lemma parse_entry_encoded `{Mbr} i before r after : raw_entry_ok r → length before = (i * 16)%nat →
  parse_entry (before ++ raw_bytes r ++ after) i = Ret (partition_of (re_entry r)).
Proof.
  intros Hok Hb. destruct Hok as [_ [H1 H2] Hl Hn]. unfold parse_entry, ENTRY_SIZE. rewrite <- Hb.
  unfold raw_bytes, BootSector.entry_bytes. destruct r as [e st c1 c2]; cbn [re_entry re_status re_first re_last] in *.
  destruct c1 as [|x1 [|x2 [|x3 [|]]]]; try done. destruct c2 as [|y1 [|y2 [|y3 [|]]]]; try done. cbn [app].
  set (lba := BootSector.logical_block_address e) in *. set (n := BootSector.sector_count e) in *.
  unfold index. rewrite lookup_app_r by lia. replace (length before + 4 - length before)%nat with 4%nat by lia.
  cbn [lookup list_lookup expect_some mbind res_bind].
  set (h := [st; x1; x2; x3; BootSector.partition_type e; y1; y2; y3]). rewrite <- app_assoc.
  change (st :: x1 :: x2 :: x3 :: BootSector.partition_type e :: y1 :: y2 :: y3 :: ?l) with (h ++ l).
  replace (read_u32 (before ++ h ++ le_bytes 4 lba ++ le_bytes 4 n ++ after) (length before + 8)) with (Ret lba).
  2: { rewrite app_assoc. replace (length before + 8)%nat with (length (before ++ h)) by (rewrite length_app; done).
       by rewrite read_u32_app. }
  cbn [mbind res_bind].
  replace (read_u32 (before ++ h ++ le_bytes 4 lba ++ le_bytes 4 n ++ after) (length before + 12)) with (Ret n).
  2: { rewrite !app_assoc. rewrite <- (app_assoc _ (le_bytes 4 n)).
       replace (length before + 12)%nat with (length ((before ++ h) ++ le_bytes 4 lba))
         by (rewrite !length_app, length_le_bytes; cbn; lia).
       by rewrite read_u32_app. }
  done.
Qed.

(** The four entries of a table. *)
Lemma parse_partitions_encoded `{Mbr} r0 r1 r2 r3 : Forall raw_entry_ok [r0; r1; r2; r3] →
  parse_partitions (raw_bytes r0 ++ raw_bytes r1 ++ raw_bytes r2 ++ raw_bytes r3) =
    Ret ((λ r, partition_of (re_entry r)) <$> [r0; r1; r2; r3]).
Proof.
  intros Hok. rewrite !Forall_cons in Hok. destruct Hok as (H0 & H1 & H2 & H3 & _).
  pose proof (raw_bytes_length _ H0) as L0. pose proof (raw_bytes_length _ H1) as L1. pose proof (raw_bytes_length _ H2) as L2.
  unfold parse_partitions. cbn [seq MAX_ENTRIES foldM].
  pose proof (parse_entry_encoded 0 [] r0 (raw_bytes r1 ++ raw_bytes r2 ++ raw_bytes r3) H0 eq_refl) as E0.
  cbn [app] in E0. rewrite E0. cbn [mbind res_bind app].
  rewrite (parse_entry_encoded 1 (raw_bytes r0) r1 _ H1 L0). cbn [mbind res_bind app].
  rewrite app_assoc. rewrite (parse_entry_encoded 2 (raw_bytes r0 ++ raw_bytes r1) r2) by (done || rewrite length_app; lia).
  cbn [mbind res_bind app]. rewrite app_assoc, <- (app_nil_r (raw_bytes r3)).
  rewrite (parse_entry_encoded 3 ((raw_bytes r0 ++ raw_bytes r1) ++ raw_bytes r2) r3) by (done || rewrite !length_app; lia).
  done.
Qed.

(** ** The video mode *)
Section Video.
Context `{HV : Vesa.VbeLaws}.

Definition mode_info (m : Z) : Vesa.VesaModeInfo := Vesa.parse_mode_info m (Vesa.mode_block m).
Definition vesa_info (buf : Buffer) : Vesa.VesaInfo :=
  Vesa.mkVesaInfo (buf_addr buf) (mkBuffer (buf_addr buf + 512) (buf_len buf - 512)).

(** A VESA BIOS with the given modes, one of which is suitable: the controller information is
    written to its block and leads to the list of the modes. *)
Record vesa_ok (buf : Buffer) (modes : list Z) : Prop := {
  vo_buf : 0 ≤ buf_addr buf < 2 ^ 16 ∧ 768 ≤ buf_len buf;
  vo_info mem : ∃ mem', Vesa.vbe_controller_info (buf_addr buf) mem = (0x4f, mem') ∧
    (∀ x, ¬ (buf_addr buf ≤ x < buf_addr buf + 512) → mem' x = mem x) ∧
    Vesa.mode_list (vesa_info buf) mem' modes;
  vo_set m : m ∈ modes → Vesa.vbe_set_mode m = 0x4f;
  vo_bytes m : m ∈ modes → Forall byte_ok (Vesa.mode_block m);
  vo_bpp m : m ∈ modes → Vesa.supported MAX_WIDTH MAX_HEIGHT (mode_info m) = true → 0 < Vesa.bytes_per_pixel (mode_info m);
  vo_some : ∃ m, m ∈ modes ∧ Vesa.supported MAX_WIDTH MAX_HEIGHT (mode_info m) = true;
}.

Lemma vesa_query_spec buf modes mem : vesa_ok buf modes →
  returns (Vesa.query buf mem) (λ '(info, mem'), info = vesa_info buf ∧ Vesa.mode_list info mem' modes ∧
    ∀ x, ¬ (buf_addr buf ≤ x < buf_addr buf + 512) → mem' x = mem x).
Proof.
  intros [Hb Hi _ _ _ _]. unfold Vesa.query. change Vesa.VBE_INFO_BLOCK_SIZE with 512.
  rewrite (proj2 (Z.leb_le _ _)) by lia. cbn [assert_ mbind res_bind]. unfold wrap_u. rewrite Z.mod_small by lia.
  destruct (Hi (mem_write mem (buf_addr buf) (replicate (Z.to_nat 512) 0))) as (mem' & -> & Ho & Hl). cbn.
  split_and!; [done|done|]. intros x Hx. rewrite Ho by done. apply mem_write_out. rewrite length_replicate. lia.
Qed.

(** Fields of a block are in the range of their width. *)
Lemma field_bound block off n : Forall byte_ok block → 0 ≤ Vesa.field block off n < 256 ^ Z.of_nat n.
Proof.
  intros Hb. unfold Vesa.field. pose proof (le_num_bound (take n (drop off block)) ltac:(by apply Forall_take, Forall_drop)) as H.
  split; [lia|]. eapply Z.lt_le_trans; [apply H|]. apply Z.pow_le_mono_r; [lia|]. rewrite length_take. lia.
Qed.

Lemma best_mode_spec fuel buf modes mem : vesa_ok buf modes → (length modes < fuel)%nat →
  Vesa.mode_list (vesa_info buf) mem modes →
  returns (Vesa.get_best_mode fuel (vesa_info buf) MAX_WIDTH MAX_HEIGHT mem) (λ '(o, mem'),
    (∃ m, m ∈ modes ∧ o = Some (mode_info m) ∧ Vesa.supported MAX_WIDTH MAX_HEIGHT (mode_info m) = true) ∧
    ∀ x, ¬ (buf_addr buf ≤ x < buf_addr buf + buf_len buf) → mem' x = mem x).
Proof.
  intros Hok Hf Hl. destruct (vo_buf _ _ Hok) as [Hb0 Hb1].
  eapply returns_mono; [apply (Vesa.best_mode_loop_spec fuel (vesa_info buf) MAX_WIDTH MAX_HEIGHT modes 0 None mem Hl); lia|].
  intros [o mem'] [-> Hm]. rewrite drop_0. split; [|intros x Hx; apply Hm; cbn; lia].
  pose proof (Vesa.consider_fold MAX_WIDTH MAX_HEIGHT (mode_info <$> modes) None ltac:(done)) as Hc.
  change (λ m, Vesa.parse_mode_info m (Vesa.mode_block m)) with mode_info.
  destruct (foldl (Vesa.consider MAX_WIDTH MAX_HEIGHT) None (mode_info <$> modes)) as [vm|].
  - destruct Hc as [Hs [?|Hin]]; [done|]. apply list_elem_of_fmap in Hin as (m & -> & Hm'). by exists m.
  - destruct Hc as [_ Hn]. destruct (vo_some _ _ Hok) as (m & Hm' & Hs). rewrite Hn in Hs; [done|]. by apply list_elem_of_fmap_2.
Qed.

End Video.

(** ** The whole stage *)

(** What the fourth stage is told: the regions of the files, the end of the used memory, the size of
    the memory map, and a framebuffer of the given mode. *)
Record info_ok (info : BiosCommon.BiosInfo) (map_addr : Z) (stage_4 kernel : File * list Z) (ramdisk config : option (File * list Z))
    (map_len : nat) (vm : Vesa.VesaModeInfo) : Prop := {
  io_stage_4 : BiosCommon.stage_4 info = BiosCommon.mkRegion STAGE_4_DST (file_size stage_4.1);
  io_kernel : BiosCommon.kernel info = BiosCommon.mkRegion KERNEL_DST (file_size kernel.1);
  io_ramdisk : BiosCommon.ramdisk info = BiosCommon.mkRegion (ramdisk_place kernel) (o_len ramdisk);
  io_config : BiosCommon.config_file info = BiosCommon.mkRegion (config_place kernel ramdisk) (o_len config);
  io_last : BiosCommon.last_used_addr info = config_place kernel ramdisk + o_len config - 1;
  io_map : BiosCommon.memory_map_addr info = map_addr ∧ BiosCommon.memory_map_len info = Z.of_nat map_len;
  io_framebuffer : BiosCommon.framebuffer info =
    BiosCommon.mkBiosFramebufferInfo
      (BiosCommon.mkRegion (Vesa.framebuffer_start vm) (Vesa.height vm * Vesa.bytes_per_scanline vm))
      (Vesa.width vm) (Vesa.height vm) (Vesa.bytes_per_pixel vm)
      (Vesa.bytes_per_scanline vm / Vesa.bytes_per_pixel vm) (Vesa.pixel_format vm);
}.

Lemma bios_info_ok MEMORY_MAP stage_4 kernel ramdisk config map (vm : Vesa.VesaModeInfo) :
  0 < file_size kernel.1 → 0 ≤ o_len ramdisk → 0 ≤ o_len config → config_place kernel ramdisk + o_len config < 2 ^ 32 →
  (length map ≤ E820.MAP_LEN)%nat → 0 < Vesa.bytes_per_pixel vm → Vesa.height vm * Vesa.bytes_per_scanline vm < 2 ^ 64 →
  returns (bios_info MEMORY_MAP (file_size stage_4.1) (file_size kernel.1) (ramdisk_place kernel) (o_len ramdisk)
             (config_place kernel ramdisk) (o_len config) map vm)
    (λ info, info_ok info MEMORY_MAP stage_4 kernel ramdisk config (length map) vm).
Proof.
  intros Hk Hr Hc Hend Hmap Hbpp Hfb. pose proof (ramdisk_place_bounds kernel Hk).
  assert (config_place kernel ramdisk = ramdisk_place kernel + o_len ramdisk) as Hcp by done.
  unfold KERNEL_DST, E820.MAP_LEN in *. unfold bios_info. rewrite add_u_ok by lia. cbn [mbind res_bind].
  rewrite sub_u_ok by lia. cbn [mbind res_bind]. rewrite try_from_u_ok by (unfold is_uint; lia).
  cbn [expect_some mbind res_bind]. rewrite mul_u_ok by done. cbn [mbind res_bind]. rewrite div_u_ok by lia. by split.
Qed.

Lemma find_fat_ok `{HM : MbrLaws} e0 e1 rest : BootSector.partition_type e0 = 0x20 → BootSector.partition_type e1 = 0x0c →
  find_fat_partition (partition_of e0 :: partition_of e1 :: rest) = Ret (partition_of e1).
Proof.
  intros H0 H1. unfold find_fat_partition, partition_of, BOOTLOADER_SECOND_STAGE_PARTITION_TYPE.
  cbn [list_find partition_type]. rewrite H0, H1, second_stage_type. rewrite decide_True by done.
  cbn [expect_some mbind res_bind lookup list_lookup partition_type]. by rewrite fat32_lba_type.
Qed.

Section Start.
Context `{HM : MbrLaws} `{HB : BiosLaws} `{HE : E820.E820Laws} `{HV : Vesa.VbeLaws}.
Context (TMP_BUF DISK_BUFFER : Buffer) (MEMORY_MAP : Z).
#[local] Instance start_rs : ReadSeek DiskAccess := disk_access_read_seek TMP_BUF.
#[local] Instance start_laws : ReadSeekLaws DiskAccess := disk_access_laws TMP_BUF.

(** The static array lies below the files and apart from the buffer. *)
Definition map_place_ok : Prop :=
  MEMORY_MAP + E820.REGION_SIZE * Z.of_nat E820.MAP_LEN ≤ STAGE_3_DST ∧
  (MEMORY_MAP + E820.REGION_SIZE * Z.of_nat E820.MAP_LEN ≤ buf_addr DISK_BUFFER ∨
   buf_addr DISK_BUFFER + buf_len DISK_BUFFER ≤ MEMORY_MAP).

Lemma start_found_spec fuel disk_number table_addr mem e b ty table limit
    stage_3 stage_4 kernel ramdisk config modes :
  (parts ← parse_partitions (mem_read mem table_addr 64); find_fat_partition parts) = Ret e →
  is_uint 32 (logical_block_address e) →
  let d := mkDiskAccess disk_number (logical_block_address e * 512) 0 in
  Bpb_from_raw (mem_read (content d) 0 512) = Ret b →
  volume_ok d b ty table DISK_BUFFER → root_ok b DISK_BUFFER →
  files_ok d b ty table DISK_BUFFER fuel limit stage_3 stage_4 kernel ramdisk config →
  E820.entries ≠ [] → (length E820.entries ≤ fuel)%nat → (length (E820.reported E820.entries) ≤ E820.MAP_LEN)%nat →
  map_place_ok → vesa_ok DISK_BUFFER modes → (length modes < fuel)%nat →
  returns (start TMP_BUF DISK_BUFFER MEMORY_MAP fuel disk_number table_addr mem) (λ '(info, mem'),
    (∃ m, m ∈ modes ∧ Vesa.supported MAX_WIDTH MAX_HEIGHT (mode_info m) = true ∧
      info_ok info MEMORY_MAP stage_4 kernel ramdisk config (length (E820.reported E820.entries)) (mode_info m)) ∧
    E820.map_at mem' (BiosCommon.memory_map_addr info) (BiosCommon.memory_map_len info) = E820.reported E820.entries ∧
    in_memory d b mem' STAGE_3_DST (Some stage_3) ∧ in_memory d b mem' STAGE_4_DST (Some stage_4) ∧
    in_memory d b mem' KERNEL_DST (Some kernel) ∧ in_memory d b mem' (ramdisk_place kernel) ramdisk ∧
    in_memory d b mem' (config_place kernel ramdisk) config ∧
    STAGE_4_DST + file_size stage_4.1 ≤ KERNEL_DST ∧ KERNEL_DST + file_size kernel.1 ≤ ramdisk_place kernel ∧
    ∀ x, BiosCommon.in_region x (BiosCommon.stage_4 info) ∨ BiosCommon.in_region x (BiosCommon.kernel info) ∨
         BiosCommon.in_region x (BiosCommon.ramdisk info) ∨ BiosCommon.in_region x (BiosCommon.config_file info) →
      x ≤ BiosCommon.last_used_addr info).
Proof.
  intros Hfound Hlba d Hbpb Hvol Hroot Hfiles He Hef Hmap [Hmp1 Hmp2] Hv Hvf.
  unfold start. change (Z.of_nat (ENTRY_SIZE * MAX_ENTRIES)) with 64.
  destruct (parse_partitions (mem_read mem table_addr 64)) as [parts| |]; [|done|done]. cbn [mbind res_bind] in Hfound |- *.
  rewrite Hfound. cbn [mbind res_bind].
  unfold is_uint in Hlba. rewrite mul_u_ok by lia. cbn [mbind res_bind]. fold d.
  eapply returns_bind.
  { apply (FileSystem_parse_spec d mem b); [by apply Hvol| |done].
    eapply Z.le_trans; [|exact (fat_space _ _ _ _ (vol_fat _ _ _ _ _ Hvol))]. pose proof (ok_reserved b (vol_bpb _ _ _ _ _ Hvol)).
    pose proof (ok_bytes b (vol_bpb _ _ _ _ _ Hvol)). nia. }
  intros [fs mem1] (Hb & Hi & Hc & Hs & _). eapply returns_bind.
  { eapply (load_files_spec d b ty table DISK_BUFFER fuel fs mem1); [by split|done]. }
  intros [l mem2] (-> & I3 & I4 & Ik & Ir & Ic & _). cbn [l_stage_4_len l_kernel_len l_ramdisk_start l_ramdisk_len
    l_config_file_start l_config_file_len]. rewrite E820.query_memory_map_spec by done. cbn [expect_ok mbind res_bind].
  eapply returns_bind; [by apply returns_expect_ok, (vesa_query_spec _ modes)|]. intros [vi mem3] (-> & Hl3 & Hm3).
  eapply returns_bind; [by apply returns_expect_ok, (best_mode_spec fuel _ modes)|].
  intros [o mem4] ((m & Hin & -> & Hsup) & Hm4). cbn [expect_some mbind res_bind].
  unfold Vesa.enable. change (Vesa.mode (mode_info m)) with m. rewrite (vo_set _ _ Hv) by done. cbn [Z.eqb Pos.eqb expect_ok mbind res_bind].
  pose proof (fs_kernel_size _ _ _ _ _ _ _ _ _ _ _ _ Hfiles) as Hk.
  pose proof (fi_len _ _ _ _ _ _ _ _ _ _ (fs_ramdisk _ _ _ _ _ _ _ _ _ _ _ _ Hfiles)) as Lr.
  pose proof (fi_len _ _ _ _ _ _ _ _ _ _ (fs_config _ _ _ _ _ _ _ _ _ _ _ _ Hfiles)) as Lc.
  pose proof (fi_room _ _ _ _ _ _ _ _ _ _ (fs_config _ _ _ _ _ _ _ _ _ _ _ _ Hfiles)) as Rc.
  pose proof (fs_limit _ _ _ _ _ _ _ _ _ _ _ _ Hfiles). pose proof (vo_bytes _ _ Hv m Hin) as Hbytes.
  eapply returns_bind.
  { apply (bios_info_ok MEMORY_MAP stage_4 kernel ramdisk config); [done|lia|lia|lia|done|by apply (vo_bpp _ _ Hv)|].
    pose proof (field_bound (Vesa.mode_block m) 20 2 Hbytes). pose proof (field_bound (Vesa.mode_block m) 16 2 Hbytes).
    cbn [mode_info Vesa.parse_mode_info Vesa.height Vesa.bytes_per_scanline]. change (256 ^ Z.of_nat 2) with 65536 in *. nia. }
  intros info Hinfo. cbn [returns]. pose proof (ramdisk_place_bounds kernel Hk) as Hrp.
  destruct (lay_dst _ _ _ (fs_layout _ _ _ _ _ _ _ _ _ _ _ _ Hfiles)) as [Hlay _]. unfold STAGE_3_DST in Hlay.
  assert (∀ x, 0x100000 ≤ x → mem4 x = mem2 x) as Hkeep.
  { intros x Hx. destruct (vo_buf _ _ Hv). rewrite Hm4, Hm3 by lia. apply mem_write_out.
    rewrite E820.length_map_bytes. unfold E820.REGION_SIZE, STAGE_3_DST in *. lia. }
  pose proof (fs_stage_4_fits _ _ _ _ _ _ _ _ _ _ _ _ Hfiles).
  split_and!; [by exists m| | | | | | |done|lia|].
  { destruct (io_map _ _ _ _ _ _ _ _ Hinfo) as [-> ->]. erewrite E820.map_at_ext; [apply E820.map_at_store, E820.recorded_ok, E820.entries_ok|].
    intros x Hx. destruct (vo_buf _ _ Hv). unfold E820.REGION_SIZE in *. rewrite Hm4, Hm3 by lia. done. }
  1-5: eapply in_memory_kept; [|eassumption]; intros x Hx; apply Hkeep; unfold STAGE_3_DST, STAGE_4_DST, KERNEL_DST, config_place in *; lia.
  intros x. destruct Hinfo as [-> -> -> -> -> _ _]. unfold BiosCommon.in_region. cbn [BiosCommon.start BiosCommon.len].
  unfold config_place. lia.
Qed.

(** The FAT partition in an encoded table. *)
Lemma found_encoded mem table_addr r0 r1 r2 r3 : Forall raw_entry_ok [r0; r1; r2; r3] →
  mem_read mem table_addr 64 = raw_bytes r0 ++ raw_bytes r1 ++ raw_bytes r2 ++ raw_bytes r3 →
  BootSector.partition_type (re_entry r0) = 0x20 → BootSector.partition_type (re_entry r1) = 0x0c →
  (parts ← parse_partitions (mem_read mem table_addr 64); find_fat_partition parts) = Ret (partition_of (re_entry r1)) ∧
  is_uint 32 (logical_block_address (partition_of (re_entry r1))).
Proof.
  intros Hraw Htab Hp0 Hp1. pose proof Hraw as Hraw'. rewrite !Forall_cons in Hraw'. destruct Hraw' as (_ & [_ _ Hlba _] & _).
  split; [|done]. rewrite Htab, parse_partitions_encoded by done. cbn [mbind res_bind fmap list_fmap]. by rewrite find_fat_ok.
Qed.
Lemma start_spec fuel disk_number table_addr mem r0 r1 r2 r3 b ty table limit
    stage_3 stage_4 kernel ramdisk config modes :
  Forall raw_entry_ok [r0; r1; r2; r3] →
  mem_read mem table_addr 64 = raw_bytes r0 ++ raw_bytes r1 ++ raw_bytes r2 ++ raw_bytes r3 →
  BootSector.partition_type (re_entry r0) = 0x20 → BootSector.partition_type (re_entry r1) = 0x0c →
  let d := mkDiskAccess disk_number (BootSector.logical_block_address (re_entry r1) * 512) 0 in
  Bpb_from_raw (mem_read (content d) 0 512) = Ret b →
  volume_ok d b ty table DISK_BUFFER → root_ok b DISK_BUFFER →
  files_ok d b ty table DISK_BUFFER fuel limit stage_3 stage_4 kernel ramdisk config →
  E820.entries ≠ [] → (length E820.entries ≤ fuel)%nat → (length (E820.reported E820.entries) ≤ E820.MAP_LEN)%nat →
  map_place_ok → vesa_ok DISK_BUFFER modes → (length modes < fuel)%nat →
  returns (start TMP_BUF DISK_BUFFER MEMORY_MAP fuel disk_number table_addr mem) (λ '(info, mem'),
    (∃ m, m ∈ modes ∧ Vesa.supported MAX_WIDTH MAX_HEIGHT (mode_info m) = true ∧
      info_ok info MEMORY_MAP stage_4 kernel ramdisk config (length (E820.reported E820.entries)) (mode_info m)) ∧
    E820.map_at mem' (BiosCommon.memory_map_addr info) (BiosCommon.memory_map_len info) = E820.reported E820.entries ∧
    in_memory d b mem' STAGE_3_DST (Some stage_3) ∧ in_memory d b mem' STAGE_4_DST (Some stage_4) ∧
    in_memory d b mem' KERNEL_DST (Some kernel) ∧ in_memory d b mem' (ramdisk_place kernel) ramdisk ∧
    in_memory d b mem' (config_place kernel ramdisk) config ∧
    STAGE_4_DST + file_size stage_4.1 ≤ KERNEL_DST ∧ KERNEL_DST + file_size kernel.1 ≤ ramdisk_place kernel ∧
    ∀ x, BiosCommon.in_region x (BiosCommon.stage_4 info) ∨ BiosCommon.in_region x (BiosCommon.kernel info) ∨
         BiosCommon.in_region x (BiosCommon.ramdisk info) ∨ BiosCommon.in_region x (BiosCommon.config_file info) →
      x ≤ BiosCommon.last_used_addr info).
Proof.
  intros Hraw Htab Hp0 Hp1 d. destruct (found_encoded mem table_addr r0 r1 r2 r3) as [Hf Hl]; [done..|].
  by apply (start_found_spec fuel disk_number table_addr mem (partition_of (re_entry r1))).
Qed.

(** C4: The second stage, on a disk whose partition table starts with the partition of the second stage
    and a FAT partition that has the files of the boot loader: it never panics, the third and the
    fourth stage, the kernel, the ramdisk and the configuration are in memory in full when it ends
    (no file is overwritten by a later one), the regions that it reports are those, one behind the
    other and all below [last_used_addr], the memory map is that of the BIOS, and the framebuffer is
    that of a supported mode. *)
Theorem start_loads_and_reports fuel disk_number table_addr mem r0 r1 r2 r3 b ty table limit
    stage_3 stage_4 kernel ramdisk config modes :
  Forall raw_entry_ok [r0; r1; r2; r3] →
  mem_read mem table_addr 64 = raw_bytes r0 ++ raw_bytes r1 ++ raw_bytes r2 ++ raw_bytes r3 →
  BootSector.partition_type (re_entry r0) = 0x20 → BootSector.partition_type (re_entry r1) = 0x0c →
  let d := mkDiskAccess disk_number (BootSector.logical_block_address (re_entry r1) * 512) 0 in
  Bpb_from_raw (mem_read (content d) 0 512) = Ret b →
  volume_ok d b ty table DISK_BUFFER → root_ok b DISK_BUFFER →
  files_ok d b ty table DISK_BUFFER fuel limit stage_3 stage_4 kernel ramdisk config →
  E820.entries ≠ [] → (length E820.entries ≤ fuel)%nat → (length (E820.reported E820.entries) ≤ E820.MAP_LEN)%nat →
  map_place_ok → vesa_ok DISK_BUFFER modes → (length modes < fuel)%nat →
  returns (start TMP_BUF DISK_BUFFER MEMORY_MAP fuel disk_number table_addr mem) (λ '(info, mem'),
    (∃ m, m ∈ modes ∧ Vesa.supported MAX_WIDTH MAX_HEIGHT (mode_info m) = true ∧
      info_ok info MEMORY_MAP stage_4 kernel ramdisk config (length (E820.reported E820.entries)) (mode_info m)) ∧
    E820.map_at mem' (BiosCommon.memory_map_addr info) (BiosCommon.memory_map_len info) = E820.reported E820.entries ∧
    in_memory d b mem' STAGE_3_DST (Some stage_3) ∧ in_memory d b mem' STAGE_4_DST (Some stage_4) ∧
    in_memory d b mem' KERNEL_DST (Some kernel) ∧ in_memory d b mem' (ramdisk_place kernel) ramdisk ∧
    in_memory d b mem' (config_place kernel ramdisk) config ∧
    STAGE_4_DST + file_size stage_4.1 ≤ KERNEL_DST ∧ KERNEL_DST + file_size kernel.1 ≤ ramdisk_place kernel ∧
    ∀ x, BiosCommon.in_region x (BiosCommon.stage_4 info) ∨ BiosCommon.in_region x (BiosCommon.kernel info) ∨
         BiosCommon.in_region x (BiosCommon.ramdisk info) ∨ BiosCommon.in_region x (BiosCommon.config_file info) →
      x ≤ BiosCommon.last_used_addr info).
Proof. apply start_spec. Qed.
End Start.

(** ** A concrete disk

    The partition at sector 100 is a FAT12 volume with 8 clusters and a root directory of 32 entries,
    as large as the buffer: two stages of one cluster, a kernel of two and a ramdisk of one. *)
Section Sample.
Definition boot_bpb : Bpb := mkBpb 512 1 1 1 32 12 1 0 0 0.
Lemma boot_bpb_ok : bpb_ok boot_bpb.
Proof. split; vm_compute; done || by split. Qed.
Definition boot_table : list Z := [0xFF8; 0xFFF; 0xFFF; 0xFFF; 5; 0xFFF; 0xFFF; 0; 0; 0].
Definition boot_entry (name : list Z) (main : string) (cluster size : Z) : list Z :=
  lfn_entry 0x41 0 name ++ normal_entry (chars main) [32; 32; 32] 0x20 (replicate 8 0) (replicate 4 0) cluster size.
Definition boot_dir : list Z :=
  boot_entry BOOT_STAGE_3 "BOOT-S~1" 2 500 ++ boot_entry BOOT_STAGE_4 "BOOT-S~2" 3 512 ++
  boot_entry KERNEL "KERNEL~1" 4 900 ++ boot_entry RAMDISK "RAMDIS~1" 6 100 ++ replicate 32 0.
Definition boot_sector : list Z :=
  replicate 11 0 ++ le_bytes 2 512 ++ [1] ++ le_bytes 2 1 ++ [1] ++ le_bytes 2 32 ++ le_bytes 2 12 ++ [0] ++ le_bytes 2 1 ++
  replicate 8 0 ++ le_bytes 4 0 ++ replicate 476 0.
Definition boot_image : Z → Z :=
  mem_write (mem_write (mem_write (λ x, x mod 251) 51200 boot_sector) 51712 (fat_bytes Fat12 boot_table)) 52224 boot_dir.
Definition boot_buffer : Buffer := mkBuffer 0xa000 0x400.
Definition boot_disk : DiskAccess := mkDiskAccess 0x80 51200 0.

#[local] Instance boot_bios : Bios := bios_image boot_image.
#[local] Instance boot_bios_laws : BiosLaws boot_bios := bios_image_laws _.
#[local] Instance boot_rs : ReadSeek DiskAccess := disk_access_read_seek sample_tmp.
#[local] Instance boot_laws : ReadSeekLaws DiskAccess := disk_access_laws sample_tmp.
#[local] Instance boot_mbr : Mbr := {|
  PartitionType := Z; from_mbr_tag_byte t := t; is_unknown_type t tag := t =? tag;
  is_fat_type t := bool_decide (t ∈ [0x01; 0x04; 0x06; 0x0b; 0x0c; 0x0e]) |}.
#[local] Instance boot_mbr_laws : MbrLaws boot_mbr.
Proof. split; by vm_compute. Defined.

Lemma boot_fat_on_disk : fat_on_disk boot_disk boot_bpb Fat12 boot_table.
Proof.
  split; try (by vm_compute).
  - intros x Hx. assert (Forall (is_uint 12) boot_table) as Hall
      by (unfold boot_table; repeat (apply Forall_cons; split; [by vm_compute|]); done).
    rewrite Forall_forall in Hall. by apply Hall.
  - intros _. by exists 5%nat.
Qed.
Lemma boot_volume_ok : volume_ok boot_disk boot_bpb Fat12 boot_table boot_buffer.
Proof. split; [by split_and!|exact boot_bpb_ok|done|exact boot_fat_on_disk|by vm_compute|by vm_compute]. Qed.
Lemma boot_root_ok : root_ok boot_bpb boot_buffer.
Proof. split; by vm_compute. Qed.

Lemma boot_directory name o :
  lookup_file (raw_entries (root_bytes boot_disk boot_bpb)) name = Ret (fst <$> o) →
  match o with
  | None => True
  | Some (file, cs) => 0 ≤ first_cluster file ∧ chain Fat12 (clusters boot_bpb + 1) boot_table (first_cluster file) cs
  end →
  directory_has boot_disk boot_bpb Fat12 boot_table boot_buffer name o.
Proof.
  intros H Hc. split; [|done]. intros stale Hst. destruct stale; [|cbn in Hst; lia]. by rewrite app_nil_r.
Qed.
Ltac boot_file := split; [apply boot_directory; [by vm_compute|split; [done|]]|by vm_compute|cbn; lia|by vm_compute];
  repeat (eapply chain_next; [by vm_compute|by vm_compute|]); apply chain_end; by vm_compute.
Lemma boot_files_ok : files_ok boot_disk boot_bpb Fat12 boot_table boot_buffer 10 0x1100000
  (mkFile 2 500, [2]) (mkFile 3 512, [3]) (mkFile 4 900, [4; 5]) (Some (mkFile 6 100, [6])) None.
Proof.
  split; [|by vm_compute|boot_file|boot_file|boot_file|boot_file| |by vm_compute|by vm_compute|by vm_compute].
  - split; [by vm_compute|by vm_compute|by vm_compute|]. cbn. intros x Hx. cbn. unfold STAGE_3_DST in Hx. lia.
  - split; [apply boot_directory; [by vm_compute|done]|by vm_compute|cbn; lia|by vm_compute].
Qed.
(** A VESA BIOS whose information block contains the list of the modes. *)
Definition boot_modes : list Z := [64; 128].
Definition boot_vbe_block : list Z :=
  replicate 14 0 ++ [0x40; 0xa0; 0; 0] ++ replicate 46 0 ++ ((boot_modes ++ [0xffff]) ≫= le_bytes 2) ++ replicate 442 0.
#[local] Instance boot_vbe : Vesa.Vbe := {|
  Vesa.vbe_controller_info di mem := (0x4f, mem_write mem di boot_vbe_block);
  Vesa.vbe_mode_info m segment offset mem :=
    (0x4f, mem_write mem (segment * 16 + offset) (Vesa.sample_block (m * 10) (m * 5) 16 0));
  Vesa.vbe_set_mode _ := 0x4f;
|}.
#[local] Instance boot_vbe_laws : Vesa.VbeLaws boot_vbe.
Proof.
  refine (@Vesa.Build_VbeLaws boot_vbe (λ m, Vesa.sample_block (m * 10) (m * 5) 16 0) (λ m, True) _ _); [|done].
  intros m _. done.
Defined.

Lemma boot_pointer mem : Vesa.video_mode_ptr (vesa_info boot_buffer) (mem_write mem 0xa000 boot_vbe_block) = 0xa040.
Proof.
  unfold Vesa.video_mode_ptr. cbn [vesa_info Vesa.info_block boot_buffer buf_addr].
  rewrite (mem_read_write mem 0xa000 boot_vbe_block) by (vm_compute; done). by vm_compute.
Qed.
Lemma boot_modes_in m : m ∈ boot_modes → m = 64 ∨ m = 128.
Proof. unfold boot_modes. rewrite !elem_of_cons, elem_of_nil. tauto. Qed.
Lemma boot_vesa_ok : vesa_ok boot_buffer boot_modes.
Proof.
  split.
  - by vm_compute.
  - intros mem. eexists. split; [done|]. split.
    { intros x Hx. apply mem_write_out. change (length boot_vbe_block) with 512%nat. cbn [boot_buffer buf_addr] in *. lia. }
    split; cbn [boot_buffer buf_addr]; rewrite ?boot_pointer.
    + repeat (apply Forall_cons; split; [by vm_compute|]). done.
    + rewrite (mem_read_write mem 0xa000 boot_vbe_block) by (vm_compute; done). by vm_compute.
    + by vm_compute.
    + by vm_compute.
    + intros x Hx. cbn in *. lia.
  - done.
  - intros m [->| ->]%boot_modes_in; apply (bool_decide_unpack _); by vm_compute.
  - intros m [->| ->]%boot_modes_in _; by vm_compute.
  - exists 64. split; [by left|by vm_compute].
Qed.

(** The partition table, and the theorem on this disk. *)
Definition boot_raw (tag lba len : Z) : RawEntry :=
  mkRawEntry (BootSector.mkEntry true tag lba len) 0x80 [0; 0; 0] [0; 0; 0].
Definition boot_mem : Mem := mem_write (λ _, 0) 0x7dbe
  (raw_bytes (boot_raw 0x20 1 99) ++ raw_bytes (boot_raw 0x0c 100 12) ++ raw_bytes (boot_raw 0 0 0) ++ raw_bytes (boot_raw 0 0 0)).

Lemma start_loads_and_reports_witness :
  returns (start (E := E820.sample_bios) sample_tmp boot_buffer 0x9000 10 0x80 0x7dbe boot_mem) (λ '(info, mem'),
    BiosCommon.last_used_addr info = 0x1001063 ∧
    mem_read mem' KERNEL_DST 900 = take 900 (chain_bytes boot_disk boot_bpb [4; 5])).
Proof.
  eapply returns_mono.
  - apply (start_loads_and_reports (HE := E820.sample_laws) sample_tmp boot_buffer 0x9000 10 0x80 0x7dbe boot_mem
      (boot_raw 0x20 1 99) (boot_raw 0x0c 100 12) (boot_raw 0 0 0) (boot_raw 0 0 0) boot_bpb Fat12 boot_table 0x1100000
      (mkFile 2 500, [2]) (mkFile 3 512, [3]) (mkFile 4 900, [4; 5]) (Some (mkFile 6 100, [6])) None boot_modes).
    + repeat (apply Forall_cons; split; [split; [done|done|by vm_compute|by vm_compute]|]). done.
    + by vm_compute.
    + done.
    + done.
    + by vm_compute.
    + exact boot_volume_ok.
    + exact boot_root_ok.
    + exact boot_files_ok.
    + done.
    + cbn. lia.
    + vm_compute. lia.
    + split; [by vm_compute|left; by vm_compute].
    + exact boot_vesa_ok.
    + cbn. lia.
  - intros [info mem'] ((m & _ & _ & Hi) & _ & _ & _ & Hk & _). split; [rewrite (io_last _ _ _ _ _ _ _ _ Hi); by vm_compute|exact Hk].
Defined.
End Sample.

End Stage2Start.
