(* ===== verification/Stage4.v ===== *)
(** * The fourth stage (bios/stage-4/src/main.rs)

    [_start] turns what the second stage has left in memory into the arguments
    of [load_and_switch_to_kernel]: it sorts the memory map, sets up the frame
    allocator behind the loaded files, creates the kernel's page table, parses
    the kernel and the configuration, initialises the logger and looks for the
    ACPI tables. The JSON parser (serde_json_core), the ACPI search (rsdp) and
    the view of a page table in memory (x86_64) are classes. *)
From stdpp Require Import gmap.
From S2P Require Import Prelude Memory X86 Paging PageTables Config Info Elf FrameAllocator.
From S2P Require Import Level4 LoadKernel SetUp SetUpProofs Fat FatProofs Disk Stage2 E820.
From S2P Require Import BiosCommon Vesa Framebuffer Logger Stage2Start.
Import Memory X86 Paging PageTables.

Module Stage4.

Definition GIGABYTE : Z := 4096 * 512 * 512.

(** [serde_json_core::from_slice]: the configuration and the number of bytes read *)
Class Json := from_slice : list Z → option (BootConfig.BootConfig * Z).
(** [Rsdp::search_for_on_bios] on the identity-mapped memory: the physical start *)
Class RsdpSearch := search_for_on_bios : (Z → Z) → option Z.
(** [OffsetPageTable::new] on the table at an address, for an offset of 0, and the
    [identity_map] of 2 MiB frames *)
Class OffsetTables (M : Type) := {
  offset_page_table : (Z → Z) → Z → M;
  identity_map_2mib : ∀ {F} `{!FrameSource F}, M → F → Z → Z → res (option (M * F));
}.

(** [memory_map.sort_unstable_by_key(|e| e.start_addr)] *)
Definition sort_by_start (l : list FrameAllocator.E820MemoryRegion) : list FrameAllocator.E820MemoryRegion :=
  FrameAllocator.sort_by_key FrameAllocator.start_addr l.

(** The largest end of a region, at most 4 GiB. *)
Definition max_phys_addr (memory_map : list FrameAllocator.E820MemoryRegion) : res Z :=
  ends ← foldM (λ acc r, e ← FrameAllocator.start_addr r +[64] FrameAllocator.e820_len r; Ret (acc ++ [e])) [] memory_map;
  max ← expect_some (match ends with [] => None | e :: es => Some (foldl Z.max e es) end)
          "no physical memory regions found";
  Ret (Z.min max (4 * GIGABYTE)).

(** The framebuffer information of the boot information from that of the second stage. *)
Definition convert_pixel_format (f : BiosCommon.PixelFormat) : Info.PixelFormat :=
  match f with
  | BiosCommon.Rgb => Info.Rgb
  | BiosCommon.Bgr => Info.Bgr
  | BiosCommon.Unknown r g b => Info.Unknown r g b
  end.
Definition convert_framebuffer_info (info : BiosCommon.BiosFramebufferInfo) : res Info.FrameBufferInfo :=
  byte_len ← expect_some (try_from_u 64 (BiosCommon.len (BiosCommon.region info)))
               "called `Result::unwrap()` on an `Err` value";
  Ret {| Info.byte_len := byte_len;
         Info.width := BiosCommon.width info;
         Info.height := BiosCommon.height info;
         Info.pixel_format := convert_pixel_format (BiosCommon.pixel_format info);
         Info.bytes_per_pixel := BiosCommon.bytes_per_pixel info;
         Info.stride := BiosCommon.stride info |}.

(** The configuration from the file, or the default: the value, and whether parsing failed. *)
Definition load_config `{Json} (config_file : option (list Z)) : BootConfig.BootConfig * bool :=
  match config_file with
  | None => (BootConfig.BootConfig_default, false)
  | Some bytes =>
      match from_slice bytes with
      | Some (config, _) => (config, false)
      | None => (BootConfig.BootConfig_default, true)
      end
  end.
(** The minimum sizes fall back to those of the kernel's configuration. *)
Definition with_kernel_minimums (config : BootConfig.BootConfig) (k : Config.BootloaderConfig) : BootConfig.BootConfig :=
  let fb := BootConfig.frame_buffer config in
  let kfb := Config.frame_buffer k in
  {| BootConfig.frame_buffer := {|
       BootConfig.minimum_framebuffer_height :=
         match BootConfig.minimum_framebuffer_height fb with
         | None => Config.minimum_framebuffer_height kfb | h => h end;
       BootConfig.minimum_framebuffer_width :=
         match BootConfig.minimum_framebuffer_width fb with
         | None => Config.minimum_framebuffer_width kfb | w => w end |};
     BootConfig.log_level := BootConfig.log_level config;
     BootConfig.frame_buffer_logging := BootConfig.frame_buffer_logging config;
     BootConfig.serial_logging := BootConfig.serial_logging config;
     BootConfig.test_sentinel := BootConfig.test_sentinel config |}.

Definition detect_rsdp `{X86} `{RsdpSearch} (mem : Z → Z) : res (option Z) :=
  match search_for_on_bios mem with
  | Some start => a ← phys_new start; Ret (Some a)
  | None => Ret None
  end.

Section Model.
Context `{X : X86, XB : X86Big} {M : Type} `{P : Mapper M, PB : !BigMapper M, PO : !OffsetTables M} {R : Type} `{G : Level4.Rng R}.
Context {RF : Elf.RelaFormat} {GF : SetUp.GdtFormat} `{EP : SetUp.ElfParser}.
Context `{J : Json} `{RS : RsdpSearch} `{F : Framebuffer.Font} `{U : Logger.Uart}.
Abbreviation allocator := (FrameAllocator.LegacyFrameAllocator FrameAllocator.E820MemoryRegion).

(** [init_logger]: the logger writes to the memory of the framebuffer *)
Definition init_logger (log : Logger.LogState) (text : list Z) (info : BiosCommon.BiosFramebufferInfo)
    (log_level : BootConfig.LevelFilter) (frame_buffer_logger_status serial_logger_status : bool) (mem : Z → Z) :
    res (Info.FrameBufferInfo * Logger.LogState) :=
  framebuffer_info ← convert_framebuffer_info info;
  let framebuffer := mem_read mem (BiosCommon.start (BiosCommon.region info)) (BiosCommon.len (BiosCommon.region info)) in
  log ← Logger.init_logger log framebuffer framebuffer_info log_level frame_buffer_logger_status serial_logger_status text;
  Ret (framebuffer_info, log).

(** The memory of the framebuffer is that of the logger's writer. *)
Definition framebuffer_memory (log : Logger.LogState) (info : BiosCommon.BiosFramebufferInfo) (mem : Z → Z) : Z → Z :=
  match Logger.LOGGER log ≫= Logger.l_framebuffer with
  | Some w => mem_write mem (BiosCommon.start (BiosCommon.region info)) (Framebuffer.framebuffer (Logger.value _ w))
  | None => mem
  end.

(** The mapping of the memory above 10 GiB; [active] is the table CR3 points to. *)
Definition identity_map_rest (max_phys_addr : Z) (active : M) (frame_allocator : allocator) : res (M * allocator) :=
  a ← phys_new (GIGABYTE * 10);
  let start_frame := big_frame_containing a in
  e ← max_phys_addr -! 1;
  e ← phys_new e;
  let end_frame := big_frame_containing e in
  foldM (λ '(t, f) frame,
           r ← identity_map_2mib t f frame SetUp.FLAGS_RW;
           expect_some r "called `Result::unwrap()` on an `Err` value")
    (active, frame_allocator) (big_frame_range_inclusive start_frame end_frame).

Definition create_page_tables (active : M) (frame_allocator : allocator) (mem : Z → Z) :
    res (SetUp.PageTables M * allocator * (Z → Z)) :=
  '(o, frame_allocator) ← allocate_frame frame_allocator;
  frame ← expect_some o "no unused frames";
  let mem := mem_write mem frame (replicate (Z.to_nat Size4KiB) 0) in
  let kernel_page_table := offset_page_table mem frame in
  Ret (SetUp.mkPageTables active kernel_page_table frame, frame_allocator, mem).

(** What [_start] computes before it calls [load_and_switch_to_kernel]. *)
Record Prepared := mkPrepared {
  p_kernel : SetUp.Kernel;
  p_config : BootConfig.BootConfig;
  p_frames : allocator;
  p_tables : SetUp.PageTables M;
  p_system_info : SetUp.SystemInfo;
  p_memory : Z → Z;
  p_log : Logger.LogState;
}.

Definition prepare (cr3 : Z) (log : Logger.LogState) (text : list Z) (info : BiosCommon.BiosInfo) (mem : Z → Z) :
    res Prepared :=
  let memory_map := sort_by_start (E820.map_at mem (BiosCommon.memory_map_addr info) (BiosCommon.memory_map_len info)) in
  let mem := E820.store_map mem (BiosCommon.memory_map_addr info) memory_map in
  max_phys_addr ← max_phys_addr memory_map;
  assert_ (negb (BiosCommon.start (BiosCommon.kernel info) =? 0)) "kernel start address must be set";;
  kernel_start ← phys_new (BiosCommon.start (BiosCommon.kernel info));
  let kernel_size := BiosCommon.len (BiosCommon.kernel info) in
  last_used ← phys_new (BiosCommon.last_used_addr info);
  next_free_frame ← frame_add (frame_containing last_used) 1;
  let frame_allocator := FrameAllocator.new_starting_at next_free_frame memory_map in
  let active := offset_page_table mem cr3 in
  '(active, frame_allocator) ← identity_map_rest max_phys_addr active frame_allocator;
  '(page_tables, frame_allocator, mem) ← create_page_tables active frame_allocator mem;
  kernel ← SetUp.Kernel_parse kernel_start (mem_read mem kernel_start kernel_size);
  let config_file := BiosCommon.config_file info in
  let config_file_slice :=
    if negb (BiosCommon.len config_file =? 0)
    then Some (mem_read mem (BiosCommon.start config_file) (BiosCommon.len config_file)) else None in
  let '(config, error_loading_config) := load_config config_file_slice in
  let config := with_kernel_minimums config (SetUp.config kernel) in
  '(framebuffer_info, log) ← init_logger log text (BiosCommon.framebuffer info) (BootConfig.log_level config)
    (BootConfig.frame_buffer_logging config) (BootConfig.serial_logging config) mem;
  let mem := framebuffer_memory log (BiosCommon.framebuffer info) mem in
  addr ← phys_new (BiosCommon.start (BiosCommon.region (BiosCommon.framebuffer info)));
  rsdp ← detect_rsdp mem;
  let system_info :=
    {| SetUp.sys_framebuffer := Some (Level4.mkRawFrameBufferInfo addr framebuffer_info);
       SetUp.sys_rsdp_addr := rsdp;
       SetUp.sys_ramdisk_addr :=
         if BiosCommon.len (BiosCommon.ramdisk info) =? 0 then None
         else Some (BiosCommon.start (BiosCommon.ramdisk info));
       SetUp.sys_ramdisk_len := BiosCommon.len (BiosCommon.ramdisk info) |} in
  Ret (mkPrepared kernel config frame_allocator page_tables system_info mem log).

Definition start (version_info : Config.ApiVersion) (build_rng : R) (context_switch cr3 : Z) (log : Logger.LogState)
    (text : list Z) (c : SetUp.Control) (info : BiosCommon.BiosInfo) (mem : Z → Z) :
    res (SetUp.Cpu * Info.BootInfo * SetUp.PageTables M * (Z → Z) * SetUp.Control) :=
  p ← prepare cr3 log text info mem;
  SetUp.load_and_switch_to_kernel version_info (BootConfig.test_sentinel (p_config p)) build_rng context_switch
    (p_kernel p) (p_frames p) (p_tables p) (p_memory p) c (p_system_info p).
End Model.

(** ** The memory map *)

(** A region in the physical address space that is not empty. *)
Definition region_ok (r : FrameAllocator.E820MemoryRegion) : Prop :=
  0 ≤ FrameAllocator.start_addr r ∧ 0 < FrameAllocator.e820_len r ∧
  FrameAllocator.start_addr r + FrameAllocator.e820_len r ≤ 2 ^ 52 - 4096.
Definition region_end (r : FrameAllocator.E820MemoryRegion) : Z := FrameAllocator.start_addr r + FrameAllocator.e820_len r.
(** The regions of the firmware, in any order, do not overlap. *)
Record map_ok (ds : list FrameAllocator.E820MemoryRegion) : Prop := {
  mo_nonempty : ds ≠ [];
  mo_regions : Forall region_ok ds;
  mo_nodup : NoDup ds;
  mo_disjoint d1 d2 : d1 ∈ ds → d2 ∈ ds → d1 ≠ d2 →
    region_end d1 ≤ FrameAllocator.start_addr d2 ∨ region_end d2 ≤ FrameAllocator.start_addr d1;
}.

Lemma foldl_max l a : a ≤ foldl Z.max a l ∧ (∀ x, x ∈ l → x ≤ foldl Z.max a l) ∧
  (foldl Z.max a l = a ∨ foldl Z.max a l ∈ l).
Proof.
  revert a. induction l as [|b l IH]; intros a; cbn [foldl].
  { split_and!; [lia|by intros ? []%elem_of_nil|by left]. }
  destruct (IH (Z.max a b)) as (H1 & H2 & H3). split_and!; [lia| |].
  - intros x [->|Hx]%elem_of_cons; [lia|auto].
  - rewrite elem_of_cons. destruct H3 as [->|?]; [|tauto]. lia.
Qed.

Section Proofs.
Context `{HX : X86Laws, HXB : X86BigLaws} {M : Type} `{HP : BigMapperLaws M, PO : !OffsetTables M}.
Context `{EP : SetUp.ElfParser} `{J : Json} `{RS : RsdpSearch} `{HF : Framebuffer.FontLaws} `{HU : Logger.UartLaws}.
Abbreviation allocator := (FrameAllocator.LegacyFrameAllocator FrameAllocator.E820MemoryRegion).

Lemma region_wf r : region_ok r → FrameAllocator.wf_desc r ∧ FrameAllocator.dstart r = FrameAllocator.start_addr r ∧
  FrameAllocator.dend r = region_end r.
Proof.
  intros (H1 & H2 & H3). unfold FrameAllocator.wf_desc, FrameAllocator.dend, FrameAllocator.dstart, FrameAllocator.dlen, region_end.
  cbn [FrameAllocator.start FrameAllocator.len FrameAllocator.bios_memory_region].
  rewrite phys_new_ok by (unfold phys_ok; lia). split_and!; done || lia.
Qed.

Lemma map_ok_unordered ds : map_ok ds → FrameAllocator.unordered_map ds.
Proof.
  intros [_ Hr Hn Hd]. rewrite Forall_forall in Hr. split; [|done|].
  - apply Forall_forall. intros d Hd'. by apply region_wf, Hr.
  - intros d1 d2 H1 H2 Hne. destruct (region_wf d1 (Hr d1 H1)) as (_ & -> & ->), (region_wf d2 (Hr d2 H2)) as (_ & -> & ->).
    by apply Hd.
Qed.

Lemma max_phys_addr_ok ds : ds ≠ [] → Forall region_ok ds → returns (max_phys_addr ds) (λ m,
  0 < m ≤ 4 * GIGABYTE).
Proof.
  intros Hne Hr. unfold max_phys_addr.
  eapply (returns_bind _ _ (λ ends, ends = region_end <$> ds)).
  { apply (foldM_returns _ (λ done ends, ends = region_end <$> done)); [done|].
    intros l1 d l2 ? -> ->. rewrite Forall_app, Forall_cons in Hr. destruct Hr as (_ & (? & ? & ?) & _).
    rewrite add_u_ok by lia. cbn. by rewrite fmap_app. }
  intros ends ->. destruct ds as [|d ds]; [done|]. cbn [fmap list_fmap expect_some mbind res_bind returns].
  apply Forall_cons in Hr as [(? & ? & _) _]. destruct (foldl_max (region_end <$> ds) (region_end d)) as (Hm & _).
  unfold region_end at 1 in Hm. unfold GIGABYTE. lia.
Qed.
(** ** What the fourth stage relies on, and what it hands to the loader *)

(** The view of a table of zeros: nothing is mapped. *)
Class OffsetTablesLaws := {
  zero_table mem fr : (∀ x, fr ≤ x < fr + 4096 → mem x = 0) →
    let m := offset_page_table mem fr in
    table_inv m ∧ pages m = ∅ ∧ big_pages m = ∅ ∧ level_1_tables m = ∅ ∧ level_4_set m = ∅ ∧
    ∀ i, 0 ≤ i < 512 → level_4_is_unused m i = true;
}.
(** The ACPI tables of a BIOS are announced below 1 MiB. *)
Class RsdpLaws := { rsdp_low mem a : search_for_on_bios mem = Some a → 0 ≤ a < 2 ^ 20 }.

Definition in_files (info : BiosCommon.BiosInfo) (x : Z) : Prop :=
  BiosCommon.in_region x (BiosCommon.kernel info) ∨ BiosCommon.in_region x (BiosCommon.ramdisk info) ∨
  BiosCommon.in_region x (BiosCommon.config_file info).
Definition framebuffer_info (i : BiosCommon.BiosFramebufferInfo) : Info.FrameBufferInfo :=
  Info.mkFrameBufferInfo (BiosCommon.len (BiosCommon.region i)) (BiosCommon.width i) (BiosCommon.height i)
    (convert_pixel_format (BiosCommon.pixel_format i)) (BiosCommon.bytes_per_pixel i) (BiosCommon.stride i).

(** The memory at the start of the fourth stage: a memory map [ds] in an array below the files,
    the files below [last_used_addr], a usable frame and the framebuffer above it, and a kernel that
    can be parsed. [n] bounds the characters of the first log line. *)
Record handover_ok (info : BiosCommon.BiosInfo) (mem : Z → Z) (text : list Z)
    (ds : list FrameAllocator.E820MemoryRegion) (k : SetUp.Kernel) : Prop := {
  ho_map : E820.map_at mem (BiosCommon.memory_map_addr info) (BiosCommon.memory_map_len info) = ds;
  ho_map_ok : map_ok ds;
  ho_array : BiosCommon.memory_map_addr info + E820.REGION_SIZE * Z.of_nat (length ds) ≤
    BiosCommon.start (BiosCommon.kernel info);
  ho_kernel : 0 < BiosCommon.start (BiosCommon.kernel info) ≤ BiosCommon.last_used_addr info;
  ho_files x : in_files info x → BiosCommon.start (BiosCommon.kernel info) ≤ x ≤ BiosCommon.last_used_addr info;
  ho_last : BiosCommon.last_used_addr info < 2 ^ 52 - 8192;
  ho_free : ∃ f, FrameAllocator.usable_frame ds f ∧ BiosCommon.last_used_addr info < f;
  ho_framebuffer : let r := BiosCommon.region (BiosCommon.framebuffer info) in
    BiosCommon.last_used_addr info < BiosCommon.start r < 2 ^ 52 ∧ is_uint 64 (BiosCommon.len r) ∧
    Framebuffer.fb_ok (Z.to_nat (BiosCommon.len r)) (framebuffer_info (BiosCommon.framebuffer info));
  ho_text : Z.of_nat (length (Logger.line Logger.Log.LInfo text)) *
    (Framebuffer.CHAR_RASTER_HEIGHT + Framebuffer.LINE_SPACING) < 2 ^ 62;
  ho_parse : SetUp.Kernel_parse (BiosCommon.start (BiosCommon.kernel info))
    (mem_read mem (BiosCommon.start (BiosCommon.kernel info)) (BiosCommon.len (BiosCommon.kernel info))) = Ret k;
}.

(** The bytes of the configuration file. *)
Definition config_bytes (info : BiosCommon.BiosInfo) (mem : Z → Z) : option (list Z) :=
  if BiosCommon.len (BiosCommon.config_file info) =? 0 then None
  else Some (mem_read mem (BiosCommon.start (BiosCommon.config_file info)) (BiosCommon.len (BiosCommon.config_file info))).

Record prepared_ok (cr3 : Z) (info : BiosCommon.BiosInfo) (mem : Z → Z) (ds : list FrameAllocator.E820MemoryRegion)
    (k : SetUp.Kernel) (p : Prepared (M := M)) : Prop := {
  po_kernel : p_kernel p = k;
  po_config : p_config p = with_kernel_minimums (load_config (config_bytes info mem)).1 (SetUp.config k);
  po_memory x : in_files info x → p_memory p x = mem x;
  po_source : source_inv (p_frames p) ∧ FrameAllocator.original (p_frames p) ≡ₚ ds;
  po_root : let root := SetUp.kernel_level_4_frame (p_tables p) in
    FrameAllocator.usable_frame ds root ∧ BiosCommon.last_used_addr info < root;
  po_fresh y : fresh (p_frames p) y ↔ FrameAllocator.usable_frame ds y ∧ BiosCommon.last_used_addr info < y ∧
    y ≠ SetUp.kernel_level_4_frame (p_tables p);
  po_table : let t := SetUp.kernel (p_tables p) in
    table_inv t ∧ pages t = ∅ ∧ big_pages t = ∅ ∧ level_1_tables t = ∅ ∧ level_4_set t = ∅ ∧
    ∀ i, 0 ≤ i < 512 → level_4_is_unused t i = true;
  po_active : SetUp.bootloader (p_tables p) =
    offset_page_table (E820.store_map mem (BiosCommon.memory_map_addr info) (sort_by_start ds)) cr3;
  po_framebuffer : SetUp.sys_framebuffer (p_system_info p) = Some (Level4.mkRawFrameBufferInfo
    (BiosCommon.start (BiosCommon.region (BiosCommon.framebuffer info))) (framebuffer_info (BiosCommon.framebuffer info)));
  po_ramdisk : SetUp.sys_ramdisk_len (p_system_info p) = BiosCommon.len (BiosCommon.ramdisk info) ∧
    SetUp.sys_ramdisk_addr (p_system_info p) = (if BiosCommon.len (BiosCommon.ramdisk info) =? 0 then None
      else Some (BiosCommon.start (BiosCommon.ramdisk info)));
}.

Lemma identity_map_rest_empty max (active : M) (f : allocator) : 0 < max ≤ 4 * GIGABYTE →
  identity_map_rest max active f = Ret (active, f).
Proof.
  intros Hm. unfold identity_map_rest, GIGABYTE in *. rewrite phys_new_ok by (unfold phys_ok; lia). cbn [mbind res_bind].
  rewrite sub_u_ok by lia. cbn [mbind res_bind]. rewrite phys_new_ok by (unfold phys_ok; lia). cbn [mbind res_bind].
  pose proof (align_down_le (max - 1) Size2MiB ltac:(done)). pose proof (align_down_nonneg (max - 1) Size2MiB ltac:(done) ltac:(lia)).
  rewrite !big_frame_containing_spec by (unfold phys_ok; lia). change (align_down _ Size2MiB) with 10737418240 at 1.
  rewrite big_frame_range_inclusive_spec; [|done|unfold phys_ok; lia|done|by apply align_down_mod].
  unfold big_frames_from.
  assert ((align_down (max - 1) Size2MiB - 10737418240) / Size2MiB < 0) as Hneg by (apply Z.div_lt_upper_bound; [done|lia]).
  rewrite seqZ_nil by lia. done.
Qed.

Context `{HO : !OffsetTablesLaws} `{HR : !RsdpLaws}.

Lemma next_frame_spec last y : 0 ≤ last → y mod 4096 = 0 → (align_down last 4096 + 4096 ≤ y ↔ last < y).
Proof.
  intros Hl Hy. pose proof (align_down_gt last 4096 ltac:(lia)). pose proof (align_down_mod last 4096 ltac:(lia)).
  split; [lia|]. intros Hlt. apply FrameAllocator.aligned_succ; [done|done|].
  pose proof (align_down_le last 4096 ltac:(lia)). lia.
Qed.

(** The allocator behind the files, and the kernel's page table. *)
Lemma create_page_tables_ok (active : M) ds last mem : map_ok ds → 0 ≤ last < 2 ^ 52 - 8192 →
  (∃ f, FrameAllocator.usable_frame ds f ∧ last < f) →
  returns (create_page_tables active (FrameAllocator.new_starting_at (align_down last 4096 + 4096) (sort_by_start ds)) mem)
    (λ '(t, f, mem'), let root := SetUp.kernel_level_4_frame t in
      SetUp.bootloader t = active ∧ source_inv f ∧ FrameAllocator.original f ≡ₚ ds ∧
      FrameAllocator.usable_frame ds root ∧ last < root ∧
      (∀ y, fresh f y ↔ FrameAllocator.usable_frame ds y ∧ last < y ∧ y ≠ root) ∧
      (∀ x, x ≤ last → mem' x = mem x) ∧
      SetUp.kernel t = offset_page_table mem' root ∧ ∀ x, root ≤ x < root + 4096 → mem' x = 0).
Proof.
  intros Hds Hl (g & Hg & Hlg). pose proof (map_ok_unordered ds Hds) as Hu.
  pose proof (align_down_nonneg last 4096 ltac:(lia) ltac:(lia)). pose proof (align_down_le last 4096 ltac:(lia)).
  destruct (FrameAllocator.sorted_source FrameAllocator.start_addr (align_down last 4096 + 4096) ds) as (Hf0 & Ho0 & Hfresh0).
  { intros d Hd. symmetry. apply region_wf. pose proof (mo_regions _ Hds) as Hr. rewrite Forall_forall in Hr. by apply Hr. }
  { done. }
  { rewrite <- Z.add_mod_idemp_l, align_down_mod by lia. done. }
  { unfold phys_ok. lia. }
  fold (sort_by_start ds) in *. set (f0 := FrameAllocator.new_starting_at _ _) in *.
  assert (∀ y, fresh f0 y ↔ FrameAllocator.usable_frame ds y ∧ last < y) as Hfresh.
  { intros y. rewrite Hfresh0. split; intros [Hy ?]; (split; [done|]);
      apply (next_frame_spec last y); (done || lia || by eapply FrameAllocator.usable_frame_aligned). }
  unfold create_page_tables. eapply returns_bind; [apply (FrameAllocator.allocate_fresh f0 g Hf0); by apply Hfresh|].
  intros [o f'] (fr & -> & Hfr & Hi' & Ho & Hf'). cbn [mbind res_bind expect_some returns].
  apply Hfresh in Hfr as [Hfu Hfl]. cbn [SetUp.bootloader SetUp.kernel SetUp.kernel_level_4_frame].
  split_and!; [done|done|by rewrite Ho|done|done| | |done|].
  - intros y. rewrite Hf', Hfresh. tauto.
  - intros x Hx. apply mem_write_out. lia.
  - intros x Hx. apply mem_zero. change (Z.of_nat (Z.to_nat Size4KiB)) with 4096. lia.
Qed.

(** The logger only writes to the framebuffer. *)
Lemma init_logger_memory text (i : BiosCommon.BiosFramebufferInfo) level fbs ss mem :
  is_uint 64 (BiosCommon.len (BiosCommon.region i)) →
  Framebuffer.fb_ok (Z.to_nat (BiosCommon.len (BiosCommon.region i))) (framebuffer_info i) →
  Z.of_nat (length (Logger.line Logger.Log.LInfo text)) * (Framebuffer.CHAR_RASTER_HEIGHT + Framebuffer.LINE_SPACING) < 2 ^ 62 →
  returns (init_logger Logger.log_start text i level fbs ss mem) (λ '(fi, log),
    fi = framebuffer_info i ∧
    ∀ x, x < BiosCommon.start (BiosCommon.region i) → framebuffer_memory log i mem x = mem x).
Proof.
  intros Hu Hfb Ht. unfold init_logger, convert_framebuffer_info. rewrite try_from_u_ok by done.
  cbn [expect_some mbind res_bind]. fold (framebuffer_info i).
  eapply returns_bind.
  { apply (Logger.init_logger_first _ (framebuffer_info i) level fbs ss text); [by rewrite length_mem_read|done]. }
  intros log (l & Hl & _). cbn [returns]. split; [done|]. intros x Hx. unfold framebuffer_memory. rewrite Hl.
  cbn [mbind option_bind]. destruct (Logger.l_framebuffer l) as [w|]; [|done]. apply mem_write_out. lia.
Qed.

Lemma detect_rsdp_ok mem : returns (detect_rsdp mem) (λ o, o = search_for_on_bios mem).
Proof.
  unfold detect_rsdp. destruct (search_for_on_bios mem) as [a|] eqn:E; [|done]. pose proof (rsdp_low _ _ E).
  by rewrite phys_new_ok by (unfold phys_ok; lia).
Qed.

Lemma prepare_spec cr3 text info mem ds k : handover_ok info mem text ds k →
  returns (prepare cr3 Logger.log_start text info mem) (prepared_ok cr3 info mem ds k).
Proof.
  intros Hok. pose proof (ho_map_ok _ _ _ _ _ Hok) as Hds. pose proof (FrameAllocator.sort_by_key_perm FrameAllocator.start_addr ds) as Hp. fold (sort_by_start ds) in Hp.
  pose proof (ho_files _ _ _ _ _ Hok) as Hfiles. destruct (ho_kernel _ _ _ _ _ Hok) as [Hk0 Hkl].
  pose proof (ho_last _ _ _ _ _ Hok). pose proof (ho_array _ _ _ _ _ Hok) as Harr. unfold E820.REGION_SIZE in Harr.
  destruct (ho_framebuffer _ _ _ _ _ Hok) as ([Hf1 Hf2] & Hf3 & Hf4). set (last := BiosCommon.last_used_addr info) in *.
  unfold prepare. rewrite (ho_map _ _ _ _ _ Hok). set (mem1 := E820.store_map _ _ _).
  eapply returns_bind.
  { apply max_phys_addr_ok; [|rewrite Hp; apply Hds]. intros E. rewrite E in Hp.
    apply Permutation_nil_l in Hp. by apply (mo_nonempty _ Hds). }
  intros max Hmax. rewrite (proj2 (Z.eqb_neq (BiosCommon.start (BiosCommon.kernel info)) 0)) by lia. cbn [negb assert_ mbind res_bind].
  rewrite (phys_new_ok (BiosCommon.start (BiosCommon.kernel info))) by (unfold phys_ok; lia). cbn [mbind res_bind].
  rewrite (phys_new_ok (BiosCommon.last_used_addr info)) by (unfold phys_ok; fold last; lia). cbn [mbind res_bind]. fold last.
  pose proof (align_down_nonneg last 4096 ltac:(lia) ltac:(lia)). pose proof (align_down_le last 4096 ltac:(lia)).
  rewrite frame_containing_spec by (unfold phys_ok; lia). rewrite frame_add_ok by (unfold phys_ok; lia). cbn [mbind res_bind].
  rewrite identity_map_rest_empty by done. cbn [mbind res_bind]. rewrite Z.mul_1_l.
  eapply returns_bind; [apply (create_page_tables_ok _ ds last mem1); [done|lia|apply Hok]|].
  intros [[t f] mem2] (Hb & Hsrc & Horig & Hru & Hrl & Hfresh & Hm2 & Hkt & Hz).
  assert (∀ x, in_files info x → mem2 x = mem x) as Hkeep.
  { intros x Hx. specialize (Hfiles x Hx). rewrite Hm2 by lia. apply mem_write_out. rewrite E820.length_map_bytes.
    rewrite (Permutation_length Hp). lia. }
  rewrite (mem_read_ext mem mem2 (BiosCommon.start (BiosCommon.kernel info))) by (intros x Hx; apply Hkeep; left; exact Hx).
  rewrite (ho_parse _ _ _ _ _ Hok). cbn [mbind res_bind].
  set (cfg := if negb _ then _ else None). assert (cfg = config_bytes info mem) as ->.
  { unfold cfg, config_bytes. destruct (BiosCommon.len _ =? 0); [done|]. cbn [negb]. f_equal. apply mem_read_ext.
    intros x Hx. apply Hkeep. right. right. exact Hx. }
  destruct (load_config (config_bytes info mem)) as [config err] eqn:Ec.
  eapply returns_bind; [by apply init_logger_memory; [..|apply Hok]|]. intros [fi log] [-> Hm3].
  rewrite phys_new_ok by (unfold phys_ok; lia). cbn [mbind res_bind].
  eapply returns_bind; [apply detect_rsdp_ok|]. intros rsdp _. cbn [returns].
  split; cbn [p_kernel p_config p_memory p_frames p_tables p_system_info SetUp.sys_framebuffer SetUp.sys_ramdisk_addr SetUp.sys_ramdisk_len];
    try done.
  - by rewrite Ec.
  - intros x Hx. rewrite Hm3; [by apply Hkeep|]. specialize (Hfiles x Hx). lia.
  - rewrite Hkt. by apply zero_table.
Qed.
End Proofs.

End Stage4.
