(* ===== verification/BootChain.v ===== *)
(** * From the second to the fourth stage

    What the second stage leaves in memory is what the fourth stage relies on:
    the two stages are composed, with anything in between that keeps the loaded
    files and the memory map. *)
From stdpp Require Import gmap.
From S2P Require Import Prelude Memory X86 Paging PageTables Config Info Elf FrameAllocator.
From S2P Require Import Level4 LoadKernel SetUp SetUpProofs Fat FatProofs Disk BootSector Stage2.
From S2P Require Import E820 BiosCommon Vesa Framebuffer Logger Stage2Start Stage4.
Import Memory X86 Paging PageTables Disk Fat FatProofs Stage2.

Module BootChain.

Section Chain.
Context `{HM : Stage2Start.MbrLaws} `{HB : BiosLaws} `{HE : E820.E820Laws} `{HV : Vesa.VbeLaws}.
Context `{HX : X86Laws, HXB : X86BigLaws} {T : Type} `{HP : BigMapperLaws T, PO : !Stage4.OffsetTables T}.
Context `{EP : SetUp.ElfParser} `{J : Stage4.Json} `{RS : Stage4.RsdpSearch} `{HF : Framebuffer.FontLaws} `{HU : Logger.UartLaws}.
Context `{HO : !Stage4.OffsetTablesLaws} `{HR : !Stage4.RsdpLaws}.
Context (TMP_BUF DISK_BUFFER : Buffer) (MEMORY_MAP : Z).
#[local] Instance chain_rs : ReadSeek DiskAccess := disk_access_read_seek TMP_BUF.
#[local] Instance chain_laws : ReadSeekLaws DiskAccess := disk_access_laws TMP_BUF.

(** The stages in between keep the files and the memory map. *)
Definition handed_over (info : BiosCommon.BiosInfo) (mem mem' : Mem) : Prop :=
  ∀ x, Stage4.in_files info x ∨
    (BiosCommon.memory_map_addr info ≤ x <
     BiosCommon.memory_map_addr info + E820.REGION_SIZE * BiosCommon.memory_map_len info) → mem' x = mem x.

(** What the machine provides for the fourth stage: a map of regions that do not overlap, with a
    usable frame behind the files, and a framebuffer above them for every video mode. *)
Record machine_ok (last : Z) (modes : list Z) (text : list Z) : Prop := {
  ma_map : Stage4.map_ok (E820.reported E820.entries);
  ma_free : ∃ f, FrameAllocator.usable_frame (E820.reported E820.entries) f ∧ last < f;
  ma_modes m : m ∈ modes → Vesa.supported Stage2Start.MAX_WIDTH Stage2Start.MAX_HEIGHT (Stage2Start.mode_info m) = true →
    let vm := Stage2Start.mode_info m in
    let len := Vesa.height vm * Vesa.bytes_per_scanline vm in
    last < Vesa.framebuffer_start vm < 2 ^ 52 ∧ is_uint 64 len ∧
    Framebuffer.fb_ok (Z.to_nat len)
      (Info.mkFrameBufferInfo len (Vesa.width vm) (Vesa.height vm) (Stage4.convert_pixel_format (Vesa.pixel_format vm))
         (Vesa.bytes_per_pixel vm) (Vesa.bytes_per_scanline vm / Vesa.bytes_per_pixel vm));
  ma_text : Z.of_nat (length (Logger.line Logger.Log.LInfo text)) *
    (Framebuffer.CHAR_RASTER_HEIGHT + Framebuffer.LINE_SPACING) < 2 ^ 62;
}.

(** The files as the fourth stage hands them on, and the frames left for the kernel. *)
Record chain_post (d : DiskAccess) (b : Bpb) (kernel : File * list Z) (ramdisk config : option (File * list Z))
    (k : SetUp.Kernel) (p : Stage4.Prepared (M := T)) : Prop := {
  cp_kernel : Stage4.p_kernel p = k ∧ Stage2Start.in_memory d b (Stage4.p_memory p) Stage2Start.KERNEL_DST (Some kernel);
  cp_ramdisk : Stage2Start.in_memory d b (Stage4.p_memory p) (Stage2Start.ramdisk_place kernel) ramdisk ∧
    SetUp.sys_ramdisk_len (Stage4.p_system_info p) = Stage2Start.o_len ramdisk ∧
    SetUp.sys_ramdisk_addr (Stage4.p_system_info p) =
      (if Stage2Start.o_len ramdisk =? 0 then None else Some (Stage2Start.ramdisk_place kernel));
  cp_config : Stage4.p_config p = Stage4.with_kernel_minimums
    (Stage4.load_config (if Stage2Start.o_len config =? 0 then None
       else Some (take (Z.to_nat (Stage2Start.o_len config)) (chain_bytes d b (Stage2Start.o_chain config))))).1
    (SetUp.config k);
  cp_frames : source_inv (Stage4.p_frames p) ∧ FrameAllocator.original (Stage4.p_frames p) ≡ₚ E820.reported E820.entries;
  cp_fresh y : fresh (Stage4.p_frames p) y ↔ FrameAllocator.usable_frame (E820.reported E820.entries) y ∧
    Stage2Start.config_place kernel ramdisk + Stage2Start.o_len config ≤ y ∧
    y ≠ SetUp.kernel_level_4_frame (Stage4.p_tables p);
  cp_table : pages (SetUp.kernel (Stage4.p_tables p)) = ∅ ∧ big_pages (SetUp.kernel (Stage4.p_tables p)) = ∅;
}.

Lemma in_memory_read d b mem dst o : Stage2Start.in_memory d b mem dst o →
  mem_read mem dst (Stage2Start.o_len o) = take (Z.to_nat (Stage2Start.o_len o)) (chain_bytes d b (Stage2Start.o_chain o)).
Proof. done. Qed.

(** What the second stage reports is what the fourth one relies on. *)
Lemma handover info mem mem' stage_4 kernel ramdisk config d b modes text m k :
  m ∈ modes → Vesa.supported Stage2Start.MAX_WIDTH Stage2Start.MAX_HEIGHT (Stage2Start.mode_info m) = true →
  Stage2Start.info_ok info MEMORY_MAP stage_4 kernel ramdisk config (length (E820.reported E820.entries))
    (Stage2Start.mode_info m) →
  E820.map_at mem (BiosCommon.memory_map_addr info) (BiosCommon.memory_map_len info) = E820.reported E820.entries →
  (length (E820.reported E820.entries) ≤ E820.MAP_LEN)%nat → Stage2Start.map_place_ok DISK_BUFFER MEMORY_MAP →
  machine_ok (Stage2Start.config_place kernel ramdisk + Stage2Start.o_len config - 1) modes text →
  Stage2Start.in_memory d b mem Stage2Start.KERNEL_DST (Some kernel) →
  0 < file_size kernel.1 → 0 ≤ Stage2Start.o_len ramdisk → 0 ≤ Stage2Start.o_len config →
  Stage2Start.config_place kernel ramdisk + Stage2Start.o_len config < 2 ^ 32 →
  SetUp.Kernel_parse Stage2Start.KERNEL_DST (take (Z.to_nat (file_size kernel.1)) (chain_bytes d b kernel.2)) = Ret k →
  handed_over info mem mem' → Stage4.handover_ok info mem' text (E820.reported E820.entries) k.
Proof.
  intros Hm Hsup Hi Hmap Hcap [Hmp _] Hma Hik Hk Hr Hc Hlim Hparse Hh.
  destruct (ma_modes _ _ _ Hma m Hm Hsup) as (Hf1 & Hf2 & Hf3).
  destruct (Stage2Start.io_map _ _ _ _ _ _ _ _ Hi) as [Ema Eml].
  pose proof (Stage2Start.ramdisk_place_bounds kernel Hk) as Hrp.
  assert (Stage2Start.config_place kernel ramdisk = Stage2Start.ramdisk_place kernel + Stage2Start.o_len ramdisk) as Ecp by done.
  assert (∀ x, Stage4.in_files info x → Stage2Start.KERNEL_DST ≤ x < Stage2Start.config_place kernel ramdisk + Stage2Start.o_len config) as Hf.
  { intros x. unfold Stage4.in_files, BiosCommon.in_region.
    rewrite (Stage2Start.io_kernel _ _ _ _ _ _ _ _ Hi), (Stage2Start.io_ramdisk _ _ _ _ _ _ _ _ Hi),
      (Stage2Start.io_config _ _ _ _ _ _ _ _ Hi). cbn [BiosCommon.start BiosCommon.len]. lia. }
  assert (Stage2Start.KERNEL_DST = 0x1000000 ∧ Stage2Start.STAGE_3_DST = 0x100000) as [Ekd Esd] by done.
  unfold E820.REGION_SIZE in *.
  split; rewrite ?(Stage2Start.io_kernel _ _ _ _ _ _ _ _ Hi), ?(Stage2Start.io_last _ _ _ _ _ _ _ _ Hi),
    ?(Stage2Start.io_framebuffer _ _ _ _ _ _ _ _ Hi); cbn [BiosCommon.start BiosCommon.len BiosCommon.region].
  - rewrite <- Hmap. apply E820.map_at_ext. intros x Hx. apply Hh. by right.
  - apply Hma.
  - rewrite Ema. unfold E820.REGION_SIZE. lia.
  - lia.
  - intros x Hx. specialize (Hf x Hx). lia.
  - lia.
  - apply Hma.
  - split_and!; [lia|lia|done|exact Hf3].
  - apply Hma.
  - rewrite <- Hparse. f_equal. etrans; [|exact (in_memory_read _ _ _ _ _ Hik)]. apply mem_read_ext.
    intros x Hx. apply Hh. left. left. unfold BiosCommon.in_region. by rewrite (Stage2Start.io_kernel _ _ _ _ _ _ _ _ Hi).
Qed.

(** The chain from the partition that the second stage finds. *)
Lemma chain_found_spec fuel disk_number table_addr mem e b ty table limit stage_3 stage_4 kernel ramdisk config
    modes k cr3 text :
  (parts ← Stage2Start.parse_partitions (mem_read mem table_addr 64); Stage2Start.find_fat_partition parts) = Ret e →
  is_uint 32 (Stage2Start.logical_block_address e) →
  let d := mkDiskAccess disk_number (Stage2Start.logical_block_address e * 512) 0 in
  Bpb_from_raw (mem_read (content d) 0 512) = Ret b →
  volume_ok d b ty table DISK_BUFFER → root_ok b DISK_BUFFER →
  Stage2Start.files_ok d b ty table DISK_BUFFER fuel limit stage_3 stage_4 kernel ramdisk config →
  E820.entries ≠ [] → (length E820.entries ≤ fuel)%nat → (length (E820.reported E820.entries) ≤ E820.MAP_LEN)%nat →
  Stage2Start.map_place_ok DISK_BUFFER MEMORY_MAP → Stage2Start.vesa_ok DISK_BUFFER modes → (length modes < fuel)%nat →
  machine_ok (Stage2Start.config_place kernel ramdisk + Stage2Start.o_len config - 1) modes text →
  SetUp.Kernel_parse Stage2Start.KERNEL_DST (take (Z.to_nat (file_size kernel.1)) (chain_bytes d b kernel.2)) = Ret k →
  returns (Stage2Start.start TMP_BUF DISK_BUFFER MEMORY_MAP fuel disk_number table_addr mem) (λ '(info, mem1),
    ∀ mem2, handed_over info mem1 mem2 →
      returns (Stage4.prepare cr3 Logger.log_start text info mem2) (chain_post d b kernel ramdisk config k)).
Proof.
  intros Hfound Hlba d Hbpb Hvol Hroot Hfiles He Hef Hcap Hmp Hv Hvf Hma Hk.
  eapply returns_mono.
  { eapply (Stage2Start.start_found_spec TMP_BUF DISK_BUFFER MEMORY_MAP fuel disk_number table_addr mem e b ty table limit
      stage_3 stage_4 kernel ramdisk config modes); done. }
  intros [info mem1] ((m & Hm & Hsup & Hi) & Hmap & _ & _ & Ik & Ir & Ic & _ & Hkr & Hlast) mem2 Hh.
  pose proof (Stage2Start.fs_kernel_size _ _ _ _ _ _ _ _ _ _ _ _ Hfiles) as Hk0.
  pose proof (Stage2Start.fi_len _ _ _ _ _ _ _ _ _ _ (Stage2Start.fs_ramdisk _ _ _ _ _ _ _ _ _ _ _ _ Hfiles)) as Lr.
  pose proof (Stage2Start.fi_len _ _ _ _ _ _ _ _ _ _ (Stage2Start.fs_config _ _ _ _ _ _ _ _ _ _ _ _ Hfiles)) as Lc.
  pose proof (Stage2Start.fi_room _ _ _ _ _ _ _ _ _ _ (Stage2Start.fs_config _ _ _ _ _ _ _ _ _ _ _ _ Hfiles)) as Rc.
  pose proof (Stage2Start.fs_limit _ _ _ _ _ _ _ _ _ _ _ _ Hfiles).
  assert (Stage4.handover_ok info mem2 text (E820.reported E820.entries) k) as Hok
    by (eapply (handover info mem1 mem2); (done || lia)).
  eapply returns_mono; [by apply Stage4.prepare_spec|]. intros p Hp.
  assert (∀ x, Stage4.in_files info x → Stage4.p_memory p x = mem1 x) as Hkeep.
  { intros x Hx. rewrite (Stage4.po_memory _ _ _ _ _ _ Hp) by done. apply Hh. by left. }
  destruct (Stage4.po_table _ _ _ _ _ _ Hp) as (_ & Ht1 & Ht2 & _). destruct (Stage4.po_ramdisk _ _ _ _ _ _ Hp) as [Hr1 Hr2].
  pose proof (Stage2Start.io_ramdisk _ _ _ _ _ _ _ _ Hi) as Eir. pose proof (Stage2Start.io_config _ _ _ _ _ _ _ _ Hi) as Eic.
  split.
  - split; [apply Hp|]. eapply Stage2Start.in_memory_kept; [|exact Ik]. intros x Hx. apply Hkeep. left.
    unfold BiosCommon.in_region. by rewrite (Stage2Start.io_kernel _ _ _ _ _ _ _ _ Hi).
  - rewrite Hr1, Hr2, Eir. split_and!; [|done|done]. eapply Stage2Start.in_memory_kept; [|exact Ir]. intros x Hx. apply Hkeep.
    right. left. unfold BiosCommon.in_region. by rewrite Eir.
  - rewrite (Stage4.po_config _ _ _ _ _ _ Hp). unfold Stage4.config_bytes. rewrite Eic. cbn [BiosCommon.len BiosCommon.start].
    do 2 f_equal. destruct (Stage2Start.o_len config =? 0); [done|]. do 2 f_equal.
    etrans; [|exact (in_memory_read _ _ _ _ _ Ic)]. apply mem_read_ext. intros x Hx. apply Hh. left. right. right.
    unfold BiosCommon.in_region. by rewrite Eic.
  - apply Hp.
  - intros y. rewrite (Stage4.po_fresh _ _ _ _ _ _ Hp y), (Stage2Start.io_last _ _ _ _ _ _ _ _ Hi). intuition lia.
  - done.
Qed.

(** C5: The BIOS boot chain: the second stage, anything that keeps the files and the memory map (the third
    stage), and the fourth stage up to the kernel loader. On a disk and a machine as before nothing
    panics; the kernel that is loaded is the parsed kernel file, the ramdisk and the configuration are
    those of the disk, the kernel's page table is empty, and the frame allocator hands out exactly the
    usable frames of the firmware's map behind all loaded files, except that of the page table: no
    file can be overwritten by a later allocation. *)
Theorem boot_chain fuel disk_number table_addr mem r0 r1 r2 r3 b ty table limit stage_3 stage_4 kernel ramdisk config
    modes k cr3 text :
  Forall Stage2Start.raw_entry_ok [r0; r1; r2; r3] →
  mem_read mem table_addr 64 = Stage2Start.raw_bytes r0 ++ Stage2Start.raw_bytes r1 ++
    Stage2Start.raw_bytes r2 ++ Stage2Start.raw_bytes r3 →
  BootSector.partition_type (Stage2Start.re_entry r0) = 0x20 → BootSector.partition_type (Stage2Start.re_entry r1) = 0x0c →
  let d := mkDiskAccess disk_number (BootSector.logical_block_address (Stage2Start.re_entry r1) * 512) 0 in
  Bpb_from_raw (mem_read (content d) 0 512) = Ret b →
  volume_ok d b ty table DISK_BUFFER → root_ok b DISK_BUFFER →
  Stage2Start.files_ok d b ty table DISK_BUFFER fuel limit stage_3 stage_4 kernel ramdisk config →
  E820.entries ≠ [] → (length E820.entries ≤ fuel)%nat → (length (E820.reported E820.entries) ≤ E820.MAP_LEN)%nat →
  Stage2Start.map_place_ok DISK_BUFFER MEMORY_MAP → Stage2Start.vesa_ok DISK_BUFFER modes → (length modes < fuel)%nat →
  machine_ok (Stage2Start.config_place kernel ramdisk + Stage2Start.o_len config - 1) modes text →
  SetUp.Kernel_parse Stage2Start.KERNEL_DST (take (Z.to_nat (file_size kernel.1)) (chain_bytes d b kernel.2)) = Ret k →
  returns (Stage2Start.start TMP_BUF DISK_BUFFER MEMORY_MAP fuel disk_number table_addr mem) (λ '(info, mem1),
    ∀ mem2, handed_over info mem1 mem2 →
      returns (Stage4.prepare cr3 Logger.log_start text info mem2) (chain_post d b kernel ramdisk config k)).
Proof.
  intros Hraw Htab Hp0 Hp1 d. destruct (Stage2Start.found_encoded mem table_addr r0 r1 r2 r3) as [Hf Hl]; [done..|].
  by apply (chain_found_spec fuel disk_number table_addr mem (Stage2Start.partition_of (Stage2Start.re_entry r1))).
Qed.
End Chain.

(** ** The chain on a concrete disk *)
Section Sample.
#[local] Existing Instances Stage2Start.boot_bios Stage2Start.boot_bios_laws Stage2Start.boot_mbr Stage2Start.boot_mbr_laws
  Stage2Start.boot_vbe Stage2Start.boot_vbe_laws E820.sample_bios E820.sample_laws.
#[local] Existing Instances Framebuffer.sample_font Logger.list_uart Logger.list_uart_laws.
#[local] Instance table_offset : Stage4.OffsetTables Table := {|
  Stage4.offset_page_table _ _ := empty_table;
  Stage4.identity_map_2mib _ _ m f fr fl := map_to_2mib m f fr fr fl;
|}.
#[local] Instance table_offset_laws : Stage4.OffsetTablesLaws (M := Table).
Proof. by split. Defined.
#[local] Instance no_json : Stage4.Json := λ _, None.
#[local] Instance no_rsdp : Stage4.RsdpSearch := λ _, None.
#[local] Instance no_rsdp_laws : Stage4.RsdpLaws.
Proof. by split. Defined.
(** A kernel file without program headers. *)
Definition sample_elf : Elf.ElfFile :=
  Elf.mkElfFile Stage2Start.KERNEL_DST 900 Elf.FExecutable 0x200000 [] (λ _, Ret ()) (Ret ()) (λ _, Err "no data").
Definition sample_config : Config.BootloaderConfig := Config.BootloaderConfig_new_default (Config.mkApiVersion 0 11 4 false).
#[local] Instance sample_parser : SetUp.ElfParser := {|
  SetUp.elf_new a _ := Ret sample_elf;
  SetUp.section_raw_data _ _ := Some (Config.serialize sample_config);
|}.
Definition sample_kernel : SetUp.Kernel := SetUp.mkKernel sample_elf sample_config Stage2Start.KERNEL_DST 900.

Definition sample_regions : list FrameAllocator.E820MemoryRegion :=
  [FrameAllocator.mkE820 0 0x9fc00 1 0; FrameAllocator.mkE820 0x100000 0x7ee0000 1 1].
Lemma sample_map_ok : Stage4.map_ok sample_regions.
Proof.
  split; [done| | |].
  - repeat (apply Forall_cons; split; [by vm_compute|]). apply Forall_nil_2.
  - repeat (apply NoDup_cons; split; [rewrite ?list_elem_of_singleton, ?elem_of_nil; naive_solver|]). apply NoDup_nil_2.
  - intros d1 d2. unfold sample_regions. rewrite !elem_of_cons, !elem_of_nil.
    intros [->|[->|[]]] [->|[->|[]]] Hne; try done; [left|right]; by vm_compute.
Qed.
Lemma sample_machine : machine_ok 0x1001063 Stage2Start.boot_modes (Logger.chars "fb").
Proof.
  split; change (E820.reported E820.entries) with sample_regions.
  - exact sample_map_ok.
  - exists 0x2000000. split; [|lia]. exists (FrameAllocator.mkE820 0x100000 0x7ee0000 1 1).
    split; [right; by left|split; by vm_compute].
  - intros m [->| ->]%Stage2Start.boot_modes_in _; cbv zeta; (split; [by vm_compute|split; [by vm_compute|split; by vm_compute]]).
  - by vm_compute.
Qed.

Lemma boot_chain_witness :
  returns (Stage2Start.start sample_tmp Stage2Start.boot_buffer 0x9000 10 0x80 0x7dbe Stage2Start.boot_mem) (λ '(info, mem1),
    returns (Stage4.prepare (M := Table) 0x1000 Logger.log_start (Logger.chars "fb") info mem1) (λ p,
      Stage4.p_kernel p = sample_kernel ∧ ¬ fresh (Stage4.p_frames p) 0x1000000)).
Proof.
  eapply returns_mono.
  - apply (boot_chain (T := Table) sample_tmp Stage2Start.boot_buffer 0x9000 10 0x80 0x7dbe Stage2Start.boot_mem
      (Stage2Start.boot_raw 0x20 1 99) (Stage2Start.boot_raw 0x0c 100 12) (Stage2Start.boot_raw 0 0 0)
      (Stage2Start.boot_raw 0 0 0) Stage2Start.boot_bpb Fat12 Stage2Start.boot_table 0x1100000
      (mkFile 2 500, [2]) (mkFile 3 512, [3]) (mkFile 4 900, [4; 5]) (Some (mkFile 6 100, [6])) None Stage2Start.boot_modes
      sample_kernel 0x1000 (Logger.chars "fb")).
    + repeat (apply Forall_cons; split; [split; [done|done|by vm_compute|by vm_compute]|]). done.
    + by vm_compute.
    + done.
    + done.
    + by vm_compute.
    + exact Stage2Start.boot_volume_ok.
    + exact Stage2Start.boot_root_ok.
    + exact Stage2Start.boot_files_ok.
    + done.
    + cbn. lia.
    + vm_compute. lia.
    + split; [by vm_compute|left; by vm_compute].
    + exact Stage2Start.boot_vesa_ok.
    + cbn. lia.
    + exact sample_machine.
    + by vm_compute.
  - intros [info mem1] H. eapply returns_mono; [apply (H mem1); by intros x _|]. intros p Hp.
    split; [apply Hp|]. rewrite (cp_fresh _ _ _ _ _ _ _ _ Hp). intros (_ & Hle & _). by vm_compute in Hle.
Defined.
End Sample.

End BootChain.
