(* ===== verification/Uefi.v ===== *)
(** * The UEFI boot loader (uefi/src/main.rs)

    [main_inner] loads the kernel, the configuration file and the ramdisk with
    the boot services of the firmware, from the volume or the TFTP server it
    was booted from, chooses a video mode, exits the boot services, and hands
    what it has found to [load_and_switch_to_kernel]. The firmware behind the
    uefi crate is the class [Firmware] over an arbitrary state; [FirmwareLaws]
    states what the UEFI specification promises. Handles and interface pointers
    are numbers; a [ScopedProtocol], a [Directory] and a [RegularFile] are
    closed where the source drops them. *)
From stdpp Require Import sorting gmap.
From S2P Require Import Prelude Memory X86 Paging PageTables Config Info Elf FrameAllocator.
From S2P Require Import Level4 LoadKernel SetUp SetUpProofs BiosCommon Framebuffer Logger Stage4.
Import Memory X86 Paging PageTables.

Module Uefi.

Inductive BootMode := Disk | Tftp.

(** The protocols, file types and video modes of the uefi crate that the code names. *)
Inductive Protocol := LoadedImage | DevicePath | SimpleFileSystem | BaseCode | GraphicsOutput.
Inductive FileType := Regular | Dir.
Inductive GopPixelFormat := GopRgb | GopBgr | GopBitmask | GopBltOnly.
Record ModeInfo := mkModeInfo { resolution : Z * Z; gop_format : GopPixelFormat; gop_stride : Z }.
Record Mode := mkMode { mode_number : Z; info : ModeInfo }.

Class Firmware (S : Type) := {
  memory : S → Z → Z;
  set_memory : (Z → Z) → S → S;
  (** [open_protocol] for a handle and an agent: the interface; its [Drop] *)
  open_protocol : Protocol → Z → Z → S → option Z * S;
  close_protocol : Protocol → Z → S → S;
  (** [LoadedImage::device], [locate_device_path], [get_handle_for_protocol] *)
  device : Z → S → Z;
  locate_device_path : Protocol → Z → S → option Z;
  get_handle_for_protocol : Protocol → S → option Z;
  (** [CStr16::from_str_with_buf] for a buffer of 256, [CStr8::from_bytes_with_nul] *)
  from_str_with_buf : list Z → option (list Z);
  from_bytes_with_nul : list Z → option (list Z);
  (** the file protocols: volumes, files, their type, size and contents *)
  open_volume : Z → S → option Z * S;
  open_file : Z → list Z → S → option Z * S;
  into_type : Z → S → option FileType;
  file_size : Z → S → option Z;
  read_file : Z → Z → Z → S → option Z * S;
  close_file : Z → S → S;
  (** [allocate_pages] with [AllocateType::AnyPages] *)
  allocate_pages : FrameAllocator.MemoryType → Z → S → option Z * S;
  (** the network protocol *)
  dhcp_ack_received : Z → S → bool;
  bootp_si_addr : Z → S → Z;
  tftp_get_file_size : Z → Z → list Z → S → option Z * S;
  tftp_read_file : Z → Z → list Z → Z → Z → S → option Z * S;
  (** the graphics protocol *)
  modes : Z → S → list Mode;
  set_mode : Z → Mode → S → option unit * S;
  current_mode_info : Z → S → ModeInfo;
  frame_buffer : Z → S → Z * Z;
  (** [exit_boot_services]: the memory map; the configuration table with its GUIDs *)
  exit_boot_services : S → list FrameAllocator.MemoryDescriptor * S;
  config_table : S → list (Z * Z);
  ACPI_GUID : Z;
  ACPI2_GUID : Z;
}.

(** [Iterator::find]: the element and what is left of the iterator *)
Fixpoint iter_find {A} (p : A → bool) (l : list A) : option A * list A :=
  match l with
  | [] => (None, [])
  | x :: l => if p x then (Some x, l) else iter_find p l
  end.

(** [memory_map.sort()]: by physical start *)
Definition sort_memory_map (l : list FrameAllocator.MemoryDescriptor) : list FrameAllocator.MemoryDescriptor :=
  FrameAllocator.sort_by_key FrameAllocator.phys_start l.

Section Model.
Context {S : Type} `{W : Firmware S}.

(** ** Loading files *)
Definition open_device_path_protocol (image : Z) (st : S) : option Z * S :=
  let '(loaded_image, st) := open_protocol LoadedImage image image st in
  match loaded_image with
  | None => (None, st)
  | Some loaded_image =>
      let device_handle := device loaded_image st in
      let '(device_path, st) := open_protocol DevicePath device_handle image st in
      (device_path, close_protocol LoadedImage loaded_image st)
  end.

Definition locate_and_open_protocol (P : Protocol) (image : Z) (st : S) : option Z * S :=
  let '(device_path, st) := open_device_path_protocol image st in
  match device_path with
  | None => (None, st)
  | Some device_path =>
      match locate_device_path P device_path st with
      | None => (None, close_protocol DevicePath device_path st)
      | Some fs_handle =>
          let '(opened_handle, st) := open_protocol P fs_handle image st in
          (opened_handle, close_protocol DevicePath device_path st)
      end
  end.

(** [name.trim_end_matches('\0')] *)
Fixpoint skip_nul (l : list Z) : list Z :=
  match l with
  | [] => []
  | c :: l' => if c =? 0 then skip_nul l' else l
  end.
Definition trim_end_nul (name : list Z) : list Z := reverse (skip_nul (reverse name)).

(** The number of pages for a file. *)
Definition file_pages (file_size : Z) : res Z :=
  n ← file_size -! 1;
  (n / 4096) +[64] 1.

(** The slice is its address and length. *)
Definition load_file_from_disk (name : list Z) (image : Z) (st : S) : res (option (Z * Z) * S) :=
  let '(file_system, st) := locate_and_open_protocol SimpleFileSystem image st in
  match file_system with
  | None => Ret (None, st)
  | Some file_system =>
      let '(root, st) := open_volume file_system st in
      root ← expect_some root "called `Result::unwrap()` on an `Err` value";
      assert_ (Z.of_nat (length name) <? 256) "assertion failed: name.len() < 256";;
      filename ← expect_some (from_str_with_buf (trim_end_nul name)) "Failed to convert string to utf16";
      let '(file_handle_result, st) := open_file root filename st in
      match file_handle_result with
      | None => Ret (None, close_protocol SimpleFileSystem file_system (close_file root st))
      | Some file =>
          type ← expect_some (into_type file st) "called `Result::unwrap()` on an `Err` value";
          match type with
          | Dir => Panic "explicit panic"
          | Regular =>
              size ← expect_some (file_size file st) "called `Result::unwrap()` on an `Err` value";
              file_size ← expect_some (try_from_u 64 size) "called `Result::unwrap()` on an `Err` value";
              pages ← file_pages file_size;
              let '(file_ptr, st) := allocate_pages FrameAllocator.LOADER_DATA pages st in
              file_ptr ← expect_some file_ptr "called `Result::unwrap()` on an `Err` value";
              let st := set_memory (mem_write (memory st) file_ptr (replicate (Z.to_nat file_size) 0)) st in
              let '(n, st) := read_file file file_ptr file_size st in
              expect_some n "called `Result::unwrap()` on an `Err` value";;
              let st := close_protocol SimpleFileSystem file_system (close_file root (close_file file st)) in
              Ret (Some (file_ptr, file_size), st)
          end
      end
  end.

Definition load_file_from_tftp_boot_server (name : list Z) (image : Z) (st : S) : res (option (Z * Z) * S) :=
  let '(base_code, st) := locate_and_open_protocol BaseCode image st in
  match base_code with
  | None => Ret (None, st)
  | Some base_code =>
      assert_ (dhcp_ack_received base_code st) "assertion failed: mode.dhcp_ack_received";;
      let server_ip := bootp_si_addr base_code st in
      assert_ (Z.of_nat (length name) <? 256) "assertion failed: name.len() < 256";;
      filename ← expect_some (from_bytes_with_nul name) "called `Result::unwrap()` on an `Err` value";
      let '(file_size, st) := tftp_get_file_size base_code server_ip filename st in
      match file_size with
      | None => Ret (None, close_protocol BaseCode base_code st)
      | Some file_size =>
          kernel_size ← expect_some (try_from_u 64 file_size) "The file size should fit into usize";
          pages ← file_pages kernel_size;
          let '(ptr, st) := allocate_pages FrameAllocator.LOADER_DATA pages st in
          ptr ← expect_some ptr "Failed to allocate memory for the file";
          let '(n, st) := tftp_read_file base_code server_ip filename ptr kernel_size st in
          expect_some n "Failed to read kernel file from the TFTP boot server";;
          Ret (Some (ptr, kernel_size), close_protocol BaseCode base_code st)
      end
  end.

Definition load_file_from_boot_method (image : Z) (st : S) (filename : list Z) (boot_mode : BootMode) :
    res (option (Z * Z) * S) :=
  match boot_mode with
  | Disk => load_file_from_disk filename image st
  | Tftp => load_file_from_tftp_boot_server filename image st
  end.

(** The names, with the NUL character that the source appends. *)
Definition name_with_nul (s : string) : list Z := Logger.chars s ++ [0].
Definition load_ramdisk (image : Z) (st : S) (boot_mode : BootMode) : res (option (Z * Z) * S) :=
  load_file_from_boot_method image st (name_with_nul "ramdisk") boot_mode.
Definition load_config_file (image : Z) (st : S) (boot_mode : BootMode) : res (option (Z * Z) * S) :=
  load_file_from_boot_method image st (name_with_nul "boot.json") boot_mode.
Definition load_kernel `{EP : SetUp.ElfParser} (image : Z) (st : S) (boot_mode : BootMode) : res (option SetUp.Kernel * S) :=
  '(kernel_slice, st) ← load_file_from_boot_method image st (name_with_nul "kernel-x86_64") boot_mode;
  match kernel_slice with
  | None => Ret (None, st)
  | Some (ptr, len) => k ← SetUp.Kernel_parse ptr (mem_read (memory st) ptr len); Ret (Some k, st)
  end.

(** ** The framebuffer *)

(** The last mode that is large enough. *)
Definition select_mode (l : list Mode) (height width : option Z) : option Mode :=
  match height, width with
  | Some height, Some width =>
      last (filter (λ m, height ≤ (resolution (info m)).2 ∧ width ≤ (resolution (info m)).1) l)
  | Some height, None => last (filter (λ m, height ≤ (resolution (info m)).2) l)
  | None, Some width => last (filter (λ m, width ≤ (resolution (info m)).1) l)
  | _, _ => None
  end.

Definition convert_format (f : GopPixelFormat) : res Info.PixelFormat :=
  match f with
  | GopRgb => Ret Info.Rgb
  | GopBgr => Ret Info.Bgr
  | GopBitmask | GopBltOnly => Panic "Bitmask and BltOnly framebuffers are not supported"
  end.

(** [usize::try_from(v).unwrap()] under an [Option] *)
Definition option_usize (o : option Z) : res (option Z) :=
  match o with
  | None => Ret None
  | Some v => n ← expect_some (try_from_u 64 v) "called `Result::unwrap()` on an `Err` value"; Ret (Some n)
  end.

Section Logger.
Context `{X : X86} `{F : Framebuffer.Font} `{U : Logger.Uart}.

(** The memory of the framebuffer is that of the logger's writer. *)
Definition framebuffer_memory (log : Logger.LogState) (framebuffer : Z) (mem : Z → Z) : Z → Z :=
  match Logger.LOGGER log ≫= Logger.l_framebuffer with
  | Some w => mem_write mem framebuffer (Framebuffer.framebuffer (Logger.value _ w))
  | None => mem
  end.

(** [text] is the formatted framebuffer information. The graphics protocol is closed on return. *)
Definition init_logger (image_handle : Z) (st : S) (config : BootConfig.BootConfig) (log : Logger.LogState)
    (text : Info.FrameBufferInfo → list Z) : res (option Level4.RawFrameBufferInfo * Logger.LogState * S) :=
  match get_handle_for_protocol GraphicsOutput st with
  | None => Ret (None, log, st)
  | Some gop_handle =>
      let '(gop, st) := open_protocol GraphicsOutput gop_handle image_handle st in
      match gop with
      | None => Ret (None, log, st)
      | Some gop =>
          let modes := modes gop st in
          height ← option_usize (BootConfig.minimum_framebuffer_height (BootConfig.frame_buffer config));
          width ← option_usize (BootConfig.minimum_framebuffer_width (BootConfig.frame_buffer config));
          st ← match select_mode modes height width with
               | None => Ret st
               | Some mode =>
                   let '(r, st) := set_mode gop mode st in
                   expect_some r "Failed to apply the desired display mode";; Ret st
               end;
          let mode_info := current_mode_info gop st in
          let '(framebuffer, size) := frame_buffer gop st in
          let slice := mem_read (memory st) framebuffer size in
          pixel_format ← convert_format (gop_format mode_info);
          let info := {| Info.byte_len := size;
                         Info.width := (resolution mode_info).1;
                         Info.height := (resolution mode_info).2;
                         Info.pixel_format := pixel_format;
                         Info.bytes_per_pixel := 4;
                         Info.stride := gop_stride mode_info |} in
          log ← Logger.init_logger log slice info (BootConfig.log_level config)
                  (BootConfig.frame_buffer_logging config) (BootConfig.serial_logging config) (text info);
          let st := set_memory (framebuffer_memory log framebuffer (memory st)) st in
          addr ← phys_new framebuffer;
          Ret (Some (Level4.mkRawFrameBufferInfo addr info), log, close_protocol GraphicsOutput gop st)
      end
  end.
End Logger.

(** ** After the boot services *)
Section Prepare.
Context `{X : X86, XB : X86Big} {T : Type} `{P : Mapper T, PB : !BigMapper T, PO : !Stage4.OffsetTables T}.
Context `{UT : FrameAllocator.UefiTypes} `{EP : SetUp.ElfParser} `{J : Stage4.Json} `{F : Framebuffer.Font} `{U : Logger.Uart}.
Context {R : Type} `{G : Level4.Rng R} {RF : Elf.RelaFormat} {GF : SetUp.GdtFormat}.
Abbreviation allocator := (FrameAllocator.LegacyFrameAllocator FrameAllocator.MemoryDescriptor).

(** The result includes the value of CR3, which [create_page_tables] changes. *)
Definition create_page_tables (cr3 : Z) (frame_allocator : allocator) (mem : Z → Z) :
    res (SetUp.PageTables T * allocator * (Z → Z) * Z) :=
  let old_table := mem_read mem cr3 4096 in
  '(o, frame_allocator) ← allocate_frame frame_allocator;
  new_frame ← expect_some o "Failed to allocate frame for new level 4 table";
  let mem := mem_write mem new_frame (replicate (Z.to_nat Size4KiB) 0) in
  let mem := mem_write mem new_frame (take 8 old_table) in
  let bootloader_page_table := Stage4.offset_page_table mem new_frame in
  '(o, frame_allocator) ← allocate_frame frame_allocator;
  frame ← expect_some o "no unused frames";
  let mem := mem_write mem frame (replicate (Z.to_nat Size4KiB) 0) in
  let kernel_page_table := Stage4.offset_page_table mem frame in
  Ret (SetUp.mkPageTables bootloader_page_table kernel_page_table frame, frame_allocator, mem, new_frame).

(** The ACPI table of the configuration table. *)
Definition find_rsdp (config_table : list (Z * Z)) : res (option Z) :=
  let '(acpi2_rsdp, config_entries) := iter_find (λ entry, entry.1 =? ACPI2_GUID) config_table in
  let rsdp := match acpi2_rsdp with
              | Some e => Some e
              | None => (iter_find (λ entry, entry.1 =? ACPI_GUID) config_entries).1
              end in
  match rsdp with
  | None => Ret None
  | Some entry => a ← phys_new entry.2; Ret (Some a)
  end.

(** What [main_inner] computes before it calls [load_and_switch_to_kernel]. *)
Record Prepared := mkPrepared {
  boot_mode : BootMode;
  p_kernel : SetUp.Kernel;
  p_config : BootConfig.BootConfig;
  p_frames : allocator;
  p_tables : SetUp.PageTables T;
  p_system_info : SetUp.SystemInfo;
  p_memory : Z → Z;
  p_cr3 : Z;
  p_log : Logger.LogState;
}.

(** The kernel from the disk, or else from the network. *)
Definition find_kernel (image : Z) (st : S) : res (BootMode * SetUp.Kernel * S) :=
  '(kernel, st) ← load_kernel image st Disk;
  '(boot_mode, kernel, st) ←
    match kernel with
    | Some _ => Ret (Disk, kernel, st)
    | None => '(kernel, st) ← load_kernel image st Tftp; Ret (Tftp, kernel, st)
    end;
  kernel ← expect_some kernel "Failed to load kernel";
  Ret (boot_mode, kernel, st).

Definition prepare (image cr3 : Z) (log : Logger.LogState) (text : Info.FrameBufferInfo → list Z) (st : S) : res Prepared :=
  '(boot_mode, kernel, st) ← find_kernel image st;
  '(config_file, st) ← load_config_file image st boot_mode;
  let '(config, error_loading_config) :=
    Stage4.load_config ((λ '(ptr, len), mem_read (memory st) ptr len) <$> config_file) in
  let config := Stage4.with_kernel_minimums config (SetUp.config kernel) in
  '(framebuffer, log, st) ← init_logger image st config log text;
  '(ramdisk, st) ← load_ramdisk image st boot_mode;
  let '(memory_map, st) := exit_boot_services st in
  let memory_map := sort_memory_map memory_map in
  frame_allocator ← FrameAllocator.new memory_map;
  '(page_tables, frame_allocator, mem, cr3) ← create_page_tables cr3 frame_allocator (memory st);
  let '(ramdisk_addr, ramdisk_len) :=
    match ramdisk with Some (ptr, len) => (Some ptr, len) | None => (None, 0) end in
  rsdp ← find_rsdp (config_table st);
  let system_info :=
    {| SetUp.sys_framebuffer := framebuffer;
       SetUp.sys_rsdp_addr := rsdp;
       SetUp.sys_ramdisk_addr := ramdisk_addr;
       SetUp.sys_ramdisk_len := ramdisk_len |} in
  Ret (mkPrepared boot_mode kernel config frame_allocator page_tables system_info mem cr3 log).

Definition main_inner (version_info : Config.ApiVersion) (build_rng : R) (context_switch image cr3 : Z)
    (log : Logger.LogState) (text : Info.FrameBufferInfo → list Z) (c : SetUp.Control) (st : S) :
    res (SetUp.Cpu * Info.BootInfo * SetUp.PageTables T * (Z → Z) * SetUp.Control) :=
  p ← prepare image cr3 log text st;
  SetUp.load_and_switch_to_kernel version_info (BootConfig.test_sentinel (p_config p)) build_rng context_switch
    (p_kernel p) (p_frames p) (p_tables p) (p_memory p) c (p_system_info p).
End Prepare.
End Model.

(** ** The firmware as the UEFI specification describes it *)

(** What an interface pointer stands for; a file has a position. *)
Inductive Object := OProtocol (P : Protocol) | ORoot | OFile (bytes : list Z) (pos : nat).

Class FirmwareView (S : Type) := {
  (** the boot services are available *)
  services : S → Prop;
  own_image : Z;
  boot_server : Z;
  refers : S → Z → Object → Prop;
  (** whether the boot device (or, for the graphics protocol, the console) has a protocol *)
  provides : S → Protocol → bool;
  (** the files on the boot volume and on the boot server *)
  file_on : BootMode → S → list Z → option (list Z);
  (** the memory obtained from [allocate_pages], the memory of the devices and the firmware, and
      the requests (in pages) that can still be served one after the other *)
  owned : S → Z → Prop;
  device_memory : Z → Prop;
  can_allocate : S → list Z → Prop;
  gop_modes : S → list Mode;
  gop_current : S → ModeInfo;
  (** the framebuffer of a mode *)
  gop_buffer : ModeInfo → Z * Z;
  (** the configuration table with the addresses of the ACPI tables *)
  config_entries : list (Z * Z);
}.

Section View.
Context {S : Type} `{W : Firmware S} `{V : !FirmwareView S}.

(** What no service changes, except that the objects in [lost] are closed. *)
Record env (lost : Object → Prop) (s s' : S) : Prop := {
  e_services : services s';
  e_refers i o : refers s i o → ¬ lost o → refers s' i o;
  e_provides P : provides s' P = provides s P;
  e_files m n : file_on m s' n = file_on m s n;
  e_gop : gop_modes s' = gop_modes s ∧ gop_current s' = gop_current s;
}.
Definition in_framebuffer (x : Z) : Prop := ∃ i, (gop_buffer i).1 ≤ x < (gop_buffer i).1 + (gop_buffer i).2.
(** A step that makes [m] the memory of the loader and allocates nothing. *)
Record writes (lost : Object → Prop) (m : Z → Z) (s s' : S) : Prop := {
  w_env : env lost s s';
  w_memory x : owned s x ∨ device_memory x → memory s' x = m x;
  w_owned x : owned s' x ↔ owned s x;
  w_allocate l : can_allocate s l → can_allocate s' l;
}.
Definition kept (lost : Object → Prop) (s s' : S) : Prop := writes lost (memory s) s s'.
Definition nothing (_ : Object) : Prop := False.
Definition anything (_ : Object) : Prop := True.
Definition is_file (o : Object) : Prop := match o with OFile _ _ => True | _ => False end.
End View.

Class FirmwareLaws (S : Type) {W : Firmware S} {V : FirmwareView S} := {
  (** the image's own protocols and those of the device it was loaded from *)
  open_image s : services s → ∃ i s', open_protocol LoadedImage own_image own_image s = (Some i, s') ∧
    refers s' i (OProtocol LoadedImage) ∧ kept nothing s s';
  open_path s i : services s → refers s i (OProtocol LoadedImage) →
    ∃ p s', open_protocol DevicePath (device i s) own_image s = (Some p, s') ∧
      refers s' p (OProtocol DevicePath) ∧ kept nothing s s';
  locate_protocol s p P : services s → refers s p (OProtocol DevicePath) → P = SimpleFileSystem ∨ P = BaseCode →
    if provides s P then ∃ h i s', locate_device_path P p s = Some h ∧ open_protocol P h own_image s = (Some i, s') ∧
      refers s' i (OProtocol P) ∧ kept nothing s s'
    else locate_device_path P p s = None;
  open_graphics s : services s →
    if provides s GraphicsOutput then ∃ h i s', get_handle_for_protocol GraphicsOutput s = Some h ∧
      open_protocol GraphicsOutput h own_image s = (Some i, s') ∧ refers s' i (OProtocol GraphicsOutput) ∧ kept nothing s s'
    else get_handle_for_protocol GraphicsOutput s = None;
  close_ok s P i : services s → refers s i (OProtocol P) → kept (λ o, o = OProtocol P) s (close_protocol P i s);
  (** strings: ASCII file names fit into the buffers *)
  str_with_buf n : Forall (λ c, 0 < c < 128) n → (length n < 255)%nat → from_str_with_buf n = Some n;
  bytes_with_nul n : Forall (λ c, 0 < c < 128) n → from_bytes_with_nul (n ++ [0]) = Some n;
  (** files *)
  open_volume_ok s i : services s → refers s i (OProtocol SimpleFileSystem) →
    ∃ r s', open_volume i s = (Some r, s') ∧ refers s' r ORoot ∧ kept nothing s s';
  open_file_ok s r n : services s → refers s r ORoot →
    match file_on Disk s n with
    | Some bytes => ∃ f s', open_file r n s = (Some f, s') ∧ refers s' f (OFile bytes 0) ∧ kept is_file s s'
    | None => ∃ s', open_file r n s = (None, s') ∧ kept nothing s s'
    end;
  file_info s f bytes pos : services s → refers s f (OFile bytes pos) →
    into_type f s = Some Regular ∧ file_size f s = Some (Z.of_nat (length bytes));
  read_file_ok s f bytes pos a n : services s → refers s f (OFile bytes pos) → 0 ≤ n →
    (∀ x, a ≤ x < a + n → owned s x) →
    ∃ s', read_file f a n s = (Some (Z.min n (Z.of_nat (length bytes - pos))), s') ∧
      refers s' f (OFile bytes (pos + Z.to_nat n)) ∧
      writes is_file (mem_write (memory s) a (take (Z.to_nat n) (drop pos bytes))) s s';
  close_file_ok s f bytes pos : services s → refers s f (OFile bytes pos) → kept is_file s (close_file f s);
  close_root_ok s r : services s → refers s r ORoot → kept (λ o, o = ORoot) s (close_file r s);
  (** memory *)
  set_memory_ok s m : services s → writes nothing m s (set_memory m s);
  allocate_ok s n l ty : services s → can_allocate s (n :: l) → 0 < n →
    ∃ a s', allocate_pages ty n s = (Some a, s') ∧ a mod 4096 = 0 ∧ 0 < a ∧ a + 4096 * n ≤ 2 ^ 52 - 4096 ∧
      env nothing s s' ∧ can_allocate s' l ∧
      (∀ x, owned s' x ↔ owned s x ∨ a ≤ x < a + 4096 * n) ∧
      (∀ x, a ≤ x < a + 4096 * n → ¬ owned s x ∧ ¬ device_memory x) ∧
      ∀ x, owned s x ∨ device_memory x → memory s' x = memory s x;
  (** the boot server, for an image that was loaded over the network *)
  network s b : services s → refers s b (OProtocol BaseCode) →
    dhcp_ack_received b s = true ∧ bootp_si_addr b s = boot_server;
  tftp_size_ok s b n : services s → refers s b (OProtocol BaseCode) →
    ∃ s', tftp_get_file_size b boot_server n s = ((λ l, Z.of_nat (length l)) <$> file_on Tftp s n, s') ∧ kept nothing s s';
  tftp_read_ok s b n bytes a : services s → refers s b (OProtocol BaseCode) → file_on Tftp s n = Some bytes →
    (∀ x, a ≤ x < a + Z.of_nat (length bytes) → owned s x) →
    ∃ s', tftp_read_file b boot_server n a (Z.of_nat (length bytes)) s = (Some (Z.of_nat (length bytes)), s') ∧
      writes nothing (mem_write (memory s) a bytes) s s';
  (** graphics *)
  graphics_info s g : services s → refers s g (OProtocol GraphicsOutput) →
    modes g s = gop_modes s ∧ current_mode_info g s = gop_current s ∧ frame_buffer g s = gop_buffer (gop_current s);
  set_mode_ok s g m : services s → refers s g (OProtocol GraphicsOutput) → m ∈ gop_modes s →
    ∃ s', set_mode g m s = (Some tt, s') ∧ services s' ∧ refers s' g (OProtocol GraphicsOutput) ∧
      (∀ P, provides s' P = provides s P) ∧ (∀ mode n, file_on mode s' n = file_on mode s n) ∧
      gop_current s' = info m ∧
      (∀ x, owned s x ∨ device_memory x → ¬ in_framebuffer x → memory s' x = memory s x) ∧
      (∀ x, owned s' x ↔ owned s x) ∧ ∀ l, can_allocate s l → can_allocate s' l;
  framebuffer_device x : in_framebuffer x → device_memory x;
  owned_memory s x : services s → owned s x → ¬ device_memory x;
  (** the memory map at the end: pages that are conventional memory were not handed out, and what
      could still be allocated is conventional memory *)
  exit_ok s : services s → ∃ map s', exit_boot_services s = (map, s') ∧
    Forall (λ d, 0 ≤ FrameAllocator.phys_start d ∧ FrameAllocator.phys_start d mod 4096 = 0 ∧
      0 < FrameAllocator.page_count d ∧
      FrameAllocator.phys_start d + FrameAllocator.page_count d * 4096 ≤ 2 ^ 52 - 4096) map ∧
    NoDup map ∧
    (∀ d1 d2, d1 ∈ map → d2 ∈ map → d1 ≠ d2 →
       FrameAllocator.phys_start d1 + FrameAllocator.page_count d1 * 4096 ≤ FrameAllocator.phys_start d2 ∨
       FrameAllocator.phys_start d2 + FrameAllocator.page_count d2 * 4096 ≤ FrameAllocator.phys_start d1) ∧
    (∀ d x, d ∈ map → FrameAllocator.ty d = FrameAllocator.CONVENTIONAL →
       FrameAllocator.phys_start d ≤ x < FrameAllocator.phys_start d + FrameAllocator.page_count d * 4096 →
       ¬ owned s x ∧ ¬ device_memory x) ∧
    (∀ n, can_allocate s [n] → ∃ d, d ∈ map ∧ FrameAllocator.ty d = FrameAllocator.CONVENTIONAL ∧
       0 < FrameAllocator.phys_start d ∧ n ≤ FrameAllocator.page_count d) ∧
    (∀ x, owned s x ∨ device_memory x → memory s' x = memory s x) ∧
    config_table s' = config_entries;
  config_entries_ok e : e ∈ config_entries → phys_ok e.2;
}.

Section Proofs.
Context {S : Type} `{HW : FirmwareLaws S}.

Lemma env_trans L1 L2 s s1 s2 : env L1 s s1 → env L2 s1 s2 → env (λ o, L1 o ∨ L2 o) s s2.
Proof.
  intros [? R1 P1 F1 (G1 & G1')] [? R2 P2 F2 (G2 & G2')]. split; [done| | | |].
  - intros i o Hr Hn. apply R2; [apply R1; tauto|tauto].
  - intros P. congruence.
  - intros m n. congruence.
  - split_and!; congruence.
Qed.
Lemma env_mono L1 L2 s s' : (∀ o, L1 o → L2 o) → env L1 s s' → env L2 s s'.
Proof. intros HL [? R1 ? ? ?]. split; try done. intros i o Hr Hn. apply R1; auto. Qed.

Lemma kept_writes L1 L2 m s s1 s2 : writes L1 m s s1 → kept L2 s1 s2 → writes (λ o, L1 o ∨ L2 o) m s s2.
Proof.
  intros [E1 M1 O1 A1] [E2 M2 O2 A2]. split; [by eapply env_trans| | |by auto].
  - intros x Hx. rewrite M2; [by apply M1|]. by rewrite O1.
  - intros x. by rewrite O2.
Qed.
Lemma kept_trans L1 L2 s s1 s2 : kept L1 s s1 → kept L2 s1 s2 → kept (λ o, L1 o ∨ L2 o) s s2.
Proof. apply kept_writes. Qed.
Lemma writes_mono L1 L2 m s s' : (∀ o, L1 o → L2 o) → writes L1 m s s' → writes L2 m s s'.
Proof. intros HL [? ? ? ?]. split; try done. by eapply env_mono. Qed.
Lemma kept_services L s s' : kept L s s' → services s'.
Proof. intros [[] _ _ _]. done. Qed.
Lemma kept_refers L s s' i o : kept L s s' → refers s i o → ¬ L o → refers s' i o.
Proof. intros [[] _ _ _]. auto. Qed.

(** A write to the memory after another one. *)
Lemma writes_write L1 L2 m a bs s s1 s2 : writes L1 m s s1 → writes L2 (mem_write (memory s1) a bs) s1 s2 →
  writes (λ o, L1 o ∨ L2 o) (mem_write m a bs) s s2.
Proof.
  intros [E1 M1 O1 A1] [E2 M2 O2 A2]. split; [by eapply env_trans| | |by auto].
  - intros x Hx. rewrite M2 by (by rewrite O1). specialize (M1 x Hx).
    unfold mem_write. by destruct (_ && _).
  - intros x. by rewrite O2.
Qed.

(** An object is still open after a step that does not close it. *)
Ltac still K := eapply (kept_refers _ _ _ _ _ K); [done|];
  let H := fresh in unfold nothing; cbn; intros H; (discriminate H || destruct H).

(** Losing anything, the final form. *)
Lemma writes_any L m s s' : writes L m s s' → writes anything m s s'.
Proof. by apply writes_mono. Qed.
Lemma kept_any L1 L2 s s1 s2 : kept L1 s s1 → kept L2 s1 s2 → kept anything s s2.
Proof. intros H1 H2. eapply writes_any, kept_trans; done. Qed.

Lemma locate_and_open_ok P s : services s → P = SimpleFileSystem ∨ P = BaseCode →
  ∃ o s', locate_and_open_protocol P own_image s = (o, s') ∧ kept anything s s' ∧
    if provides s P then ∃ i, o = Some i ∧ refers s' i (OProtocol P) else o = None.
Proof.
  intros Hs HP. unfold locate_and_open_protocol, open_device_path_protocol.
  destruct (open_image s Hs) as (li & s1 & -> & Hli & K1). pose proof (kept_services _ _ _ K1) as Hs1.
  destruct (open_path s1 li Hs1 Hli) as (p & s2 & -> & Hp & K2). pose proof (kept_services _ _ _ K2) as Hs2.
  assert (refers s2 li (OProtocol LoadedImage)) as Hli2 by still K2.
  pose proof (close_ok s2 LoadedImage li Hs2 Hli2) as K3. set (s3 := close_protocol LoadedImage li s2) in *.
  pose proof (kept_services _ _ _ K3) as Hs3.
  assert (refers s3 p (OProtocol DevicePath)) as Hp3 by still K3.
  pose proof (kept_trans _ _ _ _ _ (kept_trans _ _ _ _ _ K1 K2) K3) as K.
  pose proof (e_provides _ _ _ (w_env _ _ _ _ K) P) as HPr.
  pose proof (locate_protocol s3 p P Hs3 Hp3 HP) as Hloc. rewrite HPr in Hloc. destruct (provides s P).
  - destruct Hloc as (h & i & s4 & -> & -> & Hi & K4). pose proof (kept_services _ _ _ K4) as Hs4.
    assert (refers s4 p (OProtocol DevicePath)) as Hp4 by still K4.
    pose proof (close_ok s4 DevicePath p Hs4 Hp4) as K5. eexists _, _. split; [reflexivity|]. split.
    + eapply kept_any; [exact K|]. eapply kept_trans; done.
    + exists i. split; [done|]. destruct HP as [-> | ->]; still K5.
  - rewrite Hloc. eexists _, _. split; [reflexivity|]. split; [|done].
    eapply kept_any; [exact K|]. by apply close_ok.
Qed.

(** ** Loading a file *)

(** The file of a name that can be reached in a boot mode, and the pages it needs. *)
Definition protocol_of (mode : BootMode) : Protocol := match mode with Disk => SimpleFileSystem | Tftp => BaseCode end.
Definition content (mode : BootMode) (s : S) (name : list Z) : option (list Z) :=
  if provides s (protocol_of mode) then file_on mode s name else None.
Definition pages_for (bytes : list Z) : Z := (Z.of_nat (length bytes) - 1) / 4096 + 1.
Definition requests (mode : BootMode) (s : S) (names : list (list Z)) : list Z :=
  pages_for <$> omap (content mode s) names.

(** The bytes are in memory of the loader, in whole pages. *)
Record file_at (s : S) (a : Z) (bytes : list Z) : Prop := {
  fa_aligned : a mod 4096 = 0;
  fa_range : 0 < a ∧ a + Z.of_nat (length bytes) ≤ 2 ^ 52 - 4096;
  fa_owned x : a ≤ x < a + Z.of_nat (length bytes) → owned s x;
  fa_bytes : mem_read (memory s) a (Z.of_nat (length bytes)) = bytes;
}.

(** What loading a file changes: nothing that was there before. *)
Record fetched (mode : BootMode) (name : list Z) (l : list Z) (s : S) (o : option (Z * Z)) (s' : S) : Prop := {
  fe_env : env anything s s';
  fe_memory x : owned s x ∨ device_memory x → memory s' x = memory s x;
  fe_owned x : owned s x → owned s' x;
  fe_allocate : can_allocate s' l;
  fe_result : match content mode s name with
    | Some bytes => ∃ a, o = Some (a, Z.of_nat (length bytes)) ∧ file_at s' a bytes ∧
        ∀ x, a ≤ x < a + Z.of_nat (length bytes) → ¬ owned s x
    | None => o = None
    end;
}.

Definition name_ok (name : list Z) : Prop := Forall (λ c, 0 < c < 128) name ∧ (length name < 255)%nat.

Lemma trim_end_nul_ok name : name_ok name → trim_end_nul (name ++ [0]) = name.
Proof.
  intros [Hn _]. unfold trim_end_nul. rewrite reverse_snoc. cbn [skip_nul Z.eqb].
  rewrite <- (reverse_involutive name) at 2. f_equal. destruct (reverse name) as [|c l] eqn:E; [done|]. cbn [skip_nul].
  assert (c ∈ name) as Hc by (rewrite <- elem_of_reverse, E; by left). rewrite Forall_forall in Hn.
  by rewrite (proj2 (Z.eqb_neq c 0)) by (specialize (Hn c Hc); lia).
Qed.

(** An empty file has no pages: the subtraction overflows. *)
Lemma file_pages_empty : ∃ e, file_pages 0 = Panic e.
Proof. by eexists. Qed.
Lemma file_pages_ok bytes : bytes ≠ [] → Z.of_nat (length bytes) < 2 ^ 63 →
  file_pages (Z.of_nat (length bytes)) = Ret (pages_for bytes) ∧ 0 < pages_for bytes ∧
  Z.of_nat (length bytes) ≤ 4096 * pages_for bytes.
Proof.
  intros Hne Hl. assert (0 < Z.of_nat (length bytes)) by (destruct bytes; cbn; [done|lia]).
  unfold file_pages, pages_for. set (n := Z.of_nat (length bytes)) in *. rewrite sub_u_ok by lia. cbn [mbind res_bind].
  pose proof (Z.div_mod (n - 1) 4096 ltac:(lia)). pose proof (Z.mod_pos_bound (n - 1) 4096 ltac:(lia)).
  assert (0 ≤ (n - 1) / 4096) by (apply Z.div_pos; lia). rewrite add_u_ok by lia. split_and!; [done|lia|lia].
Qed.

(** Reading into freshly allocated pages. *)
Lemma fetched_intro mode name l s s1 s2 s3 a bytes L L' m :
  content mode s name = Some bytes → env anything s s1 →
  (∀ x, owned s x ∨ device_memory x → memory s1 x = memory s x) → (∀ x, owned s1 x ↔ owned s x) →
  a mod 4096 = 0 → 0 < a → a + 4096 * pages_for bytes ≤ 2 ^ 52 - 4096 → Z.of_nat (length bytes) ≤ 4096 * pages_for bytes →
  env nothing s1 s2 → can_allocate s2 l →
  (∀ x, owned s2 x ↔ owned s1 x ∨ a ≤ x < a + 4096 * pages_for bytes) →
  (∀ x, a ≤ x < a + 4096 * pages_for bytes → ¬ owned s1 x ∧ ¬ device_memory x) →
  (∀ x, owned s1 x ∨ device_memory x → memory s2 x = memory s1 x) →
  writes L m s2 s3 → (∀ x, ¬ (a ≤ x < a + Z.of_nat (length bytes)) → m x = memory s2 x) →
  mem_read m a (Z.of_nat (length bytes)) = bytes →
  ∀ s4, kept L' s3 s4 → fetched mode name l s (Some (a, Z.of_nat (length bytes))) s4.
Proof.
  intros Hc E1 M1 O1 Ha Ha0 Hab Hlen E2 A2 O2 N2 M2 H3 Hm Hbytes s4 H4.
  pose proof (kept_writes _ _ _ _ _ _ H3 H4) as [E34 M34 O34 A34]. split.
  - eapply env_mono; [|eapply env_trans; [exact E1|eapply env_trans; [exact E2|exact E34]]]. done.
  - intros x Hx. assert (owned s2 x ∨ device_memory x) as Hx2 by (rewrite O2, O1; tauto).
    rewrite M34, Hm by (done || (intros Hr; destruct (N2 x) as [N N']; [lia|]; rewrite O1 in N; tauto)).
    rewrite M2 by (rewrite O1; tauto). by apply M1.
  - intros x Hx. rewrite O34, O2, O1. by left.
  - by apply A34.
  - rewrite Hc. exists a. split; [done|]. split.
    + split; [done|lia| |].
      * intros x Hx. rewrite O34, O2. right. lia.
      * etrans; [|exact Hbytes]. apply mem_read_ext. intros x Hx. apply M34. left. rewrite O2. right. lia.
    + intros x Hx Ho. destruct (N2 x ltac:(lia)) as [N _]. by apply N, O1.
Qed.

(** A file that cannot be reached. *)
Lemma fetched_none mode name l s s' : content mode s name = None → kept anything s s' → can_allocate s l →
  fetched mode name l s None s'.
Proof.
  intros Hc [E M O A] Hl. split; [done|done| |by apply A|by rewrite Hc]. intros x. by rewrite O.
Qed.

(** What loading a file needs: it is not empty and there is memory for it. *)
Definition loadable (mode : BootMode) (s : S) (name l : list Z) : Prop :=
  match content mode s name with
  | Some bytes => bytes ≠ [] ∧ Z.of_nat (length bytes) < 2 ^ 63 ∧ can_allocate s (pages_for bytes :: l)
  | None => can_allocate s l
  end.

(** Closing what [load_file_from_disk] has opened. *)
Lemma close_volume_ok s r fs : services s → refers s r ORoot → refers s fs (OProtocol SimpleFileSystem) →
  kept anything s (close_protocol SimpleFileSystem fs (close_file r s)).
Proof.
  intros Hs Hr Hfs. pose proof (close_root_ok s r Hs Hr) as K1.
  assert (refers (close_file r s) fs (OProtocol SimpleFileSystem)) as Hfs1 by still K1.
  eapply kept_any; [exact K1|]. by apply close_ok; [eapply kept_services|].
Qed.
Lemma close_volume_file_ok s f bytes pos r fs : services s → refers s f (OFile bytes pos) → refers s r ORoot →
  refers s fs (OProtocol SimpleFileSystem) →
  kept anything s (close_protocol SimpleFileSystem fs (close_file r (close_file f s))).
Proof.
  intros Hs Hf Hr Hfs. pose proof (close_file_ok s f _ _ Hs Hf) as K1. eapply kept_any; [exact K1|].
  apply close_volume_ok; [by eapply kept_services|still K1|still K1].
Qed.

Lemma load_file_from_disk_ok s name l : services s → name_ok name → loadable Disk s name l →
  returns (load_file_from_disk (name ++ [0]) own_image s) (λ '(o, s'), fetched Disk name l s o s').
Proof.
  intros Hs Hn Hl. unfold load_file_from_disk.
  destruct (locate_and_open_ok SimpleFileSystem s Hs ltac:(by left)) as (o & s1 & -> & K1 & Ho).
  unfold loadable, content in Hl. cbn [protocol_of] in Hl.
  destruct (provides s SimpleFileSystem) eqn:Epr.
  2:{ subst o. cbn [returns]. apply fetched_none; [by unfold content; cbn; rewrite Epr|done|done]. }
  destruct Ho as (fs & -> & Hfs). pose proof (kept_services _ _ _ K1) as Hs1.
  destruct (open_volume_ok s1 fs Hs1 Hfs) as (r & s2 & -> & Hr & K2). cbn [expect_some mbind res_bind].
  pose proof (kept_services _ _ _ K2) as Hs2. pose proof (kept_any _ _ _ _ _ K1 K2) as K12.
  assert (refers s2 fs (OProtocol SimpleFileSystem)) as Hfs2 by still K2.
  rewrite (proj2 (Z.ltb_lt _ 256)) by (rewrite length_app; destruct Hn; cbn; lia). cbn [assert_ mbind res_bind].
  rewrite trim_end_nul_ok, str_with_buf by (done || apply Hn). cbn [expect_some mbind res_bind].
  pose proof (open_file_ok s2 r name Hs2 Hr) as Hopen. rewrite (e_files _ _ _ (w_env _ _ _ _ K12)) in Hopen.
  destruct (file_on Disk s name) as [bytes|] eqn:Ef.
  2:{ destruct Hopen as (s3 & -> & K3). cbn [returns]. pose proof (kept_services _ _ _ K3) as Hs3.
      apply fetched_none; [by unfold content; cbn; rewrite Epr| |done].
      eapply kept_any; [exact K12|]. eapply kept_any; [exact K3|]. apply close_volume_ok; [done|still K3|still K3]. }
  destruct Hopen as (f & s3 & -> & Hf & K3). pose proof (kept_services _ _ _ K3) as Hs3.
  destruct (file_info s3 f bytes 0 Hs3 Hf) as [-> ->]. cbn [expect_some mbind res_bind].
  destruct Hl as (Hne & Hlen & Hal). rewrite try_from_u_ok by (unfold is_uint; lia). cbn [expect_some mbind res_bind].
  destruct (file_pages_ok bytes Hne Hlen) as (-> & Hpos & Hfit). cbn [mbind res_bind].
  pose proof (kept_any _ _ _ _ _ K12 K3) as K13.
  destruct (allocate_ok s3 (pages_for bytes) l FrameAllocator.LOADER_DATA Hs3) as
    (a & s4 & -> & Ha & Ha0 & Hab & E4 & A4 & O4 & N4 & M4); [by apply K13|done|].
  cbn [expect_some mbind res_bind]. pose proof (e_services _ _ _ E4) as Hs4.
  assert (∀ i o, refers s3 i o → refers s4 i o) as Hr4 by (intros i o Hi; apply (e_refers _ _ _ E4); [done|by intros []]).
  set (m4 := mem_write (memory s4) a (replicate (Z.to_nat (Z.of_nat (length bytes))) 0)).
  pose proof (set_memory_ok s4 m4 Hs4) as W5. set (s5 := set_memory m4 s4) in *.
  pose proof (e_services _ _ _ (w_env _ _ _ _ W5)) as Hs5.
  assert (∀ i o, refers s3 i o → refers s5 i o) as Hr5
    by (intros i o Hi%Hr4; apply (e_refers _ _ _ (w_env _ _ _ _ W5)); [done|by intros []]).
  destruct (read_file_ok s5 f bytes 0 a (Z.of_nat (length bytes)) Hs5 (Hr5 _ _ Hf)) as (s6 & -> & Hf6 & W6); [lia| |].
  { intros x Hx. rewrite (w_owned _ _ _ _ W5), O4. right. lia. }
  cbn [expect_some mbind res_bind returns]. rewrite Nat2Z.id, drop_0, firstn_all in W6.
  pose proof (e_services _ _ _ (w_env _ _ _ _ W6)) as Hs6.
  assert (∀ i o, ¬ is_file o → refers s3 i o → refers s6 i o) as Hr6
    by (intros i o Hn' Hi%Hr5; apply (e_refers _ _ _ (w_env _ _ _ _ W6)); done).
  assert (refers s3 r ORoot) as Hr3 by still K3. assert (refers s3 fs (OProtocol SimpleFileSystem)) as Hfs3 by still K3.
  eapply (fetched_intro Disk name l s s3 s4 s6 a bytes _ _ (mem_write m4 a bytes)); try done.
  - by unfold content; cbn; rewrite Epr.
  - apply K13.
  - apply K13.
  - apply K13.
  - eapply writes_write; [exact W5|exact W6].
  - intros x Hx. unfold m4. rewrite !mem_write_out; [done|rewrite length_replicate; lia|lia].
  - rewrite mem_read_write by lia. by rewrite Z.sub_diag, drop_0, Nat2Z.id, firstn_all.
  - eapply close_volume_file_ok; [done|done|by apply Hr6; [intros []|]|by apply Hr6; [intros []|]].
Qed.

Lemma load_file_from_tftp_ok s name l : services s → name_ok name → loadable Tftp s name l →
  returns (load_file_from_tftp_boot_server (name ++ [0]) own_image s) (λ '(o, s'), fetched Tftp name l s o s').
Proof.
  intros Hs Hn Hl. unfold load_file_from_tftp_boot_server.
  destruct (locate_and_open_ok BaseCode s Hs ltac:(by right)) as (o & s1 & -> & K1 & Ho).
  unfold loadable, content in Hl. cbn [protocol_of] in Hl.
  destruct (provides s BaseCode) eqn:Epr.
  2:{ subst o. cbn [returns]. apply fetched_none; [by unfold content; cbn; rewrite Epr|done|done]. }
  destruct Ho as (b & -> & Hb). pose proof (kept_services _ _ _ K1) as Hs1.
  destruct (network s1 b Hs1 Hb) as [-> ->]. cbn [assert_ mbind res_bind].
  rewrite (proj2 (Z.ltb_lt _ 256)) by (rewrite length_app; destruct Hn; cbn; lia). cbn [assert_ mbind res_bind].
  rewrite bytes_with_nul by apply Hn. cbn [expect_some mbind res_bind].
  destruct (tftp_size_ok s1 b name Hs1 Hb) as (s2 & -> & K2). pose proof (kept_services _ _ _ K2) as Hs2.
  pose proof (kept_any _ _ _ _ _ K1 K2) as K12. assert (refers s2 b (OProtocol BaseCode)) as Hb2 by still K2.
  rewrite (e_files _ _ _ (w_env _ _ _ _ K1)). destruct (file_on Tftp s name) as [bytes|] eqn:Ef; cbn [fmap option_fmap option_map].
  2:{ cbn [returns]. apply fetched_none; [by unfold content; cbn; rewrite Epr| |done].
      eapply kept_any; [exact K12|]. by apply close_ok. }
  destruct Hl as (Hne & Hlen & Hal). rewrite try_from_u_ok by (unfold is_uint; lia). cbn [expect_some mbind res_bind].
  destruct (file_pages_ok bytes Hne Hlen) as (-> & Hpos & Hfit). cbn [mbind res_bind].
  destruct (allocate_ok s2 (pages_for bytes) l FrameAllocator.LOADER_DATA Hs2) as
    (a & s3 & -> & Ha & Ha0 & Hab & E3 & A3 & O3 & N3 & M3); [by apply K12|done|].
  cbn [expect_some mbind res_bind]. pose proof (e_services _ _ _ E3) as Hs3.
  assert (refers s3 b (OProtocol BaseCode)) as Hb3 by (apply (e_refers _ _ _ E3); [done|by intros []]).
  destruct (tftp_read_ok s3 b name bytes a Hs3 Hb3) as (s4 & -> & W4).
  { by rewrite (e_files _ _ _ E3), (e_files _ _ _ (w_env _ _ _ _ K12)). }
  { intros x Hx. rewrite O3. right. lia. }
  cbn [expect_some mbind res_bind returns].
  eapply (fetched_intro Tftp name l s s2 s3 s4 a bytes _ _ (mem_write (memory s3) a bytes)); try done.
  - by unfold content; cbn; rewrite Epr.
  - apply K12.
  - apply K12.
  - apply K12.
  - intros x Hx. by rewrite mem_write_out.
  - rewrite mem_read_write by lia. by rewrite Z.sub_diag, drop_0, Nat2Z.id, firstn_all.
  - apply close_ok; [apply W4|]. apply (e_refers _ _ _ (w_env _ _ _ _ W4)); [done|by intros []].
Qed.

Lemma load_file_ok mode s name l : services s → name_ok name → loadable mode s name l →
  returns (load_file_from_boot_method own_image s (name ++ [0]) mode) (λ '(o, s'), fetched mode name l s o s').
Proof. destruct mode; [apply load_file_from_disk_ok|apply load_file_from_tftp_ok]. Qed.
End Proofs.
End Uefi.
