(* ===== verification/UefiBoot.v ===== *)
(** * The hand-over of the UEFI boot loader (uefi/src/main.rs)

    The properties of [init_logger], [create_page_tables] and [main_inner],
    against the firmware of [Uefi.FirmwareLaws]: the files come from one
    source, are in memory unchanged, and no frame that is handed out later
    holds a part of them. *)
From stdpp Require Import gmap.
From S2P Require Import Prelude Memory X86 Paging PageTables Config Info Elf FrameAllocator.
From S2P Require Import Level4 LoadKernel SetUp SetUpProofs BootInfoProofs LoadAndSwitch.
From S2P Require Import BiosCommon Framebuffer Logger Stage4 Uefi.
Import Memory X86 Paging PageTables Uefi.

Module UefiBoot.

(** ** The video mode *)
Definition large_enough (height width : option Z) (m : Mode) : Prop :=
  (∀ h, height = Some h → h ≤ (resolution (info m)).2) ∧ (∀ w, width = Some w → w ≤ (resolution (info m)).1).

Lemma select_mode_some l height width m : select_mode l height width = Some m →
  m ∈ l ∧ large_enough height width m ∧ (is_Some height ∨ is_Some width).
Proof.
  unfold select_mode, large_enough. destruct height as [h|], width as [w|]; try done;
    intros [k Hm]%last_Some; assert (m ∈ k ++ [m]) as Hin by (apply elem_of_app; right; by left);
    rewrite <- Hm in Hin; apply list_elem_of_filter in Hin as [Hr Hin]; naive_solver.
Qed.
Lemma select_mode_none l height width : select_mode l height width = None → is_Some height ∨ is_Some width →
  ∀ m, m ∈ l → ¬ large_enough height width m.
Proof.
  unfold select_mode, large_enough. intros H Hs m Hm [Hh Hw].
  destruct height as [h|], width as [w|]; [| | |by destruct Hs as [[]|[]]];
    apply last_None in H; (assert (m ∈ @nil Mode) as Hn by (rewrite <- H; apply list_elem_of_filter; auto)); by apply elem_of_nil in Hn.
Qed.

Section Graphics.
Context {S : Type} `{HW : FirmwareLaws S} `{HX : X86Laws} `{HF : Framebuffer.FontLaws} `{HU : Logger.UartLaws}.

Definition min_height (config : BootConfig.BootConfig) := BootConfig.minimum_framebuffer_height (BootConfig.frame_buffer config).
Definition min_width (config : BootConfig.BootConfig) := BootConfig.minimum_framebuffer_width (BootConfig.frame_buffer config).
Definition chosen_mode (s : S) (config : BootConfig.BootConfig) : ModeInfo :=
  match select_mode (gop_modes s) (min_height config) (min_width config) with
  | Some m => info m
  | None => gop_current s
  end.
Definition gop_info (i : ModeInfo) (format : Info.PixelFormat) : Info.FrameBufferInfo :=
  Info.mkFrameBufferInfo (gop_buffer i).2 (resolution i).1 (resolution i).2 format 4 (gop_stride i).

(** The video mode that is chosen can be written to. *)
Definition graphics_ok (s : S) (config : BootConfig.BootConfig) (text : Info.FrameBufferInfo → list Z) : Prop :=
  let i := chosen_mode s config in
  (∀ h, min_height config = Some h → is_uint 64 h) ∧ (∀ w, min_width config = Some w → is_uint 64 w) ∧
  phys_ok (gop_buffer i).1 ∧ 0 ≤ (gop_buffer i).2 ∧
  ∃ format, convert_format (gop_format i) = Ret format ∧
    Framebuffer.fb_ok (Z.to_nat (gop_buffer i).2) (gop_info i format) ∧
    Z.of_nat (length (Logger.line Logger.Log.LInfo (text (gop_info i format)))) *
      (Framebuffer.CHAR_RASTER_HEIGHT + Framebuffer.LINE_SPACING) < 2 ^ 62.

(** A step that changes nothing but the framebuffer and the video mode. *)
Record draws (s s' : S) : Prop := {
  d_services : services s';
  d_provides P : provides s' P = provides s P;
  d_files m n : file_on m s' n = file_on m s n;
  d_memory x : owned s x ∨ device_memory x → ¬ in_framebuffer x → memory s' x = memory s x;
  d_owned x : owned s' x ↔ owned s x;
  d_allocate l : can_allocate s l → can_allocate s' l;
}.
Lemma draws_trans s s1 s2 : draws s s1 → draws s1 s2 → draws s s2.
Proof.
  intros [? P1 F1 M1 O1 A1] [? P2 F2 M2 O2 A2]. split; [done|congruence|congruence| | |auto].
  - intros x Hx Hn. rewrite M2; [by apply M1|by rewrite O1|done].
  - intros x. by rewrite O2.
Qed.
Lemma writes_draws L m s s' : writes L m s s' → (∀ x, ¬ in_framebuffer x → m x = memory s x) → draws s s'.
Proof.
  intros [[? ? ? ? ?] M O A] Hm. split; try done. intros x Hx Hn. rewrite M by done. by apply Hm.
Qed.

(** The framebuffer that is reported. *)
Definition reports (s : S) (config : BootConfig.BootConfig) (fb : option Level4.RawFrameBufferInfo) : Prop :=
  if provides s GraphicsOutput then ∃ format, convert_format (gop_format (chosen_mode s config)) = Ret format ∧
    fb = Some (Level4.mkRawFrameBufferInfo (gop_buffer (chosen_mode s config)).1 (gop_info (chosen_mode s config) format))
  else fb = None.

Lemma option_usize_ok o : (∀ h, o = Some h → is_uint 64 h) → option_usize o = Ret o.
Proof. intros Ho. destruct o as [h|]; [|done]. cbn. by rewrite try_from_u_ok by by apply Ho. Qed.

Lemma apply_mode_ok s g config : services s → refers s g (OProtocol GraphicsOutput) →
  returns (match select_mode (gop_modes s) (min_height config) (min_width config) with
           | None => Ret s
           | Some mode =>
               let '(r, st) := set_mode g mode s in
               expect_some r "Failed to apply the desired display mode";; Ret st
           end) (λ s', draws s s' ∧ refers s' g (OProtocol GraphicsOutput) ∧ gop_current s' = chosen_mode s config).
Proof.
  intros Hs Hg. unfold chosen_mode. destruct (select_mode _ _ _) as [m|] eqn:E; [|done].
  apply select_mode_some in E as [Hm _]. destruct (set_mode_ok s g m Hs Hg Hm) as (s' & -> & ? & ? & ? & ? & ? & ? & ? & ?).
  cbn [expect_some mbind res_bind returns]. by split_and!.
Qed.

Lemma init_logger_spec s config text : services s → (provides s GraphicsOutput = true → graphics_ok s config text) →
  returns (init_logger own_image s config Logger.log_start text) (λ '(fb, log, s'), reports s config fb ∧ draws s s').
Proof.
  intros Hs Hok. unfold init_logger, reports. pose proof (open_graphics s Hs) as Hopen.
  destruct (provides s GraphicsOutput); [|by rewrite Hopen]. destruct Hopen as (h & g & s1 & -> & -> & Hg & K1).
  destruct (Hok eq_refl) as (Hh & Hw & Hph & Hsz & format & Hfmt & Hfb & Htext).
  pose proof (kept_services _ _ _ K1) as Hs1. destruct (graphics_info s1 g Hs1 Hg) as (-> & _ & _).
  rewrite option_usize_ok by done. cbn [mbind res_bind]. rewrite option_usize_ok by done. cbn [mbind res_bind].
  destruct (e_gop _ _ _ (w_env _ _ _ _ K1)) as [Hgm Hgc].
  assert (chosen_mode s1 config = chosen_mode s config) as Hch by (unfold chosen_mode; by rewrite Hgm, Hgc).
  assert (draws s s1) as D1 by (eapply writes_draws; [exact K1|done]).
  eapply returns_bind; [by apply (apply_mode_ok s1 g config)|]. intros s2 (D2 & Hg2 & Hc2). rewrite Hch in Hc2.
  destruct (graphics_info s2 g (d_services _ _ D2) Hg2) as (_ & -> & ->). rewrite Hc2.
  destruct (gop_buffer (chosen_mode s config)) as [fb size] eqn:Eb. cbn [fst snd] in *. rewrite Hfmt. cbn [mbind res_bind].
  change (Info.mkFrameBufferInfo size _ _ format 4 _) with
    (Info.mkFrameBufferInfo (fb, size).2 (resolution (chosen_mode s config)).1 (resolution (chosen_mode s config)).2 format 4
       (gop_stride (chosen_mode s config))). rewrite <- Eb. fold (gop_info (chosen_mode s config) format).
  eapply returns_bind.
  { apply (Logger.init_logger_first _ _ (BootConfig.log_level config) (BootConfig.frame_buffer_logging config)
      (BootConfig.serial_logging config) _); [by rewrite length_mem_read|done]. }
  intros log (l & Hl & Hlen). set (m := framebuffer_memory _ _ _).
  pose proof (set_memory_ok s2 m (d_services _ _ D2)) as W3.
  assert (draws s2 (set_memory m s2)) as D3.
  { eapply writes_draws; [exact W3|]. intros x Hx. unfold m, framebuffer_memory. rewrite Hl. cbn [mbind option_bind].
    destruct (Logger.l_framebuffer l) as [w|]; [|done]. apply mem_write_out. rewrite (Hlen w eq_refl), length_mem_read.
    intros Hr. apply Hx. exists (chosen_mode s config). rewrite Eb. cbn [fst snd]. lia. }
  rewrite phys_new_ok by done. cbn [mbind res_bind returns]. split; [by exists format|].
  eapply draws_trans; [exact D1|]. eapply draws_trans; [exact D2|]. eapply draws_trans; [exact D3|].
  eapply writes_draws; [|done]. apply close_ok; [apply D3|].
  apply (e_refers _ _ _ (w_env _ _ _ _ W3)); [done|by intros []].
Qed.
End Graphics.

(** ** The page tables *)

(** The view of a new level 4 table that shares the first entry of an old one: what is mapped lies
    below the first entry. [table_memory] is the memory that the old tables occupy. *)
Class CopiedTableLaws (T : Type) `{HB : BigMapperLaws T, PO : !Stage4.OffsetTables T} := {
  table_memory : (Z → Z) → Z → Z → Prop;
  table_kept m0 m1 old : table_inv (Stage4.offset_page_table m0 old) →
    (∀ x, table_memory m0 old x → m1 x = m0 x) →
    table_inv (Stage4.offset_page_table m1 old) ∧ ∀ x, table_memory m1 old x ↔ table_memory m0 old x;
  copied_table m0 m1 old fr : table_inv (Stage4.offset_page_table m0 old) →
    (∀ x, table_memory m0 old x → m1 x = m0 x) → mem_read m1 fr 8 = mem_read m0 old 8 →
    (∀ x, fr + 8 ≤ x < fr + 4096 → m1 x = 0) →
    table_inv (Stage4.offset_page_table m1 fr) ∧
    ∀ p, p4_of p ≠ 0 → SetUpProofs.vacant (Stage4.offset_page_table m1 fr) p;
}.

Section Frames.
Context `{HX : X86Laws} `{UT : FrameAllocator.UefiTypes}.
Abbreviation descriptor := FrameAllocator.MemoryDescriptor.
Definition region_end (d : descriptor) : Z := FrameAllocator.phys_start d + FrameAllocator.page_count d * 4096.
Definition descriptor_ok (d : descriptor) : Prop :=
  0 ≤ FrameAllocator.phys_start d ∧ FrameAllocator.phys_start d mod 4096 = 0 ∧ 0 < FrameAllocator.page_count d ∧
  region_end d ≤ 2 ^ 52 - 4096.

Lemma descriptor_wf d : descriptor_ok d → FrameAllocator.wf_desc d ∧
  FrameAllocator.dstart d = FrameAllocator.phys_start d ∧ FrameAllocator.dend d = region_end d.
Proof.
  intros (H1 & _ & H2 & H3). unfold FrameAllocator.wf_desc, FrameAllocator.dend, FrameAllocator.dstart, FrameAllocator.dlen, region_end in *.
  cbn [FrameAllocator.start FrameAllocator.len FrameAllocator.uefi_memory_region].
  rewrite phys_new_ok by (unfold phys_ok; lia). rewrite mul_u_ok by lia. split_and!; done || lia.
Qed.
Lemma descriptor_usable d : FrameAllocator.usable d ↔ FrameAllocator.ty d = FrameAllocator.CONVENTIONAL.
Proof. unfold FrameAllocator.usable. cbn. unfold FrameAllocator.uefi_kind. by destruct (FrameAllocator.ty d). Qed.

Record uefi_map_ok (ds : list descriptor) : Prop := {
  um_descriptors : Forall descriptor_ok ds;
  um_distinct : NoDup ds;
  um_apart d1 d2 : d1 ∈ ds → d2 ∈ ds → d1 ≠ d2 →
    region_end d1 ≤ FrameAllocator.phys_start d2 ∨ region_end d2 ≤ FrameAllocator.phys_start d1;
}.
Lemma uefi_map_unordered ds : uefi_map_ok ds → FrameAllocator.unordered_map ds.
Proof.
  intros [Hr Hn Hd]. rewrite Forall_forall in Hr. split; [|done|].
  - apply Forall_forall. intros d Hd'. by apply descriptor_wf, Hr.
  - intros d1 d2 H1 H2 Hne. destruct (descriptor_wf d1 (Hr d1 H1)) as (_ & -> & ->), (descriptor_wf d2 (Hr d2 H2)) as (_ & -> & ->).
    by apply Hd.
Qed.

(** Conventional memory, and the frames in it: regions consist of whole pages. *)
Definition conventional (ds : list descriptor) (x : Z) : Prop :=
  ∃ d, d ∈ ds ∧ FrameAllocator.ty d = FrameAllocator.CONVENTIONAL ∧ FrameAllocator.phys_start d ≤ x < region_end d.
Lemma usable_conventional ds y : uefi_map_ok ds →
  FrameAllocator.usable_frame ds y → y mod 4096 = 0 ∧ ∀ x, y ≤ x < y + 4096 → conventional ds x.
Proof.
  intros [Hr _ _] (d & Hd & Hu & Ha & Hf). rewrite Forall_forall in Hr. specialize (Hr d Hd). split; [done|]. intros x Hx.
  exists d. split; [done|]. split; [by apply descriptor_usable|]. destruct (descriptor_wf d Hr) as (_ & Hs & He).
  unfold FrameAllocator.first_frame, FrameAllocator.last_frame in Hf. rewrite Hs, He in Hf. destruct Hr as (_ & Hm & _ & _).
  rewrite align_down_id in Hf by done. split; [lia|].
  assert (region_end d mod 4096 = 0) as Hm2 by (unfold region_end; by rewrite Z_mod_plus_full).
  pose proof (align_down_le (region_end d - 1) 4096 ltac:(lia)).
  enough (y + 4096 ≤ region_end d) by lia. apply FrameAllocator.aligned_succ; [done|done|lia].
Qed.
Lemma conventional_usable ds d k : uefi_map_ok ds → d ∈ ds → FrameAllocator.ty d = FrameAllocator.CONVENTIONAL →
  0 ≤ k < FrameAllocator.page_count d → FrameAllocator.usable_frame ds (FrameAllocator.phys_start d + k * 4096).
Proof.
  intros [Hr _ _] Hd Ht Hk. rewrite Forall_forall in Hr. specialize (Hr d Hd). exists d. split; [done|].
  split; [by apply descriptor_usable|]. destruct (descriptor_wf d Hr) as (_ & Hs & He). destruct Hr as (_ & Hm & _ & _).
  assert ((FrameAllocator.phys_start d + k * 4096) mod 4096 = 0) as Hm2 by (by rewrite Z_mod_plus_full).
  split; [done|]. unfold FrameAllocator.first_frame, FrameAllocator.last_frame. rewrite Hs, He, align_down_id by done.
  split; [lia|]. rewrite <- (align_down_id _ 4096 Hm2) at 1. apply align_down_mono; [lia|]. unfold region_end. lia.
Qed.
End Frames.

Section Tables.
Context `{HX : X86Laws, HXB : X86BigLaws} {T : Type} `{HB : BigMapperLaws T, PO : !Stage4.OffsetTables T}.
Context `{HO : !Stage4.OffsetTablesLaws (M := T)} `{HC : !CopiedTableLaws T} `{UT : FrameAllocator.UefiTypes}.
Abbreviation allocator := (FrameAllocator.LegacyFrameAllocator FrameAllocator.MemoryDescriptor).

Definition in_frame (f x : Z) : Prop := f ≤ x < f + 4096.

Lemma frames_disjoint f g x : f mod 4096 = 0 → g mod 4096 = 0 → f ≠ g → in_frame f x → ¬ in_frame g x.
Proof. unfold in_frame. intros Hf Hg Hne H1 H2. by apply (LoadKernel.aligned_disjoint f g x). Qed.

(** The new root tables: the loader's shares the first entry of the old one, the kernel's is empty. *)
Record tables_ok (ds : list FrameAllocator.MemoryDescriptor) (cr3 : Z) (mem : Z → Z)
    (t : SetUp.PageTables T) (f : allocator) (mem' : Z → Z) (cr3' : Z) : Prop := {
  tb_frames : source_inv f ∧ FrameAllocator.original f ≡ₚ ds;
  tb_roots : FrameAllocator.usable_frame ds cr3' ∧ FrameAllocator.usable_frame ds (SetUp.kernel_level_4_frame t) ∧
    cr3' ≠ SetUp.kernel_level_4_frame t;
  tb_fresh y : fresh f y ↔ FrameAllocator.usable_frame ds y ∧ 4096 ≤ y ∧ y ≠ cr3' ∧ y ≠ SetUp.kernel_level_4_frame t;
  tb_memory x : ¬ in_frame cr3' x → ¬ in_frame (SetUp.kernel_level_4_frame t) x → mem' x = mem x;
  tb_kernel : LoadAndSwitch.empty_table_ok (SetUp.kernel t);
  tb_bootloader : table_inv (Stage4.offset_page_table mem cr3) →
    (∀ x, table_memory mem cr3 x ∨ cr3 ≤ x < cr3 + 4096 → ¬ in_frame cr3' x) →
    table_inv (SetUp.bootloader t) ∧ ∀ p, p4_of p ≠ 0 → SetUpProofs.vacant (SetUp.bootloader t) p;
}.

Lemma create_page_tables_spec ds cr3 mem g1 g2 : uefi_map_ok ds →
  FrameAllocator.usable_frame ds g1 → FrameAllocator.usable_frame ds g2 → 4096 ≤ g1 → 4096 ≤ g2 → g1 ≠ g2 →
  returns (f ← FrameAllocator.new (sort_memory_map ds); create_page_tables cr3 f mem)
    (λ '(t, f, mem', cr3'), tables_ok ds cr3 mem t f mem' cr3').
Proof.
  intros Hds Hg1 Hg2 Hl1 Hl2 Hne. unfold FrameAllocator.new. rewrite phys_new_ok by (unfold phys_ok; lia). cbn [mbind res_bind].
  rewrite frame_containing_spec by (unfold phys_ok; lia). change (align_down 0x1000 4096) with 4096.
  destruct (FrameAllocator.sorted_source FrameAllocator.phys_start 4096 ds) as (Hf0 & Ho0 & Hfresh0);
    [|by apply uefi_map_unordered|done|done|].
  { intros d Hd. symmetry. apply descriptor_wf. pose proof (um_descriptors _ Hds) as Hr. rewrite Forall_forall in Hr. by apply Hr. }
  fold (sort_memory_map ds) in *. set (f0 := FrameAllocator.new_starting_at _ _) in *.
  unfold create_page_tables. eapply returns_bind; [apply (FrameAllocator.allocate_fresh f0 g1 Hf0); by apply Hfresh0|].
  intros [o f1] (fr1 & -> & Hfr1 & Hi1 & Ho1 & Hf1). cbn [mbind res_bind expect_some].
  assert (∃ g, fresh f1 g) as [g Hg].
  { destruct (decide (g1 = fr1)) as [->|Hn]; [exists g2|exists g1]; apply Hf1; (split; [by apply Hfresh0|done]). }
  eapply returns_bind; [by apply (FrameAllocator.allocate_fresh f1 g Hi1)|].
  intros [o f2] (fr2 & -> & Hfr2 & Hi2 & Ho2 & Hf2). cbn [mbind res_bind expect_some returns].
  apply Hf1 in Hfr2 as [Hfr2 Hn12]. apply Hfresh0 in Hfr1 as [Hu1 Hb1], Hfr2 as [Hu2 Hb2].
  set (z := replicate (Z.to_nat Size4KiB) 0).
  set (m1 := mem_write (mem_write mem fr1 z) fr1 (take 8 (mem_read mem cr3 4096))).
  assert (length (take 8 (mem_read mem cr3 4096)) = 8%nat) as Hl8 by (rewrite length_take, length_mem_read; lia).
  assert (Z.of_nat (length z) = 4096) as Hz by (unfold z; rewrite length_replicate; by rewrite Z2Nat.id).
  assert (∀ x, ¬ in_frame fr1 x → m1 x = mem x) as Hm1
    by (unfold in_frame; intros x Hx; unfold m1; by rewrite !mem_write_out by lia).
  split; cbn [SetUp.kernel_level_4_frame SetUp.kernel SetUp.bootloader].
  - split; [done|]. by rewrite Ho2, Ho1.
  - done.
  - intros y. rewrite Hf2, Hf1, Hfresh0. tauto.
  - intros x Hx1 Hx2. rewrite mem_write_out by (unfold in_frame in *; lia). by apply Hm1.
  - apply Stage4.zero_table. intros x Hx. apply mem_zero. rewrite Z2Nat.id by done. exact Hx.
  - intros Hinv Hold. apply (copied_table mem _ cr3); [done|by auto| |].
    + unfold m1. rewrite (mem_read_write _ fr1 _ fr1 8) by lia. rewrite Z.sub_diag, drop_0. change (Z.to_nat 8) with 8%nat.
      rewrite take_take. change (8 `min` 8)%nat with 8%nat.
      replace (take 8 (mem_read mem cr3 4096)) with (take (Z.to_nat 8) (drop (Z.to_nat 0) (mem_read mem cr3 4096))) by done.
      rewrite mem_read_slice by lia. by rewrite Z.add_0_r.
    + intros x Hx. unfold m1. rewrite mem_write_out by lia. apply mem_zero. rewrite Z2Nat.id by done. change Size4KiB with 4096. lia.
Qed.
End Tables.

(** ** The hand-over *)

(** The ACPI table: the first entry with the second GUID. An entry of the first one is never found,
    because the iterator is exhausted when it is looked for. *)
Lemma iter_find_none {A} (p : A → bool) l l' : iter_find p l = (None, l') → l' = [].
Proof. induction l as [|x l IH]; cbn; [by intros [=]|]. destruct (p x); [done|exact IH]. Qed.
Definition rsdp_entry {S} `{W : Firmware S} (config_table : list (Z * Z)) : option (Z * Z) :=
  (iter_find (λ entry, entry.1 =? ACPI2_GUID) config_table).1.
Lemma iter_find_elem {A} (p : A → bool) l x l' : iter_find p l = (Some x, l') → x ∈ l.
Proof. induction l as [|y l IH]; cbn; [done|]. destruct (p y); [intros [= -> _]; by left|]. intros H. right. by apply IH. Qed.
Lemma find_rsdp_acpi2 {S} `{W : Firmware S} `{HX : X86Laws} table :
  (∀ e, rsdp_entry table = Some e → phys_ok e.2) → find_rsdp table = Ret (snd <$> rsdp_entry table).
Proof.
  unfold find_rsdp, rsdp_entry. intros He. destruct (iter_find _ table) as [[e|] l] eqn:E.
  - cbn. by rewrite phys_new_ok by by apply He.
  - apply iter_find_none in E as ->. done.
Qed.

Section Boot.
Context {S : Type} `{HW : FirmwareLaws S}.
Context `{HX : X86Laws, HXB : X86BigLaws} {T : Type} `{HB : BigMapperLaws T, PO : !Stage4.OffsetTables T}.
Context `{HO : !Stage4.OffsetTablesLaws (M := T)} `{HC : !CopiedTableLaws T} `{UT : FrameAllocator.UefiTypes}.
Context `{EP : SetUp.ElfParser} `{J : Stage4.Json} `{HF : Framebuffer.FontLaws} `{HU : Logger.UartLaws}.

Definition KERNEL := Logger.chars "kernel-x86_64".
Definition CONFIG := Logger.chars "boot.json".
Definition RAMDISK := Logger.chars "ramdisk".

(** The source of all files: the one that has the kernel. *)
Definition boot_source (s : S) : BootMode := match content Disk s KERNEL with Some _ => Disk | None => Tftp end.

(** The configuration that is used. *)
Definition boot_config (s : S) (k : SetUp.Kernel) : BootConfig.BootConfig :=
  Stage4.with_kernel_minimums (Stage4.load_config (content (boot_source s) s CONFIG)).1 (SetUp.config k).

(** A machine from which the loader can boot: a kernel that can be parsed wherever it is loaded, no
    empty file, memory for the files and two more pages, a graphics mode that can be used, and the
    firmware's page tables outside of the memory that is given out. *)
Record uefi_ok (s : S) (cr3 : Z) (text : Info.FrameBufferInfo → list Z) (kernel : list Z) : Prop := {
  uo_services : services s;
  uo_kernel : content (boot_source s) s KERNEL = Some kernel;
  uo_parse a : phys_ok a → ∃ k, SetUp.Kernel_parse a kernel = Ret k ∧
    (provides s GraphicsOutput = true → graphics_ok s (boot_config s k) text);
  uo_sizes name bytes : content (boot_source s) s name = Some bytes → bytes ≠ [] ∧ Z.of_nat (length bytes) < 2 ^ 63;
  uo_memory : can_allocate s (requests (boot_source s) s [KERNEL; CONFIG; RAMDISK] ++ [2]);
  uo_tables : table_inv (Stage4.offset_page_table (memory s) cr3) ∧
    ∀ x, table_memory (memory s) cr3 x ∨ cr3 ≤ x < cr3 + 4096 → device_memory x ∧ ¬ in_framebuffer x;
}.

(** A file in memory that no frame of the allocator and no root table overlaps. *)
Definition placed (p : Prepared (T := T)) (a : Z) (bytes : list Z) : Prop :=
  a mod 4096 = 0 ∧ phys_ok a ∧ mem_read (p_memory p) a (Z.of_nat (length bytes)) = bytes ∧
  ∀ y x, fresh (p_frames p) y ∨ y = p_cr3 p ∨ y = SetUp.kernel_level_4_frame (p_tables p) →
    in_frame y x → ¬ (a ≤ x < a + Z.of_nat (length bytes)).

Record uefi_prepared (s : S) (kernel : list Z) (p : Prepared (T := T)) : Prop := {
  up_mode : boot_mode p = boot_source s;
  up_kernel : ∃ a, SetUp.Kernel_parse a kernel = Ret (p_kernel p) ∧ placed p a kernel;
  up_config : p_config p = boot_config s (p_kernel p);
  up_ramdisk : match content (boot_source s) s RAMDISK with
    | Some bytes => ∃ a, SetUp.sys_ramdisk_addr (p_system_info p) = Some a ∧
        SetUp.sys_ramdisk_len (p_system_info p) = Z.of_nat (length bytes) ∧ placed p a bytes
    | None => SetUp.sys_ramdisk_addr (p_system_info p) = None ∧ SetUp.sys_ramdisk_len (p_system_info p) = 0
    end;
  up_rsdp : SetUp.sys_rsdp_addr (p_system_info p) = snd <$> rsdp_entry config_entries;
  up_framebuffer : reports s (p_config p) (SetUp.sys_framebuffer (p_system_info p));
  up_frames : source_inv (p_frames p) ∧ ∀ y, fresh (p_frames p) y → 4096 ≤ y ∧
    y ≠ p_cr3 p ∧ y ≠ SetUp.kernel_level_4_frame (p_tables p) ∧ ∀ x, in_frame y x → ¬ in_framebuffer x;
  up_kernel_table : LoadAndSwitch.empty_table_ok (SetUp.kernel (p_tables p));
  up_bootloader_table : table_inv (SetUp.bootloader (p_tables p)) ∧
    ∀ v, p4_of v ≠ 0 → SetUpProofs.vacant (SetUp.bootloader (p_tables p)) v;
}.

(** *** The files, one after the other *)

(** What an earlier state has fixed is still so in a later one: files, devices, and the memory of the
    loader outside of the framebuffer. *)
Record later (s s' : S) : Prop := {
  l_services : services s';
  l_provides P : provides s' P = provides s P;
  l_files m n : file_on m s' n = file_on m s n;
  l_memory x : owned s x ∨ device_memory x → ¬ in_framebuffer x → memory s' x = memory s x;
  l_owned x : owned s x → owned s' x;
}.
Lemma later_trans s s1 s2 : later s s1 → later s1 s2 → later s s2.
Proof.
  intros [? P1 F1 M1 O1] [? P2 F2 M2 O2]. split; [done|congruence|congruence| |auto].
  intros x Hx Hn. rewrite M2; [by apply M1|destruct Hx; auto|done].
Qed.
Lemma fetched_later mode name l s o s' : fetched mode name l s o s' → later s s'.
Proof. intros [[] M O _ _]. split; auto. Qed.
Lemma draws_later s s' : draws s s' → later s s'.
Proof. intros [? ? ? ? O ?]. split; try done. intros x. by rewrite O. Qed.
Lemma later_content s s' mode name : later s s' → content mode s' name = content mode s name.
Proof. intros [_ HPr HFi _ _]. unfold content. by rewrite HPr, HFi. Qed.

(** The memory of the loader is not part of the framebuffer. *)
Lemma owned_not_framebuffer s x : services s → owned s x → ¬ in_framebuffer x.
Proof. intros Hs Ho Hf%framebuffer_device. by eapply owned_memory. Qed.
Lemma file_at_later s s' a bytes : services s → file_at s a bytes → later s s' → file_at s' a bytes.
Proof.
  intros Hs [Ha Hr Ho Hb] Hl. split; [done|done| |].
  - intros x Hx. by apply Hl, Ho.
  - etrans; [|exact Hb]. apply mem_read_ext. intros x Hx. apply Hl; [left; by apply Ho|].
    eapply owned_not_framebuffer; [exact Hs|by apply Ho].
Qed.

Lemma names_ok : name_ok KERNEL ∧ name_ok CONFIG ∧ name_ok RAMDISK.
Proof. unfold name_ok. split_and!; cbn; (lia || (repeat (constructor; [lia|]); constructor)). Qed.

(** The head of the requests is that of the first file. *)
Lemma requests_loadable s mode name names l : (∀ name bytes, content mode s name = Some bytes → bytes ≠ [] ∧ Z.of_nat (length bytes) < 2 ^ 63) →
  can_allocate s (requests mode s (name :: names) ++ l) → loadable mode s name (requests mode s names ++ l).
Proof.
  intros Hsz. unfold requests, loadable. cbn [omap list_omap]. destruct (content mode s name) as [bytes|] eqn:E; [|done].
  intros H. destruct (Hsz _ _ E). by split_and!.
Qed.
Lemma requests_later s s' mode names : later s s' → requests mode s' names = requests mode s names.
Proof.
  intros Hl. unfold requests. f_equal. apply list_omap_ext, Forall2_same_length_lookup_2; [done|].
  intros i x y Hx Hy. simplify_eq. by apply later_content.
Qed.

(** The video modes are as before. *)
Definition same_gop (s s' : S) : Prop := gop_modes s' = gop_modes s ∧ gop_current s' = gop_current s.
Lemma same_gop_chosen s s' config : same_gop s s' → chosen_mode s' config = chosen_mode s config.
Proof. intros [E1 E2]. unfold chosen_mode. by rewrite E1, E2. Qed.
Lemma graphics_same s s' config text : same_gop s s' → graphics_ok s config text → graphics_ok s' config text.
Proof. intros Hg. unfold graphics_ok. by rewrite (same_gop_chosen s s' config Hg). Qed.
Lemma reports_same s s' config fb : same_gop s s' → later s s' → reports s' config fb → reports s config fb.
Proof. intros Hg Hl. unfold reports. by rewrite (same_gop_chosen s s' config Hg), (l_provides _ _ Hl). Qed.

(** The next file of the list. *)
Lemma load_next mode s0 s name names l : later s0 s → name_ok name →
  (∀ name bytes, content mode s0 name = Some bytes → bytes ≠ [] ∧ Z.of_nat (length bytes) < 2 ^ 63) →
  can_allocate s (requests mode s0 (name :: names) ++ l) →
  returns (load_file_from_boot_method own_image s (name ++ [0]) mode) (λ '(o, s'),
    later s s' ∧ same_gop s s' ∧ can_allocate s' (requests mode s0 names ++ l) ∧
    match content mode s0 name with
    | Some bytes => ∃ a, o = Some (a, Z.of_nat (length bytes)) ∧ file_at s' a bytes
    | None => o = None
    end).
Proof.
  intros Hl Hn Hsz Hal. rewrite <- (requests_later s0 s) in Hal by done. setoid_rewrite <- (later_content s0 s mode _ Hl) in Hsz.
  eapply returns_mono; [apply (load_file_ok mode s name (requests mode s names ++ l)); [apply Hl|done|by apply requests_loadable]|].
  intros [o s'] Hf. pose proof (fetched_later _ _ _ _ _ _ Hf). destruct Hf as [He _ _ Ha Hr].
  rewrite (requests_later s0 s) in Ha by done. rewrite (later_content s0 s) in Hr by done.
  split_and!; [done|apply He|done|]. destruct (content mode s0 name); [|done]. destruct Hr as (a & ? & ? & _). by exists a.
Qed.

Definition kernel_loaded (kernel : list Z) (s : S) (l : list Z) (o : option SetUp.Kernel) (s' : S) : Prop :=
  ∃ a k, o = Some k ∧ phys_ok a ∧ SetUp.Kernel_parse a kernel = Ret k ∧
    file_at s' a kernel ∧ later s s' ∧ same_gop s s' ∧ can_allocate s' l.
Lemma load_kernel_ok mode s0 s kernel names l : later s0 s →
  (∀ name bytes, content mode s0 name = Some bytes → bytes ≠ [] ∧ Z.of_nat (length bytes) < 2 ^ 63) →
  can_allocate s (requests mode s0 (KERNEL :: names) ++ l) → content mode s0 KERNEL = Some kernel →
  (∀ a, phys_ok a → ∃ k, SetUp.Kernel_parse a kernel = Ret k) →
  returns (load_kernel own_image s mode) (λ '(o, s'), kernel_loaded kernel s (requests mode s0 names ++ l) o s').
Proof.
  intros Hl Hsz Hal Hc Hp. unfold load_kernel.
  eapply returns_bind; [apply (load_next mode s0 s KERNEL names l); try done; apply names_ok|].
  intros [o s'] (Hl' & Hg & Ha & Hr). rewrite Hc in Hr. destruct Hr as (a & -> & Hf).
  assert (phys_ok a) as Hpa by (unfold phys_ok; destruct Hf; lia). destruct (Hp a Hpa) as [k Hk].
  rewrite (fa_bytes _ _ _ Hf), Hk. cbn [mbind res_bind returns]. by exists a, k.
Qed.

Lemma find_kernel_ok s cr3 text kernel : uefi_ok s cr3 text kernel →
  returns (find_kernel own_image s) (λ '(mode, k, s'), mode = boot_source s ∧ ∃ a, phys_ok a ∧
    SetUp.Kernel_parse a kernel = Ret k ∧ file_at s' a kernel ∧ later s s' ∧ same_gop s s' ∧
    can_allocate s' (requests mode s [CONFIG; RAMDISK] ++ [2])).
Proof.
  intros [Hs Hk Hp Hsz Hal _]. unfold find_kernel.
  assert (∀ a, phys_ok a → ∃ k, SetUp.Kernel_parse a kernel = Ret k) as Hp' by (intros a Ha; destruct (Hp a Ha) as (k & ? & _); by exists k).
  assert (later s s) as Hl by by split.
  unfold boot_source in *. destruct (content Disk s KERNEL) as [b|] eqn:Ed.
  - eapply returns_bind; [by apply (load_kernel_ok Disk s s kernel [CONFIG; RAMDISK] [2])|].
    intros [o s'] (a & k & -> & ?). cbn [expect_some mbind res_bind returns]. split; [done|]. exists a. tauto.
  - unfold load_kernel at 1. eapply (returns_bind _ _ (λ '(o, s1), o = None ∧ later s s1 ∧ same_gop s s1 ∧
      can_allocate s1 (requests Tftp s [KERNEL; CONFIG; RAMDISK] ++ [2]))).
    { eapply returns_bind; [apply (load_file_ok Disk s KERNEL (requests Tftp s [KERNEL; CONFIG; RAMDISK] ++ [2])); [done|apply names_ok|]|].
      - unfold loadable. by rewrite Ed.
      - intros [o s1] Hf. pose proof (fetched_later _ _ _ _ _ _ Hf). destruct Hf as [He _ _ Ha Hr]. rewrite Ed in Hr. subst o.
        cbn [returns]. split_and!; [done|done|apply He|done]. }
    intros [o s1] (-> & Hl1 & Hg1 & Ha1). cbn [mbind res_bind].
    eapply (returns_bind _ _ (λ '(m, o, s2), m = Tftp ∧ kernel_loaded kernel s1 (requests Tftp s [CONFIG; RAMDISK] ++ [2]) o s2)).
    { eapply returns_bind; [by apply (load_kernel_ok Tftp s s1 kernel [CONFIG; RAMDISK] [2])|]. by intros [o s2]. }
    intros [[m o] s2] (-> & a & k & -> & ? & ? & ? & ? & Hg2 & ?). cbn [expect_some mbind res_bind returns]. split; [done|].
    exists a. split_and!; try done; [by eapply later_trans|]. destruct Hg1, Hg2. split; congruence.
Qed.

Lemma exit_map s : services s → ∃ ds s', exit_boot_services s = (ds, s') ∧ uefi_map_ok ds ∧
  (∀ x, conventional ds x → ¬ owned s x ∧ ¬ device_memory x) ∧
  (can_allocate s [2] → ∃ g1 g2, FrameAllocator.usable_frame ds g1 ∧ FrameAllocator.usable_frame ds g2 ∧
     4096 ≤ g1 ∧ 4096 ≤ g2 ∧ g1 ≠ g2) ∧
  (∀ x, owned s x ∨ device_memory x → memory s' x = memory s x) ∧ config_table s' = config_entries.
Proof.
  intros Hs. destruct (exit_ok s Hs) as (ds & s' & E & Hd & Hn & Ha & Hc & Hal & Hm & Ht). exists ds, s'.
  assert (uefi_map_ok ds) as Hok by by split. split_and!; [done|done| | |done|done].
  - intros x (d & H1 & H2 & H3). by eapply Hc.
  - intros H2. destruct (Hal 2 H2) as (d & Hin & Hty & H0 & Hp). rewrite Forall_forall in Hd. destruct (Hd d Hin) as (_ & Hmod & _).
    assert (4096 ≤ FrameAllocator.phys_start d) by (pose proof (Z.div_mod (FrameAllocator.phys_start d) 4096 ltac:(lia)); lia).
    exists (FrameAllocator.phys_start d + 0 * 4096), (FrameAllocator.phys_start d + 1 * 4096).
    split_and!; try lia; apply conventional_usable; (done || lia).
Qed.

(** The files stay where they are while the tables are created. *)
Lemma uefi_placed_ok s mem ds cr3 a bytes (p : Prepared (T := T)) : services s → file_at s a bytes → uefi_map_ok ds →
  (∀ x, conventional ds x → ¬ owned s x ∧ ¬ device_memory x) →
  (∀ x, owned s x ∨ device_memory x → mem x = memory s x) →
  tables_ok ds cr3 mem (p_tables p) (p_frames p) (p_memory p) (p_cr3 p) → placed p a bytes.
Proof.
  intros Hs [Ha Hr Ho Hb] Hds Hconv Hm [_ (U1 & U2 & _) Hfresh Hmem _ _].
  assert (∀ y x, FrameAllocator.usable_frame ds y → in_frame y x → ¬ (a ≤ x < a + Z.of_nat (length bytes))) as Hdisj.
  { intros y x Hu Hy Hx. destruct (usable_conventional ds y Hds Hu) as [_ Hc]. destruct (Hconv x (Hc x Hy)) as [Hn _]. by apply Hn, Ho. }
  split_and!; [done|unfold phys_ok; lia| |].
  - etrans; [|exact Hb]. apply mem_read_ext. intros x Hx.
    rewrite Hmem; [apply Hm; left; by apply Ho|intros Hin; exact (Hdisj _ x U1 Hin Hx)|intros Hin; exact (Hdisj _ x U2 Hin Hx)].
  - intros y x [Hy%Hfresh|[->| ->]]; apply Hdisj; [apply Hy|done|done].
Qed.

(** The loader's table still maps what the firmware's first entry maps. *)
Lemma bootloader_table_ok s s4 mem ds cr3 t f mem' cr3' : services s → later s s4 → uefi_map_ok ds →
  (∀ x, conventional ds x → ¬ owned s4 x ∧ ¬ device_memory x) →
  (∀ x, owned s4 x ∨ device_memory x → mem x = memory s4 x) →
  table_inv (Stage4.offset_page_table (memory s) cr3) →
  (∀ x, table_memory (memory s) cr3 x ∨ cr3 ≤ x < cr3 + 4096 → device_memory x ∧ ¬ in_framebuffer x) →
  tables_ok ds cr3 mem t f mem' cr3' →
  table_inv (SetUp.bootloader t) ∧ ∀ p, p4_of p ≠ 0 → SetUpProofs.vacant (SetUp.bootloader t) p.
Proof.
  intros Hs L4 Hds Hconv Hm Hinv Htm Htb.
  destruct (table_kept (memory s) mem cr3 Hinv) as [Hinv' Htm'].
  { intros x Hx. destruct (Htm x (or_introl Hx)) as [Hd Hn]. rewrite Hm by by right. apply L4; [by right|done]. }
  apply (tb_bootloader _ _ _ _ _ _ _ Htb Hinv'). intros x Hx Hin. rewrite Htm' in Hx.
  destruct (usable_conventional ds cr3' Hds (proj1 (tb_roots _ _ _ _ _ _ _ Htb))) as [_ Hc].
  destruct (Hconv x (Hc x Hin)) as [_ Hn]. by apply Hn, Htm.
Qed.

Lemma uefi_prepare_spec s cr3 text kernel : uefi_ok s cr3 text kernel →
  returns (prepare own_image cr3 Logger.log_start text s) (uefi_prepared s kernel).
Proof.
  intros Hok. pose proof Hok as [Hs Hk Hp Hsz Hal [Htab Htm]]. unfold prepare.
  eapply returns_bind; [by eapply find_kernel_ok|]. intros [[mode k] s1] (-> & ka & Hka & Hparse & Hkf & L1 & G1 & A1).
  destruct (Hp ka Hka) as (k' & Hk' & Hgr). rewrite Hparse in Hk'. injection Hk' as <-.
  unfold load_config_file. eapply returns_bind; [apply (load_next (boot_source s) s s1 CONFIG [RAMDISK] [2]); try done; apply names_ok|].
  intros [co s2] (L2 & G2 & A2 & Hco).
  assert ((λ '(ptr, len), mem_read (memory s2) ptr len) <$> co = content (boot_source s) s CONFIG) as ->.
  { destruct (content (boot_source s) s CONFIG); [|by subst co]. destruct Hco as (a & -> & Hf). cbn. f_equal. apply Hf. }
  destruct (Stage4.load_config (content (boot_source s) s CONFIG)) as [config err] eqn:Ec.
  assert (Stage4.with_kernel_minimums config (SetUp.config k) = boot_config s k) as -> by (unfold boot_config; by rewrite Ec).
  pose proof (later_trans _ _ _ L1 L2) as L12. assert (same_gop s s2) as G12 by (destruct G1, G2; split; congruence).
  eapply returns_bind.
  { apply (init_logger_spec s2 (boot_config s k) text); [apply L2|]. rewrite (l_provides _ _ L12). intros Hpr.
    eapply graphics_same; [done|]. by apply Hgr. }
  intros [[fb log] s3] [Hrep D3]. pose proof (later_trans _ _ _ L12 (draws_later _ _ D3)) as L13.
  unfold load_ramdisk. eapply returns_bind; [apply (load_next (boot_source s) s s3 RAMDISK [] [2]); try done; [apply names_ok|by apply D3]|].
  intros [ro s4] (L4 & G4 & A4 & Hro). pose proof (later_trans _ _ _ L13 L4) as L14. cbn in A4.
  destruct (exit_map s4 (l_services _ _ L14)) as (ds & s5 & -> & Hds & Hconv & Hfree & Hm5 & Hct).
  destruct (Hfree A4) as (g1 & g2 & Hg1 & Hg2 & Hl1 & Hl2 & Hne).
  pose proof (create_page_tables_spec ds cr3 (memory s5) g1 g2 Hds Hg1 Hg2 Hl1 Hl2 Hne) as Htb.
  destruct (FrameAllocator.new _) as [f0| |]; try done. cbn [mbind res_bind] in *.
  eapply returns_bind; [exact Htb|]. intros [[[t f] mem] root] Hok5. rewrite Hct, find_rsdp_acpi2.
  2:{ intros e He. unfold rsdp_entry in He. destruct (iter_find _ _) as [o l'] eqn:Ei in He. cbn in He. subst o.
      by apply config_entries_ok, (iter_find_elem _ _ _ _ Ei). }
  set (rd := match ro with Some _ => _ | None => _ end). destruct rd as [ra rl] eqn:Erd. cbn [mbind res_bind returns]. subst rd.
  assert (∀ a bytes, file_at s4 a bytes → placed (mkPrepared (boot_source s) k (boot_config s k) f t
    (SetUp.mkSystemInfo fb (snd <$> rsdp_entry config_entries) ra rl) mem root log) a bytes) as Hplaced
    by (intros a bytes Hf; eapply (uefi_placed_ok s4 (memory s5) ds cr3); [apply L14|exact Hf|exact Hds|exact Hconv|exact Hm5|exact Hok5]).
  split; cbn [boot_mode p_kernel p_config p_frames p_tables p_system_info p_memory p_cr3 SetUp.sys_ramdisk_addr
    SetUp.sys_ramdisk_len SetUp.sys_rsdp_addr SetUp.sys_framebuffer].
  - done.
  - exists ka. split; [done|]. apply Hplaced. eapply file_at_later; [apply L1|done|]. eapply later_trans; [exact L2|].
    eapply later_trans; [by eapply draws_later|done].
  - done.
  - destruct (content (boot_source s) s RAMDISK); [|by subst ro; injection Erd as <- <-]. destruct Hro as (a & -> & Hf).
    injection Erd as <- <-. exists a. split_and!; [done|done|]. by apply Hplaced.
  - done.
  - by eapply reports_same.
  - split; [apply Hok5|]. intros y Hy%(tb_fresh _ _ _ _ _ _ _ Hok5). destruct Hy as (Hu & ? & ? & ?). split_and!; try done.
    intros x Hx Hf%framebuffer_device. destruct (usable_conventional ds y Hds Hu) as [_ Hc]. by apply (Hconv x (Hc x Hx)).
  - apply Hok5.
  - by eapply (bootloader_table_ok s s4 (memory s5)).
Qed.

(** C6: The UEFI loader: on a machine whose firmware keeps to the specification, with a kernel on the
    boot volume or on the boot server, no empty file and enough memory, everything up to the call of
    [load_and_switch_to_kernel] runs without a panic. Kernel, configuration and ramdisk come from the
    same source, the disk if it has the kernel; kernel and ramdisk are in memory as they are there,
    and no frame of the allocator, nor a root page table, overlaps them or the framebuffer; the video
    mode is a large enough one if there is one; the kernel's page table is empty and the loader's
    own maps nothing outside of the first level 4 entry. *)
Theorem uefi_hands_over s cr3 text kernel : uefi_ok s cr3 text kernel →
  returns (prepare own_image cr3 Logger.log_start text s) (λ p, uefi_prepared s kernel p ∧
    ∀ m, m ∈ gop_modes s → large_enough (min_height (p_config p)) (min_width (p_config p)) m →
      is_Some (min_height (p_config p)) ∨ is_Some (min_width (p_config p)) →
      ∃ m', m' ∈ gop_modes s ∧ chosen_mode s (p_config p) = info m' ∧
        large_enough (min_height (p_config p)) (min_width (p_config p)) m').
Proof.
  intros Hok. eapply returns_mono; [by apply uefi_prepare_spec|]. intros p Hp. split; [done|]. intros m Hm Hl Hs.
  unfold chosen_mode. destruct (select_mode _ _ _) as [m'|] eqn:E.
  - apply select_mode_some in E as (? & ? & _). by exists m'.
  - by destruct (select_mode_none _ _ _ E Hs m Hm).
Qed.
End Boot.
End UefiBoot.
