(* ===== verification/UefiSample.v ===== *)
(** * A firmware that keeps to its specification

    A small machine on which [Uefi.FirmwareLaws] hold: it was booted from a
    disk with a kernel and a ramdisk, allocates its memory upwards and has two
    video modes. It shows that the laws can be met, and runs the loader on it. *)
From stdpp Require Import gmap.
From S2P Require Import Prelude Memory X86 Paging PageTables Config Info Elf FrameAllocator.
From S2P Require Import Level4 LoadKernel SetUp SetUpProofs BootInfoProofs LoadAndSwitch.
From S2P Require Import BiosCommon Framebuffer Logger Stage4 Uefi UefiBoot.
Import Memory X86 Paging PageTables Uefi UefiBoot.

Module UefiSample.

(** The state: memory, the next free page, the position in each open file, the video mode. *)
Record Machine := mkMachine {
  m_memory : Z → Z;
  m_next : Z;
  m_pos : Z → nat;
  m_mode : ModeInfo;
}.

Definition BASE : Z := 0x1000000.
Definition LIMIT : Z := 0x8000000.
Definition kernel_bytes : list Z := replicate 900 7.
Definition ramdisk_bytes : list Z := replicate 100 9.
Definition small_mode := mkMode 0 (mkModeInfo (640, 480) GopBgr 640).
Definition large_mode := mkMode 1 (mkModeInfo (1024, 768) GopBgr 1024).

Definition interface (P : Protocol) : Z :=
  match P with LoadedImage => 1 | DevicePath => 2 | SimpleFileSystem => 3 | BaseCode => 4 | GraphicsOutput => 5 end.
Definition file_handle (name : list Z) : option Z :=
  if decide (name = KERNEL) then Some 10 else if decide (name = RAMDISK) then Some 11 else None.
Definition file_bytes (f : Z) : list Z := if f =? 10 then kernel_bytes else ramdisk_bytes.
Definition has_protocol (P : Protocol) : bool := match P with BaseCode => false | _ => true end.

#[local] Instance machine : Firmware Machine := {|
  memory := m_memory;
  set_memory m s := mkMachine m (m_next s) (m_pos s) (m_mode s);
  open_protocol P _ _ s := (Some (interface P), s);
  close_protocol _ _ s := s;
  device _ _ := 42;
  locate_device_path P _ _ := if has_protocol P then Some 42 else None;
  get_handle_for_protocol P _ := if has_protocol P then Some 42 else None;
  from_str_with_buf n := Some n;
  from_bytes_with_nul n := Some (take (length n - 1) n);
  open_volume _ s := (Some 6, s);
  open_file _ n s :=
    match file_handle n with
    | Some f => (Some f, mkMachine (m_memory s) (m_next s) (λ g, if g =? f then O else m_pos s g) (m_mode s))
    | None => (None, s)
    end;
  into_type _ _ := Some Regular;
  file_size f _ := Some (Z.of_nat (length (file_bytes f)));
  read_file f a n s :=
    (Some (Z.min n (Z.of_nat (length (file_bytes f) - m_pos s f))),
     mkMachine (mem_write (m_memory s) a (take (Z.to_nat n) (drop (m_pos s f) (file_bytes f)))) (m_next s)
       (λ g, if g =? f then (m_pos s f + Z.to_nat n)%nat else m_pos s g) (m_mode s));
  close_file _ s := s;
  allocate_pages _ n s :=
    if m_next s + 4096 * n <=? LIMIT then (Some (m_next s), mkMachine (m_memory s) (m_next s + 4096 * n) (m_pos s) (m_mode s))
    else (None, s);
  dhcp_ack_received _ _ := false;
  bootp_si_addr _ _ := 0;
  tftp_get_file_size _ _ _ s := (None, s);
  tftp_read_file _ _ _ _ _ s := (None, s);
  modes _ _ := [small_mode; large_mode];
  set_mode _ m s := (Some tt, mkMachine (m_memory s) (m_next s) (m_pos s) (info m));
  current_mode_info _ s := m_mode s;
  frame_buffer _ _ := (0xfd000000, 0x300000);
  exit_boot_services s :=
    (if m_next s <? LIMIT
     then [FrameAllocator.mkMemoryDescriptor FrameAllocator.CONVENTIONAL (m_next s) ((LIMIT - m_next s) / 4096)] else [], s);
  config_table _ := [(8, 0xf0000); (20, 0xf1000)];
  ACPI_GUID := 11;
  ACPI2_GUID := 20;
|}.

#[local] Instance machine_view : FirmwareView Machine := {|
  services s := BASE ≤ m_next s ≤ LIMIT ∧ m_next s mod 4096 = 0;
  own_image := 1;
  boot_server := 0;
  refers s i o := match o with
    | OProtocol P => i = interface P ∧ P ≠ BaseCode
    | ORoot => i = 6
    | OFile bytes pos => bytes = file_bytes i ∧ m_pos s i = pos
    end;
  provides _ P := has_protocol P;
  file_on mode _ n := match mode with Disk => file_bytes <$> file_handle n | Tftp => None end;
  owned s x := BASE ≤ x < m_next s;
  device_memory x := 0xfd000000 ≤ x < 0xff000000;
  can_allocate s l := m_next s + 4096 * foldr Z.add 0 l ≤ LIMIT ∧ Forall (λ n, 0 < n) l;
  gop_modes _ := [small_mode; large_mode];
  gop_current := m_mode;
  gop_buffer _ := (0xfd000000, 0x300000);
  config_entries := [(8, 0xf0000); (20, 0xf1000)];
|}.

Lemma kept_same L (s : Machine) : services s → kept L s s.
Proof. intros Hs. split; [|done|done|done]. split; try done. Qed.

#[local] Instance machine_laws : FirmwareLaws Machine.
Proof.
  split.
  - intros s Hs. eexists _, _. split; [done|]. split; [done|by apply kept_same].
  - intros s i Hs _. eexists _, _. split; [done|]. split; [done|by apply kept_same].
  - intros s p P Hs _ [-> | ->]; cbn; [|done]. eexists _, _, _. split; [done|]. split; [done|]. split; [done|by apply kept_same].
  - intros s Hs. cbn. eexists _, _, _. split; [done|]. split; [done|]. split; [done|by apply kept_same].
  - intros s P i Hs _. by apply kept_same.
  - done.
  - intros n _. cbn. f_equal. rewrite length_app. cbn. rewrite Nat.add_sub. by rewrite take_app_length.
  - intros s i Hs _. eexists _, _. split; [done|]. split; [done|by apply kept_same].
  - intros s r n Hs _. cbn. destruct (file_handle n) as [f|]; cbn; [|eexists; split; [done|by apply kept_same]].
    eexists _, _. split; [done|]. split; [split; [done|]; cbn; by rewrite Z.eqb_refl|].
    split; [|done|done|done]. split; try done. intros i [] ? Hf; (done || by destruct Hf).
  - intros s f bytes pos Hs [-> _]. done.
  - intros s f bytes pos a n Hs [-> <-] Hn Ho. eexists. split; [done|]. split; [split; [done|]; cbn; by rewrite Z.eqb_refl|].
    split; [|done|done|done]. split; try done. intros i [] ? Hf; (done || by destruct Hf).
  - intros s f bytes pos Hs _. by apply kept_same.
  - intros s r Hs _. by apply kept_same.
  - intros s m Hs. split; [|done|done|done]. split; done.
  - intros s n l ty [Hs Hm] [Hal Hpos] Hn. change (m_next s + 4096 * (n + foldr Z.add 0 l) ≤ LIMIT) in Hal. apply Forall_cons in Hpos as [_ Hpos].
    assert (0 ≤ foldr Z.add 0 l) by (clear - Hpos; induction Hpos; cbn; lia).
    cbn [allocate_pages machine services machine_view owned device_memory can_allocate memory] in *.
    rewrite (proj2 (Z.leb_le _ _)) by lia. unfold BASE, LIMIT in *. eexists _, _. split; [done|]. cbn [m_next m_memory].
    split_and!; try lia; try done.
    + split; try done. cbn [services machine_view m_next]. unfold BASE, LIMIT. split; [lia|]. by rewrite Z.mul_comm, Z_mod_plus_full.
  - by intros s b Hs [_ []].
  - by intros s b n Hs [_ []].
  - by intros s b n bytes a Hs [_ []].
  - done.
  - intros s g m Hs Hg _. eexists. split; [reflexivity|]. split_and!; try done.
  - intros x [i Hx]. cbn in *. lia.
  - intros s x [Hs _] Ho Hd. cbn in *. unfold LIMIT in *. lia.
  - intros s [Hs Hm]. eexists _, _. split; [done|]. cbn. unfold BASE, LIMIT in *.
    assert (∀ d, d ∈ (if m_next s <? 0x8000000 then [FrameAllocator.mkMemoryDescriptor FrameAllocator.CONVENTIONAL (m_next s) ((0x8000000 - m_next s) / 4096)] else []) →
      m_next s < 0x8000000 ∧ d = FrameAllocator.mkMemoryDescriptor FrameAllocator.CONVENTIONAL (m_next s) ((0x8000000 - m_next s) / 4096)) as Hd.
    { intros d. destruct (Z.ltb_spec (m_next s) 0x8000000); [|by intros ?%elem_of_nil]. by intros ->%list_elem_of_singleton. }
    assert (m_next s < 0x8000000 → (0x8000000 - m_next s) / 4096 * 4096 = 0x8000000 - m_next s) as Hdiv.
    { intros Hlt. pose proof (Z.div_mod (0x8000000 - m_next s) 4096 ltac:(lia)) as E.
      assert ((0x8000000 - m_next s) mod 4096 = 0) as E0 by (by rewrite Zminus_mod, Hm). lia. }
    split_and!.
    + apply Forall_forall. intros d [Hlt ->]%Hd. cbn [FrameAllocator.phys_start FrameAllocator.page_count]. specialize (Hdiv Hlt). lia.
    + destruct (_ <? _); [apply NoDup_singleton|apply NoDup_nil_2].
    + intros d1 d2 [_ ->]%Hd [_ ->]%Hd. done.
    + intros d x [Hlt ->]%Hd _. cbn [FrameAllocator.phys_start FrameAllocator.page_count]. specialize (Hdiv Hlt). lia.
    + intros n [Hal Hpos]. apply Forall_cons in Hpos as [Hpos _]. change (m_next s + 4096 * (n + 0) ≤ 0x8000000) in Hal.
      rewrite (proj2 (Z.ltb_lt _ _)) by lia. eexists. split; [by left|].
      cbn [FrameAllocator.ty FrameAllocator.phys_start FrameAllocator.page_count]. split_and!; [done|lia|].
      apply Z.div_le_lower_bound; lia.
    + done.
    + done.
  - intros e. cbn. rewrite !elem_of_cons, elem_of_nil. intros [->|[->|[]]]; done.
Qed.

(** ** The loader on this machine *)
#[local] Existing Instances Framebuffer.sample_font Logger.list_uart Logger.list_uart_laws.
#[local] Instance table_offset : Stage4.OffsetTables Table := {|
  Stage4.offset_page_table _ _ := empty_table;
  Stage4.identity_map_2mib _ _ m f fr fl := map_to_2mib m f fr fr fl;
|}.
#[local] Instance table_offset_laws : Stage4.OffsetTablesLaws (M := Table).
Proof. by split. Defined.
#[local] Instance table_copied_laws : CopiedTableLaws Table.
Proof. refine {| table_memory _ _ _ := False |}; [done|]. intros. by split_and!. Defined.
#[local] Instance no_json : Stage4.Json := λ _, None.
#[local] Instance memory_tags : FrameAllocator.UefiTypes := λ _, 0.
Definition sample_elf : Elf.ElfFile :=
  Elf.mkElfFile 0 900 Elf.FExecutable 0x200000 [] (λ _, Ret ()) (Ret ()) (λ _, Err "no data").
(** The kernel asks for a framebuffer of at least 1000 columns. *)
Definition sample_config : Config.BootloaderConfig :=
  let c := Config.BootloaderConfig_new_default (Config.mkApiVersion 0 11 4 false) in
  Config.mkConfig (Config.version c) (Config.mappings c) (Config.kernel_stack_size c)
    (Config.mkFrameBuffer None (Some 1000)).
#[local] Instance sample_parser : SetUp.ElfParser := {|
  SetUp.elf_new a _ := Ret sample_elf;
  SetUp.section_raw_data _ _ := Some (Config.serialize sample_config);
|}.
Definition sample_kernel (a : Z) : SetUp.Kernel := SetUp.mkKernel sample_elf sample_config a 900.
Definition sample_machine : Machine := mkMachine (λ _, 0) BASE (λ _, O) (info small_mode).

Lemma sample_uefi_ok : uefi_ok (T := Table) sample_machine 0xfe000000 (λ _, Logger.chars "fb") kernel_bytes.
Proof.
  split.
  - done.
  - by vm_compute.
  - intros a Ha. exists (sample_kernel a). split; [by vm_compute|]. intros _. unfold graphics_ok.
    change (chosen_mode sample_machine (boot_config sample_machine (sample_kernel a))) with (info large_mode).
    split_and!; [by intros h [=]|by intros w [= <-]|done|done|]. exists Info.Bgr. split; [done|].
    split; [|by vm_compute]. split; by vm_compute.
  - intros name bytes. change (boot_source sample_machine) with Disk. change (file_bytes <$> file_handle name = Some bytes → bytes ≠ [] ∧ Z.of_nat (length bytes) < 2 ^ 63).
    intros (f & _ & ->)%fmap_Some. unfold file_bytes. by destruct (f =? 10).
  - split; [by vm_compute|]. apply (bool_decide_unpack _). by vm_compute.
  - split; [done|]. intros x [[]|Hx]. split; [cbn; lia|]. intros [i Hi]. cbn in Hi. lia.
Qed.

Lemma uefi_hands_over_witness :
  returns (prepare (T := Table) 1 0xfe000000 Logger.log_start (λ _, Logger.chars "fb") sample_machine) (λ p,
    boot_mode p = Disk ∧ SetUp.sys_ramdisk_len (p_system_info p) = 100 ∧
    SetUp.sys_rsdp_addr (p_system_info p) = Some 0xf1000).
Proof.
  eapply returns_mono; [exact (uefi_hands_over (T := Table) sample_machine 0xfe000000 (λ _, Logger.chars "fb") kernel_bytes sample_uefi_ok)|].
  intros p [Hp _]. split; [apply (up_mode _ _ _ Hp)|]. split; [|apply (up_rsdp _ _ _ Hp)].
  destruct (up_ramdisk _ _ _ Hp) as (a & _ & Hl & _). exact Hl.
Defined.
End UefiSample.
