(* ===== verification/DiskImage.v ===== *)
(** * Building disk images on the host (src/lib.rs, mbr.rs, gpt.rs, fat.rs, file_data_source.rs)

    The library side of the project: a [DiskImageBuilder] collects files and
    writes them, with the stages of the loader, to an MBR image for BIOS
    systems, a GPT image or a TFTP folder for UEFI systems. The host's file
    system is a map from paths to contents that the operations thread, with the
    set of its directories, which only the TFTP folder changes; an
    [anyhow::Error] is an [Err] with its innermost message, and the host's state
    after an error is not modelled (a temporary file is removed when it is
    dropped). The crates mbrman, gpt and fatfs, and the directory and
    temporary-file services of the host are classes. Arithmetic is checked, as
    in the default (debug) profile of a build. *)
From stdpp Require Import gmap strings sorting pretty.
From S2P Require Import Prelude Memory Disk BootSector Config Logger Stage2Start.
Import Memory.

Module DiskImage.

(** ** Files of the host *)
Abbreviation Host := (gmap string (list Z)).

(** The host: the directories that exist before the run; what the user may write; the directory of a
    path; [NamedTempFile::new] chooses a path; [NamedTempFile::close], [create_dir_all] (on a set of
    directories), [Path::join] and [Path::file_stem], as the bytes of a lossy string *)
Class HostFs := {
  directories : gset string;
  permitted : string → bool;
  path_parent : string → string;
  temp_path : Host → option string;
  remove_file : string → Host → option Host;
  create_dir_all : string → gset string → option (gset string);
  path_join : string → string → string;
  file_stem : string → option (list Z);
}.

(** Opening a file for writing and creating it: the directory must exist. *)
Definition can_create_in `{HostFs} (dirs : gset string) (path : string) : bool :=
  permitted path && bool_decide (path_parent path ∈ dirs) && negb (bool_decide (path ∈ dirs)).
Definition can_create `{HostFs} (path : string) : bool := can_create_in directories path.

(** The pieces of a path between its slashes *)
Fixpoint split_path (piece : string) (rest : string) : list string :=
  match rest with
  | EmptyString => [piece]
  | String c rest =>
      if Ascii.eqb c (Ascii.ascii_of_nat 47) then piece :: split_path EmptyString rest
      else split_path (piece +:+ String c EmptyString) rest
  end.
Definition path_pieces (path : string) : list string := split_path EmptyString path.

(** Writing at a position of a file fills a gap with zeros; [File::set_len]. *)
Definition write_at (content : list Z) (pos : nat) (bytes : list Z) : list Z :=
  take pos (content ++ replicate (pos - length content) 0) ++ bytes ++ drop (pos + length bytes) content.
Definition set_len (content : list Z) (n : nat) : list Z := take n (content ++ replicate (n - length content) 0).

Section Model.
Context `{HF : HostFs}.

Definition open_read (path context : string) (h : Host) : res (list Z) :=
  match h !! path with Some b => Ret b | None => Err context end.
(** create and truncate, for writing *)
Definition open_create_in (dirs : gset string) (path context : string) (h : Host) : res Host :=
  if can_create_in dirs path then Ret (<[path := []]> h) else Err context.
Definition open_create (path context : string) (h : Host) : res Host := open_create_in directories path context h.

(** ** file_data_source.rs *)
Inductive FileDataSource :=
  | File (path : string)
  | Data (v : list Z)
  | Bytes (s : list Z).

(** [impl Debug for FileDataSource] *)
Definition fmt (self : FileDataSource) : string :=
  match self with
  | File file => "data source: File " +:+ file
  | Data d => "data source: " +:+ pretty (length d) +:+ " raw bytes "
  | Bytes b => "data source: " +:+ pretty (length b) +:+ " raw bytes "
  end.

Definition source_len (self : FileDataSource) (h : Host) : res Z :=
  match self with
  | File path => b ← open_read path ("failed to read metadata of file `" +:+ path +:+ "`") h; Ret (Z.of_nat (length b))
  | Data v => Ret (Z.of_nat (length v))
  | Bytes s => Ret (Z.of_nat (length s))
  end.

(** [copy_to] writes these bytes to its target. *)
Definition source_bytes (self : FileDataSource) (h : Host) : res (list Z) :=
  match self with
  | File file_path => open_read file_path ("failed to open `" +:+ file_path +:+ "` for copying") h
  | Data contents => Ret contents
  | Bytes contents => Ret contents
  end.
End Model.

(** ** mbr.rs *)

(** [mbrman::MBRPartitionEntry] *)
Record MBRPartitionEntry := mkMBREntry {
  boot : Z;
  first_chs : list Z;
  sys : Z;
  last_chs : list Z;
  starting_lba : Z;
  sectors : Z;
}.

(** [mbrman::MBR]: reading it from the first sector, iterating, indexing from 1, and writing it
    to the start of a file; the position afterwards *)
Class Mbrman (MBR : Type) := {
  read_from : list Z → Z → option MBR;
  mbr_iter : MBR → list (nat * MBRPartitionEntry);
  is_unused : MBRPartitionEntry → bool;
  set_partition : MBR → nat → MBRPartitionEntry → MBR;
  write_into : MBR → list Z → option (list Z * Z);
  CHS_empty : list Z;
}.

Definition SECTOR_SIZE : Z := 512.
Definition BOOT_ACTIVE : Z := 0x80.

Section Mbr.
Context `{HF : HostFs} {MBR : Type} `{MM : Mbrman MBR}.

(** [((size - 1) / SECTOR_SIZE + 1).try_into().context(..)?] *)
Definition sector_count (size : Z) (context : string) : res Z :=
  n ← size -! 1;
  n ← (n / SECTOR_SIZE) +[64] 1;
  match try_from_u 32 n with Some n => Ret n | None => Err context end.

Definition create_mbr_disk (bootsector_binary second_stage_binary : list Z) (boot_partition_path out_mbr_path : string)
    (h : Host) : res Host :=
  mbr ← match read_from bootsector_binary SECTOR_SIZE with Some m => Ret m | None => Err "failed to read MBR" end;
  foldM (λ _ '(index, partition),
           if negb (is_unused partition) then Err ("partition " +:+ pretty index +:+ " should be unused") else Ret ())
    () (mbr_iter mbr);;
  let second_stage_size := Z.of_nat (length second_stage_binary) in
  let second_stage_start_sector := 1 in
  second_stage_sectors ← sector_count second_stage_size "size of second stage is larger than u32::MAX";
  let mbr := set_partition mbr 1 {| boot := BOOT_ACTIVE; starting_lba := second_stage_start_sector;
                                    sectors := second_stage_sectors; sys := 0x20;
                                    first_chs := CHS_empty; last_chs := CHS_empty |} in
  boot_partition ← open_read boot_partition_path "failed to open FAT boot partition" h;
  boot_partition_start_sector ← second_stage_start_sector +[32] second_stage_sectors;
  let boot_partition_size := Z.of_nat (length boot_partition) in
  boot_partition_sectors ← sector_count boot_partition_size "size of FAT partition is larger than u32::MAX";
  let mbr := set_partition mbr 2 {| boot := BOOT_ACTIVE; starting_lba := boot_partition_start_sector;
                                    sectors := boot_partition_sectors; sys := 0x0c;
                                    first_chs := CHS_empty; last_chs := CHS_empty |} in
  h ← open_create out_mbr_path ("failed to create MBR disk image at `" +:+ out_mbr_path +:+ "`") h;
  '(disk, position) ← match write_into mbr [] with
                      | Some r => Ret r | None => Err "failed to write MBR header to disk image" end;
  expected ← second_stage_start_sector *[32] SECTOR_SIZE;
  assert_ (position =? expected) "assertion `left == right` failed";;
  let disk := write_at disk (Z.to_nat position) second_stage_binary in
  offset ← boot_partition_start_sector *[32] SECTOR_SIZE;
  let disk := write_at disk (Z.to_nat offset) boot_partition in
  Ret (<[out_mbr_path := disk]> h).
End Mbr.

(** ** gpt.rs *)

(** The gpt crate: [ProtectiveMBR::overwrite_lba0]; [GptConfig::create_from_device] for 512 byte
    blocks, [update_partitions], [add_partition] with a name, a size, a type, flags and an optional
    alignment, [bytes_start] and [write] on a disk whose file is the list of bytes *)
Class GptCrate (G : Type) := {
  overwrite_lba0 : Z → list Z → option (list Z);
  create_from_device : list Z → option G;
  update_partitions : G → option G;
  add_partition : G → string → Z → string → Z → option Z → option (Z * G);
  bytes_start : G → Z → option Z;
  gpt_write : G → option (list Z);
}.

(** [gpt::partition_types::EFI]: the GUID of an EFI system partition *)
Definition EFI : string := "C12A7328-F81F-11D2-BA4B-00A0C93EC93B".

(** [r.context(..)?] *)
Definition or_err {A} (o : option A) (context : string) : res A := match o with Some a => Ret a | None => Err context end.

Section Gpt.
Context `{HF : HostFs} {G : Type} `{GC : GptCrate G}.

Definition create_gpt_disk (fat_image out_gpt_path : string) (h : Host) : res Host :=
  h ← open_create out_gpt_path ("failed to create GPT file at `" +:+ out_gpt_path +:+ "`") h;
  fat ← open_read fat_image "failed to read metadata of fat image" h;
  let partition_size := Z.of_nat (length fat) in
  disk_size ← partition_size +[64] 1024 * 64;
  let disk := set_len [] (Z.to_nat disk_size) in
  n ← disk_size / 512 -! 1;
  let lb_size := default 0xffffffff (try_from_u 32 n) in
  disk ← or_err (overwrite_lba0 lb_size disk) "failed to write protective MBR";
  gpt ← or_err (create_from_device disk) "failed to create GPT structure in file";
  gpt ← or_err (update_partitions gpt) "failed to update GPT partitions";
  '(partition_id, gpt) ← or_err (add_partition gpt "boot" partition_size EFI 0 None) "failed to add boot EFI partition";
  start_offset ← or_err (bytes_start gpt partition_id) "failed to get start offset of boot partition";
  disk ← or_err (gpt_write gpt) "failed to write out GPT changes";
  let disk := write_at disk (Z.to_nat start_offset) fat in
  Ret (<[out_gpt_path := disk]> h).
End Gpt.

(** ** fat.rs *)

(** The fatfs crate on an image: formatting, and a mounted volume with the operations on the
    root directory; the image of the volume after it was unmounted *)
Class FatFs (V : Type) := {
  format_volume : list Z → list Z → option (list Z);
  filesystem_new : list Z → option V;
  create_dir : V → string → option V;
  create_file : V → string → option V;
  truncate : V → string → option V;
  write_file : V → string → list Z → option V;
  volume_image : V → list Z;
}.

(** The order of a [BTreeMap<&str, _>]. *)
Definition btree_le {A} (a b : string * A) : Prop := String.leb a.1 b.1 = true.
#[global] Instance btree_le_dec {A} : RelDecision (@btree_le A).
Proof. intros a b. unfold btree_le. apply _. Defined.
Definition btree_iter {A} (m : gmap string A) : list (string * A) := merge_sort btree_le (map_to_list m).

(** [Path::ancestors] (on Unix) without the path itself and the last of them (the root directory or
    the empty path), from the outermost on: the prefixes that end with a component of the path, but
    the last. Empty pieces, and [.] other than as the first piece, are not components. *)
Definition is_component (first : bool) (piece : string) : bool :=
  negb (bool_decide (piece = "")) && (first || negb (bool_decide (piece = "."))).
Fixpoint component_prefixes (first : bool) (prefix : string) (pieces : list string) : list string :=
  match pieces with
  | [] => []
  | piece :: pieces =>
      let prefix := if first then piece else prefix +:+ "/" +:+ piece in
      let rest := component_prefixes false prefix pieces in
      if is_component first piece then prefix :: rest else rest
  end.
Definition path_parents (path : string) : list string := removelast (component_prefixes true "" (path_pieces path)).
Example path_parents_plain : path_parents "a/b/c" = ["a"; "a/b"] ∧ path_parents "kernel-x86_64" = [].
Proof. done. Qed.
Example path_parents_odd : path_parents "/a//b/./c/" = ["/a"; "/a//b"] ∧ path_parents "./a" = ["."].
Proof. done. Qed.

Definition MB : Z := 1024 * 1024.
Definition KERNEL_FILE_NAME : string := "kernel-x86_64".
Definition RAMDISK_FILE_NAME : string := "ramdisk".
Definition CONFIG_FILE_NAME : string := "boot.json".

Section Fat.
Context `{HF : HostFs} {V : Type} `{FF : FatFs V}.

Definition add_file (h : Host) (root_dir : V) '((target_path_raw, source) : string * FileDataSource) : res V :=
  root_dir ← foldM (λ root_dir ancestor,
               or_err (create_dir root_dir ancestor) ("failed to create directory `" +:+ ancestor +:+ "` on FAT filesystem"))
               root_dir (path_parents target_path_raw);
  root_dir ← or_err (create_file root_dir target_path_raw) ("failed to create file at `" +:+ target_path_raw +:+ "`");
  root_dir ← expect_some (truncate root_dir target_path_raw) "called `Result::unwrap()` on an `Err` value";
  bytes ← source_bytes source h;
  or_err (write_file root_dir target_path_raw bytes)
    ("failed to copy source data `" +:+ fmt source +:+ "` to file at `" +:+ target_path_raw +:+ "`").
Definition add_files_to_image (h : Host) (root_dir : V) (files : gmap string FileDataSource) : res V :=
  foldM (add_file h) root_dir (btree_iter files).

(** The label of the volume. *)
Definition volume_label (files : gmap string FileDataSource) : list Z :=
  let label := Logger.chars "MY_RUST_OS!" in
  match files !! KERNEL_FILE_NAME with
  | Some (File path) =>
      match file_stem path with
      | Some name => let name := take (Nat.min 11 (length name)) name in name ++ replicate (11 - length name) 0
      | None => label
      end
  | _ => label
  end.

(** The size of the image: the files and 64 KiB, rounded up to megabytes. *)
Definition fat_size (needed_size : Z) : res Z :=
  n ← needed_size +[64] 1024 * 64;
  n ← n -! 1;
  n ← n / MB +[64] 1;
  n *[64] MB.

Definition create_fat_filesystem (files : gmap string FileDataSource) (out_fat_path : string) (h : Host) : res Host :=
  needed_size ← foldM (λ needed_size '(_, source), n ← source_len source h; needed_size +[64] n) 0 (btree_iter files);
  h ← (if can_create out_fat_path then Ret (<[out_fat_path := []]> h)
       else Panic "called `Result::unwrap()` on an `Err` value");
  fat_size_padded_and_rounded ← fat_size needed_size;
  let fat_file := set_len [] (Z.to_nat fat_size_padded_and_rounded) in
  fat_file ← or_err (format_volume fat_file (volume_label files)) "Failed to format FAT file";
  filesystem ← or_err (filesystem_new fat_file) "Failed to open FAT file system of UEFI FAT file";
  filesystem ← add_files_to_image h filesystem files;
  Ret (<[out_fat_path := volume_image filesystem]> h).
End Fat.

(** ** lib.rs *)

(** The binaries of the stages that are compiled into the library. *)
Class Binaries := {
  UEFI_BOOTLOADER : list Z;
  BIOS_BOOT_SECTOR : list Z;
  BIOS_STAGE_2 : list Z;
  BIOS_STAGE_3 : list Z;
  BIOS_STAGE_4 : list Z;
}.
(** [serde_json::to_vec_pretty] *)
Class JsonWriter := to_vec_pretty : BootConfig.BootConfig → option (list Z).

Record DiskImageBuilder := mkBuilder { files : gmap string FileDataSource }.

Section Builder.
Context `{HF : HostFs} {MBR G V : Type} `{MM : Mbrman MBR} `{GC : GptCrate G} `{FF : FatFs V} `{BB : Binaries} `{JW : JsonWriter}.

Definition empty : DiskImageBuilder := mkBuilder ∅.
Definition set_file_source (self : DiskImageBuilder) (destination : string) (source : FileDataSource) : DiskImageBuilder :=
  mkBuilder (<[destination := source]> (files self)).
Definition set_kernel (self : DiskImageBuilder) (path : string) : DiskImageBuilder :=
  set_file_source self KERNEL_FILE_NAME (File path).
Definition new (kernel : string) : DiskImageBuilder := set_kernel empty kernel.
Definition set_ramdisk (self : DiskImageBuilder) (path : string) : DiskImageBuilder :=
  set_file_source self RAMDISK_FILE_NAME (File path).
Definition set_boot_config (self : DiskImageBuilder) (boot_config : BootConfig.BootConfig) : res DiskImageBuilder :=
  json ← expect_some (to_vec_pretty boot_config) "failed to serialize BootConfig";
  Ret (set_file_source self CONFIG_FILE_NAME (Data json)).
Definition set_file_contents (self : DiskImageBuilder) (destination : string) (data : list Z) : DiskImageBuilder :=
  set_file_source self destination (Data data).
Definition set_file (self : DiskImageBuilder) (destination file_path : string) : DiskImageBuilder :=
  set_file_source self destination (File file_path).

Definition create_fat_filesystem_image (self : DiskImageBuilder) (internal_files : gmap string FileDataSource) (h : Host) :
    res (string * Host) :=
  let local_map := foldl (λ m '(name, source), <[name := source]> m) ∅ (btree_iter (files self)) in
  local_map ← foldM (λ (local_map : gmap string FileDataSource) '(name, source),
                 match local_map !! name with
                 | Some _ => Err ("Attempted to overwrite internal file: " +:+ name)
                 | None => Ret (<[name := source]> local_map)
                 end) local_map (btree_iter internal_files);
  out_file ← or_err (temp_path h) "failed to create temp file";
  let h := <[out_file := []]> h in
  h ← create_fat_filesystem local_map out_file h;
  Ret (out_file, h).

Definition create_bios_image (self : DiskImageBuilder) (image_path : string) (h : Host) : res Host :=
  let internal_files := <["boot-stage-4" := Bytes BIOS_STAGE_4]> (<["boot-stage-3" := Bytes BIOS_STAGE_3]> ∅) in
  '(fat_partition, h) ← create_fat_filesystem_image self internal_files h;
  h ← create_mbr_disk BIOS_BOOT_SECTOR BIOS_STAGE_2 fat_partition image_path h;
  or_err (remove_file fat_partition h) "failed to delete FAT partition after disk image creation".

Definition create_uefi_image (self : DiskImageBuilder) (image_path : string) (h : Host) : res Host :=
  let internal_files := <["efi/boot/bootx64.efi" := Bytes UEFI_BOOTLOADER]> ∅ in
  '(fat_partition, h) ← create_fat_filesystem_image self internal_files h;
  h ← create_gpt_disk fat_partition image_path h;
  or_err (remove_file fat_partition h) "failed to delete FAT partition after disk image creation".

(** The directories and the files afterwards. *)
Definition create_uefi_tftp_folder (self : DiskImageBuilder) (tftp_path : string) (h : Host) : res (gset string * Host) :=
  dirs ← or_err (create_dir_all tftp_path directories) ("failed to create out dir at " +:+ tftp_path);
  let to := path_join tftp_path "bootloader" in
  h ← open_create_in dirs to ("failed to copy bootloader from the embedded binary to " +:+ to) h;
  let h := <[to := UEFI_BOOTLOADER]> h in
  h ← foldM (λ h '(name, source),
           let to := path_join tftp_path name in
           h ← open_create_in dirs to "failed to open" h;
           bytes ← source_bytes source h;
           Ret (<[to := bytes]> h)) h (btree_iter (files self));
  Ret (dirs, h).

(** ** bios/mod.rs and uefi/mod.rs: builders for one kind of image *)
Record BiosBoot := mkBiosBoot { bios_image_builder : DiskImageBuilder }.
Definition BiosBoot_new (kernel_path : string) : BiosBoot := mkBiosBoot (new kernel_path).
Definition BiosBoot_set_ramdisk (self : BiosBoot) (ramdisk_path : string) : BiosBoot :=
  mkBiosBoot (set_ramdisk (bios_image_builder self) ramdisk_path).
Definition BiosBoot_set_boot_config (self : BiosBoot) (config : BootConfig.BootConfig) : res BiosBoot :=
  image_builder ← set_boot_config (bios_image_builder self) config; Ret (mkBiosBoot image_builder).
Definition BiosBoot_create_disk_image (self : BiosBoot) (out_path : string) (h : Host) : res Host :=
  create_bios_image (bios_image_builder self) out_path h.

Record UefiBoot := mkUefiBoot { uefi_image_builder : DiskImageBuilder }.
Definition UefiBoot_new (kernel_path : string) : UefiBoot := mkUefiBoot (new kernel_path).
Definition UefiBoot_set_ramdisk (self : UefiBoot) (ramdisk_path : string) : UefiBoot :=
  mkUefiBoot (set_ramdisk (uefi_image_builder self) ramdisk_path).
Definition UefiBoot_set_boot_config (self : UefiBoot) (config : BootConfig.BootConfig) : res UefiBoot :=
  image_builder ← set_boot_config (uefi_image_builder self) config; Ret (mkUefiBoot image_builder).
Definition UefiBoot_create_disk_image (self : UefiBoot) (out_path : string) (h : Host) : res Host :=
  create_uefi_image (uefi_image_builder self) out_path h.
Definition UefiBoot_create_pxe_tftp_folder (self : UefiBoot) (out_path : string) (h : Host) : res (gset string * Host) :=
  create_uefi_tftp_folder (uefi_image_builder self) out_path h.
End Builder.
End DiskImage.
