(* ===== verification/FatFormat.v ===== *)
(** * The format of a FAT volume, and that the driver reads it

    The on-disk format of FAT12 and FAT16 volumes as it is documented: the first
    sector with the parameter block, the file allocation table, and the root
    directory with its long name entries. The driver of [Fat] decodes what is
    encoded here. Where it does not, because the code reads a large volume as
    FAT32 or stumbles over a volume label, that is stated too. *)
From stdpp Require Import gmap strings.
From S2P Require Import Prelude Memory Disk Fat FatProofs Stage2 Stage2Start DiskImage.
Import Memory Disk Fat FatProofs Stage2.

Module FatFormat.

(** ** Fields of a record, one after the other *)
Lemma field_split (fields : list (list Z)) i f : fields !! i = Some f →
  mjoin fields = mjoin (take i fields) ++ f ++ mjoin (drop (S i) fields).
Proof. intros Hf. rewrite <- (take_drop_middle fields i f Hf) at 1. by rewrite join_app. Qed.
Lemma field_slice (fields : list (list Z)) i f lo hi : fields !! i = Some f →
  length (mjoin (take i fields)) = lo → hi = (lo + length f)%nat → slice_range (mjoin fields) lo hi = Ret f.
Proof. intros Hf Hl Hh. rewrite (field_split fields i f Hf). by apply slice_app3. Qed.
Lemma field_index (fields : list (list Z)) i x lo : fields !! i = Some [x] →
  length (mjoin (take i fields)) = lo → index (mjoin fields) lo = Ret x.
Proof. intros Hf Hl. rewrite (field_split fields i [x] Hf). by apply index_app. Qed.

(** ** The first sector

    The jump and the name of the formatter, the parameter block, the media descriptor, the
    geometry of the drive and the hidden sectors, and from byte 36 on what differs between
    FAT12/16 (drive number, a zero, the signature 0x29, the serial number, ..) and FAT32. *)
Definition boot_record (head : list Z) (b : Bpb) (media : Z) (geometry rest : list Z) : list (list Z) :=
  [head; le_bytes 2 (bytes_per_sector b); [sectors_per_cluster b]; le_bytes 2 (reserved_sector_count b); [num_fats b];
   le_bytes 2 (root_entry_count b); le_bytes 2 (total_sectors_16 b); [media]; le_bytes 2 (fat_size_16 b); geometry;
   le_bytes 4 (total_sectors_32 b)] ++ [rest].
Record record_ok (head geometry rest : list Z) (b : Bpb) : Prop := {
  rc_head : length head = 11%nat ∧ length geometry = 8%nat ∧ length rest = 476%nat;
  rc_bytes : is_uint 16 (bytes_per_sector b);
  rc_reserved : is_uint 16 (reserved_sector_count b);
  rc_root : is_uint 16 (root_entry_count b);
  rc_total_16 : is_uint 16 (total_sectors_16 b);
  rc_fat_16 : is_uint 16 (fat_size_16 b);
  rc_total_32 : is_uint 32 (total_sectors_32 b);
}.

(** The fields of the sector that the driver reads. *)
Ltac lengths := unfold boot_record; cbn [take mjoin list_join app]; repeat (rewrite length_app || rewrite length_le_bytes || (progress cbn [length])); lia.
Lemma boot_record_fields head b media geometry rest : record_ok head geometry rest b →
  let raw := mjoin (boot_record head b media geometry rest) in
  le_field raw 11 13 = Ret (bytes_per_sector b) ∧ index raw 13 = Ret (sectors_per_cluster b) ∧
  le_field raw 14 16 = Ret (reserved_sector_count b) ∧ index raw 16 = Ret (num_fats b) ∧
  le_field raw 17 19 = Ret (root_entry_count b) ∧ le_field raw 22 24 = Ret (fat_size_16 b) ∧
  le_field raw 19 21 = Ret (total_sectors_16 b) ∧ le_field raw 32 36 = Ret (total_sectors_32 b).
Proof.
  intros [(Hh & Hg & Hr) ? ? ? ? ? ?] raw.
  assert (∀ i lo n x, boot_record head b media geometry rest !! i = Some (le_bytes n x) →
    length (mjoin (take i (boot_record head b media geometry rest))) = lo → 0 ≤ x < 256 ^ Z.of_nat n →
    le_field raw lo (lo + n) = Ret x) as Hf.
  { intros i lo n x Hi Hlo Hx. unfold le_field, raw. rewrite (field_slice _ i (le_bytes n x)) by (by rewrite ?length_le_bytes).
    cbn [mbind res_bind]. by rewrite le_num_le_bytes. }
  split_and!.
  - apply (Hf 1%nat 11%nat 2%nat); [done|lengths|done].
  - apply (field_index _ 2); [done|lengths].
  - apply (Hf 3%nat 14%nat 2%nat); [done|lengths|done].
  - apply (field_index _ 4); [done|lengths].
  - apply (Hf 5%nat 17%nat 2%nat); [done|lengths|done].
  - apply (Hf 8%nat 22%nat 2%nat); [done|lengths|done].
  - apply (Hf 6%nat 19%nat 2%nat); [done|lengths|done].
  - apply (Hf 10%nat 32%nat 4%nat); [done|lengths|done].
Qed.

(** The sector of a volume with less than 65536 sectors is read back. *)
Lemma boot_record_parses head b media geometry rest : record_ok head geometry rest b →
  total_sectors_16 b ≠ 0 → total_sectors_32 b = 0 → fat_size_32 b = 0 → root_cluster b = 0 →
  Bpb_from_raw (mjoin (boot_record head b media geometry rest)) = Ret b.
Proof.
  intros Hok H16 H32 Hf Hc. destruct (boot_record_fields _ _ media _ _ Hok) as (E1 & E2 & E3 & E4 & E5 & E6 & E7 & E8).
  unfold Bpb_from_raw. rewrite E1, E2, E3, E4, E5, E6, E7, E8. cbn [mbind res_bind].
  rewrite (proj2 (Z.eqb_neq _ _) H16), H32. cbn [Z.eqb andb negb mbind res_bind]. destruct b. cbn in *. by subst.
Qed.

(** A FAT of more sectors than the volume has makes the driver panic. *)
Lemma count_of_clusters_panics b : is_uint 16 (root_entry_count b) → 0 < bytes_per_sector b < 2 ^ 16 → 0 < num_fats b →
  0 ≤ reserved_sector_count b → total_sectors b < fat_size_in_sectors b → 0 ≤ total_sectors b → ∃ msg, count_of_clusters b = Panic msg.
Proof.
  unfold is_uint. intros Hr Hb Hn Hs Ht H0. unfold count_of_clusters. fold (total_sectors b).
  rewrite (mul_u_ok 32 (root_entry_count b)) by lia. cbn [mbind res_bind]. rewrite sub_u_ok by lia. cbn [mbind res_bind].
  rewrite add_u_ok by lia. cbn [mbind res_bind]. rewrite div_u_ok by lia. cbn [mbind res_bind].
  assert (0 ≤ (root_entry_count b * 32 + (bytes_per_sector b - 1)) / bytes_per_sector b) by (apply Z.div_pos; lia).
  assert (∀ w x y, add_u w x y = Ret (x + y) ∨ ∃ msg, add_u w x y = Panic msg) as Hadd by (intros; unfold add_u; destruct (_ <? _); eauto).
  assert (mul_u 32 (num_fats b) (fat_size_in_sectors b) = Ret (num_fats b * fat_size_in_sectors b) ∨
    ∃ msg, mul_u 32 (num_fats b) (fat_size_in_sectors b) = Panic msg) as [->|[msg ->]] by (unfold mul_u; destruct (_ <? _); eauto);
    cbn [mbind res_bind]; [|by eexists].
  destruct (Hadd 32 (reserved_sector_count b) (num_fats b * fat_size_in_sectors b)) as [->|[msg ->]]; cbn [mbind res_bind]; [|by eexists].
  match goal with |- context [add_u 32 ?x ?y] => destruct (Hadd 32 x y) as [->|[msg ->]] end; cbn [mbind res_bind]; [|by eexists].
  unfold sub_u. rewrite (proj2 (Z.leb_gt _ _)) by nia. cbn [mbind res_bind]. by eexists.
Qed.

(** The bytes of a FAT16 record that are taken for fields of FAT32. *)
Lemma boot_record_extension head b media geometry x y rest : record_ok head geometry (x ++ y ++ rest) b →
  length x = 4%nat → length y = 8%nat →
  let raw := mjoin (boot_record head b media geometry (x ++ y ++ rest)) in
  le_field raw 36 40 = Ret (le_num x) ∧ le_field raw 44 48 = Ret (le_num (drop 4 y)).
Proof.
  intros Hok Hx Hy raw. destruct (rc_head _ _ _ _ Hok) as (Lh & Lg & _).
  set (l := mjoin (take 11 (boot_record head b media geometry (x ++ y ++ rest)))).
  assert (raw = l ++ x ++ y ++ rest) as Er.
  { unfold raw, l, boot_record. rewrite join_app. f_equal. apply app_nil_r. }
  assert (length l = 36%nat) as Ll by (unfold l; lengths). unfold le_field. split.
  - rewrite Er, (slice_app3 l x) by (by rewrite ?Hx). done.
  - rewrite Er, <- (take_drop 4 y) at 1. rewrite <- (app_assoc (take 4 y)), (app_assoc x), (app_assoc l).
    rewrite (slice_app3 _ (drop 4 y)); [done| |rewrite length_drop; lia]. rewrite !length_app, length_take. lia.
Qed.

(** C40: A FAT16 volume of 65536 sectors or more (32 MiB, up to the 512 MiB at which formatters change to
    FAT32) cannot be used: its sector count is in the 32 bit field, which the code takes as the sign of
    FAT32, so that the drive number, the signature 0x29 and the serial number of the FAT16 record are
    read as the size of the FAT. Any search for a file then panics. *)
Theorem large_fat16_volume_panics {D : Type} `{RS : ReadSeek D} head b media geometry drive serial rest :
  record_ok head geometry (drive :: 0 :: 0x29 :: serial :: rest) b → is_uint 8 drive → is_uint 8 serial →
  0 < bytes_per_sector b → 0 < num_fats b < 2 ^ 8 → total_sectors_16 b = 0 → 65536 ≤ total_sectors_32 b < 2 ^ 20 →
  ∃ b', Bpb_from_raw (mjoin (boot_record head b media geometry (drive :: 0 :: 0x29 :: serial :: rest))) = Ret b' ∧
    ∀ (d : D) mem name buf, ∃ msg, find_file_in_root_dir (mkFileSystem d b') mem name buf = Panic msg.
Proof.
  intros Hok Hd Hs Hbps Hn H16 H32. destruct (boot_record_fields _ _ media _ _ Hok) as (E1 & E2 & E3 & E4 & E5 & E6 & E7 & E8).
  destruct (rc_head _ _ _ _ Hok) as (_ & _ & Lr). cbn in Lr.
  destruct (boot_record_extension head b media geometry [drive; 0; 0x29; serial] (take 8 rest) (drop 8 rest)) as [E36 E44];
    [by cbn [app]; rewrite take_drop|done|rewrite length_take; lia|]. rewrite take_drop in E36, E44. cbn [app] in E36, E44.
  set (n := le_num [drive; 0; 0x29; serial]) in *. unfold Bpb_from_raw. rewrite E1, E2, E3, E4, E5, E6, E7, E8. cbn [mbind res_bind].
  rewrite H16, (proj2 (Z.eqb_neq (total_sectors_32 b) 0)) by lia. cbn [Z.eqb andb negb]. rewrite E36, E44. cbn [mbind res_bind]. eexists. split; [done|].
  intros d mem name buf. unfold find_file_in_root_dir, read_root_dir, fat_type. cbn [bpb].
  set (b' := mkBpb _ _ _ _ _ _ _ _ _ _). unfold is_uint in Hd, Hs.
  assert (n = drive + 0x290000 + serial * 2 ^ 24) as Hval by (unfold n; cbn [le_num]; lia).
  assert (fat_size_in_sectors b' = n) as Hf.
  { unfold fat_size_in_sectors, b'. cbn [fat_size_16 fat_size_32]. rewrite (proj2 (Z.eqb_neq n 0)) by lia. by rewrite andb_false_r. }
  assert (total_sectors b' = total_sectors_32 b) as Ht by done.
  destruct (count_of_clusters_panics b') as [msg ->]; [apply Hok| |exact (proj1 Hn)| |lia|lia|by eexists].
  - split; [exact Hbps|apply Hok].
  - apply Hok.
Qed.

(** A volume of 40 MiB, as fatfs formats it. *)
Definition large_bpb : Bpb := mkBpb 512 4 8 2 512 0 80 81920 0 0.
Lemma large_fat16_volume_panics_witness : ∃ b',
  Bpb_from_raw (mjoin (boot_record (replicate 11 0x90) large_bpb 0xF8 (replicate 8 0) (0x80 :: 0 :: 0x29 :: 1 :: replicate 472 0))) = Ret b' ∧
  ∃ msg, find_file_in_root_dir (RS := Stage2Start.boot_rs) (mkFileSystem Stage2Start.boot_disk b') (λ _, 0) (Stage2Start.chars "kernel-x86_64")
    Stage2Start.boot_buffer = Panic msg.
Proof.
  destruct (large_fat16_volume_panics (RS := Stage2Start.boot_rs) (replicate 11 0x90) large_bpb 0xF8 (replicate 8 0) 0x80 1 (replicate 472 0))
    as (b' & Hb & H); [split; by vm_compute|by vm_compute..|]. exists b'. split; [exact Hb|apply H].
Defined.

(** ** Long names

    The UTF-16 code units of a name, in parts of 13; the entries of a name have the parts in
    reverse order, the first of them with bit 6 in its number. *)
Definition encode_utf16 (c : Z) : list Z :=
  if c <? 0x10000 then [c] else [0xD800 + (c - 0x10000) / 2 ^ 10; 0xDC00 + (c - 0x10000) mod 2 ^ 10].
Definition name_units (name : string) : list Z := default [] (from_utf8 (Stage2Start.chars name)) ≫= encode_utf16.
Fixpoint parts_fuel (fuel : nat) (units : list Z) : list (list Z) :=
  match fuel, units with
  | O, _ | _, [] => []
  | S fuel, _ => take 13 units :: parts_fuel fuel (drop 13 units)
  end.
Definition name_parts (name : string) : list (list Z) := parts_fuel (length (name_units name)) (name_units name).

(** The checksum of the short name, rotated to the right byte by byte. *)
Definition short_checksum (short : list Z) : Z :=
  foldl (λ sum c, ((sum mod 2) * 128 + sum / 2 + c) mod 256) 0 short.

Definition lfn_order (n i : nat) : Z := Z.of_nat (S i) + (if decide (S i = n) then 0x40 else 0).
Definition lfn_slots (cks : Z) (parts : list (list Z)) : list (list Z) :=
  reverse (imap (λ i part, lfn_entry (lfn_order (length parts) i) cks part) parts).

(** ** Files and directories in the root directory *)
Record DirItem := mkItem {
  it_name : string;
  it_main : list Z;
  it_ext : list Z;
  it_attr : Z;
  it_times : list Z * list Z;
  it_cluster : Z;
  it_size : Z;
}.
Definition short_slot (it : DirItem) : list Z :=
  normal_entry (it_main it) (it_ext it) (it_attr it) (it_times it).1 (it_times it).2 (it_cluster it) (it_size it).
Definition item_slots (it : DirItem) : list (list Z) :=
  lfn_slots (short_checksum (it_main it ++ it_ext it)) (name_parts (it_name it)) ++ [short_slot it].

(** A short name: ASCII without lower case letters, padded with spaces behind the name. *)
Definition short_char (c : Z) : Prop := 0x20 ≤ c < 0x80 ∧ ¬ (0x61 ≤ c ≤ 0x7a).
Record item_ok (it : DirItem) : Prop := {
  io_units : Forall name_unit (name_units (it_name it)) ∧ (0 < length (name_units (it_name it)) ≤ 255)%nat;
  io_main : length (it_main it) = 8%nat ∧ Forall short_char (it_main it) ∧ it_main it !! 0%nat ≠ Some 0x20;
  io_ext : length (it_ext it) = 3%nat ∧ Forall short_char (it_ext it) ∧
    (it_ext it !! 0%nat ≠ Some 0x20 ∨ it_ext it = replicate 3 0x20);
  io_attr : is_uint 8 (it_attr it) ∧ Z.land (it_attr it) VOLUME_ID = 0;
  io_times : length (it_times it).1 = 8%nat ∧ length (it_times it).2 = 4%nat;
  io_fields : is_uint 32 (it_cluster it) ∧ is_uint 32 (it_size it);
}.

(** The root directory: the label of the volume, the items, and nothing behind them. *)
Definition label_slot (label t1 t2 : list Z) : list Z := normal_entry (take 8 label) (drop 8 label) VOLUME_ID t1 t2 0 0.
Definition directory_slots (label t1 t2 : list Z) (items : list DirItem) : list (list Z) :=
  label_slot label t1 t2 :: (items ≫= item_slots).

(** *** Parts of names *)
Lemma parts_fuel_elem fuel units p : p ∈ parts_fuel fuel units → (length p ≤ 13)%nat ∧ ∀ x, x ∈ p → x ∈ units.
Proof.
  revert units. induction fuel as [|fuel IH]; intros units; [by intros ?%elem_of_nil|].
  destruct units as [|u units]; [by intros ?%elem_of_nil|]. cbn [parts_fuel]. intros [->|Hp]%elem_of_cons.
  - rewrite length_take. split; [lia|]. intros x Hx. rewrite <- (take_drop 13 (u :: units)). apply elem_of_app. by left.
  - destruct (IH _ Hp) as [? Hx]. split; [done|]. intros x ?%Hx. rewrite <- (take_drop 13 (u :: units)). apply elem_of_app. by right.
Qed.
Lemma parts_fuel_length fuel units : (length (parts_fuel fuel units) * 13 < length units + 13)%nat.
Proof.
  revert units. induction fuel as [|fuel IH]; intros units; [cbn; lia|]. destruct units as [|u units]; [cbn; lia|].
  cbn [parts_fuel]. specialize (IH (drop 13 (u :: units))). destruct (parts_fuel fuel _) as [|q l] eqn:E; [cbn in *; lia|].
  assert (drop 13 (u :: units) ≠ []) as Hne by (intros En; rewrite En in E; by destruct fuel).
  assert (13 < length (u :: units))%nat by (destruct (decide (13 < length (u :: units))%nat); [done|]; destruct Hne; apply drop_ge; lia).
  rewrite length_drop in IH. cbn [length] in *. lia.
Qed.
Lemma name_parts_single name : (0 < length (name_units name) ≤ 13)%nat → name_parts name = [name_units name].
Proof.
  unfold name_parts. intros Hl. destruct (name_units name) as [|u us] eqn:E; [cbn in Hl; lia|]. cbn [length parts_fuel].
  rewrite take_ge, drop_ge by lia. by destruct us.
Qed.
Lemma name_units_ascii name : Forall (λ c, c < 0x80) (Stage2Start.chars name) → name_units name = Stage2Start.chars name.
Proof.
  intros Ha. unfold name_units. rewrite from_utf8_ascii by done.
  change (default [] (Some (Stage2Start.chars name))) with (Stage2Start.chars name). induction Ha as [|c l Hc _ IH]; [done|]. cbn [mbind list_bind]. rewrite IH. unfold encode_utf16.
  by rewrite (proj2 (Z.ltb_lt _ _)) by lia.
Qed.

(** Units that decode to characters outside of the surrogates and supplements are these characters. *)
Lemma decode_utf16_inv us cs : Forall (λ c, c < 0x10000) cs → decode_utf16 us = Some <$> cs → us = cs.
Proof.
  intros Hc. revert us. induction Hc as [|c cs Hc _ IH]; intros us Hd.
  - destruct us as [|u us]; [done|]. cbn [decode_utf16] in Hd. destruct (in_range _ _ u); [done|]. destruct (in_range _ _ u); [|done].
    destruct us; [done|]. by destruct (in_range _ _ _).
  - destruct us as [|u us]; [done|]. cbn [decode_utf16] in Hd. destruct (in_range _ _ u); [done|].
    destruct (in_range _ _ u) eqn:Er.
    + destruct us as [|u2 us]; [done|]. destruct (in_range _ _ u2); [|done]. cbn in Hd. injection Hd as Hv _. exfalso.
      pose proof (proj2 (Z.lor_nonneg (Z.shiftl (Z.land u 0x3FF) 10) (Z.land u2 0x3FF))) as Hn.
      assert (0 ≤ Z.land u 1023 ∧ 0 ≤ Z.land u2 1023) as [? ?] by (split; apply Z.land_nonneg; right; lia).
      assert (0 ≤ Z.shiftl (Z.land u 1023) 10) by (by apply Z.shiftl_nonneg). lia.
    + cbn in Hd. injection Hd as -> Hd. by rewrite (IH us Hd).
Qed.

(** *** Entries that a search passes over *)

(** A name that can be searched for: up to 13 ASCII characters, with a lower case letter, not as long
    as a volume label. *)
Record search_name (name : string) : Prop := {
  sn_ascii : Forall (λ c, 0 < c < 0x80) (Stage2Start.chars name);
  sn_length : (0 < length (Stage2Start.chars name) ≤ 13)%nat ∧ length (Stage2Start.chars name) ≠ 11%nat;
  sn_lower : Exists (λ c, 0x61 ≤ c ≤ 0x7a) (Stage2Start.chars name);
}.
#[global] Instance search_name_dec name : Decision (search_name name).
Proof.
  refine (cast_if_and3 (decide (Forall (λ c, 0 < c < 0x80) (Stage2Start.chars name)))
    (decide ((0 < length (Stage2Start.chars name) ≤ 13)%nat ∧ length (Stage2Start.chars name) ≠ 11%nat))
    (decide (Exists (λ c, 0x61 ≤ c ≤ 0x7a) (Stage2Start.chars name)))); abstract (by split || by intros []).
Defined.

Lemma search_simple name : search_name name → Forall simple_char (Stage2Start.chars name).
Proof. intros [H _ _]. eapply Forall_impl; [exact H|]. unfold simple_char. intros; cbv beta in *; lia. Qed.
Lemma search_parts name : search_name name → name_parts name = [Stage2Start.chars name].
Proof.
  intros [Ha [Hl _] _]. rewrite <- (name_units_ascii name) in Hl |- * by (eapply Forall_impl; [exact Ha|]; intros; cbv beta in *; lia).
  by apply name_parts_single.
Qed.

(** The part of another name. *)
Lemma skips_part name ord cks p : search_name name → Forall name_unit p → (length p ≤ 13)%nat → p ≠ Stage2Start.chars name →
  in_use [ord] → skips (Stage2Start.chars name) (lfn_entry ord cks p).
Proof.
  intros Hn Hp Hl Hne Hu. destruct (lfn_parse_units ord cks p Hp Hl) as (e & He & Hc). split; [by apply length_lfn_entry|].
  split; [apply Hu|]. right. rewrite He. cbn [eq_name]. rewrite Hc. apply bool_decide_false. intros Hd.
  apply decode_utf16_inv in Hd; [done|]. eapply Forall_impl; [apply (sn_ascii _ Hn)|]. intros; cbv beta in *; lia.
Qed.

(** A field of a short name, as the driver reads it. *)
Lemma slice_to_string_short s : Forall (λ c, 0x20 ≤ c < 0x80) s →
  s !! 0%nat ≠ Some 0x20 ∨ Forall (λ c, c = 0x20) s → ∃ l, slice_to_string s = Ret l ∧ ∀ c, c ∈ l → c ∈ s.
Proof.
  intros Ha Hs. unfold slice_to_string. destruct s as [|c s]; [by exists []|]. destruct (decide (c = 0x20)) as [->|Hc].
  - destruct Hs as [?|Hs]; [done|]. exists []. split; [|by intros ? ?%elem_of_nil].
    assert (∀ l, Forall (λ c, c = 0x20) l → position_from (λ c, negb (c =? SKIP_SPACE)) l = None) as ->; [|done..].
    induction 1 as [|x l -> _ IH]; [done|]. cbn [position_from]. by rewrite IH.
  - cbn [position_from]. unfold SKIP_SPACE at 1. rewrite (proj2 (Z.eqb_neq _ _) Hc). cbn [negb].
    set (k := match position_from _ s with Some (i, _) => i | None => length (c :: s) end).
    assert (k ≤ length (c :: s))%nat as Hk.
    { unfold k. destruct (position_from _ s) as [[i r]|] eqn:E; [|done]. cbn. enough (i < length s)%nat by lia. clear -E. revert i r E.
      induction s as [|x s IH]; intros i r E; [done|]. cbn [position_from] in E. destruct (x =? SKIP_SPACE); [injection E as <- _; cbn; lia|].
      destruct (position_from _ s) as [[j q]|]; [|done]. cbn in E. injection E as <- <-. specialize (IH j q eq_refl). cbn. lia. }
    unfold slice_range. rewrite decide_True by lia. cbn [mbind res_bind]. rewrite drop_0.
    rewrite from_utf8_ascii; [|apply Forall_take; eapply Forall_impl; [exact Ha|]; intros; cbv beta in *; lia]. eexists. split; [done|].
    intros x Hx. rewrite <- (take_drop (0 + k - 0) (c :: s)). apply elem_of_app. by left.
Qed.
Lemma item_strings it : item_ok it → ∃ m e, slice_to_string (it_main it) = Ret m ∧ slice_to_string (it_ext it) = Ret e ∧
  ∀ c, c ∈ m ++ e → short_char c.
Proof.
  intros [_ (_ & Hm & Hm0) (_ & He & He0) _ _ _].
  assert (∀ l, Forall short_char l → Forall (λ c, 0x20 ≤ c < 0x80) l) as Ha by (intros l H; eapply Forall_impl; [exact H|]; by intros ? []).
  destruct (slice_to_string_short (it_main it)) as (m & Em & Im); [by apply Ha|by left|].
  destruct (slice_to_string_short (it_ext it)) as (e & Ee & Ie); [by apply Ha| |].
  { destruct He0 as [?| ->]; [by left|]. right. by apply Forall_replicate. }
  exists m, e. split_and!; [done|done|]. rewrite !Forall_forall in *. intros c [?|?]%elem_of_app; auto.
Qed.
Lemma item_attr it : item_ok it → it_attr it ≠ LONG_NAME.
Proof. intros [_ _ _ [_ Ha] _ _] E. by rewrite E in Ha. Qed.
Lemma item_in_use it : item_ok it → in_use (it_main it).
Proof.
  intros [_ (Hl & Hm & _) _ _ _ _]. destruct (it_main it) as [|c l]; [done|]. apply Forall_cons in Hm as [[Hc _] _].
  unfold in_use, END_OF_DIRECTORY_PREFIX, UNUSED_ENTRY_PREFIX. cbn. split; intros [= ->]; lia.
Qed.
Lemma skips_short name it : search_name name → item_ok it → skips (Stage2Start.chars name) (short_slot it).
Proof.
  intros Hn Hit. pose proof Hit as [_ (Lm & _) (Le & _) _ [L1 L2] [Hc Hs]]. unfold short_slot.
  split; [by apply length_normal_entry|]. pose proof (item_in_use it Hit) as [Hu _]. unfold in_use in Hu.
  split; [destruct (it_main it); [done|exact Hu]|]. right. destruct (item_strings it Hit) as (m & e & Em & Ee & Hme).
  rewrite (normal_parse _ _ _ _ _ _ _ m e) by (done || by apply item_attr). cbn [eq_name short_filename_main short_filename_extension].
  apply bool_decide_false. intros E. pose proof (sn_lower _ Hn) as Hl. rewrite <- E in Hl.
  apply Exists_exists in Hl as (c & Hc1 & Hc2). by destruct (Hme c Hc1) as [_ []].
Qed.

(** A label that the driver can pass over: ASCII without spaces. *)
Definition label_ok (label : list Z) : Prop :=
  length label = 11%nat ∧ Forall (λ c, 0 ≤ c < 0x80 ∧ c ≠ 0x20) label ∧ label !! 0%nat ≠ Some 0.
Lemma slice_to_string_full s : Forall (λ c, 0 ≤ c < 0x80 ∧ c ≠ 0x20) s → slice_to_string s = Ret s.
Proof.
  intros Hs. unfold slice_to_string. destruct s as [|c s]; [done|]. cbn [position_from]. pose proof Hs as [[_ Hc] Hr]%Forall_cons.
  unfold SKIP_SPACE at 1. rewrite (proj2 (Z.eqb_neq _ _) Hc). cbn [negb]. rewrite position_from_none by (eapply Forall_impl; [exact Hr|]; by intros ? []).
  unfold slice_range. rewrite decide_True by lia. cbn [mbind res_bind]. rewrite drop_0, Nat.add_0_l, Nat.sub_0_r, firstn_all.
  by rewrite from_utf8_ascii by (eapply Forall_impl; [exact Hs|]; intros ? []; lia).
Qed.
Lemma skips_label name label t1 t2 : search_name name → label_ok label → length t1 = 8%nat → length t2 = 4%nat →
  skips (Stage2Start.chars name) (label_slot label t1 t2).
Proof.
  intros Hn (Hl & Ha & H0) L1 L2. unfold label_slot. assert (length (take 8 label) = 8%nat ∧ length (drop 8 label) = 3%nat) as [Lm Le]
    by (rewrite length_take, length_drop; lia).
  split; [by apply length_normal_entry|]. split.
  { unfold normal_entry. rewrite lookup_app_l by lia. by rewrite lookup_take_lt by lia. }
  right. rewrite (normal_parse _ _ _ _ _ _ _ (take 8 label) (drop 8 label))
    by (done || apply slice_to_string_full; by (apply Forall_take || apply Forall_drop)).
  cbn [eq_name short_filename_main short_filename_extension]. rewrite take_drop. apply bool_decide_false. intros E.
  destruct (proj2 (sn_length _ Hn)). by rewrite <- E.
Qed.
(** With a space in front of its last two characters, a label makes any search panic. *)
Lemma label_panics name a b c label t1 t2 rest : length label = 8%nat → Forall (λ c, 0 ≤ c < 0x80 ∧ c ≠ 0x20) label →
  label !! 0%nat ≠ Some 0 → length t1 = 8%nat → length t2 = 4%nat → a = 0x20 → b ≠ 0x20 → c ≠ 0x20 →
  ∃ msg, lookup_file (raw_entries (label_slot (label ++ [a; b; c]) t1 t2 ++ rest)) name = Panic msg.
Proof.
  intros Hl Ha H0 L1 L2 -> Hb Hc. unfold label_slot. rewrite take_app_length', drop_app_length' by done.
  unfold lookup_file. rewrite raw_entries_in_use.
  2:{ by apply length_normal_entry. }
  2:{ unfold normal_entry, in_use. destruct label as [|x l]; [done|]. apply Forall_cons in Ha as [Hx _]. split; [done|]. cbn.
      unfold UNUSED_ENTRY_PREFIX. intros [= ->]. lia. }
  cbn [find_entry]. unfold RawDirectoryEntry_parse. set (raw := normal_entry _ _ _ _ _ _ _).
  assert (index raw 11 = Ret VOLUME_ID) as -> by (unfold raw, normal_entry; rewrite app_assoc; apply index_app; rewrite length_app, Hl; done).
  assert (slice_range raw 0 8 = Ret label) as E0 by (apply (slice_app3 [] label); rewrite ?Hl; done).
  assert (slice_range raw 8 11 = Ret [0x20; b; c]) as E8 by (apply (slice_app3 label [0x20; b; c]); rewrite ?Hl; done).
  cbn [mbind res_bind]. change (VOLUME_ID =? LONG_NAME) with false. cbn match. rewrite E0. cbn [mbind res_bind].
  rewrite slice_to_string_full, E8 by done. cbn [mbind res_bind]. unfold slice_to_string. cbn [position_from].
  change (negb (0x20 =? SKIP_SPACE)) with false. unfold SKIP_SPACE. rewrite (proj2 (Z.eqb_neq _ _) Hb). cbn [negb fmap option_fmap option_map position_from].
  rewrite (proj2 (Z.eqb_neq _ _) Hc). cbn. by eexists.
Qed.

Lemma lfn_order_in_use n i : (i < n ≤ 20)%nat → in_use [lfn_order n i].
Proof.
  intros H. unfold in_use, lfn_order, END_OF_DIRECTORY_PREFIX, UNUSED_ENTRY_PREFIX. cbn [lookup list_lookup].
  destruct (decide _); split; intros [= E]; lia.
Qed.
Lemma name_parts_ok it p : item_ok it → p ∈ name_parts (it_name it) → Forall name_unit p ∧ (length p ≤ 13)%nat.
Proof.
  intros [[Hu _] _ _ _ _ _] [Hl Hin]%parts_fuel_elem. split; [|done]. rewrite Forall_forall in *. auto.
Qed.
(** All entries of an item of another name. *)
Lemma skips_item name it : search_name name → item_ok it → Stage2Start.chars name ∉ name_parts (it_name it) →
  Forall (skips (Stage2Start.chars name)) (item_slots it).
Proof.
  intros Hn Hit Hno. unfold item_slots. apply Forall_app. split; [|by apply Forall_singleton, skips_short].
  unfold lfn_slots. apply Forall_reverse, Forall_lookup. intros i x Hx. rewrite list_lookup_imap in Hx.
  destruct (name_parts (it_name it) !! i) as [p|] eqn:E; [|done]. cbn in Hx. injection Hx as <-.
  pose proof (list_elem_of_lookup_2 _ _ _ E) as Hin. destruct (name_parts_ok it p Hit Hin) as [Hu Hl].
  apply skips_part; [done|done|done|by intros ->|]. apply lfn_order_in_use. split; [by eapply lookup_lt_Some|].
  destruct (io_units _ Hit) as [_ ?]. pose proof (parts_fuel_length (length (name_units (it_name it))) (name_units (it_name it))).
  unfold name_parts. lia.
Qed.

Lemma item_slots_search name it : search_name name → it_name it = name →
  mjoin (item_slots it) = lfn_entry (lfn_order 1 0) (short_checksum (it_main it ++ it_ext it)) (Stage2Start.chars name) ++ short_slot it.
Proof.
  intros Hn Hname. unfold item_slots. rewrite Hname, search_parts, join_app by done. cbn [mjoin list_join]. rewrite app_nil_r.
  f_equal. apply app_nil_r.
Qed.

(** The search for a name in a root directory finds the item of this name, and no other. *)
Lemma lookup_directory name label t1 t2 items rest : search_name name → label_ok label → length t1 = 8%nat → length t2 = 4%nat →
  Forall item_ok items → (∀ it, it ∈ items → it_name it ≠ name → Stage2Start.chars name ∉ name_parts (it_name it)) →
  rest = [] ∨ rest !! 0%nat = Some END_OF_DIRECTORY_PREFIX →
  lookup_file (raw_entries (mjoin (directory_slots label t1 t2 items) ++ rest)) (Stage2Start.chars name) =
    Ret (match list_find (λ it, it_name it = name) items with
         | Some (_, it) => if Z.land (it_attr it) DIRECTORY =? 0 then Some (mkFile (it_cluster it) (it_size it)) else None
         | None => None
         end).
Proof.
  intros Hn Hlab L1 L2 Hok Hno Hrest. rewrite Forall_forall in Hok.
  assert (∀ l, (∀ it, it ∈ l → it ∈ items ∧ it_name it ≠ name) →
    Forall (skips (Stage2Start.chars name)) (directory_slots label t1 t2 l)) as Hskip.
  { intros l Hl. constructor; [by apply skips_label|]. apply Forall_bind, Forall_forall. intros it [Hin Hne]%Hl. apply skips_item; auto. }
  destruct (list_find (λ it, it_name it = name) items) as [[i it]|] eqn:E.
  - apply list_find_Some in E as (Hi & Hname & Hbefore). pose proof (list_elem_of_lookup_2 _ _ _ Hi) as Hin. pose proof (Hok it Hin) as Hit.
    pose proof Hit as [_ (Lm & _) (Le & _) _ [L3 L4] [Hc Hs]]. destruct (item_strings it Hit) as (m & e & Em & Ee & _).
    set (pre := take i items). assert (mjoin (directory_slots label t1 t2 items) ++ rest = mjoin (directory_slots label t1 t2 pre) ++
      lfn_entry (lfn_order 1 0) (short_checksum (it_main it ++ it_ext it)) (Stage2Start.chars name) ++ short_slot it ++
      mjoin (drop (S i) items ≫= item_slots) ++ rest) as ->.
    { unfold directory_slots. rewrite <- (take_drop_middle items i it Hi) at 1. fold pre. rewrite bind_app. cbn [mbind list_bind].
      cbn [mjoin list_join]. rewrite !join_app, (item_slots_search name) by done. by rewrite <- !app_assoc. }
    apply (lookup_file_spec (Stage2Start.chars name) (directory_slots label t1 t2 pre) _ _ _ _ _ _ _ _ _ _ m e);
      try done; try (by apply item_attr); [|by apply search_simple|apply Hn|by apply item_in_use].
    apply Hskip. intros it' (j & Hj)%list_elem_of_lookup. unfold pre in Hj. apply lookup_take_Some in Hj as [Hj Hlt].
    split; [by eapply list_elem_of_lookup_2|by eapply Hbefore].
  - apply list_find_None in E. apply lookup_file_absent; [|done]. apply Hskip. intros it Hin. split; [done|].
    rewrite Forall_forall in E. by apply E.
Qed.

(** ** The whole volume *)

(** The piece of a path in the root directory. *)
Definition root_name (path : string) : string := default EmptyString (head (DiskImage.path_pieces path)).
Definition plain_path (path : string) : Prop := Forall (λ s, s ∉ [""; "."; ".."]) (DiskImage.path_pieces path).

(** The geometry of a volume with sectors of 512 bytes. *)
Definition v_system (b : Bpb) : Z := reserved_sector_count b + num_fats b * fat_size_16 b + root_entry_count b * 32 / 512.
Definition v_clusters (b : Bpb) : Z := (total_sectors_16 b - v_system b) / sectors_per_cluster b.
Definition v_cluster (b : Bpb) (bytes : Z → Z) (c : Z) : list Z :=
  mem_read bytes ((v_system b + (c - 2) * sectors_per_cluster b) * 512) (sectors_per_cluster b * 512).
(** FAT12 and FAT16 are told apart by the number of clusters. *)
Definition v_type (b : Bpb) (ty : FatType) : Prop :=
  match ty with Fat12 => v_clusters b < 4085 | Fat16 => 4085 ≤ v_clusters b < 65525 | Fat32 => False end.

Record fields_ok (root_entries : Z) (b : Bpb) : Prop := {
  fo_bytes : bytes_per_sector b = 512;
  fo_cluster : 1 ≤ sectors_per_cluster b ≤ 128;
  fo_reserved : 1 ≤ reserved_sector_count b < 2 ^ 16;
  fo_fats : 1 ≤ num_fats b < 2 ^ 8;
  fo_root : root_entry_count b = root_entries ∧ 0 < root_entries < 2 ^ 16 ∧ (root_entries * 32) mod 512 = 0;
  fo_total : 0 < total_sectors_16 b < 2 ^ 16 ∧ total_sectors_32 b = 0;
  fo_fat : 0 < fat_size_16 b < 2 ^ 16 ∧ fat_size_32 b = 0 ∧ root_cluster b = 0;
  fo_system : v_system b ≤ total_sectors_16 b;
}.

(** The clusters of a file: each entry of the table has the next one, the last an end mark. *)
Definition end_mark (ty : FatType) : Z := match ty with Fat12 => 0xFF8 | Fat16 => 0xFFF8 | Fat32 => 0x0FFFFFF8 end.
Inductive fat_chain (ty : FatType) (max : Z) (table : list Z) : Z → list Z → Prop :=
  | fat_last c e : 2 ≤ c ≤ max → table !! Z.to_nat c = Some e → end_mark ty ≤ e → fat_chain ty max table c [c]
  | fat_more c c' cs : 2 ≤ c ≤ max → table !! Z.to_nat c = Some c' → fat_chain ty max table c' cs → fat_chain ty max table c (c :: cs).

Record file_data (bytes : Z → Z) (b : Bpb) (ty : FatType) (table : list Z) (data : list Z) (it : DirItem) (cs : list Z) : Prop := {
  fd_file : Z.land (it_attr it) DIRECTORY = 0;
  fd_size : it_size it = Z.of_nat (length data);
  fd_chain : fat_chain ty (v_clusters b + 1) table (it_cluster it) cs;
  fd_fits : Z.of_nat (length data) ≤ Z.of_nat (length cs) * (sectors_per_cluster b * 512) <
    Z.of_nat (length data) + sectors_per_cluster b * 512;
  fd_data : take (length data) (cs ≫= v_cluster b bytes) = data;
}.

(** The first [len] bytes are a volume with the given label and files, formatted with [root_entries]
    entries for the root directory. *)
Record fat_volume (root_entries : Z) (bytes : Z → Z) (len : Z) (label : list Z) (files : gmap string (list Z))
    (b : Bpb) (ty : FatType) (table : list Z) (items : list DirItem) : Prop := {
  fv_sector : ∃ head media geometry rest, length head = 11%nat ∧ length geometry = 8%nat ∧ length rest = 476%nat ∧
    mem_read bytes 0 512 = mjoin (boot_record head b media geometry rest);
  fv_fields : fields_ok root_entries b;
  fv_type : v_type b ty;
  fv_table : mem_read bytes (reserved_sector_count b * 512) (Z.of_nat (length (fat_bytes ty table))) = fat_bytes ty table;
  fv_entries x : x ∈ table → is_uint (entry_bits ty) x;
  fv_length : v_clusters b + 2 ≤ Z.of_nat (length table) < 2 ^ 40;
  fv_even : ty = Fat12 → Nat.Even (length table);
  fv_inside : reserved_sector_count b * 512 + Z.of_nat (length (fat_bytes ty table)) ≤ len ∧ total_sectors_16 b * 512 ≤ len ∧ 512 ≤ len;
  fv_root : ∃ t1 t2 rest, length t1 = 8%nat ∧ length t2 = 4%nat ∧
    mem_read bytes ((reserved_sector_count b + num_fats b * fat_size_16 b) * 512) (root_entries * 32) =
      mjoin (directory_slots label t1 t2 items) ++ rest ∧ (rest = [] ∨ rest !! 0%nat = Some 0);
  fv_items : Forall item_ok items ∧ NoDup (it_name <$> items);
  fv_file name data : files !! name = Some data → data ≠ [] → DiskImage.path_pieces name = [name] →
    ∃ it cs, it ∈ items ∧ it_name it = name ∧ file_data bytes b ty table data it cs;
  fv_only it : it ∈ items → ∃ path, is_Some (files !! path) ∧ root_name path = it_name it ∧
    (path ≠ it_name it → Z.land (it_attr it) DIRECTORY ≠ 0);
}.

(** *** The geometry as the driver computes it *)
Section Geometry.
Context (root_entries : Z) (b : Bpb) (Hb : fields_ok root_entries b).

Lemma v_fat_size : fat_size_in_sectors b = fat_size_16 b.
Proof.
  destruct (fo_fat _ _ Hb) as (H & H32 & _). unfold fat_size_in_sectors. rewrite H32, (proj2 (Z.eqb_neq (fat_size_16 b) 0)) by lia. done.
Qed.
Lemma v_total : total_sectors b = total_sectors_16 b.
Proof. destruct (fo_total _ _ Hb). unfold total_sectors. by rewrite (proj2 (Z.eqb_neq (total_sectors_16 b) 0)) by lia. Qed.
Lemma v_root_bytes : root_entry_count b * 32 = root_entry_count b * 32 / 512 * 512 ∧ 0 ≤ root_entry_count b * 32 / 512.
Proof.
  destruct (fo_root _ _ Hb) as (-> & ? & ?). pose proof (Z.div_mod (root_entries * 32) 512). split; [lia|apply Z.div_pos; lia].
Qed.
Lemma v_system_sectors : system_sectors b = v_system b.
Proof.
  destruct v_root_bytes as [E ?]. unfold system_sectors, v_system, root_sectors. rewrite v_fat_size, (fo_bytes _ _ Hb). f_equal.
  symmetry. apply Z.div_unique with (r := 511); lia.
Qed.
Lemma v_clusters_eq : clusters b = v_clusters b.
Proof. unfold clusters, v_clusters. by rewrite v_total, v_system_sectors. Qed.
Lemma v_data_start : data_start b = v_system b * 512.
Proof.
  destruct v_root_bytes as [E _]. unfold data_start, v_system. rewrite v_fat_size, (fo_bytes _ _ Hb). lia.
Qed.
Lemma v_cluster_bytes : cluster_bytes b = sectors_per_cluster b * 512.
Proof. unfold cluster_bytes. rewrite (fo_bytes _ _ Hb). lia. Qed.
Lemma v_bpb_ok : bpb_ok b.
Proof.
  pose proof Hb as [H1 H2 H3 H4 (H5 & H6 & _) [H7 H8] (H9 & H10 & _) H11].
  split; unfold is_uint; rewrite ?H1, ?H5, ?H8, ?H10, ?v_system_sectors, ?v_total; lia.
Qed.
Lemma v_type_count ty : v_type b ty → type_of_count (clusters b) = ty ∧ ty ≠ Fat32.
Proof.
  rewrite v_clusters_eq. unfold v_type, type_of_count.
  destruct ty; intros H; [rewrite (proj2 (Z.ltb_lt _ _)) by lia|rewrite (proj2 (Z.ltb_ge _ _)), (proj2 (Z.ltb_lt _ _)) by lia|]; done.
Qed.
Lemma v_chain ty table c cs : v_type b ty → fat_chain ty (v_clusters b + 1) table c cs → chain ty (clusters b + 1) table c cs ∧ 0 ≤ c.
Proof.
  rewrite v_clusters_eq. intros Hty Hc. assert (∀ x, 2 ≤ x ≤ v_clusters b + 1 →
    classify_fat_entry ty x (v_clusters b + 1) = inl (AllocatedCluster x)) as Hcl.
  { intros x Hx. unfold classify_fat_entry. rewrite (proj2 (Z.eqb_neq x 0)), (proj2 (Z.eqb_neq x 1)), (proj2 (Z.leb_le _ _)) by lia. done. }
  split; [|destruct Hc; lia]. induction Hc as [c e Hc He Hend|c c' cs Hc Hn Hch IH].
  - apply chain_next with (e := e); [by apply Hcl|done|]. apply chain_end. unfold classify_fat_entry.
    assert (v_clusters b + 1 < end_mark ty ∧ fat_entry_defective ty < end_mark ty ∧ 1 < end_mark ty) as (? & ? & ?) by (destruct ty; cbn in *; lia).
    rewrite (proj2 (Z.eqb_neq e 0)), (proj2 (Z.eqb_neq e 1)), (proj2 (Z.leb_gt _ _)), (proj2 (Z.ltb_ge _ _)), (proj2 (Z.eqb_neq _ _)) by lia. done.
  - by apply chain_next with (e := c'); [apply Hcl| |].
Qed.
End Geometry.
End FatFormat.
