(* ===== verification/DiskImageProofs.v ===== *)
(** * Disk images: what is written is what the stages read

    The properties of [DiskImage] against the documentation of the crates it
    uses: the partition table of an MBR image, read by the code of the boot
    sector and of the second stage, leads to the second stage and to the FAT
    volume, and the volume has exactly the files of the builder. *)
From stdpp Require Import gmap strings sorting pretty.
From S2P Require Import Prelude Memory Disk BootSector Config Logger Stage2Start DiskImage.
Import Memory DiskImage.

Module DiskImageProofs.

(** ** Writing to a file *)
Lemma write_at_end c pos b : (length c ≤ pos)%nat → write_at c pos b = c ++ replicate (pos - length c) 0 ++ b.
Proof.
  intros Hl. unfold write_at. rewrite take_ge, (drop_ge c), app_nil_r, <- app_assoc; [done|lia|].
  rewrite length_app, length_replicate. lia.
Qed.
Lemma length_write_at c pos b : (pos + length b ≤ length c)%nat → length (write_at c pos b) = length c.
Proof. intros Hl. unfold write_at. rewrite !length_app, length_take, length_app, length_drop. lia. Qed.
Lemma write_at_read c pos b : take (length b) (drop pos (write_at c pos b)) = b.
Proof.
  unfold write_at. set (t := take pos _). assert (length t = pos) as Ht.
  { unfold t. rewrite length_take, length_app, length_replicate. lia. }
  rewrite <- Ht at 1. rewrite drop_app_length. by rewrite take_app_length.
Qed.
Lemma length_set_len c n : length (set_len c n) = n.
Proof. unfold set_len. rewrite length_take, length_app, length_replicate. lia. Qed.

(** The bytes of a file from a sector on. *)
Definition sectors_at (image : list Z) (lba : Z) (n : nat) : list Z := take n (drop (Z.to_nat (lba * 512)) image).

(** ** The partition table *)
Definition entry_of (e : MBRPartitionEntry) : Stage2Start.RawEntry :=
  Stage2Start.mkRawEntry (BootSector.mkEntry (boot e =? 0x80) (sys e) (starting_lba e) (sectors e))
    (boot e) (first_chs e) (last_chs e).
Definition unused_entry : MBRPartitionEntry := mkMBREntry 0 [0; 0; 0] 0 [0; 0; 0] 0 0.
Definition entry_fits (e : MBRPartitionEntry) : Prop :=
  length (first_chs e) = 3%nat ∧ length (last_chs e) = 3%nat ∧ is_uint 32 (starting_lba e) ∧ is_uint 32 (sectors e).

(** What mbrman documents: a boot sector with an empty partition table and the boot signature can
    be read; partitions are numbered from 1; the sector that is written has the code that was read,
    the four entries and the signature. *)
Class MbrmanLaws (MBR : Type) {MM : Mbrman MBR} := {
  mbr_code : MBR → list Z;
  mbr_entries : MBR → list MBRPartitionEntry;
  read_from_ok bs : length bs = 512%nat → drop 446 bs = replicate 64 0 ++ [0x55; 0xaa] →
    ∃ m, read_from bs 512 = Some m ∧ mbr_code m = take 446 bs ∧ mbr_entries m = replicate 4 unused_entry;
  iter_ok m : mbr_iter m = imap (λ i e, (S i, e)) (mbr_entries m);
  is_unused_ok e : is_unused e = (sys e =? 0);
  set_partition_ok m i e : (i < length (mbr_entries m))%nat →
    mbr_code (set_partition m (S i) e) = mbr_code m ∧ mbr_entries (set_partition m (S i) e) = <[i := e]> (mbr_entries m);
  write_into_ok m : length (mbr_code m) = 446%nat → length (mbr_entries m) = 4%nat → Forall entry_fits (mbr_entries m) →
    write_into m [] = Some (mbr_code m ++ (mbr_entries m ≫= λ e, Stage2Start.raw_bytes (entry_of e)) ++ [0x55; 0xaa], 512);
  CHS_empty_ok : length CHS_empty = 3%nat;
}.

Lemma open_create_ok `{HF : HostFs} path context h : can_create path = true → open_create path context h = Ret (<[path := []]> h).
Proof. unfold open_create, open_create_in, can_create. by intros ->. Qed.

Section Mbr.
Context `{HF : HostFs} {MBR : Type} `{HM : MbrmanLaws MBR} `{HT : Stage2Start.MbrLaws}.

Lemma sector_count_ok size context : 0 < size < 2 ^ 40 →
  returns (DiskImage.sector_count size context) (λ n, 0 < n < 2 ^ 32 ∧ size ≤ n * 512 ∧ n * 512 < size + 512).
Proof.
  intros Hs. unfold DiskImage.sector_count, SECTOR_SIZE. rewrite sub_u_ok by lia. cbn [mbind res_bind].
  pose proof (Z.div_mod (size - 1) 512 ltac:(lia)). pose proof (Z.mod_pos_bound (size - 1) 512 ltac:(lia)).
  assert (0 ≤ (size - 1) / 512 < 2 ^ 32 - 1) by lia. rewrite add_u_ok by lia. cbn [mbind res_bind].
  rewrite try_from_u_ok by (unfold is_uint; lia). cbn [returns]. lia.
Qed.

(** An image as the stages expect it: the boot sector's code, the second stage in the partition [e0]
    that the boot sector reads, and the FAT volume in the partition [e1] that the second stage reads. *)
Record mbr_layout (bootsector second_stage fat image : list Z) (e0 : BootSector.PartitionTableEntry)
    (e1 : Stage2Start.PartitionTableEntry) : Prop := {
  ml_code : take 446 image = take 446 bootsector;
  ml_first : BootSector.get_partition (take 64 (drop 446 image)) 0 = Ret e0;
  ml_first_lba : BootSector.logical_block_address e0 = 1;
  ml_first_size : Z.of_nat (length second_stage) ≤ BootSector.sector_count e0 * 512 < Z.of_nat (length second_stage) + 512;
  ml_second_stage : sectors_at image 1 (length second_stage) = second_stage;
  ml_second : (parts ← Stage2Start.parse_partitions (take 64 (drop 446 image)); Stage2Start.find_fat_partition parts) = Ret e1;
  ml_second_lba : Stage2Start.logical_block_address e1 = 1 + BootSector.sector_count e0;
  ml_second_size : Z.of_nat (length fat) ≤ Stage2Start.sector_count e1 * 512;
  ml_fat : sectors_at image (Stage2Start.logical_block_address e1) (length fat) = fat;
  ml_length : Z.of_nat (length image) = Stage2Start.logical_block_address e1 * 512 + Z.of_nat (length fat);
}.

Lemma check_unused (m : MBR) : mbr_entries m = replicate 4 unused_entry →
  foldM (λ _ '(index, partition),
           if negb (is_unused partition) then Err ("partition " +:+ pretty index +:+ " should be unused") else Ret ())
    () (mbr_iter m) = Ret ().
Proof. intros He. rewrite iter_ok, He. cbn. by rewrite is_unused_ok. Qed.

(** The header with two partitions. *)
Lemma header_table (code rest : list Z) e0 e1 : length code = 446%nat → entry_fits e0 → entry_fits e1 →
  sys e0 = 0x20 → sys e1 = 0x0c →
  let image := (code ++ ([e0; e1; unused_entry; unused_entry] ≫= λ e, Stage2Start.raw_bytes (entry_of e)) ++ [0x55; 0xaa]) ++ rest in
  take 446 image = code ∧
  BootSector.get_partition (take 64 (drop 446 image)) 0 = Ret (Stage2Start.re_entry (entry_of e0)) ∧
  (parts ← Stage2Start.parse_partitions (take 64 (drop 446 image)); Stage2Start.find_fat_partition parts) =
    Ret (Stage2Start.partition_of (Stage2Start.re_entry (entry_of e1))).
Proof.
  intros Hc (F0 & L0 & B0 & N0) (F1 & L1 & B1 & N1) S0 S1 image.
  assert (∀ e, length (first_chs e) = 3%nat → length (last_chs e) = 3%nat → is_uint 32 (starting_lba e) →
    is_uint 32 (sectors e) → Stage2Start.raw_entry_ok (entry_of e)) as Hraw by (intros e ????; by split).
  pose proof (Hraw e0 F0 L0 B0 N0) as R0. pose proof (Hraw e1 F1 L1 B1 N1) as R1.
  assert (Stage2Start.raw_entry_ok (entry_of unused_entry)) as Ru by by apply Hraw.
  set (t := Stage2Start.raw_bytes (entry_of e0) ++ Stage2Start.raw_bytes (entry_of e1) ++
    Stage2Start.raw_bytes (entry_of unused_entry) ++ Stage2Start.raw_bytes (entry_of unused_entry)).
  assert (take 64 (drop 446 image) = t ∧ take 446 image = code) as [-> ->].
  { unfold image. cbn [mbind list_bind app]. rewrite app_nil_r, <- !app_assoc. rewrite <- Hc. rewrite drop_app_length, take_app_length.
    split; [|done]. fold t. rewrite !app_assoc. rewrite <- !(app_assoc _ [_; _] rest).
    assert (length t = 64%nat) as Ht by (unfold t; rewrite !length_app, !Stage2Start.raw_bytes_length by done; done).
    unfold t in *. rewrite <- Ht at 1. rewrite !app_assoc. rewrite <- (app_assoc _ [_; _] rest). by rewrite take_app_length. }
  split_and!; [done| |].
  - unfold t. pose proof (BootSector.get_partition_encoded 0 [] (Stage2Start.raw_bytes (entry_of e1) ++
      Stage2Start.raw_bytes (entry_of unused_entry) ++ Stage2Start.raw_bytes (entry_of unused_entry)) _ _ _ _ R0 eq_refl) as H. exact H.
  - unfold t. rewrite Stage2Start.parse_partitions_encoded by (repeat constructor; apply Ru || apply R0 || apply R1).
    cbn [mbind res_bind fmap list_fmap]. by apply Stage2Start.find_fat_ok.
Qed.

Lemma header_length (code : list Z) e0 e1 : length code = 446%nat → entry_fits e0 → entry_fits e1 →
  length (code ++ ([e0; e1; unused_entry; unused_entry] ≫= λ e, Stage2Start.raw_bytes (entry_of e)) ++ [0x55; 0xaa]) = 512%nat.
Proof.
  intros Hc (F0 & L0 & B0 & N0) (F1 & L1 & B1 & N1). cbn [mbind list_bind]. rewrite !length_app, Hc.
  rewrite !Stage2Start.raw_bytes_length by by split. done.
Qed.

(** The second stage and the volume behind the header. *)
Lemma layout_image bs second_stage fat e0 e1 : length bs = 512%nat → entry_fits e0 → entry_fits e1 →
  sys e0 = 0x20 → sys e1 = 0x0c → starting_lba e0 = 1 → starting_lba e1 = 1 + sectors e0 →
  Z.of_nat (length second_stage) ≤ sectors e0 * 512 < Z.of_nat (length second_stage) + 512 → Z.of_nat (length fat) ≤ sectors e1 * 512 →
  let header := take 446 bs ++ ([e0; e1; unused_entry; unused_entry] ≫= λ e, Stage2Start.raw_bytes (entry_of e)) ++ [0x55; 0xaa] in
  mbr_layout bs second_stage fat
    (write_at (write_at header (Z.to_nat 512) second_stage) (Z.to_nat (starting_lba e1 * 512)) fat)
    (Stage2Start.re_entry (entry_of e0)) (Stage2Start.partition_of (Stage2Start.re_entry (entry_of e1))).
Proof.
  intros Hl F0 F1 S0 S1 A0 A1 Hs Hf header.
  assert (length (take 446 bs) = 446%nat) as Hc by (rewrite length_take; lia).
  assert (length header = 512%nat) as Hh by by apply header_length.
  rewrite (write_at_end header) by lia. rewrite Hh. change (replicate (Z.to_nat 512 - 512) 0) with (@nil Z). cbn [app].
  rewrite write_at_end by (rewrite length_app; lia). set (pad := replicate _ _). set (rest := second_stage ++ pad ++ fat).
  replace ((header ++ second_stage) ++ pad ++ fat) with (header ++ rest) by (unfold rest; by rewrite <- !app_assoc).
  assert (length pad = (Z.to_nat (starting_lba e1 * 512) - 512 - length second_stage)%nat) as Hp
    by (unfold pad; rewrite length_replicate, length_app; lia).
  destruct (header_table (take 446 bs) rest e0 e1 Hc F0 F1 S0 S1) as (H1 & H2 & H3). fold header in H1, H2, H3.
  split; [done|exact H2|done|done| |exact H3|done|done| |].
  - unfold sectors_at. change (Z.to_nat (1 * 512)) with 512%nat. rewrite <- Hh.
    rewrite drop_app_length. unfold rest. by rewrite take_app_length.
  - cbn [Stage2Start.partition_of Stage2Start.re_entry entry_of Stage2Start.logical_block_address BootSector.logical_block_address].
    unfold sectors_at, rest. rewrite !app_assoc.
    replace (Z.to_nat (starting_lba e1 * 512)) with (length ((header ++ second_stage) ++ pad)) by (rewrite !length_app; lia).
    rewrite drop_app_length. by rewrite firstn_all.
  - unfold rest. rewrite !length_app, Hh, Hp.
    cbn [Stage2Start.partition_of Stage2Start.re_entry entry_of Stage2Start.logical_block_address BootSector.logical_block_address]. lia.
Qed.

(** A boot sector without partitions. *)
Definition bootsector_ok (bs : list Z) : Prop := length bs = 512%nat ∧ drop 446 bs = replicate 64 0 ++ [0x55; 0xaa].

Lemma create_mbr_disk_spec bs second_stage fat boot_path out h : bootsector_ok bs →
  0 < Z.of_nat (length second_stage) < 2 ^ 31 → 0 < Z.of_nat (length fat) < 2 ^ 40 →
  h !! boot_path = Some fat → can_create out = true →
  returns (create_mbr_disk bs second_stage boot_path out h) (λ h', ∃ image e0 e1,
    h' = <[out := image]> h ∧ mbr_layout bs second_stage fat image e0 e1).
Proof.
  intros [Hl Ht] Hs Hf Hb Hc. unfold create_mbr_disk, SECTOR_SIZE.
  destruct (read_from_ok bs Hl Ht) as (m & -> & Hcode & Hent). cbn [mbind res_bind]. rewrite check_unused by done. cbn [mbind res_bind].
  eapply returns_bind; [apply sector_count_ok; lia|]. intros n1 (Hn1 & Hn1' & Hn1'').
  unfold open_read. rewrite Hb. cbn [mbind res_bind]. rewrite add_u_ok by lia. cbn [mbind res_bind].
  eapply returns_bind; [apply sector_count_ok; lia|]. intros n2 (Hn2 & Hn2' & Hn2'').
  set (e0 := mkMBREntry BOOT_ACTIVE CHS_empty 0x20 CHS_empty 1 n1). set (e1 := mkMBREntry BOOT_ACTIVE CHS_empty 0x0c CHS_empty (1 + n1) n2).
  assert (entry_fits e0 ∧ entry_fits e1) as [F0 F1] by (unfold entry_fits, is_uint; cbn [first_chs last_chs starting_lba sectors e0 e1];
    rewrite CHS_empty_ok; split_and!; (done || lia)).
  destruct (set_partition_ok m 0 e0) as [C1 E1]; [rewrite Hent; cbn; lia|]. set (m1 := set_partition m 1 e0) in *.
  destruct (set_partition_ok m1 1 e1) as [C2 E2]; [rewrite E1, Hent; cbn; lia|]. set (m2 := set_partition m1 2 e1) in *.
  rewrite E1, Hent in E2. cbn in E2. assert (length (mbr_code m2) = 446%nat) as Hcl by (rewrite C2, C1, Hcode, length_take; lia).
  rewrite open_create_ok by done. cbn [mbind res_bind].
  rewrite write_into_ok; [|done|by rewrite E2|rewrite E2; repeat apply Forall_cons_2; try done; by apply Forall_nil_2]. cbn [mbind res_bind].
  rewrite mul_u_ok by lia. cbn [mbind res_bind]. change (512 =? 1 * 512) with true. cbn [assert_ mbind res_bind].
  rewrite mul_u_ok by lia. cbn [mbind res_bind returns]. eexists _, _, _. split; [by rewrite insert_insert_eq|].
  rewrite C2, C1, Hcode, E2. apply (layout_image bs second_stage fat e0 e1); (done || cbn [sectors e0 e1]; lia).
Qed.
End Mbr.

(** ** The FAT volume *)

(** What fatfs documents: a formatted volume has its label and is empty; creating, truncating and writing a
    file changes only that file, as long as there is room ([can_store] the files still to come);
    directories are created or reused; the image holds what was written. *)
Class FatFsLaws (V : Type) {FF : FatFs V} := {
  vol_files : V → gmap string (list Z);
  vol_label : V → list Z;
  vol_size : V → nat;
  can_store : V → list (string * list Z) → Prop;
  fits : nat → list (string * list Z) → Prop;
  image_files : list Z → gmap string (list Z);
  format_ok img label l : length label = 11%nat → fits (length img) l → ∃ img' v, format_volume img label = Some img' ∧
    filesystem_new img' = Some v ∧ vol_files v = ∅ ∧ (vol_label v, vol_size v) = (label, length img) ∧ can_store v l;
  create_dir_ok v d p b l : can_store v ((p, b) :: l) → d ∈ path_parents p → ∃ v', create_dir v d = Some v' ∧
    vol_files v' = vol_files v ∧ (vol_label v', vol_size v') = (vol_label v, vol_size v) ∧ can_store v' ((p, b) :: l);
  create_file_ok v p b l : can_store v ((p, b) :: l) → ∃ v', create_file v p = Some v' ∧
    vol_files v' = <[p := default [] (vol_files v !! p)]> (vol_files v) ∧
    (vol_label v', vol_size v') = (vol_label v, vol_size v) ∧ can_store v' ((p, b) :: l);
  truncate_ok v p b l : can_store v ((p, b) :: l) → is_Some (vol_files v !! p) → ∃ v', truncate v p = Some v' ∧
    vol_files v' = <[p := []]> (vol_files v) ∧ (vol_label v', vol_size v') = (vol_label v, vol_size v) ∧ can_store v' ((p, b) :: l);
  write_file_ok v p b l : can_store v ((p, b) :: l) → vol_files v !! p = Some [] → ∃ v', write_file v p b = Some v' ∧
    vol_files v' = <[p := b]> (vol_files v) ∧ (vol_label v', vol_size v') = (vol_label v, vol_size v) ∧ can_store v' l;
  volume_image_ok v : can_store v [] → image_files (volume_image v) = vol_files v ∧ length (volume_image v) = vol_size v;
}.
(** What formatting has fixed. *)
Abbreviation vol_format v := (vol_label v, vol_size v).

(** The contents of a source, and those of a set of files in the order in which they are written. *)
Definition bytes_of (h : Host) (source : FileDataSource) : list Z :=
  match source_bytes source h with Ret b => b | _ => [] end.
Definition readable (h : Host) (files : gmap string FileDataSource) : Prop :=
  ∀ name source, files !! name = Some source → source_bytes source h = Ret (bytes_of h source).
Definition contents (h : Host) (files : gmap string FileDataSource) : gmap string (list Z) := bytes_of h <$> files.
Definition in_order (h : Host) (files : gmap string FileDataSource) : list (string * list Z) :=
  prod_map id (bytes_of h) <$> btree_iter files.
Definition total (h : Host) (files : gmap string FileDataSource) : Z :=
  foldr (λ f n, Z.of_nat (length f.2) + n) 0 (in_order h files).

Lemma btree_iter_perm {A} (m : gmap string A) : btree_iter m ≡ₚ map_to_list m.
Proof. apply merge_sort_Permutation. Qed.
Lemma btree_iter_keys {A} (m : gmap string A) : NoDup (btree_iter m).*1.
Proof. rewrite btree_iter_perm. apply NoDup_fst_map_to_list. Qed.
Lemma btree_iter_elem {A} (m : gmap string A) k x : (k, x) ∈ btree_iter m ↔ m !! k = Some x.
Proof. rewrite btree_iter_perm. apply elem_of_map_to_list. Qed.
Lemma btree_prefix {A B} (m : gmap string A) (f : A → B) l1 k x l2 : btree_iter m = l1 ++ (k, x) :: l2 → k ∉ (prod_map id f <$> l1).*1.
Proof.
  intros Hl. rewrite <- list_fmap_compose. pose proof (btree_iter_keys m) as Hn. rewrite Hl, fmap_app in Hn. cbn in Hn.
  apply NoDup_app in Hn as (_ & Hn & _). intros Hin. apply (Hn k); [exact Hin|by left].
Qed.
Lemma in_order_contents h files : list_to_map (in_order h files) = contents h files.
Proof.
  unfold in_order, contents. rewrite <- (list_to_map_to_list (bytes_of h <$> files)), map_to_list_fmap.
  apply list_to_map_proper; [|by rewrite btree_iter_perm].
  rewrite <- list_fmap_compose. apply btree_iter_keys.
Qed.

(** Creating another file does not change what the sources hold. *)
Lemma source_insert h p b source : h !! p = None → source_bytes source h = Ret (bytes_of h source) →
  source_bytes source (<[p := b]> h) = Ret (bytes_of h source) ∧
  source_len source (<[p := b]> h) = Ret (Z.of_nat (length (bytes_of h source))).
Proof.
  intros Hp. unfold bytes_of. destruct source as [path|v|v]; [|done|done]. cbn. unfold open_read.
  destruct (h !! path) as [c|] eqn:E; [|done]. intros _. assert (path ≠ p) by congruence. by rewrite lookup_insert_ne, E by done.
Qed.
Lemma source_len_ok h source : source_bytes source h = Ret (bytes_of h source) →
  source_len source h = Ret (Z.of_nat (length (bytes_of h source))).
Proof.
  unfold bytes_of. destruct source as [path|v|v]; [|done|done]. cbn. unfold open_read. by destruct (h !! path).
Qed.
Lemma readable_insert h p b files : h !! p = None → readable h files →
  readable (<[p := b]> h) files ∧ in_order (<[p := b]> h) files = in_order h files.
Proof.
  intros Hp Hr. assert (∀ name source, files !! name = Some source → bytes_of (<[p := b]> h) source = bytes_of h source) as Hb.
  { intros name source Hs. unfold bytes_of at 1. by rewrite (proj1 (source_insert h p b source Hp (Hr name source Hs))). }
  split.
  - intros name source Hs. rewrite (Hb _ _ Hs). by apply source_insert, (Hr name).
  - unfold in_order. apply list_fmap_ext. intros i [name source] Hi%list_elem_of_lookup_2%btree_iter_elem. cbn. by rewrite (Hb _ _ Hi).
Qed.

Lemma readable_union h m1 m2 : readable h m1 → map_Forall (λ _ source, source_bytes source h = Ret (bytes_of h source)) m2 →
  readable h (m1 ∪ m2).
Proof. intros H1 H2 name source [H|[_ H]]%lookup_union_Some_raw; [by eapply H1|by eapply H2]. Qed.

Section Fat.
Context `{HF : HostFs} {V : Type} `{HV : FatFsLaws V}.

Lemma add_file_ok h v name source l : source_bytes source h = Ret (bytes_of h source) →
  can_store v ((name, bytes_of h source) :: l) →
  returns (add_file h v (name, source)) (λ v', vol_files v' = <[name := bytes_of h source]> (vol_files v) ∧
    vol_format v' = vol_format v ∧ can_store v' l).
Proof.
  intros Hs Hc. unfold add_file.
  eapply (returns_bind _ _ (λ v', vol_files v' = vol_files v ∧ vol_format v' = vol_format v ∧ can_store v' ((name, bytes_of h source) :: l))).
  { apply (foldM_returns _ (λ _ v', vol_files v' = vol_files v ∧ vol_format v' = vol_format v ∧ can_store v' ((name, bytes_of h source) :: l)));
      [done|].
    intros l1 d l2 v1 Hd (H1 & H2 & H3). destruct (create_dir_ok v1 d name (bytes_of h source) l H3) as (v2 & -> & ? & ? & ?);
      [rewrite Hd; apply elem_of_middle|]. cbn. split_and!; congruence. }
  intros v1 (F1 & Z1 & C1). destruct (create_file_ok v1 _ _ _ C1) as (v2 & -> & F2 & Z2 & C2). cbn [or_err mbind res_bind].
  destruct (truncate_ok v2 _ _ _ C2) as (v3 & -> & F3 & Z3 & C3); [rewrite F2, lookup_insert_eq; by eexists|].
  cbn [expect_some mbind res_bind]. rewrite Hs. cbn [mbind res_bind].
  destruct (write_file_ok v3 _ _ _ C3) as (v4 & -> & F4 & Z4 & C4); [by rewrite F3, lookup_insert_eq|]. cbn [or_err returns].
  split_and!; [|congruence|done]. by rewrite F4, F3, F2, !insert_insert_eq, F1.
Qed.

Lemma add_files_ok h v files : readable h files → vol_files v = ∅ → can_store v (in_order h files) →
  returns (add_files_to_image h v files) (λ v', vol_files v' = contents h files ∧ vol_format v' = vol_format v ∧ can_store v' []).
Proof.
  intros Hr Hv Hc. unfold add_files_to_image. rewrite <- in_order_contents.
  eapply returns_mono.
  { apply (foldM_returns _ (λ l1 v', vol_files v' = list_to_map (prod_map id (bytes_of h) <$> l1) ∧ vol_format v' = vol_format v ∧
      ∀ l2, btree_iter files = l1 ++ l2 → can_store v' (prod_map id (bytes_of h) <$> l2))).
    - split_and!; [done|done|]. intros l2 Hl. cbn in Hl. by rewrite <- Hl.
    - intros l1 [name source] l2 v1 Hl (F1 & Z1 & C1).
      assert (files !! name = Some source) as Hs by (apply btree_iter_elem; rewrite Hl; apply elem_of_middle).
      specialize (C1 _ Hl). cbn in C1. eapply returns_mono; [apply (add_file_ok h v1 name source); [by eapply Hr|exact C1]|].
      intros v2 (F2 & Z2 & C2). split_and!; [|congruence|].
      + rewrite F2, F1, fmap_app. cbn. symmetry. by eapply list_to_map_snoc, btree_prefix.
      + intros l2' Hl'. rewrite Hl in Hl'. rewrite <- app_assoc in Hl'. apply app_inv_head in Hl'. by injection Hl' as ->. }
  cbn. intros v' (F & Z & C). split_and!; [done|done|]. apply (C []). by rewrite app_nil_r.
Qed.

(** The files and 64 KiB, rounded up to whole megabytes. *)
Definition padded (n : Z) : Z := ((n + 1024 * 64 - 1) / MB + 1) * MB.
Lemma padded_bounds n : n + 1024 * 64 ≤ padded n < n + 1024 * 64 + MB.
Proof.
  unfold padded, MB. pose proof (Z.div_mod (n + 1024 * 64 - 1) (1024 * 1024) ltac:(lia)).
  pose proof (Z.mod_pos_bound (n + 1024 * 64 - 1) (1024 * 1024) ltac:(lia)). lia.
Qed.
Lemma fat_size_ok n : 0 ≤ n < 2 ^ 62 → fat_size n = Ret (padded n).
Proof.
  intros Hn. unfold fat_size, MB. rewrite add_u_ok by lia. cbn [mbind res_bind]. rewrite sub_u_ok by lia. cbn [mbind res_bind].
  pose proof (Z.div_mod (n + 1024 * 64 - 1) (1024 * 1024) ltac:(lia)). pose proof (Z.mod_pos_bound (n + 1024 * 64 - 1) (1024 * 1024) ltac:(lia)).
  assert (0 ≤ (n + 1024 * 64 - 1) / (1024 * 1024)) by (apply Z.div_pos; lia).
  rewrite add_u_ok by lia. cbn [mbind res_bind]. by rewrite mul_u_ok by lia.
Qed.

Lemma needed_size_ok h files : readable h files → total h files < 2 ^ 62 →
  foldM (λ needed_size '(_, source), n ← source_len source h; needed_size +[64] n) 0 (btree_iter files) = Ret (total h files).
Proof.
  intros Hr. unfold total, in_order.
  assert (∀ l a, (∀ x, x ∈ l → source_bytes x.2 h = Ret (bytes_of h x.2)) → 0 ≤ a →
    a + foldr (λ f n, Z.of_nat (length f.2) + n) 0 (prod_map id (bytes_of h) <$> l) < 2 ^ 62 →
    foldM (λ needed_size '(_, source), n ← source_len source h; needed_size +[64] n) a l =
      Ret (a + foldr (λ f n, Z.of_nat (length f.2) + n) 0 (prod_map id (bytes_of h) <$> (l : list (string * FileDataSource))))) as Hgen.
  { induction l as [|[name source] l IH]; intros a Hl Ha Hb; cbn [foldM fmap list_fmap foldr prod_map snd] in *; [by rewrite Z.add_0_r|].
    rewrite source_len_ok by (apply (Hl (name, source)); by left). cbn [mbind res_bind].
    assert (0 ≤ foldr (λ f n, Z.of_nat (length f.2) + n) 0 (prod_map id (bytes_of h) <$> l)) by (clear; induction l; cbn; lia).
    rewrite add_u_ok by lia. cbn [mbind res_bind]. rewrite IH; [f_equal; lia|intros x Hx; apply Hl; by right|lia|lia]. }
  intros Hb. rewrite Hgen; [f_equal; lia| |lia|lia]. intros [name source] Hx%btree_iter_elem. by apply (Hr name).
Qed.
Lemma total_nonneg h files : 0 ≤ total h files.
Proof. unfold total. induction (in_order h files); cbn; lia. Qed.

(** The image of a volume with the given files. *)
Definition image_of (fat label : list Z) (m : gmap string (list Z)) : Prop :=
  ∃ v, fat = volume_image v ∧ vol_files v = m ∧ can_store v [] ∧ vol_format v = (label, length fat).
Lemma image_of_files fat label m : image_of fat label m → image_files fat = m.
Proof. intros (v & -> & <- & Hc & _). by apply volume_image_ok. Qed.
Lemma length_volume_label files : length (volume_label files) = 11%nat.
Proof.
  unfold volume_label. destruct (files !! KERNEL_FILE_NAME) as [[path|?|?]|]; [|done..]. destruct (file_stem path) as [name|]; [|done].
  rewrite length_app, length_replicate, length_take. lia.
Qed.

(** Creating the volume in a file that does not exist yet, or was just created by [NamedTempFile]. *)
Lemma create_fat_filesystem_spec h files out : readable h files → h !! out = None → can_create out = true →
  total h files < 2 ^ 62 → fits (Z.to_nat (padded (total h files))) (in_order h files) →
  returns (create_fat_filesystem files out (<[out := []]> h)) (λ h', ∃ fat,
    h' = <[out := fat]> h ∧ image_of fat (volume_label files) (contents h files) ∧ Z.of_nat (length fat) = padded (total h files)).
Proof.
  intros Hr Ho Hc Ht Hf. pose proof (readable_insert h out [] files Ho Hr) as [Hr' Ho'].
  assert (total (<[out := []]> h) files = total h files) as Ht' by (unfold total; by rewrite Ho').
  unfold create_fat_filesystem. rewrite needed_size_ok by (done || lia). cbn [mbind res_bind]. rewrite Hc, insert_insert_eq. cbn [mbind res_bind].
  rewrite Ht'. pose proof (total_nonneg h files). pose proof (padded_bounds (total h files)).
  rewrite fat_size_ok by lia. cbn [mbind res_bind].
  destruct (format_ok (set_len [] (Z.to_nat (padded (total h files)))) (volume_label files) (in_order h files))
    as (img & v & -> & Hnew & Hv & Hz & Hcs); [apply length_volume_label|by rewrite length_set_len|]. cbn [or_err mbind res_bind]. rewrite Hnew. cbn [or_err mbind res_bind].
  rewrite length_set_len in Hz. rewrite <- Ho' in Hcs.
  eapply returns_bind; [by apply add_files_ok|]. intros v' (F & Z & C). cbn [returns].
  exists (volume_image v'). destruct (volume_image_ok v' C) as [V1 V2]. rewrite insert_insert_eq. split_and!; [done| |].
  - exists v'. split_and!; [done|by rewrite F, <- !in_order_contents, Ho'|done|]. rewrite Hz in Z. rewrite V2. by injection Z as -> ->.
  - rewrite V2. rewrite Hz in Z. injection Z as _ ->. unfold padded, MB in *. lia.
Qed.
End Fat.

(** ** The GPT image *)

(** What the gpt crate documents: with 64 KiB for the headers a device can be given a partition of the
    remaining size; the partition lies between the two headers, so writing to it does not change the
    table; a reader of the disk finds a partition of the type of an EFI system partition
    ([efi_partition]: its offset and size). *)
Class GptLaws (G : Type) {GC : GptCrate G} := {
  gpt_size : G → Z;
  gpt_partition : G → option (string * Z * Z);
  efi_partition : list Z → option (Z * Z);
  overwrite_lba0_ok lb d : 512 ≤ Z.of_nat (length d) → ∃ d', overwrite_lba0 lb d = Some d' ∧ length d' = length d;
  create_from_device_ok d : 1024 * 64 ≤ Z.of_nat (length d) →
    ∃ g, create_from_device d = Some g ∧ gpt_size g = Z.of_nat (length d) ∧ gpt_partition g = None;
  update_partitions_ok g : ∃ g', update_partitions g = Some g' ∧ gpt_size g' = gpt_size g ∧ gpt_partition g' = None;
  add_partition_ok g name size ty : gpt_partition g = None → 0 < size → size + 1024 * 64 ≤ gpt_size g →
    ∃ id g' start n, add_partition g name size ty 0 None = Some (id, g') ∧ bytes_start g' id = Some start ∧
      gpt_size g' = gpt_size g ∧ gpt_partition g' = Some (ty, start, n) ∧ 0 ≤ start ∧ size ≤ n ∧ start + n ≤ gpt_size g;
  gpt_write_ok g start n : gpt_partition g = Some (EFI, start, n) → 0 < n → start + n ≤ gpt_size g < 2 ^ 64 → ∃ d, gpt_write g = Some d ∧
    Z.of_nat (length d) = gpt_size g ∧
    ∀ b, Z.of_nat (length b) ≤ n → efi_partition (write_at d (Z.to_nat start) b) = Some (start, n);
}.

Section Gpt.
Context `{HF : HostFs} {G : Type} `{HG : GptLaws G}.

(** A disk with the volume in its EFI partition. *)
Definition gpt_layout (fat image : list Z) : Prop :=
  Z.of_nat (length image) = Z.of_nat (length fat) + 1024 * 64 ∧
  ∃ start n, efi_partition image = Some (start, n) ∧ 0 ≤ start ∧ Z.of_nat (length fat) ≤ n ∧
    start + n ≤ Z.of_nat (length image) ∧ take (length fat) (drop (Z.to_nat start) image) = fat.

Lemma create_gpt_disk_spec fat fat_image out h : h !! fat_image = Some fat → out ≠ fat_image → can_create out = true →
  0 < Z.of_nat (length fat) < 2 ^ 62 →
  returns (create_gpt_disk fat_image out h) (λ h', ∃ image, h' = <[out := image]> h ∧ gpt_layout fat image).
Proof.
  intros Hf Ho Hc Hl. unfold create_gpt_disk, open_read. rewrite open_create_ok by done. cbn [mbind res_bind].
  rewrite lookup_insert_ne, Hf by done. cbn [mbind res_bind]. rewrite add_u_ok by lia. cbn [mbind res_bind].
  set (size := Z.of_nat (length fat)) in *. assert (128 ≤ (size + 1024 * 64) / 512) by (apply Z.div_le_lower_bound; lia).
  rewrite sub_u_ok by lia. cbn [mbind res_bind].
  destruct (overwrite_lba0_ok (default 0xffffffff (try_from_u 32 ((size + 1024 * 64) / 512 - 1))) (set_len [] (Z.to_nat (size + 1024 * 64))))
    as (d & -> & Hd); [rewrite length_set_len; lia|]. rewrite length_set_len in Hd. cbn [or_err mbind res_bind].
  destruct (create_from_device_ok d) as (g1 & -> & S1 & P1); [lia|]. cbn [or_err mbind res_bind].
  destruct (update_partitions_ok g1) as (g2 & -> & S2 & P2). cbn [or_err mbind res_bind].
  destruct (add_partition_ok g2 "boot" size EFI) as (id & g3 & start & n & -> & Hs & S3 & P3 & H1 & H2 & H3); [done|lia|lia|].
  cbn [or_err mbind res_bind]. rewrite Hs. cbn [or_err mbind res_bind].
  destruct (gpt_write_ok g3 start n P3) as (d' & -> & Hd' & Hp); [lia|lia|]. cbn [or_err mbind res_bind returns].
  eexists. split; [by rewrite insert_insert_eq|]. unfold gpt_layout. rewrite length_write_at by lia. split; [lia|].
  exists start, n. split_and!; [by apply Hp|done|lia|lia|apply write_at_read].
Qed.
End Gpt.

(** ** The builder *)

(** A name that is a single component, so that it lies directly in a directory. *)
Definition flat (name : string) : Prop := path_pieces name = [name] ∧ name ∉ [""; "."; ".."].

(** A temporary file is new and can be opened; removing a file removes it; [create_dir_all] keeps the
    directories there are and the directory exists afterwards; names join to different paths in the
    directory. *)
Class HostLaws `{HF : HostFs} := {
  temp_path_ok h t : temp_path h = Some t → h !! t = None ∧ can_create t = true;
  remove_file_ok h p : is_Some (h !! p) → remove_file p h = Some (delete p h);
  create_dir_all_ok p dirs dirs' : create_dir_all p dirs = Some dirs' → dirs ⊆ dirs' ∧ p ∈ dirs';
  path_join_flat folder n n' : flat n → flat n' → path_join folder n = path_join folder n' → n = n';
  path_parent_join folder n : flat n → path_parent (path_join folder n) = folder;
}.

Section Builder.
Context `{HL : HostLaws} {MBR G V : Type} `{HM : MbrmanLaws MBR} `{HT : Stage2Start.MbrLaws} `{HG : GptLaws G} `{HV : FatFsLaws V} `{BB : Binaries}.

Lemma copy_map {A} (m : gmap string A) : foldl (λ m '(name, source), <[name := source]> m) ∅ (btree_iter m) = m.
Proof.
  rewrite <- (list_to_map_to_list m) at 2. rewrite <- (list_to_map_proper (btree_iter m)) by (apply btree_iter_keys || apply btree_iter_perm).
  pose proof (btree_iter_keys m) as Hn. induction (btree_iter m) as [|[k x] l IH] using rev_ind; [done|].
  rewrite fmap_app in Hn. rewrite foldl_app. cbn. apply NoDup_app in Hn as (Hn & Hd & _). rewrite IH by done.
  symmetry. apply list_to_map_snoc. intros Hin. apply (Hd k); [done|by left].
Qed.

Lemma merge_internal (m internal : gmap string FileDataSource) :
  foldM (λ (local_map : gmap string FileDataSource) '(name, source),
           match local_map !! name with
           | Some _ => Err ("Attempted to overwrite internal file: " +:+ name)
           | None => Ret (<[name := source]> local_map)
           end) m (btree_iter internal) =
  match list_find (λ f, is_Some (m !! f.1)) (btree_iter internal) with
  | Some (_, (name, _)) => Err ("Attempted to overwrite internal file: " +:+ name)
  | None => Ret (m ∪ internal)
  end.
Proof.
  assert (∀ l m0, NoDup l.*1 → foldM (λ (local_map : gmap string FileDataSource) '(name, source),
           match local_map !! name with
           | Some _ => Err ("Attempted to overwrite internal file: " +:+ name)
           | None => Ret (<[name := source]> local_map)
           end) m0 l =
    match list_find (λ f : string * FileDataSource, is_Some (m0 !! f.1)) l with
    | Some (_, (name, _)) => Err ("Attempted to overwrite internal file: " +:+ name)
    | None => Ret (m0 ∪ list_to_map l)
    end) as Hgen.
  { induction l as [|[k x] l IH]; intros m0 Hn; cbn [foldM list_find fmap list_fmap] in *; [by rewrite list_to_map_nil, (right_id_L ∅ (∪))|].
    apply NoDup_cons in Hn as [Hk Hn]. cbn [fst] in *. destruct (m0 !! k) eqn:E.
    { rewrite decide_True by (by eexists). done. }
    rewrite decide_False by (by intros [? ?]). cbn [mbind res_bind]. rewrite IH by done.
    assert (list_find (λ f : string * FileDataSource, is_Some (<[k := x]> m0 !! f.1)) l =
            list_find (λ f, is_Some (m0 !! f.1)) l) as ->.
    { clear IH. induction l as [|[k' x'] l IHl]; [done|]. cbn in Hk. apply not_elem_of_cons in Hk as [Hne Hk].
      cbn [list_find fst]. cbn in Hn. apply NoDup_cons in Hn as [_ Hn]. rewrite IHl by done.
      rewrite (decide_ext _ (is_Some (m0 !! k'))); [done|]. by rewrite lookup_insert_ne. }
    destruct (list_find _ l) as [[i [? ?]]|]; cbn; [done|]. f_equal. by rewrite <- insert_union_l, insert_union_r. }
  rewrite Hgen by apply btree_iter_keys. destruct (list_find _ _) as [[? [? ?]]|]; [done|]. do 2 f_equal.
  rewrite <- (list_to_map_to_list internal) at 2. apply list_to_map_proper; [apply btree_iter_keys|apply btree_iter_perm].
Qed.

(** The volume with the files of a builder and the loader's own, in a temporary file. *)
Lemma create_fat_filesystem_image_spec self internal h t : let all := files self ∪ internal in
  files self ##ₘ internal → readable h all → temp_path h = Some t →
  total h all < 2 ^ 62 → fits (Z.to_nat (padded (total h all))) (in_order h all) →
  returns (create_fat_filesystem_image self internal h) (λ '(p, h'), p = t ∧ ∃ fat, h' = <[t := fat]> h ∧
    image_of fat (volume_label all) (contents h all) ∧ Z.of_nat (length fat) = padded (total h all)).
Proof.
  intros all Hd Hr Ht Hs Hf. unfold create_fat_filesystem_image. rewrite copy_map, merge_internal.
  destruct (list_find _ (btree_iter internal)) as [[i [name source]]|] eqn:E.
  { exfalso. apply list_find_Some in E as (E1 & [x E2] & _). apply list_elem_of_lookup_2, btree_iter_elem in E1.
    eapply map_disjoint_spec; eauto. }
  cbn [mbind res_bind]. rewrite Ht. cbn [or_err mbind res_bind]. destruct (temp_path_ok h t Ht) as [Hn Hc].
  eapply returns_bind; [by apply create_fat_filesystem_spec|]. cbn. intros h' (fat & -> & H1 & H2). eauto 6.
Qed.

(** A file of the builder with a name that the loader uses itself is refused. *)
Lemma create_fat_filesystem_image_conflict self internal h : ¬ files self ##ₘ internal →
  ∃ name, is_Some (files self !! name) ∧ is_Some (internal !! name) ∧
    create_fat_filesystem_image self internal h = Err ("Attempted to overwrite internal file: " +:+ name).
Proof.
  intros Hd. unfold create_fat_filesystem_image. rewrite copy_map, merge_internal.
  destruct (list_find _ (btree_iter internal)) as [[i [name source]]|] eqn:E.
  - apply list_find_Some in E as (E1 & E2 & _). apply list_elem_of_lookup_2, btree_iter_elem in E1. cbn. eauto.
  - destruct Hd. apply map_disjoint_spec. intros name x y Hx Hy. apply list_find_None in E. rewrite Forall_forall in E.
    apply (E (name, y)); [by apply btree_iter_elem|by exists x].
Qed.

(** The temporary file is gone afterwards. *)
Lemma remove_temp h t out (fat image : list Z) : h !! t = None → out ≠ t →
  remove_file t (<[out := image]> (<[t := fat]> h)) = Some (<[out := image]> h).
Proof.
  intros Hn Ho. rewrite remove_file_ok by (rewrite lookup_insert_ne, lookup_insert_eq by done; by eexists).
  by rewrite delete_insert_ne, delete_insert_id by done.
Qed.

(** The loader's files of a BIOS image. *)
Definition bios_files : gmap string FileDataSource :=
  <["boot-stage-4" := Bytes BIOS_STAGE_4]> (<["boot-stage-3" := Bytes BIOS_STAGE_3]> ∅).

(** The image of a builder: nothing else on the host is changed. *)
Lemma create_bios_image_spec self out h t : let all := files self ∪ bios_files in
  files self ##ₘ bios_files → readable h (files self) → temp_path h = Some t → out ≠ t → can_create out = true →
  bootsector_ok BIOS_BOOT_SECTOR → 0 < Z.of_nat (length BIOS_STAGE_2) < 2 ^ 31 →
  total h all < 2 ^ 39 → fits (Z.to_nat (padded (total h all))) (in_order h all) →
  returns (create_bios_image self out h) (λ h', ∃ fat image e0 e1, h' = <[out := image]> h ∧
    mbr_layout BIOS_BOOT_SECTOR BIOS_STAGE_2 fat image e0 e1 ∧ Z.of_nat (length fat) = padded (total h all) ∧
    image_of fat (volume_label all) (contents h all)).
Proof.
  intros all Hd Hr Ht Ho Hc Hbs Hs Htot Hf. unfold create_bios_image. fold bios_files.
  assert (readable h all) as Hra by (apply readable_union; [done|]; repeat apply map_Forall_insert_2; (done || apply map_Forall_empty)).
  eapply returns_bind; [apply (create_fat_filesystem_image_spec self bios_files h t); (done || (fold all; lia))|].
  intros [p h1] (-> & fat & -> & Hfat & Hlen). destruct (temp_path_ok h t Ht) as [Hn _].
  pose proof (padded_bounds (total h all)). pose proof (total_nonneg h all). unfold MB in *. fold all in Hlen.
  eapply returns_bind; [apply (create_mbr_disk_spec _ _ fat); [done|done|lia|by rewrite lookup_insert_eq|done]|].
  intros h2 (image & e0 & e1 & -> & Hl). rewrite remove_temp by done. cbn. exists fat, image, e0, e1. split_and!; (done || lia).
Qed.

(** The loader's file of a UEFI image. *)
Definition uefi_files : gmap string FileDataSource := <["efi/boot/bootx64.efi" := Bytes UEFI_BOOTLOADER]> ∅.

(** C21: [create_uefi_image] writes a disk whose EFI system partition is a FAT volume with exactly the
    files of the builder and the UEFI loader under the name that firmware starts by default; a builder
    that has a file of this name is refused. No other file of the host is changed or left behind. *)
Theorem create_uefi_image_correct self out h t : let all := files self ∪ uefi_files in
  readable h (files self) → temp_path h = Some t → out ≠ t → can_create out = true →
  total h all < 2 ^ 61 → fits (Z.to_nat (padded (total h all))) (in_order h all) →
  match files self !! "efi/boot/bootx64.efi" with
  | Some _ => create_uefi_image self out h = Err "Attempted to overwrite internal file: efi/boot/bootx64.efi"
  | None => returns (create_uefi_image self out h) (λ h', ∃ fat image, h' = <[out := image]> h ∧
      gpt_layout fat image ∧ image_files fat = contents h all)
  end.
Proof.
  intros all Hr Ht Ho Hc Htot Hf. unfold create_uefi_image. fold uefi_files.
  destruct (files self !! "efi/boot/bootx64.efi") as [source|] eqn:E.
  { destruct (create_fat_filesystem_image_conflict self uefi_files h) as (name & _ & Hn & ->).
    { intros Hd. apply (map_disjoint_spec (files self) uefi_files) with (1 := Hd) (2 := E) (y := Bytes UEFI_BOOTLOADER).
      by unfold uefi_files; rewrite lookup_insert_eq. }
    destruct Hn as [x Hx]. unfold uefi_files in Hx. apply lookup_insert_Some in Hx as [[<- _]|[_ Hx]]; [done|by rewrite lookup_empty in Hx]. }
  assert (readable h all) as Hra by (apply readable_union; [done|]; repeat apply map_Forall_insert_2; (done || apply map_Forall_empty)).
  assert (files self ##ₘ uefi_files) as Hd by (apply map_disjoint_insert_r; split; [done|apply map_disjoint_empty_r]).
  eapply returns_bind; [apply (create_fat_filesystem_image_spec self uefi_files h t); (done || (fold all; lia))|].
  intros [p h1] (-> & fat & -> & Hfat & Hlen). destruct (temp_path_ok h t Ht) as [Hn _].
  pose proof (padded_bounds (total h all)). pose proof (total_nonneg h all). unfold MB in *. fold all in Hlen.
  eapply returns_bind; [apply (create_gpt_disk_spec fat); [by rewrite lookup_insert_eq|done|done|lia]|].
  intros h2 (image & -> & Hl). rewrite remove_temp by done. cbn. exists fat, image. split_and!; [done|done|by eapply image_of_files].
Qed.

(** The files of a TFTP folder. *)
Definition tftp_files (self : DiskImageBuilder) (h : Host) : gmap string (list Z) :=
  contents h (files self) ∪ {["bootloader" := UEFI_BOOTLOADER]}.
(** The folder can be made and filled: the names are flat, may be written and are not those of
    directories, and no source is itself one of the files. *)
Record tftp_ok (self : DiskImageBuilder) (tftp_path : string) (h : Host) (dirs : gset string) : Prop := {
  tf_folder : create_dir_all tftp_path directories = Some dirs;
  tf_flat name : is_Some (tftp_files self h !! name) → flat name;
  tf_permitted name : is_Some (tftp_files self h !! name) →
    permitted (path_join tftp_path name) = true ∧ path_join tftp_path name ∉ dirs;
  tf_readable : readable h (files self);
  tf_outside name path n : files self !! name = Some (File path) → is_Some (tftp_files self h !! n) → path ≠ path_join tftp_path n;
}.

(** One more file in the folder; [ok] are the names of the folder. *)
Lemma tftp_insert tftp_path (h h1 : Host) (m : gmap string (list Z)) name bytes (ok : string → Prop) :
  (∀ n n', ok n → ok n' → path_join tftp_path n = path_join tftp_path n' → n = n') → ok name → (∀ n, is_Some (m !! n) → ok n) →
  (∀ n b, m !! n = Some b → h1 !! path_join tftp_path n = Some b) →
  (∀ path, (∀ n, ok n → path ≠ path_join tftp_path n) → h1 !! path = h !! path) →
  let h2 := <[path_join tftp_path name := bytes]> h1 in
  (∀ n b, <[name := bytes]> m !! n = Some b → h2 !! path_join tftp_path n = Some b) ∧
  (∀ path, (∀ n, ok n → path ≠ path_join tftp_path n) → h2 !! path = h !! path).
Proof.
  intros Hinj Hname Hm H1 H2 h2. unfold h2. split.
  - intros n b [[<- <-]|[Hne Hn]]%lookup_insert_Some; [by rewrite lookup_insert_eq|].
    rewrite lookup_insert_ne; [by apply H1|]. intros E. apply Hne. apply Hinj; [done|apply Hm; by eexists|done].
  - intros path Hp. rewrite lookup_insert_ne; [by apply H2|]. intros E. by apply (Hp name).
Qed.
Lemma tftp_create self tftp_path h dirs name context (h1 : Host) : tftp_ok self tftp_path h dirs → is_Some (tftp_files self h !! name) →
  open_create_in dirs (path_join tftp_path name) context h1 = Ret (<[path_join tftp_path name := []]> h1).
Proof.
  intros Hok Hn. unfold open_create_in, can_create_in. destruct (tf_permitted _ _ _ _ Hok name Hn) as [-> Hd].
  rewrite path_parent_join by (by eapply tf_flat). destruct (create_dir_all_ok _ _ _ (tf_folder _ _ _ _ Hok)) as [_ Hf].
  by rewrite bool_decide_true, bool_decide_false by done.
Qed.

Lemma create_uefi_tftp_folder_spec self tftp_path h dirs : tftp_ok self tftp_path h dirs →
  returns (create_uefi_tftp_folder self tftp_path h) (λ '(dirs', h'), dirs' = dirs ∧
    (∀ name bytes, tftp_files self h !! name = Some bytes → h' !! path_join tftp_path name = Some bytes) ∧
    ∀ path, (∀ name, is_Some (tftp_files self h !! name) → path ≠ path_join tftp_path name) → h' !! path = h !! path).
Proof.
  intros Hok. unfold create_uefi_tftp_folder. rewrite (tf_folder _ _ _ _ Hok). cbn [or_err mbind res_bind].
  set (ok name := is_Some (tftp_files self h !! name)). set (loader := {["bootloader" := UEFI_BOOTLOADER]} : gmap string (list Z)).
  assert (∀ n n', ok n → ok n' → path_join tftp_path n = path_join tftp_path n' → n = n') as Hinj
    by (intros n n' Hn Hn'; apply path_join_flat; by eapply tf_flat).
  assert (ok "bootloader") as Hb by (unfold ok, tftp_files; apply lookup_union_is_Some; right; by eexists).
  rewrite (tftp_create self tftp_path h) by done. cbn [mbind res_bind]. rewrite insert_insert_eq.
  eapply (returns_bind _ _ (λ h', (∀ name bytes, tftp_files self h !! name = Some bytes → h' !! path_join tftp_path name = Some bytes) ∧
    ∀ path, (∀ name, ok name → path ≠ path_join tftp_path name) → h' !! path = h !! path)); [|done].
  unfold tftp_files. rewrite <- in_order_contents. unfold in_order. fold loader.
  apply (foldM_returns _ (λ l h1, (∀ name bytes, (list_to_map (prod_map id (bytes_of h) <$> l) ∪ loader) !! name = Some bytes →
    h1 !! path_join tftp_path name = Some bytes) ∧ ∀ path, (∀ name, ok name → path ≠ path_join tftp_path name) → h1 !! path = h !! path)).
  { cbn [fmap list_fmap list_to_map foldr]. rewrite (left_id_L ∅ (∪)). apply (tftp_insert tftp_path h h ∅); [done|done| |done|done].
    by intros n [? ?%lookup_empty_Some]. }
  intros l1 [name source] l2 h1 Hl [I1 I2]. assert (files self !! name = Some source) as Hs by (apply btree_iter_elem; rewrite Hl; apply elem_of_middle).
  assert (∀ n, is_Some ((list_to_map (prod_map id (bytes_of h) <$> l1) ∪ loader) !! n) → ok n) as Hdom.
  { intros n [Hn|Hn]%lookup_union_is_Some; [|by apply lookup_union_is_Some; right]. apply lookup_union_is_Some. left. rewrite <- in_order_contents.
    unfold in_order. rewrite Hl, fmap_app, list_to_map_app. apply lookup_union_is_Some. by left. }
  assert (ok name) as Hname by (apply lookup_union_is_Some; left; unfold contents; rewrite lookup_fmap, Hs; by eexists).
  rewrite (tftp_create self tftp_path h) by done. cbn [mbind res_bind].
  assert (source_bytes source (<[path_join tftp_path name := []]> h1) = Ret (bytes_of h source)) as ->.
  { rewrite <- (tf_readable _ _ _ _ Hok name source Hs). destruct source as [path|?|?]; [|done..]. cbn. unfold open_read.
    assert (∀ n, ok n → path ≠ path_join tftp_path n) as Ho by (intros n; by eapply tf_outside).
    rewrite lookup_insert_ne by (symmetry; by apply Ho). by rewrite I2. }
  cbn [mbind res_bind returns]. rewrite insert_insert_eq, fmap_app. cbn [fmap list_fmap prod_map].
  rewrite list_to_map_snoc by (by eapply btree_prefix). rewrite <- insert_union_l. by apply tftp_insert.
Qed.

(** The folder of a builder with a name whose directory is missing. *)
Lemma create_uefi_tftp_folder_nested self tftp_path h dirs name : create_dir_all tftp_path directories = Some dirs →
  is_Some (files self !! name) → path_parent (path_join tftp_path name) ∉ dirs → ∃ msg, create_uefi_tftp_folder self tftp_path h = Err msg.
Proof.
  intros Hd [source Hs] Hp. unfold create_uefi_tftp_folder. rewrite Hd. cbn [or_err mbind res_bind].
  assert (∀ p c h, (∃ h', open_create_in dirs p c h = Ret h') ∨ open_create_in dirs p c h = Err c) as Hopen
    by (intros p c h0; unfold open_create_in; destruct (can_create_in dirs p); eauto).
  match goal with |- context [open_create_in dirs ?p ?c h] => destruct (Hopen p c h) as [[h0 ->]| ->] end; cbn [mbind res_bind]; [|by eexists].
  apply btree_iter_elem in Hs. apply list_elem_of_split in Hs as (l1 & l2 & ->). generalize (<[path_join tftp_path "bootloader" := UEFI_BOOTLOADER]> h0).
  clear h0. intros h1. revert h1. induction l1 as [|[n s] l1 IH]; intros h1; cbn [app foldM].
  - unfold open_create_in, can_create_in. rewrite (bool_decide_false (path_parent (path_join tftp_path name) ∈ dirs)) by done.
    rewrite andb_false_r. cbn. by eexists.
  - destruct (Hopen (path_join tftp_path n) "failed to open" h1) as [[h2 ->]| ->]; cbn [mbind res_bind]; [|by eexists].
    assert ((∃ b, source_bytes s h2 = Ret b) ∨ ∃ c, source_bytes s h2 = Err c) as [[b ->]|[c ->]]; cbn [mbind res_bind]; [|apply IH|by eexists].
    destruct s as [path|v|v]; cbn; [|eauto..]. unfold open_read. destruct (h2 !! path); eauto.
Qed.

(** C39: [create_uefi_tftp_folder], when every name of the builder is a single path component: the folder
    exists, every file of the builder is in it under its name with its contents, the UEFI loader is
    in it as [bootloader] unless the builder has a file of that name, and no other file is changed. A
    builder with a file in a directory that does not exist in the folder (the code creates no
    directory below it) gets an error. *)
Theorem create_uefi_tftp_folder_correct self tftp_path h dirs :
  (tftp_ok self tftp_path h dirs →
   returns (create_uefi_tftp_folder self tftp_path h) (λ '(dirs', h'), dirs' = dirs ∧ directories ⊆ dirs ∧ tftp_path ∈ dirs ∧
     (∀ name bytes, tftp_files self h !! name = Some bytes → h' !! path_join tftp_path name = Some bytes) ∧
     ∀ path, (∀ name, is_Some (tftp_files self h !! name) → path ≠ path_join tftp_path name) → h' !! path = h !! path)) ∧
  (∀ name, create_dir_all tftp_path directories = Some dirs → is_Some (files self !! name) →
   path_parent (path_join tftp_path name) ∉ dirs → ∃ msg, create_uefi_tftp_folder self tftp_path h = Err msg).
Proof.
  split; [|intros name; apply create_uefi_tftp_folder_nested]. intros Hok.
  eapply returns_mono; [by apply create_uefi_tftp_folder_spec|]. intros [dirs' h'] (-> & H1 & H2).
  destruct (create_dir_all_ok _ _ _ (tf_folder _ _ _ _ Hok)). by split_and!.
Qed.
End Builder.
End DiskImageProofs.
