(* ===== verification/ImageBoot.v ===== *)
(** * Booting an image

    The image that the builder of the host writes, in the hands of the boot
    sector: [DiskImage] composed with [BootSector] and with the search for the
    FAT partition of the second stage. *)
From stdpp Require Import gmap strings.
From S2P Require Import Prelude Memory Disk BootSector Config Logger Stage2Start DiskImage DiskImageProofs.
Import Memory Disk DiskImage DiskImageProofs.

Module ImageBoot.

(** Where the BIOS loads the first sector, and the symbols of the boot sector's linker script. *)
Definition BOOT_SECTOR : Z := 0x7c00.
Definition PARTITION_TABLE : Z := 0x7dbe.
Definition SECOND_STAGE_START : Z := 0x7e00.

Section Boot.
Context `{HT : Stage2Start.MbrLaws} `{HB : BiosLaws}.

(** A disk that holds an image. *)
Definition holds (disk : Z) (image : list Z) : Prop :=
  (∀ i b, image !! i = Some b → disk_byte disk (Z.of_nat i) = b) ∧ Z.of_nat (length image) ≤ disk_sectors disk * 512.

Lemma read_image disk image lba bs : holds disk image → 0 ≤ lba → bs ≠ [] → sectors_at image lba (length bs) = bs →
  mem_read (disk_byte disk) (lba * 512) (Z.of_nat (length bs)) = bs ∧ lba * 512 + Z.of_nat (length bs) ≤ Z.of_nat (length image).
Proof.
  intros [Hd _] Hl Hne Hs. assert (length (sectors_at image lba (length bs)) = length bs) as Hlen by (by rewrite Hs).
  assert (length bs ≠ 0%nat) by (by destruct bs). unfold sectors_at in *. rewrite length_take, length_drop in Hlen. split; [|lia].
  apply list_eq. intros i. destruct (decide (i < length bs)%nat) as [Hi|Hi].
  - rewrite mem_read_lookup by lia. assert (bs !! i = image !! (Z.to_nat (lba * 512) + i)%nat) as ->
      by (by rewrite <- Hs, lookup_take_lt, lookup_drop by done).
    destruct (lookup_lt_is_Some_2 image (Z.to_nat (lba * 512) + i)) as [b Hb]; [lia|]. rewrite Hb. f_equal.
    rewrite <- (Hd _ _ Hb). f_equal. lia.
  - rewrite !lookup_ge_None_2; [done|lia|]. rewrite length_mem_read. lia.
Qed.

(** The boot sector on a disk with the layout of an image. *)
Lemma layout_boots bs second_stage fat image e0 e1 disk mem : mbr_layout bs second_stage fat image e0 e1 →
  second_stage ≠ [] → fat ≠ [] → SECOND_STAGE_START + Z.of_nat (length second_stage) + 512 ≤ 2 ^ 20 →
  holds disk image → mem_read mem BOOT_SECTOR 512 = take 512 image →
  returns (BootSector.first_stage PARTITION_TABLE SECOND_STAGE_START disk mem) (λ '(j, mem'),
    j = BootSector.mkJump SECOND_STAGE_START disk PARTITION_TABLE ∧
    mem_read mem' SECOND_STAGE_START (Z.of_nat (length second_stage)) = second_stage ∧
    (parts ← Stage2Start.parse_partitions (mem_read mem' PARTITION_TABLE 64); Stage2Start.find_fat_partition parts) = Ret e1 ∧
    mem_read (disk_byte disk) (Stage2Start.logical_block_address e1 * 512) (Z.of_nat (length fat)) = fat).
Proof.
  intros Hl Hs Hf Hend Hd Hm. unfold SECOND_STAGE_START, PARTITION_TABLE, BOOT_SECTOR in *.
  destruct (ml_first_size _ _ _ _ _ _ Hl) as [Hn1 Hn2]. set (n := BootSector.sector_count e0) in *.
  assert (0 < n) by (destruct second_stage; cbn in Hn1; [done|lia]).
  destruct (read_image disk image 1 second_stage Hd) as [Hr2 _]; [lia|done|apply Hl|].
  destruct (read_image disk image (Stage2Start.logical_block_address e1) fat Hd) as [Hrf Hend2];
    [rewrite (ml_second_lba _ _ _ _ _ _ Hl); lia|done|apply Hl|]. rewrite (ml_second_lba _ _ _ _ _ _ Hl) in Hend2. fold n in Hend2.
  assert (mem_read mem 0x7dbe 64 = take 64 (drop 446 image)) as Ht.
  { change 0x7dbe with (0x7c00 + 446). rewrite <- (mem_read_slice mem 0x7c00 512 446 64), Hm by lia.
    rewrite !take_drop_commute, take_take. done. }
  eapply returns_mono.
  { apply (BootSector.first_stage_spec 0x7dbe 0x7e00 disk mem e0); rewrite ?(ml_first_lba _ _ _ _ _ _ Hl); fold n;
      [by rewrite Ht; apply Hl|by vm_compute|unfold is_uint; lia|destruct Hd; lia|lia|lia|lia]. }
  rewrite (ml_first_lba _ _ _ _ _ _ Hl). fold n. intros [j mem'] (-> & Hload & Htab & _). split_and!; [done| |by rewrite Htab, Ht; apply Hl|done].
  replace (n * 512) with (Z.of_nat (length second_stage) + (n * 512 - Z.of_nat (length second_stage))) in Hload by lia.
  rewrite !mem_read_app in Hload by lia. apply app_inj_1 in Hload as [-> _]; [done|by rewrite !length_mem_read].
Qed.

End Boot.
End ImageBoot.
