(* ===== verification/ImageFiles.v ===== *)
(** * From the files of the host to memory

    The FAT volume that the builder writes, read by the driver of the second
    stage. [FatFormatLaws] says that the crate fatfs writes volumes in the format
    of [FatFormat]; [fat_volume_readable] shows that the driver finds the files of
    such a volume ([readable_volume]). With it the builder, the boot sector and the
    second stage are composed: the bytes of the files on the host are the bytes in
    the regions that the second stage hands on. *)
From stdpp Require Import gmap strings.
From S2P Require Import Prelude Memory Fat FatProofs Disk BootSector Stage2 E820 BiosCommon Vesa Config Logger Stage2Start.
From S2P Require Import DiskImage FatFormat DiskImageProofs ImageBoot.
Import Memory Disk Fat FatProofs Stage2 DiskImage DiskImageProofs ImageBoot.

Module ImageFiles.

(** The files that the second stage looks for. *)
Definition loader_files : list string := ["boot-stage-3"; "boot-stage-4"; KERNEL_FILE_NAME; RAMDISK_FILE_NAME; CONFIG_FILE_NAME].

(** The bytes of a file image. *)
Definition image_bytes (img : list Z) (x : Z) : Z := nth (Z.to_nat x) img 0.

(** The clusters of a chain, and the root directory. *)
Definition bytes_of_chain (bytes : Z → Z) (b : Bpb) (cs : list Z) : list Z :=
  cs ≫= λ c, mem_read bytes (cluster_start b c) (cluster_bytes b).
Definition finds (bytes : Z → Z) (b : Bpb) (buf : Buffer) (name : string) (o : option Fat.File) : Prop :=
  ∀ stale, Z.of_nat (length stale) = buf_len buf - root_entry_count b * 32 →
    lookup_file (raw_entries (mem_read bytes (root_start b) (root_entry_count b * 32) ++ stale)) (Stage2Start.chars name) = Ret o.
(** The file [file] with the clusters [cs] has the given contents. *)
Record readable_file (bytes : Z → Z) (b : Bpb) (ty : FatType) (table : list Z) (content : list Z) (f : Fat.File * list Z) : Prop := {
  rf_first : 0 ≤ first_cluster f.1;
  rf_chain : chain ty (clusters b + 1) table (first_cluster f.1) f.2;
  rf_size : file_size f.1 = Z.of_nat (length content);
  rf_clusters : Z.of_nat (length content) ≤ clusters_size b f.2 < Z.of_nat (length content) + cluster_bytes b;
  rf_content : take (length content) (bytes_of_chain bytes b f.2) = content;
}.

(** The first [len] bytes are a FAT volume whose root directory has the given files, as far as the
    second stage looks for them. A file without contents has no cluster. *)
Record readable_volume (bytes : Z → Z) (len : Z) (files : gmap string (list Z)) (buf : Buffer)
    (b : Bpb) (ty : FatType) (table : list Z) : Prop := {
  rv_bpb : Bpb_from_raw (mem_read bytes 0 512) = Ret b;
  rv_ok : bpb_ok b;
  rv_type : type_of_count (clusters b) = ty;
  rv_table : mem_read bytes (reserved_sector_count b * bytes_per_sector b) (Z.of_nat (length (fat_bytes ty table))) = fat_bytes ty table;
  rv_entries x : x ∈ table → is_uint (entry_bits ty) x;
  rv_length : clusters b + 2 ≤ Z.of_nat (length table) < 2 ^ 40;
  rv_even : ty = Fat12 → Nat.Even (length table);
  rv_inside : reserved_sector_count b * bytes_per_sector b + Z.of_nat (length (fat_bytes ty table)) ≤ len ∧
    total_sectors b * bytes_per_sector b ≤ len ∧ 512 ≤ len;
  rv_aligned : data_start b mod 512 = 0 ∧ cluster_bytes b mod 512 = 0;
  rv_cluster : cluster_bytes b ≤ 2 ^ 16;
  rv_root : root_ok b buf;
  rv_file name : name ∈ loader_files → files !! name ≠ Some [] →
    match files !! name with
    | None => finds bytes b buf name None
    | Some content => ∃ f, finds bytes b buf name (Some f.1) ∧ readable_file bytes b ty table content f
    end;
}.

(** The files of a volume, on a disk. *)
Lemma bytes_of_chain_ext bytes bytes' len b ty table e cs : bpb_ok b → total_sectors b * bytes_per_sector b ≤ len →
  (∀ x, x ∈ table → 0 ≤ x) → 0 ≤ e → chain ty (clusters b + 1) table e cs →
  (∀ x, 0 ≤ x < len → bytes' x = bytes x) → bytes_of_chain bytes' b cs = bytes_of_chain bytes b cs.
Proof.
  intros Hb Hlen Ht H0 Hch Hx. unfold bytes_of_chain. pose proof (chain_range _ _ _ _ _ Ht H0 Hch) as Hr. clear Hch.
  induction cs as [|c cs IH]; [done|]. cbn [mbind list_bind]. f_equal.
  - apply mem_read_ext. intros x Hin. apply Hx. destruct (cluster_in_volume b c Hb) as (Hd & He & _); [apply Hr; by left|].
    pose proof (system_bytes b Hb). lia.
  - apply IH. intros c' Hc'. apply Hr. by right.
Qed.

Section Disk.
Context `{HB : BiosLaws} (TMP_BUF : Buffer).
#[local] Instance image_rs : ReadSeek DiskAccess := disk_access_read_seek TMP_BUF.
#[local] Instance image_laws : ReadSeekLaws DiskAccess := disk_access_laws TMP_BUF.

(** What the second stage finds on a disk that holds a volume. *)
Definition file_found (d : DiskAccess) (b : Bpb) (ty : FatType) (table : list Z) (buf : Buffer) (files : gmap string (list Z))
    (name : string) (o : option (Fat.File * list Z)) : Prop :=
  directory_has d b ty table buf (Stage2Start.chars name) o ∧ (length (Stage2Start.o_chain o) ≤ Z.to_nat (clusters b))%nat ∧
  Stage2Start.o_len o = Z.of_nat (length (default [] (files !! name))) ∧
  Stage2Start.o_len o ≤ clusters_size b (Stage2Start.o_chain o) ≤ Stage2Start.o_len o + 2 ^ 16 ∧
  (is_Some o ↔ is_Some (files !! name)) ∧
  take (Z.to_nat (Stage2Start.o_len o)) (chain_bytes d b (Stage2Start.o_chain o)) = default [] (files !! name).

Lemma volume_on_disk bytes len files buf b ty table (d : DiskAccess) :
  readable_volume bytes len files buf b ty table → disk_inv d → (∀ x, 0 ≤ x < len → content d x = bytes x) →
  0 ≤ buf_len buf → len + buf_len buf + 1536 ≤ size d →
  Bpb_from_raw (mem_read (content d) 0 512) = Ret b ∧ volume_ok d b ty table buf ∧ root_ok b buf ∧
  ∀ name, name ∈ loader_files → files !! name ≠ Some [] → ∃ o, file_found d b ty table buf files name o.
Proof.
  intros Hv Hd Hc Hbuf Hsize. destruct Hv as [V1 V2 V3 V4 V5 V6 V7 (V8 & V8' & V8'') V9 V10 V11 V12].
  pose proof (ok_reserved b V2). pose proof (ok_bytes b V2).
  assert (mem_read (content d) (root_start b) (root_entry_count b * 32) = mem_read bytes (root_start b) (root_entry_count b * 32)) as Hroot.
  { apply mem_read_ext. intros x Hx. apply Hc. destruct (root_start_bounds b buf V2 V11) as (_ & ? & _ & ?). lia. }
  split_and!.
  - rewrite <- V1. f_equal. apply mem_read_ext. intros x Hx. apply Hc. lia.
  - split; try done; [|lia]. split; try done; try lia. etrans; [|exact V4]. apply mem_read_ext. intros x Hx. apply Hc. nia.
  - done.
  - intros name Hin Hne. specialize (V12 name Hin Hne). unfold file_found.
    destruct (files !! name) as [data|] eqn:E.
    + destruct V12 as (f & Hf & [F1 F2 F3 F4 F5]). exists (Some f). destruct f as [file cs]. cbn [fst snd] in *.
      assert (Stage2Start.o_len (Some (file, cs)) = Z.of_nat (length data)) as -> by exact F3.
      change (Stage2Start.o_chain (Some (file, cs))) with cs. change (default [] (Some data)) with data. rewrite Nat2Z.id.
      assert (∀ x, x ∈ table → 0 ≤ x) as Ht by (intros x Hx; apply V5, Hx).
      pose proof (chain_length _ _ _ _ _ Ht F1 F2) as Hcl. rewrite Z.add_simpl_r in Hcl.
      split_and!; [|done|done|lia|lia|done|].
      * split; [|done]. intros stale Hst. unfold root_bytes. rewrite Hroot. by apply Hf.
      * rewrite <- F5 at 2. f_equal. apply (bytes_of_chain_ext bytes (content d) len b ty table (first_cluster file) cs); done.
    + exists None. split_and!; [|cbn; lia|done|unfold clusters_size; cbn; lia|unfold clusters_size; cbn; lia| |done].
      * split; [|done]. intros stale Hst. unfold root_bytes. rewrite Hroot. by apply V12.
      * by split; intros [? ?].
Qed.

(** The length of a file, and the sizes that fit: the places of the files do not overlap and end below
    4 GiB, with room for a cluster more than needed. *)
Definition flen (m : gmap string (list Z)) (name : string) : Z := Z.of_nat (length (default [] (m !! name))).
Record sizes_ok (m : gmap string (list Z)) : Prop := {
  so_stages : is_Some (m !! "boot-stage-3") ∧ is_Some (m !! "boot-stage-4") ∧ is_Some (m !! KERNEL_FILE_NAME);
  so_stage_3 : Stage2Start.STAGE_3_DST + flen m "boot-stage-3" < Stage2Start.STAGE_4_DST;
  so_stage_4 : Stage2Start.STAGE_4_DST + flen m "boot-stage-4" ≤ Stage2Start.KERNEL_DST;
  so_end : Stage2Start.KERNEL_DST + flen m KERNEL_FILE_NAME + 4096 + flen m RAMDISK_FILE_NAME + flen m CONFIG_FILE_NAME + 2 ^ 16 < 2 ^ 32;
  so_nonempty name : name ∈ loader_files → m !! name ≠ Some [];
}.
Record buffer_ok (buf : Buffer) : Prop := {
  bo_place : 0 ≤ buf_addr buf ∧ buf_addr buf + buf_len buf ≤ 2 ^ 20;
  bo_len : buf_len buf mod 512 = 0 ∧ 512 ≤ buf_len buf;
}.

Lemma found_file_ok d b ty table buf m name o fuel limit dst : file_found d b ty table buf m name o →
  (Z.to_nat (clusters b) < fuel)%nat → dst + flen m name + 2 ^ 16 ≤ limit →
  Stage2Start.file_ok d b ty table buf fuel limit dst (Stage2Start.chars name) o.
Proof.
  intros (H1 & H2 & H3 & H4 & _) Hf Hl. unfold flen in Hl. rewrite <- H3 in Hl. split; [done| |lia|lia].
  split; [|lia]. rewrite H3. lia.
Qed.

Lemma found_files_ok d b ty table buf m fuel : disk_inv d → buffer_ok buf → sizes_ok m →
  (∀ name, name ∈ loader_files → m !! name ≠ Some [] → ∃ o, file_found d b ty table buf m name o) →
  (Z.to_nat (clusters b) < fuel)%nat →
  ∃ stage_3 stage_4 kernel ramdisk config,
    Stage2Start.files_ok d b ty table buf fuel (2 ^ 32 - 1) stage_3 stage_4 kernel ramdisk config ∧
    file_found d b ty table buf m "boot-stage-3" (Some stage_3) ∧ file_found d b ty table buf m "boot-stage-4" (Some stage_4) ∧
    file_found d b ty table buf m KERNEL_FILE_NAME (Some kernel) ∧ file_found d b ty table buf m RAMDISK_FILE_NAME ramdisk ∧
    file_found d b ty table buf m CONFIG_FILE_NAME config.
Proof.
  intros Hd Hbuf Hs Hfound Hfuel. destruct (so_stages _ Hs) as (P3 & P4 & Pk).
  assert (∀ name, name ∈ loader_files → ∃ o, file_found d b ty table buf m name o ∧ (is_Some o ↔ is_Some (m !! name))) as Hf.
  { intros name Hin. destruct (Hfound name Hin (so_nonempty _ Hs name Hin)) as [o Ho]. exists o. split; [done|apply Ho]. }
  destruct (Hf "boot-stage-3") as (o3 & F3 & [_ [s3 ->]%(fun H => H P3)]); [by repeat constructor|].
  destruct (Hf "boot-stage-4") as (o4 & F4 & [_ [s4 ->]%(fun H => H P4)]); [by repeat constructor|].
  destruct (Hf KERNEL_FILE_NAME) as (ok & Fk & [_ [k ->]%(fun H => H Pk)]); [by repeat constructor|].
  destruct (Hf RAMDISK_FILE_NAME) as (r & Fr & _); [by repeat constructor|].
  destruct (Hf CONFIG_FILE_NAME) as (c & Fc & _); [by repeat constructor|].
  exists s3, s4, k, r, c. split_and!; try done. pose proof Hs as [_ S3 S4 Send Sne]. unfold flen in *.
  assert (∀ name o, file_found d b ty table buf m name o → Stage2Start.o_len o = Z.of_nat (length (default [] (m !! name)))) as Hlen
    by (intros name o (_ & _ & H & _); exact H).
  pose proof (Hlen _ _ F3) as L3. pose proof (Hlen _ _ F4) as L4. pose proof (Hlen _ _ Fk) as Lk. pose proof (Hlen _ _ Fr) as Lr.
  change (file_size s3.1 = Z.of_nat (length (default [] (m !! "boot-stage-3")))) in L3.
  change (file_size s4.1 = Z.of_nat (length (default [] (m !! "boot-stage-4")))) in L4.
  change (file_size k.1 = Z.of_nat (length (default [] (m !! KERNEL_FILE_NAME)))) in Lk.
  assert (0 < file_size k.1) as Hk0.
  { rewrite Lk. destruct Pk as [x Hx]. rewrite Hx. destruct x; [|cbn; lia]. destruct (Sne KERNEL_FILE_NAME); [by repeat constructor|done]. }
  pose proof (Stage2Start.ramdisk_place_bounds k Hk0) as Hrp.
  assert (Stage2Start.config_place k r = Stage2Start.ramdisk_place k + Stage2Start.o_len r) as Hcp by done.
  assert (Stage2Start.STAGE_3_DST = 2 ^ 20 ∧ Stage2Start.STAGE_4_DST < 2 ^ 30 ∧ Stage2Start.KERNEL_DST < 2 ^ 30) as (D3 & D4 & Dk) by done.
  destruct Hbuf as [[B1 B2] B3].
  split; [|lia|eapply found_file_ok; [exact F3|done|unfold flen; lia]|eapply found_file_ok; [exact F4|done|unfold flen; lia]|
    apply (found_file_ok d b ty table buf m KERNEL_FILE_NAME); [exact Fk|done|unfold flen; lia]|apply (found_file_ok d b ty table buf m RAMDISK_FILE_NAME); [exact Fr|done|unfold flen; lia]|
    apply (found_file_ok d b ty table buf m CONFIG_FILE_NAME); [exact Fc|done|unfold flen; lia]|lia|lia|done].
  split; [done|done|lia|]. intros x Hx Hsc. cbn in Hsc. destruct Hd as (_ & _ & _ & _ & _ & _ & Ht). lia.
Qed.

(** A volume inside of a disk. *)
Lemma content_of_volume disk lba fat x : mem_read (disk_byte disk) (lba * 512) (Z.of_nat (length fat)) = fat →
  0 ≤ x < Z.of_nat (length fat) → content (mkDiskAccess disk (lba * 512) 0) x = image_bytes fat x.
Proof.
  intros Hr Hx. unfold image_bytes. cbn. unfold access_content. cbn [disk_number base_offset].
  symmetry. apply nth_lookup_Some. rewrite <- Hr, mem_read_lookup by lia. do 2 f_equal. lia.
Qed.
End Disk.

(** ** Volumes in the documented format are read *)

(** Names that the driver does not take for another: it compares the parts of 13 characters of a long name. *)
Definition names_ok (files : gmap string (list Z)) : Prop :=
  ∀ path, is_Some (files !! path) → FatFormat.plain_path path ∧
    ∀ name, name ∈ loader_files → FatFormat.root_name path ≠ name → Stage2Start.chars name ∉ FatFormat.name_parts (FatFormat.root_name path).

Lemma loader_files_search name : name ∈ loader_files → FatFormat.search_name name ∧ path_pieces name = [name].
Proof.
  intros Hin. assert (Forall (λ name, FatFormat.search_name name ∧ path_pieces name = [name]) loader_files) as H
    by (apply (bool_decide_unpack _); by vm_compute). rewrite Forall_forall in H. by apply H.
Qed.
Lemma item_found (items : list FatFormat.DirItem) it : NoDup (FatFormat.it_name <$> items) → it ∈ items →
  ∃ i, list_find (λ x, FatFormat.it_name x = FatFormat.it_name it) items = Some (i, it).
Proof.
  intros Hnd (i & Hi)%list_elem_of_lookup. exists i. apply list_find_Some. split_and!; [done|done|]. intros j x Hj Hlt E.
  enough (j = i) by lia. apply (NoDup_lookup _ _ _ (FatFormat.it_name it) Hnd); rewrite list_lookup_fmap; [by rewrite Hj, <- E|by rewrite Hi].
Qed.

Section Format.
Context (root_entries : Z) (bytes : Z → Z) (len : Z) (label : list Z) (files : gmap string (list Z)) (buf : Buffer).
Context (b : Bpb) (ty : FatType) (table : list Z) (items : list FatFormat.DirItem).
Context (HV : FatFormat.fat_volume root_entries bytes len label files b ty table items).
Context (Hlabel : FatFormat.label_ok label) (Hnames : names_ok files) (Hbuf : buf_len buf = root_entries * 32).

Lemma volume_lookup name : name ∈ loader_files → finds bytes b buf name
  (match list_find (λ it, FatFormat.it_name it = name) items with
   | Some (_, it) => if Z.land (FatFormat.it_attr it) DIRECTORY =? 0 then Some (mkFile (FatFormat.it_cluster it) (FatFormat.it_size it)) else None
   | None => None
   end).
Proof.
  intros Hin stale Hst. destruct (loader_files_search name Hin) as [Hs _]. pose proof (FatFormat.fv_fields _ _ _ _ _ _ _ _ _ HV) as Hb.
  destruct (FatFormat.fo_root _ _ Hb) as (Hre & Hpos & _). rewrite Hbuf, Hre in Hst. destruct stale; [|cbn in Hst; lia].
  destruct (FatFormat.fv_root _ _ _ _ _ _ _ _ _ HV) as (t1 & t2 & rest & L1 & L2 & Hroot & Hrest).
  unfold root_start. rewrite (FatFormat.fo_bytes _ _ Hb), Hre, app_nil_r, Hroot.
  apply FatFormat.lookup_directory; [done|done|done|done|apply HV| |done].
  intros it Hit Hne. destruct (FatFormat.fv_only _ _ _ _ _ _ _ _ _ HV it Hit) as (path & Hp & Hr & _).
  destruct (Hnames path Hp) as [_ Hno]. rewrite <- Hr in Hne |- *. by apply Hno.
Qed.

Lemma volume_files name : name ∈ loader_files → files !! name ≠ Some [] →
  match files !! name with
  | None => finds bytes b buf name None
  | Some content => ∃ f, finds bytes b buf name (Some f.1) ∧ readable_file bytes b ty table content f
  end.
Proof.
  intros Hin Hne. destruct (loader_files_search name Hin) as [_ Hp]. pose proof (volume_lookup name Hin) as Hl.
  pose proof (FatFormat.fv_fields _ _ _ _ _ _ _ _ _ HV) as Hb. destruct (files !! name) as [data|] eqn:E.
  - destruct (FatFormat.fv_file _ _ _ _ _ _ _ _ _ HV name data E) as (it & cs & Hit & Hn & [Hdir Hsz Hch Hfit Hdata]); [by intros ->|done|].
    destruct (item_found items it) as [i Hi]; [apply HV|done|]. rewrite Hn in Hi. rewrite Hi, Hdir in Hl. cbn [Z.eqb] in Hl.
    exists (mkFile (FatFormat.it_cluster it) (FatFormat.it_size it), cs). split; [exact Hl|].
    destruct (FatFormat.v_chain root_entries b Hb _ _ _ _ (FatFormat.fv_type _ _ _ _ _ _ _ _ _ HV) Hch) as [Hc H0].
    split; cbn [fst snd first_cluster file_size]; [done|done|done| |].
    + unfold clusters_size. by rewrite (FatFormat.v_cluster_bytes root_entries b Hb).
    + unfold bytes_of_chain. rewrite <- Hdata at 2. f_equal. apply list_bind_ext; [|done]. intros c. unfold FatFormat.v_cluster, cluster_start.
      rewrite (FatFormat.v_cluster_bytes root_entries b Hb), (FatFormat.v_data_start root_entries b Hb). f_equal. lia.
  - destruct (list_find _ items) as [[i it]|] eqn:Ef; [|done]. apply list_find_Some in Ef as (Hi & Hn & _).
    apply list_elem_of_lookup_2 in Hi. destruct (FatFormat.fv_only _ _ _ _ _ _ _ _ _ HV it Hi) as (path & [x Hx] & _ & Hd).
    rewrite (proj2 (Z.eqb_neq _ _)) in Hl by (apply Hd; intros ->; congruence). done.
Qed.

(** A volume in the documented format is read by the driver. *)
Lemma fat_volume_readable : readable_volume bytes len files buf b ty table.
Proof.
  pose proof HV as [Hsec Hb Hty Htab Hent Hlen Heven Hinside _ _ _ _]. pose proof Hb as [B1 B2 B3 B4 (B5 & B6 & B7) [B8 B9] (B10 & B11 & B12) B13].
  destruct (FatFormat.v_type_count root_entries b Hb ty Hty) as [Hct Hn32].
  pose proof (FatFormat.v_cluster_bytes root_entries b Hb) as Hcb. pose proof (FatFormat.v_data_start root_entries b Hb) as Hds.
  split; rewrite ?(FatFormat.v_clusters_eq root_entries b Hb), ?(FatFormat.v_total root_entries b Hb), ?B1; try done.
  - destruct Hsec as (head & media & geometry & rest & L1 & L2 & L3 & ->). apply FatFormat.boot_record_parses; [|lia|done..].
    split; unfold is_uint; rewrite ?B5; (done || lia).
  - exact (FatFormat.v_bpb_ok root_entries b Hb).
  - by rewrite <- (FatFormat.v_clusters_eq root_entries b Hb).
  - rewrite Hds, Hcb. by rewrite !Z_mod_mult.
  - rewrite Hcb. lia.
  - split; rewrite ?B5, ?B1; [by rewrite Hct|exact (FatFormat.v_fat_size root_entries b Hb)|lia|lia|done|done].
  - exact volume_files.
Qed.
End Format.

(** What fatfs documents of its volumes, which it formats with a number of root directory entries of its own: a
    volume of less than 65536 sectors is FAT12 or FAT16, and its bytes have the format of [FatFormat]. *)
Class FatFormatLaws (V : Type) {FF : FatFs V} {HV : FatFsLaws V} := {
  root_entries : Z;
  volume_format v : can_store v [] → Z.of_nat (vol_size v) < 2 ^ 25 →
    (∀ path, is_Some (vol_files v !! path) → FatFormat.plain_path path) →
    ∃ b ty table items, FatFormat.fat_volume root_entries (image_bytes (volume_image v)) (Z.of_nat (vol_size v))
      (vol_label v) (vol_files v) b ty table items;
}.

Section Chain.
Context `{HL : HostLaws} {MBR V : Type} `{HM : MbrmanLaws MBR} `{HT : Stage2Start.MbrLaws} `{HV : FatFsLaws V} `{BB : Binaries}.
Context `{HB : BiosLaws} `{HE : E820.E820Laws} `{HVB : Vesa.VbeLaws}.
Context (TMP_BUF DISK_BUFFER : Buffer) (MEMORY_MAP : Z) `{HFF : !FatFormatLaws V}.

(** The machine: where the statics of the second stage lie, its memory map and its video modes. The buffer for
    the disk has the size of the root directory. *)
Record machine_ok (modes : list Z) : Prop := {
  mo_tmp : buf_len TMP_BUF = 1024 ∧ 0 ≤ buf_addr TMP_BUF ∧ buf_addr TMP_BUF + 1536 ≤ 2 ^ 20;
  mo_buffer : buffer_ok DISK_BUFFER;
  mo_root : buf_len DISK_BUFFER = root_entries * 32;
  mo_entries : E820.entries ≠ [] ∧ (length (E820.reported E820.entries) ≤ E820.MAP_LEN)%nat;
  mo_map : Stage2Start.map_place_ok DISK_BUFFER MEMORY_MAP;
  mo_vesa : Stage2Start.vesa_ok DISK_BUFFER modes;
}.

(** A region holds a file. *)
Definition holds_file (mem : Mem) (r : BiosCommon.Region) (m : gmap string (list Z)) (name : string) : Prop :=
  mem_read mem (BiosCommon.start r) (BiosCommon.len r) = default [] (m !! name).

(** A volume that the driver can read: less than 65536 sectors, a label without spaces, and no names that it takes
    for those of the stages. *)
Definition usable_volume (fat : list Z) (m : gmap string (list Z)) : Prop :=
  ∃ label, image_of fat label m ∧ FatFormat.label_ok label ∧ names_ok m ∧ Z.of_nat (length fat) < 2 ^ 25.

(** What the second stage finds on the disk of an image: with enough fuel, the five files. *)
Lemma image_on_disk fat m disk lba : usable_volume fat m → sizes_ok m → buffer_ok DISK_BUFFER → buf_len DISK_BUFFER = root_entries * 32 →
  buf_len TMP_BUF = 1024 ∧ 0 ≤ buf_addr TMP_BUF ∧ buf_addr TMP_BUF + 1536 ≤ 2 ^ 20 → is_uint 32 lba →
  mem_read (disk_byte disk) (lba * 512) (Z.of_nat (length fat)) = fat →
  lba * 512 + Z.of_nat (length fat) + buf_len DISK_BUFFER + 1536 ≤ disk_sectors disk * 512 → disk_sectors disk < 2 ^ 54 →
  let d := mkDiskAccess disk (lba * 512) 0 in
  ∃ b ty table bound, Bpb_from_raw (mem_read (access_content d) 0 512) = Ret b ∧
    volume_ok (HS := disk_access_laws TMP_BUF) d b ty table DISK_BUFFER ∧ root_ok b DISK_BUFFER ∧
    ∀ fuel, (bound ≤ fuel)%nat → ∃ s3 s4 k r c,
      Stage2Start.files_ok (HS := disk_access_laws TMP_BUF) d b ty table DISK_BUFFER fuel (2 ^ 32 - 1) s3 s4 k r c ∧
      file_found TMP_BUF d b ty table DISK_BUFFER m "boot-stage-3" (Some s3) ∧
      file_found TMP_BUF d b ty table DISK_BUFFER m "boot-stage-4" (Some s4) ∧
      file_found TMP_BUF d b ty table DISK_BUFFER m KERNEL_FILE_NAME (Some k) ∧
      file_found TMP_BUF d b ty table DISK_BUFFER m RAMDISK_FILE_NAME r ∧ file_found TMP_BUF d b ty table DISK_BUFFER m CONFIG_FILE_NAME c.
Proof.
  intros (label & (v & -> & <- & Hcs & [= Hlab Hsz]) & Hlok & Hnames & Hless) Hsizes Hbuf Hroot Htmp Hlba Hfat Hend Hds d.
  destruct (volume_format v Hcs) as (b & ty & table & items & Hvf); [by rewrite Hsz|intros p Hp; by apply Hnames|]. rewrite Hlab in Hvf.
  pose proof (fat_volume_readable _ _ _ _ _ DISK_BUFFER _ _ _ _ Hvf Hlok Hnames Hroot) as Hvol. unfold is_uint in Hlba.
  assert (access_ok TMP_BUF d) as Hd.
  { unfold access_ok, d. cbn [base_offset current_offset disk_number]. rewrite Z_mod_mult. split_and!; (lia || apply Htmp). }
  destruct (volume_on_disk TMP_BUF _ _ _ _ _ _ _ d Hvol) as (Hb & Hv & Hr & Hf).
  - done.
  - intros x Hx. apply content_of_volume; [done|]. by rewrite <- Hsz.
  - destruct Hbuf. lia.
  - cbn. unfold access_size. cbn [disk_number base_offset d]. lia.
  - exists b, ty, table, (S (Z.to_nat (clusters b))). split_and!; [done|done|done|]. intros fuel Hfuel.
    by apply found_files_ok.
Qed.

(** A file that was found and loaded. *)
Lemma found_in_memory d b ty table m name o mem dst : file_found TMP_BUF d b ty table DISK_BUFFER m name o →
  Stage2Start.in_memory (HS := disk_access_laws TMP_BUF) d b mem dst o →
  mem_read mem dst (Stage2Start.o_len o) = default [] (m !! name).
Proof. intros (_ & _ & _ & _ & _ & H) Hm. rewrite <- H. exact Hm. Qed.

(** The partition that the second stage finds is the volume with the files. *)
Record partition_found (disk table_addr : Z) (mem : Mem) (m : gmap string (list Z)) (fat : list Z)
    (e : Stage2Start.PartitionTableEntry) : Prop := {
  pf_image : usable_volume fat m;
  pf_found : (parts ← Stage2Start.parse_partitions (mem_read mem table_addr 64); Stage2Start.find_fat_partition parts) = Ret e;
  pf_lba : is_uint 32 (Stage2Start.logical_block_address e);
  pf_bytes : mem_read (disk_byte disk) (Stage2Start.logical_block_address e * 512) (Z.of_nat (length fat)) = fat;
  pf_end : Stage2Start.logical_block_address e * 512 + Z.of_nat (length fat) + buf_len DISK_BUFFER + 1536 ≤ disk_sectors disk * 512;
  pf_disk : disk_sectors disk < 2 ^ 54;
}.

(** The second stage on the disk of an image. *)
Lemma second_stage_loads fat m disk e table_addr mem modes : partition_found disk table_addr mem m fat e → sizes_ok m → machine_ok modes →
  ∃ bound, ∀ fuel, (bound ≤ fuel)%nat →
    returns (Stage2Start.start TMP_BUF DISK_BUFFER MEMORY_MAP fuel disk table_addr mem) (λ '(info, mem'),
      holds_file mem' (BiosCommon.mkRegion Stage2Start.STAGE_3_DST (flen m "boot-stage-3")) m "boot-stage-3" ∧
      holds_file mem' (BiosCommon.stage_4 info) m "boot-stage-4" ∧ holds_file mem' (BiosCommon.kernel info) m KERNEL_FILE_NAME ∧
      holds_file mem' (BiosCommon.ramdisk info) m RAMDISK_FILE_NAME ∧ holds_file mem' (BiosCommon.config_file info) m CONFIG_FILE_NAME).
Proof.
  intros [Him Hfound Hlba Hfat Hend Hds] Hsizes [Htmp Hbuf Hroot [He1 He2] Hmap Hvesa].
  destruct (image_on_disk fat m disk _ Him Hsizes Hbuf Hroot Htmp Hlba Hfat Hend Hds) as (b & ty & table & bound & Hb & Hv & Hr & Hf).
  exists (bound + length E820.entries + S (length modes))%nat. intros fuel Hfuel.
  destruct (Hf fuel) as (s3 & s4 & k & r & c & Hok & F3 & F4 & Fk & Fr & Fc); [lia|].
  eapply returns_mono.
  { eapply (Stage2Start.start_found_spec TMP_BUF DISK_BUFFER MEMORY_MAP fuel disk table_addr mem e b ty table (2 ^ 32 - 1) s3 s4 k r c modes);
      (done || lia). }
  intros [info mem'] ((md & _ & _ & Hi) & _ & I3 & I4 & Ik & Ir & Ic & _). unfold holds_file.
  rewrite (Stage2Start.io_stage_4 _ _ _ _ _ _ _ _ Hi), (Stage2Start.io_kernel _ _ _ _ _ _ _ _ Hi),
    (Stage2Start.io_ramdisk _ _ _ _ _ _ _ _ Hi), (Stage2Start.io_config _ _ _ _ _ _ _ _ Hi). cbn [BiosCommon.start BiosCommon.len].
  split_and!; [|by apply (found_in_memory _ _ _ _ _ _ _ _ _ F4)|by apply (found_in_memory _ _ _ _ _ _ _ _ _ Fk)|
    by apply (found_in_memory _ _ _ _ _ _ _ _ _ Fr)|by apply (found_in_memory _ _ _ _ _ _ _ _ _ Fc)].
  rewrite <- (found_in_memory _ _ _ _ _ _ _ _ _ F3 I3). f_equal. destruct F3 as (_ & _ & -> & _). done.
Qed.

(** The files that go into an image of the builder. *)
Definition built_files (self : DiskImageBuilder) (h : Host) : gmap string (list Z) := contents h (files self ∪ bios_files).

(** What the builder needs of the host and of the stages: files that can be read and fit into a volume, paths that
    can be written, a boot sector and a second stage that fits into low memory. What the second stage needs of the
    volume: less than 32 MiB (the sector count of a larger one is read wrongly), a label without spaces (one as the
    ninth character makes the driver panic), and no file name of which 13 characters are the name of another file to load. *)
Record build_ok (self : DiskImageBuilder) (out : string) (h : Host) (t : string) : Prop := {
  bu_names : files self ##ₘ bios_files;
  bu_readable : readable h (files self);
  bu_paths : temp_path h = Some t ∧ out ≠ t ∧ can_create out = true;
  bu_sector : bootsector_ok BIOS_BOOT_SECTOR;
  bu_second : BIOS_STAGE_2 ≠ [] ∧ SECOND_STAGE_START + Z.of_nat (length BIOS_STAGE_2) + 512 ≤ 2 ^ 20;
  bu_total : padded (total h (files self ∪ bios_files)) < 2 ^ 25;
  bu_label : FatFormat.label_ok (volume_label (files self ∪ bios_files));
  bu_parts : names_ok (built_files self h);
  bu_fits : fits (Z.to_nat (padded (total h (files self ∪ bios_files)))) (in_order h (files self ∪ bios_files));
  bu_sizes : sizes_ok (built_files self h);
}.

(** The machine at the first instruction of the boot sector: the disk holds the image, and sectors behind it that the
    second stage reads past the end; the firmware has loaded the first sector. *)
Record boots_from (disk : Z) (image : list Z) (mem : Mem) : Prop := {
  bf_holds : holds disk image;
  bf_size : Z.of_nat (length image) + buf_len DISK_BUFFER + 1536 ≤ disk_sectors disk * 512 ∧ disk_sectors disk < 2 ^ 54;
  bf_sector : mem_read mem BOOT_SECTOR 512 = take 512 image;
}.

(** The builder and the boot sector. *)
Lemma built_image_boots self out h t : build_ok self out h t →
  returns (create_bios_image self out h) (λ h', ∃ image, h' = <[out := image]> h ∧ 512 ≤ Z.of_nat (length image) < 2 ^ 41 ∧
    ∀ disk mem, boots_from disk image mem →
      returns (BootSector.first_stage PARTITION_TABLE SECOND_STAGE_START disk mem) (λ '(j, mem1),
        j = BootSector.mkJump SECOND_STAGE_START disk PARTITION_TABLE ∧
        mem_read mem1 SECOND_STAGE_START (Z.of_nat (length BIOS_STAGE_2)) = BIOS_STAGE_2 ∧
        ∃ fat e, partition_found disk PARTITION_TABLE mem1 (built_files self h) fat e)).
Proof.
  intros [Hdis Hr (Ht & Ho & Hc) Hbs [Hne Hs] Htot Hlab Hparts Hf Hsizes]. unfold SECOND_STAGE_START in Hs.
  assert (0 < Z.of_nat (length BIOS_STAGE_2)) by (destruct BIOS_STAGE_2; cbn; [done|lia]).
  pose proof (padded_bounds (total h (files self ∪ bios_files))) as Hpad. pose proof (total_nonneg h (files self ∪ bios_files)).
  eapply returns_mono; [apply (create_bios_image_spec self out h t); (done || lia)|].
  intros h' (fat & image & e0 & e1 & -> & Hl & Hlf & Hfiles). exists image.
  pose proof (ml_first_size _ _ _ _ _ _ Hl). pose proof (ml_second_lba _ _ _ _ _ _ Hl) as Hlba. pose proof (ml_length _ _ _ _ _ _ Hl).
  split_and!; [done|lia|lia|]. intros disk mem [Hd [Hsize Hds] Hm]. assert (fat ≠ []) as Hfne by (intros ->; cbn in Hlf; lia).
  eapply returns_mono; [eapply layout_boots; [exact Hl|done|done|unfold SECOND_STAGE_START; lia|done|done]|].
  intros [j mem'] (-> & G1 & G2 & G3). split_and!; [done|done|]. exists fat, e1.
  destruct (read_image disk image (Stage2Start.logical_block_address e1) fat Hd) as [_ Hend]; [lia|done|apply Hl|].
  split; try done; [|unfold is_uint; lia|lia]. exists (volume_label (files self ∪ bios_files)). split_and!; (done || lia).
Qed.

(** C7: From the files of the host to memory. [create_bios_image] writes an image and changes nothing else
    on the host. When a machine boots from a disk that holds the image and at least
    [buf_len DISK_BUFFER] + 1536 bytes behind it (the second stage reads past the end of the volume, and panics
    where there is nothing to read), the boot sector loads the second stage and enters it; the second stage,
    with enough fuel for its loops, returns: the third and fourth stage, the kernel, the ramdisk and the
    configuration are in the regions that it reports, each with exactly the bytes of its source on the
    host (none for a file that the builder does not have). The volume has less than 32 MiB, its label (from the
    name of the kernel file) is ASCII without spaces, and no part of 13 characters of another file's name is the name of
    one of these files ([build_ok]). Of fatfs it is assumed that its bytes have the documented
    format ([FatFormat.fat_volume]); that the driver reads this format is proved. *)
Theorem built_image_loads self out h t modes : let m := built_files self h in
  build_ok self out h t → machine_ok modes →
  returns (create_bios_image self out h) (λ h', ∃ image, h' = <[out := image]> h ∧ 512 ≤ Z.of_nat (length image) < 2 ^ 41 ∧
    ∀ disk mem, boots_from disk image mem →
      returns (BootSector.first_stage PARTITION_TABLE SECOND_STAGE_START disk mem) (λ '(j, mem1),
        j = BootSector.mkJump SECOND_STAGE_START disk PARTITION_TABLE ∧
        mem_read mem1 SECOND_STAGE_START (Z.of_nat (length BIOS_STAGE_2)) = BIOS_STAGE_2 ∧
        ∃ bound, ∀ fuel, (bound ≤ fuel)%nat →
          returns (Stage2Start.start TMP_BUF DISK_BUFFER MEMORY_MAP fuel (BootSector.jump_disk_number j)
                     (BootSector.partition_table_start j) mem1) (λ '(info, mem2),
            holds_file mem2 (BiosCommon.mkRegion Stage2Start.STAGE_3_DST (flen m "boot-stage-3")) m "boot-stage-3" ∧
            holds_file mem2 (BiosCommon.stage_4 info) m "boot-stage-4" ∧
            holds_file mem2 (BiosCommon.kernel info) m KERNEL_FILE_NAME ∧
            holds_file mem2 (BiosCommon.ramdisk info) m RAMDISK_FILE_NAME ∧
            holds_file mem2 (BiosCommon.config_file info) m CONFIG_FILE_NAME))).
Proof.
  intros m Hbu Hma. eapply returns_mono; [exact (built_image_boots self out h t Hbu)|]. intros h' (image & -> & Hlen & Hb). exists image.
  split_and!; [done|lia|lia|]. intros disk mem Hd. eapply returns_mono; [exact (Hb disk mem Hd)|].
  intros [j mem1] (-> & Hs2 & fat & e & Hp). split_and!; [done|done|].
  cbn [BootSector.jump_disk_number BootSector.partition_table_start].
  apply (second_stage_loads fat m disk e PARTITION_TABLE mem1 modes Hp (bu_sizes _ _ _ _ Hbu) Hma).
Qed.
End Chain.

(** A file without contents has no cluster: the second stage panics when it comes to one. *)
Lemma empty_file_panics {D : Type} `{RS : ReadSeek D} fuel (fs : FileSystem D) size (d : D) mem buf dst : bpb_ok (bpb fs) →
  ∃ msg, load_clusters (S fuel) (file_clusters fs (mkFile 0 size)) d mem buf dst 0 = Panic msg.
Proof.
  intros Hb. cbn [load_clusters]. unfold file_clusters, next_cluster. cbn [trav_bpb current_entry first_cluster].
  rewrite fat_type_ok, maximum_valid_cluster_ok by done. cbn. by eexists.
Qed.
End ImageFiles.
