(* ===== verification/DiskImageSample.v ===== *)
(** * Disk images: reference instances of the crates

    A host, a partition table, a GPT and a file system that keep to the laws of
    [DiskImageProofs], and the images of a builder on them. The file system of
    this file encodes its table of files as a sequence of binary digits at the
    start of the volume. *)
From stdpp Require Import gmap strings sorting pretty countable stringmap.
From S2P Require Import Prelude Memory Disk BootSector Config Logger Stage2Start DiskImage DiskImageProofs.
Import Memory Disk DiskImage DiskImageProofs.

Module DiskImageSample.

(** ** The host *)
Definition parent_of (path : string) : string := String.concat "/" (removelast (path_pieces path)).
#[local] Instance sample_host : HostFs := {|
  directories := {[""; "/tmp"]};
  permitted _ := true;
  path_parent := parent_of;
  temp_path h := if bool_decide (h !! "/tmp/.fat" = None) then Some "/tmp/.fat" else None;
  remove_file p h := Some (delete p h);
  create_dir_all p dirs := Some ({[p]} ∪ dirs);
  path_join a b := a +:+ "/" +:+ b;
  file_stem _ := Some (Logger.chars "kernel");
|}.

(** Paths are split at each slash. *)
Lemma split_path_join p a b : split_path p (a +:+ String (Ascii.ascii_of_nat 47) b) = split_path p a ++ split_path "" b.
Proof.
  revert p. induction a as [|c a IH]; intros p; [done|].
  change (String c a +:+ ?s) with (String c (a +:+ s)). cbn [split_path].
  destruct (Ascii.eqb c _); cbn [app]; by rewrite IH.
Qed.
Lemma append_nil s : s +:+ "" = s.
Proof. induction s as [|c s IH]; [done|]. change (String c s +:+ "") with (String c (s +:+ "")). by rewrite IH. Qed.
Lemma append_char p c s : (p +:+ String c "") +:+ s = p +:+ String c s.
Proof. induction p as [|d p IH]; [done|]. change (String d (((p +:+ String c "") +:+ s)) = String d (p +:+ String c s)). by rewrite IH. Qed.
Lemma concat_cons x l : l ≠ [] → String.concat "/" (x :: l) = x +:+ "/" +:+ String.concat "/" l.
Proof. by destruct l. Qed.
Lemma split_path_cons p a : split_path p a ≠ [].
Proof. revert p. induction a as [|c a IH]; intros p; [done|]. cbn [split_path]. destruct (Ascii.eqb _ _); [done|apply IH]. Qed.
Lemma concat_split p a : String.concat "/" (split_path p a) = p +:+ a.
Proof.
  revert p. induction a as [|c a IH]; intros p; cbn [split_path].
  - symmetry. apply append_nil.
  - destruct (Ascii.eqb_spec c (Ascii.ascii_of_nat 47)) as [->|Hc].
    + rewrite concat_cons by apply split_path_cons. by rewrite IH.
    + rewrite IH. apply append_char.
Qed.
#[local] Instance sample_host_laws : HostLaws.
Proof.
  split.
  - intros h t. cbn. case_bool_decide; [|done]. intros [= <-]. done.
  - done.
  - intros p dirs dirs' [= <-]. set_solver.
  - intros folder n n' _ _ H. cbn in H. apply String.app_inj in H. by injection H.
  - intros folder n [Hn _]. cbn. unfold parent_of, path_pieces. change ("/" +:+ n) with (String (Ascii.ascii_of_nat 47) n).
    rewrite split_path_join. unfold path_pieces in Hn. rewrite Hn, removelast_last. apply concat_split.
Qed.

(** ** The partition table *)
Definition decode_entry (bs : list Z) (i : nat) : MBRPartitionEntry :=
  let e := take 16 (drop (i * 16) bs) in
  mkMBREntry (nth 0 e 0) (take 3 (drop 1 e)) (nth 4 e 0) (take 3 (drop 5 e)) (le_num (take 4 (drop 8 e))) (le_num (take 4 (drop 12 e))).
#[local] Instance sample_mbrman : Mbrman (list Z * list MBRPartitionEntry) := {|
  read_from bs _ :=
    if bool_decide (drop 510 bs = [0x55; 0xaa]) then Some (take 446 bs, decode_entry (drop 446 bs) <$> seq 0 4) else None;
  mbr_iter m := imap (λ i e, (S i, e)) m.2;
  is_unused e := sys e =? 0;
  set_partition m i e := (m.1, <[Nat.pred i := e]> m.2);
  write_into m _ := Some (m.1 ++ (m.2 ≫= λ e, Stage2Start.raw_bytes (entry_of e)) ++ [0x55; 0xaa], 512);
  CHS_empty := [0; 0; 0];
|}.
#[local] Instance sample_mbrman_laws : MbrmanLaws (list Z * list MBRPartitionEntry).
Proof.
  refine {| mbr_code := fst; mbr_entries := snd |}; try done.
  intros bs Hl Hd. cbn [read_from sample_mbrman]. replace (drop 510 bs) with (drop 64 (drop 446 bs)) by (by rewrite drop_drop).
  rewrite Hd. rewrite bool_decide_true by done. eexists. split; [done|]. split; [done|]. by vm_compute.
Defined.

(** ** The GPT *)
Definition GPT_START : Z := 34 * 512.
#[local] Instance sample_gpt : GptCrate (Z * option (string * Z)) := {|
  overwrite_lba0 _ d := Some d;
  create_from_device d := Some (Z.of_nat (length d), None);
  update_partitions g := Some (g.1, None);
  add_partition g _ size ty _ _ :=
    if g.1 <? size + 1024 * 64 then None else Some (1, (g.1, Some (ty, (size + 511) / 512 * 512)));
  bytes_start g _ := match g.2 with Some _ => Some GPT_START | None => None end;
  gpt_write g := Some (write_at (set_len [] (Z.to_nat g.1)) 512
    (le_bytes 8 (match g.2 with Some (ty, n) => if bool_decide (ty = EFI) then n else 0 | None => 0 end)));
|}.
Definition sample_efi_partition (d : list Z) : option (Z * Z) :=
  let n := le_num (take 8 (drop 512 d)) in if n =? 0 then None else Some (GPT_START, n).

Lemma write_at_before d p q k b : (p + k ≤ q)%nat → (q ≤ length d)%nat → take k (drop p (write_at d q b)) = take k (drop p d).
Proof.
  intros Hp Hq. unfold write_at. rewrite !take_drop_commute. f_equal.
  rewrite take_app_le by (rewrite length_take, length_app; lia). rewrite take_take, Nat.min_l by lia. by rewrite take_app_le by lia.
Qed.
#[local] Instance sample_gpt_laws : GptLaws (Z * option (string * Z)).
Proof.
  refine {| gpt_size := fst; gpt_partition g := (λ p, (p.1, GPT_START, p.2)) <$> g.2; efi_partition := sample_efi_partition |}.
  - intros lb d _. by exists d.
  - intros d _. by eexists.
  - intros g. by eexists.
  - intros [total p] name size ty. cbn. intros Hp Hs Ht. destruct p; [done|].
    rewrite (proj2 (Z.ltb_ge _ _)) by lia. eexists 1, _, GPT_START, _. split_and!; [done..| | |]; unfold GPT_START; try done;
      pose proof (Z.div_mod (size + 511) 512 ltac:(lia)); pose proof (Z.mod_pos_bound (size + 511) 512 ltac:(lia)); cbn; lia.
  - intros [total p] start n. cbn [fst snd]. intros Hp Hn Hb. destruct p as [[ty m]|]; [|done]. cbn in Hp. injection Hp as -> <- <-.
    unfold GPT_START in *. cbn [gpt_write sample_gpt fst snd]. rewrite (bool_decide_true (EFI = EFI)) by done. eexists. split; [done|].
    assert (length (write_at (set_len [] (Z.to_nat total)) 512 (le_bytes 8 m)) = Z.to_nat total) as Hl
      by (rewrite length_write_at, length_set_len; [done|]; rewrite length_set_len, length_le_bytes; lia).
    split; [rewrite Hl; lia|]. intros b Hlb. unfold sample_efi_partition.
    rewrite write_at_before by (rewrite ?Hl; lia).
    assert (le_num (take 8 (drop 512 (write_at (set_len [] (Z.to_nat total)) 512 (le_bytes 8 m)))) = m) as ->.
    { rewrite <- (length_le_bytes 8 m) at 1. rewrite write_at_read. apply le_num_le_bytes. change (256 ^ Z.of_nat 8) with (2 ^ 64). lia. }
    by rewrite (proj2 (Z.eqb_neq _ _)) by lia.
Defined.

(** ** The file system *)
Fixpoint cells (p : positive) : list Z :=
  match p with xH => [2] | xO p => 0 :: cells p | xI p => 1 :: cells p end.
Fixpoint of_cells (l : list Z) : option positive :=
  match l with
  | [] => None
  | b :: l => if b =? 2 then Some xH else if b =? 0 then xO <$> of_cells l else xI <$> of_cells l
  end.
Lemma of_cells_cells p rest : of_cells (cells p ++ rest) = Some p.
Proof. induction p as [p IH|p IH|]; cbn; [by rewrite IH..|done]. Qed.

Definition table_cells (m : gmap string (list Z)) : list Z := cells (encode (map_to_list m)).
Definition sample_image_files (img : list Z) : gmap string (list Z) :=
  list_to_map (default [] (of_cells img ≫= decode)).
Definition store (m : gmap string (list Z)) (l : list (string * list Z)) : gmap string (list Z) :=
  foldl (λ m '(p, b), <[p := b]> m) m l.
Record SampleVolume := mkSample { sv_size : nat; sv_label : list Z; sv_files : gmap string (list Z) }.
Definition with_files (v : SampleVolume) (m : gmap string (list Z)) : SampleVolume := mkSample (sv_size v) (sv_label v) m.
#[local] Instance sample_fatfs : FatFs SampleVolume := {|
  format_volume img label := Some (write_at img 0 label);
  filesystem_new img := Some (mkSample (length img) (take 11 img) ∅);
  create_dir v _ := Some v;
  create_file v p := Some (with_files v (<[p := default [] (sv_files v !! p)]> (sv_files v)));
  truncate v p := Some (with_files v (<[p := []]> (sv_files v)));
  write_file v p b := Some (with_files v (<[p := b]> (sv_files v)));
  volume_image v := set_len (table_cells (sv_files v)) (sv_size v);
|}.
#[local] Instance sample_fatfs_laws : FatFsLaws SampleVolume.
Proof.
  refine {| vol_files := sv_files; vol_label := sv_label; vol_size := sv_size; image_files := sample_image_files;
    can_store v l := (length (table_cells (store (sv_files v) l)) ≤ sv_size v)%nat;
    fits n l := (length (table_cells (store ∅ l)) ≤ n ∧ 11 ≤ n)%nat |}.
  - intros img label l Hl [Hf H11]. eexists _, _. split; [done|]. split; [done|]. cbn [sv_files sv_size sv_label].
    rewrite length_write_at by lia. split_and!; [done| |done]. f_equal. pose proof (write_at_read img 0 label) as H. by rewrite Hl in H.
  - intros v d p b l Hc _. by eexists.
  - intros v p b l Hc. eexists. split_and!; [done..|]. cbn [with_files sv_files sv_size store foldl] in *. by rewrite insert_insert_eq.
  - intros v p b l Hc _. eexists. split_and!; [done..|]. cbn [with_files sv_files sv_size store foldl] in *. by rewrite insert_insert_eq.
  - intros v p b l Hc _. by eexists.
  - intros v Hc. cbn [store foldl] in Hc. cbn [volume_image sample_fatfs]. split; [|apply length_set_len].
    unfold sample_image_files, set_len. rewrite take_app_ge by done. rewrite take_ge by (rewrite length_replicate; lia).
    unfold table_cells. rewrite of_cells_cells. cbn [mbind option_bind]. rewrite decode_encode. apply list_to_map_to_list.
Defined.

(** ** The images of a builder *)
#[local] Existing Instances Stage2Start.boot_mbr Stage2Start.boot_mbr_laws.
#[local] Instance sample_binaries : Binaries := {|
  UEFI_BOOTLOADER := Logger.chars "loader.efi";
  BIOS_BOOT_SECTOR := replicate 446 0x90 ++ replicate 64 0 ++ [0x55; 0xaa];
  BIOS_STAGE_2 := replicate 700 0xeb;
  BIOS_STAGE_3 := Logger.chars "stage 3";
  BIOS_STAGE_4 := Logger.chars "stage 4";
|}.
Definition sample_hostfiles : Host :=
  {["target/kernel" := Logger.chars "ELF"; "target/ramdisk" := Logger.chars "disk"]}.
(** A kernel, a ramdisk and a file whose contents are given. *)
Definition sample_builder : DiskImageBuilder :=
  set_file_contents (set_ramdisk (new "target/kernel") "target/ramdisk") "etc/motd" (Logger.chars "hello").

Lemma sample_readable : readable sample_hostfiles (files sample_builder).
Proof. repeat apply map_Forall_insert_2; (apply map_Forall_empty || by vm_compute). Qed.
Lemma sample_fits all : Z.of_nat (length (table_cells (store ∅ (in_order sample_hostfiles all)))) ≤ padded (total sample_hostfiles all) →
  fits (Z.to_nat (padded (total sample_hostfiles all))) (in_order sample_hostfiles all).
Proof. intros H. pose proof (padded_bounds (total sample_hostfiles all)). pose proof (total_nonneg sample_hostfiles all). cbn. lia. Qed.

Lemma create_uefi_image_correct_witness : returns (create_uefi_image sample_builder "uefi.img" sample_hostfiles)
  (λ h, ∃ fat image, h = <["uefi.img" := image]> sample_hostfiles ∧ gpt_layout fat image ∧
    image_files fat = contents sample_hostfiles (files sample_builder ∪ uefi_files)).
Proof.
  pose proof (create_uefi_image_correct sample_builder "uefi.img" sample_hostfiles "/tmp/.fat") as H. cbv zeta in H.
  replace (files sample_builder !! "efi/boot/bootx64.efi") with (@None FileDataSource) in H by (by vm_compute).
  apply H.
  - apply sample_readable.
  - by vm_compute.
  - done.
  - done.
  - by vm_compute.
  - apply sample_fits. by vm_compute.
Defined.

(** A builder without directories, and the one with [etc/motd], for which the folder has no directory. *)
Definition flat_builder : DiskImageBuilder := set_ramdisk (new "target/kernel") "target/ramdisk".
Lemma flat_names name : is_Some (tftp_files flat_builder sample_hostfiles !! name) → name ∈ ["bootloader"; KERNEL_FILE_NAME; RAMDISK_FILE_NAME].
Proof.
  unfold tftp_files, contents. rewrite lookup_union_is_Some, lookup_fmap, fmap_is_Some. intros [[x H]|[x H]].
  - unfold flat_builder in H. cbn in H. repeat (apply lookup_insert_Some in H as [[<- _]|[_ H]]; [by repeat constructor|]). by rewrite lookup_empty in H.
  - apply lookup_singleton_Some in H as [<- _]. by repeat constructor.
Qed.
Lemma flat_tftp_ok : tftp_ok flat_builder "tftp" sample_hostfiles ({["tftp"]} ∪ {[""; "/tmp"]}).
Proof.
  assert (∀ P : string → Prop, P "bootloader" → P KERNEL_FILE_NAME → P RAMDISK_FILE_NAME →
    ∀ name, is_Some (tftp_files flat_builder sample_hostfiles !! name) → P name) as Hall.
  { intros P P1 P2 P3 name [->|[->|[->|[]%elem_of_nil]%elem_of_cons]%elem_of_cons]%flat_names%elem_of_cons; done. }
  split.
  - done.
  - apply Hall; (split; [by vm_compute|set_solver]).
  - apply Hall; (split; [done|apply (bool_decide_unpack _); by vm_compute]).
  - repeat apply map_Forall_insert_2; (apply map_Forall_empty || by vm_compute).
  - intros name path n H. revert n. unfold flat_builder in H. cbn in H.
    repeat (apply lookup_insert_Some in H as [[_ H]|[_ H]]; [injection H as <-; by apply Hall|]). by rewrite lookup_empty in H.
Qed.

Lemma create_uefi_tftp_folder_correct_witness :
  returns (create_uefi_tftp_folder flat_builder "tftp" sample_hostfiles) (λ '(_, h'),
    h' !! "tftp/kernel-x86_64" = Some (Logger.chars "ELF") ∧ h' !! "tftp/bootloader" = Some UEFI_BOOTLOADER) ∧
  ∃ msg, create_uefi_tftp_folder sample_builder "tftp" sample_hostfiles = Err msg.
Proof.
  split.
  - eapply returns_mono; [apply (proj1 (create_uefi_tftp_folder_correct flat_builder "tftp" sample_hostfiles _) flat_tftp_ok)|].
    intros [dirs' h'] (_ & _ & _ & H & _). split; [apply (H KERNEL_FILE_NAME)|apply (H "bootloader")]; by vm_compute.
  - apply (proj2 (create_uefi_tftp_folder_correct sample_builder "tftp" sample_hostfiles ({["tftp"]} ∪ {[""; "/tmp"]})) "etc/motd").
    + done.
    + by eexists.
    + apply (bool_decide_unpack _). by vm_compute.
Defined.
End DiskImageSample.
