(* ===== verification/ImageFilesSample.v ===== *)
(** * From the files of the host to memory, on a concrete machine

    A writer of FAT12 volumes for one set of files, byte by byte as fatfs lays
    them out, shows that the laws of [ImageFiles] can be met. The image that the
    builder of [DiskImageSample] makes with it is booted on the machine of
    [Stage2Start]. *)
From stdpp Require Import gmap strings.
From S2P Require Import Prelude Memory Fat FatProofs Disk BootSector Stage2 E820 BiosCommon Vesa Config Logger Stage2Start.
From S2P Require Import DiskImage FatFormat DiskImageProofs ImageBoot ImageFiles DiskImageSample.
Import Memory Disk Fat FatProofs Stage2 DiskImage DiskImageProofs ImageBoot ImageFiles DiskImageSample.

Module ImageFilesSample.
#[local] Existing Instances sample_host sample_host_laws sample_mbrman sample_mbrman_laws sample_binaries.
#[local] Existing Instances Stage2Start.boot_mbr Stage2Start.boot_mbr_laws Stage2Start.boot_vbe Stage2Start.boot_vbe_laws
  E820.sample_bios E820.sample_laws.

(** ** The volume *)
Definition sample_set : gmap string (list Z) :=
  {["boot-stage-3" := Logger.chars "stage 3"; "boot-stage-4" := Logger.chars "stage 4"; "kernel-x86_64" := Logger.chars "ELF";
    "ramdisk" := Logger.chars "disk"; "etc/motd" := Logger.chars "hello"]}.
Definition sample_table : list Z := [0xFF8; 0xFFF; 0xFFF; 0xFFF; 0xFFF; 0xFFF; 0xFFF; 0xFFF; 0; 0].
Definition sample_item (name main : string) (attr cluster size : Z) : FatFormat.DirItem :=
  FatFormat.mkItem name (Logger.chars main) [32; 32; 32] attr (replicate 8 0, replicate 4 0) cluster size.
Definition sample_items : list FatFormat.DirItem :=
  [sample_item "boot-stage-3" "BOOT-S~1" 0x20 2 7; sample_item "boot-stage-4" "BOOT-S~2" 0x20 3 7;
   sample_item "etc" "ETC     " 0x10 6 0; sample_item "kernel-x86_64" "KERNEL~1" 0x20 4 3; sample_item "ramdisk" "RAMDISK " 0x20 5 4].
Definition etc_directory : list Z :=
  mjoin ([FatFormat.short_slot (sample_item "." ".       " 0x10 6 0); FatFormat.short_slot (sample_item ".." "..      " 0x10 0 0)] ++
    FatFormat.item_slots (sample_item "motd" "MOTD    " 0x20 7 5)).
(** The first sector, with the label from byte 43 on. *)
Definition sample_head : list Z := [0xEB; 0x3C; 0x90] ++ Logger.chars "MSDOS5.0".
Definition sample_rest (label : list Z) : list Z :=
  [0x80; 0; 0x29; 1; 2; 3; 4] ++ label ++ Logger.chars "FAT12   " ++ replicate 448 0 ++ [0x55; 0xaa].
(** The first sector, the FAT, the root directory, and one cluster for each file and directory. *)
Definition sample_volume (label : list Z) : list Z :=
  mjoin (FatFormat.boot_record sample_head Stage2Start.boot_bpb 0xF8 (replicate 8 0) (sample_rest label)) ++
  set_len (fat_bytes Fat12 sample_table) 512 ++
  set_len (mjoin (FatFormat.directory_slots label (replicate 8 0) (replicate 4 0) sample_items)) 1024 ++
  set_len (Logger.chars "stage 3") 512 ++ set_len (Logger.chars "stage 4") 512 ++ set_len (Logger.chars "ELF") 512 ++
  set_len (Logger.chars "disk") 512 ++ set_len etc_directory 512 ++ set_len (Logger.chars "hello") 512 ++ replicate 1024 0.

Record Vol := mkVol { vol_len : nat; vol_name : list Z; vol_map : gmap string (list Z) }.
Definition with_map (v : Vol) (m : gmap string (list Z)) : Vol := mkVol (vol_len v) (vol_name v) m.
#[local] Instance fat12_writer : FatFs Vol := {|
  format_volume img label := Some (write_at img 43 label);
  filesystem_new img := Some (mkVol (length img) (take 11 (drop 43 img)) ∅);
  create_dir v _ := Some v;
  create_file v p := Some (with_map v (<[p := default [] (vol_map v !! p)]> (vol_map v)));
  truncate v p := Some (with_map v (<[p := []]> (vol_map v)));
  write_file v p b := Some (with_map v (<[p := b]> (vol_map v)));
  volume_image v := set_len (sample_volume (vol_name v)) (vol_len v);
|}.
Definition storable (n : nat) (m : gmap string (list Z)) (l : list (string * list Z)) : Prop :=
  store m l = sample_set ∧ 6144 ≤ Z.of_nat n.
#[local] Instance fat12_writer_laws : FatFsLaws Vol.
Proof.
  refine {| vol_files := vol_map; vol_label := vol_name; vol_size := vol_len; image_files := λ _, sample_set;
    can_store v l := storable (vol_len v) (vol_map v) l ∧ length (vol_name v) = 11%nat; fits n l := storable n ∅ l |}.
  - intros img label l Hl Hf. eexists _, _. split; [done|]. split; [done|]. cbn [vol_map vol_len vol_name].
    assert (take 11 (drop 43 (write_at img 43 label)) = label) as -> by (rewrite <- Hl; apply write_at_read).
    rewrite length_write_at by (destruct Hf; lia). done.
  - intros v d p b l Hc _. by eexists.
  - intros v p b l Hc. eexists. do 3 (split; [done|]). destruct Hc as [Hc Hl]. split; [|exact Hl]. unfold storable in *.
    cbn [with_map vol_len vol_map store foldl] in *. by rewrite insert_insert_eq.
  - intros v p b l Hc _. eexists. do 3 (split; [done|]). destruct Hc as [Hc Hl]. split; [|exact Hl]. unfold storable in *.
    cbn [with_map vol_len vol_map store foldl] in *. by rewrite insert_insert_eq.
  - intros v p b l Hc _. by eexists.
  - intros v [[Hc _] _]. cbn [store foldl] in Hc. split; [done|apply length_set_len].
Defined.

(** Padding with zeros does not change the bytes. *)
Lemma image_bytes_set_len c n x : (length c ≤ n)%nat → image_bytes (set_len c n) x = image_bytes c x.
Proof.
  intros Hn. unfold image_bytes, set_len. rewrite take_ge by (rewrite length_app, length_replicate; lia).
  destruct (Nat.lt_ge_cases (Z.to_nat x) (length c)); [by rewrite app_nth1|].
  rewrite (nth_overflow c) by lia. rewrite app_nth2, nth_lookup by lia.
  destruct (replicate _ _ !! _) as [y|] eqn:E; [|done]. by apply lookup_replicate in E as [-> _].
Qed.
(** Lists of eleven elements, for computations with a label. *)
Lemma eleven (P : list Z → Prop) : (∀ a b c d e f g h i j k, P [a; b; c; d; e; f; g; h; i; j; k]) → ∀ l, length l = 11%nat → P l.
Proof. intros H l Hl. do 11 (destruct l as [|? l]; [done|]). by destruct l. Qed.

Section Volume.
Context (label : list Z) (n : nat) (Hlabel : length label = 11%nat) (Hn : 6144 ≤ Z.of_nat n).
Abbreviation bytes := (image_bytes (set_len (sample_volume label) n)).

Lemma mem_read_volume a k : mem_read bytes a k = mem_read (image_bytes (sample_volume label)) a k.
Proof.
  apply mem_read_ext. intros x _. apply image_bytes_set_len.
  assert (Z.of_nat (length (sample_volume label)) = 6144); [|lia]. clear Hn. revert label Hlabel. apply eleven. by vm_compute.
Qed.
Lemma volume_sector : mem_read bytes 0 512 =
  mjoin (FatFormat.boot_record sample_head Stage2Start.boot_bpb 0xF8 (replicate 8 0) (sample_rest label)).
Proof. rewrite mem_read_volume. clear Hn. revert label Hlabel. apply eleven. by vm_compute. Qed.
Lemma volume_table : mem_read bytes 512 15 = fat_bytes Fat12 sample_table.
Proof. rewrite mem_read_volume. clear Hn. revert label Hlabel. apply eleven. by vm_compute. Qed.
Lemma volume_root : mem_read bytes 1024 1024 =
  mjoin (FatFormat.directory_slots label (replicate 8 0) (replicate 4 0) sample_items) ++ replicate 672 0.
Proof. rewrite mem_read_volume. clear Hn. revert label Hlabel. apply eleven. by vm_compute. Qed.
Lemma volume_file name main c data : 2 ≤ c ≤ 5 → 0 < Z.of_nat (length data) ≤ 512 →
  (∀ l, length l = 11%nat → take (length data) (mem_read (image_bytes (sample_volume l)) (2048 + (c - 2) * 512) 512) = data) →
  FatFormat.file_data bytes Stage2Start.boot_bpb Fat12 sample_table data (sample_item name main 0x20 c (Z.of_nat (length data))) [c].
Proof.
  intros Hc Hl Hd. split; cbn [sample_item FatFormat.it_attr FatFormat.it_size FatFormat.it_cluster]; [done|done| | |].
  - assert (c = 2 ∨ c = 3 ∨ c = 4 ∨ c = 5) as [->|[->|[->| ->]]] by lia; by apply FatFormat.fat_last with (e := 0xFFF); vm_compute.
  - cbn. lia.
  - cbn [mbind list_bind]. rewrite app_nil_r. unfold FatFormat.v_cluster.
    change (FatFormat.v_system Stage2Start.boot_bpb) with 4. cbn [sectors_per_cluster Stage2Start.boot_bpb].
    rewrite mem_read_volume. replace ((4 + (c - 2) * 1) * 512) with (2048 + (c - 2) * 512) by lia. by apply Hd.
Qed.
End Volume.

#[local] Instance name_unit_dec c : Decision (name_unit c) := decide (0 < c < 2 ^ 16).
#[local] Instance short_char_dec c : Decision (FatFormat.short_char c) := decide (0x20 ≤ c < 0x80 ∧ ¬ (0x61 ≤ c ≤ 0x7a)).
#[local] Instance is_uint_dec w x : Decision (is_uint w x) := decide (0 ≤ x < 2 ^ w).
Lemma sample_items_ok : Forall FatFormat.item_ok sample_items ∧ NoDup (FatFormat.it_name <$> sample_items).
Proof.
  split; [|apply (bool_decide_unpack _); by vm_compute].
  unfold sample_items. repeat apply Forall_cons_2; try apply Forall_nil_2;
    (split; [apply (bool_decide_unpack _); by vm_compute..|by vm_compute]).
Qed.
Lemma sample_only it : it ∈ sample_items → ∃ path, is_Some (sample_set !! path) ∧ FatFormat.root_name path = FatFormat.it_name it ∧
  (path ≠ FatFormat.it_name it → Z.land (FatFormat.it_attr it) DIRECTORY ≠ 0).
Proof.
  unfold sample_items. rewrite !elem_of_cons, elem_of_nil. intros [->|[->|[->|[->|[->|[]]]]]].
  - exists "boot-stage-3". split_and!; [by eexists|by vm_compute|by intros []].
  - exists "boot-stage-4". split_and!; [by eexists|by vm_compute|by intros []].
  - exists "etc/motd". split_and!; [by eexists|by vm_compute|by vm_compute].
  - exists "kernel-x86_64". split_and!; [by eexists|by vm_compute|by intros []].
  - exists "ramdisk". split_and!; [by eexists|by vm_compute|by intros []].
Qed.
Lemma sample_set_flat name data : sample_set !! name = Some data → path_pieces name = [name] →
  (name, data) ∈ [("boot-stage-3", Logger.chars "stage 3"); ("boot-stage-4", Logger.chars "stage 4");
    ("kernel-x86_64", Logger.chars "ELF"); ("ramdisk", Logger.chars "disk")].
Proof.
  intros H. unfold sample_set in H. repeat (apply lookup_insert_Some in H as [[<- <-]|[_ H]]; [by repeat constructor|]).
  apply lookup_singleton_Some in H as [<- <-]. by vm_compute.
Qed.

#[local] Instance fat12_format_laws : FatFormatLaws Vol.
Proof.
  refine {| root_entries := 32 |}. intros [n label m] [[Hm Hn] Hl] _ _. cbn [vol_map vol_len vol_name store foldl] in Hm, Hn, Hl. subst m.
  exists Stage2Start.boot_bpb, Fat12, sample_table, sample_items.
  cbn [vol_files vol_size vol_label volume_image fat12_writer fat12_writer_laws vol_map vol_len vol_name].
  split.
  - exists sample_head, 0xF8, (replicate 8 0), (sample_rest label). split_and!; [done|done| |by apply volume_sector].
    unfold sample_rest. rewrite !length_app, Hl. done.
  - split; by vm_compute.
  - by vm_compute.
  - exact (volume_table label n Hl Hn).
  - intros x Hx. assert (Forall (is_uint 12) sample_table) as Hall
      by (unfold sample_table; repeat (apply Forall_cons; split; [by vm_compute|]); done).
    rewrite Forall_forall in Hall. by apply Hall.
  - by vm_compute.
  - intros _. by exists 5%nat.
  - change (total_sectors_16 Stage2Start.boot_bpb * 512) with 6144. change (reserved_sector_count Stage2Start.boot_bpb * 512) with 512.
    change (Z.of_nat (length (fat_bytes Fat12 sample_table))) with 15. lia.
  - exists (replicate 8 0), (replicate 4 0), (replicate 672 0). split_and!; [done|done|exact (volume_root label n Hl Hn)|by right].
  - exact sample_items_ok.
  - intros name data Hf _ Hp. apply (sample_set_flat name data Hf) in Hp. clear Hf. rewrite !elem_of_cons, elem_of_nil in Hp.
    destruct Hp as [[= -> ->]|[[= -> ->]|[[= -> ->]|[[= -> ->]|[]]]]].
    + eexists _, [2]. split; [by left|]. split; [done|]. apply volume_file; [done..|apply eleven; by vm_compute].
    + eexists _, [3]. split; [by do 1 right; left|]. split; [done|]. apply volume_file; [done..|apply eleven; by vm_compute].
    + eexists _, [4]. split; [by do 3 right; left|]. split; [done|]. apply volume_file; [done..|apply eleven; by vm_compute].
    + eexists _, [5]. split; [by do 4 right; left|]. split; [done|]. apply volume_file; [done..|apply eleven; by vm_compute].
  - exact sample_only.
Defined.

(** ** The machine *)
(** A BIOS whose disks hold an image. *)
Definition disk_of (image : list Z) : Bios := λ dap disk mem,
  if start_lba dap + number_of_sectors dap <=? Z.of_nat (length image) then
    Some (mem_write mem (segment dap * 16 + offset dap)
            (mem_read (λ x, nth (Z.to_nat x) image 0) (start_lba dap * 512) (number_of_sectors dap * 512)))
  else None.
#[local] Instance disk_of_laws image : BiosLaws (disk_of image).
Proof.
  refine (@Build_BiosLaws (disk_of image) (λ _ x, nth (Z.to_nat x) image 0) (λ _, Z.of_nat (length image)) _).
  intros dap disk mem _ _ _ _ _ _ Hs. unfold extended_read, disk_of. by rewrite (proj2 (Z.leb_le _ _)).
Defined.
Lemma disk_of_holds disk image : holds (B := disk_of image) disk image.
Proof.
  split; [|cbn; lia]. intros i b Hi. cbn. rewrite Nat2Z.id. by apply nth_lookup_Some.
Qed.

(** Memory after the BIOS has loaded the first sector. *)
Definition booted (image : list Z) : Mem := mem_write (λ _, 0) BOOT_SECTOR (take 512 image).


Lemma loading_machine_ok : machine_ok sample_tmp Stage2Start.boot_buffer 0x9000 Stage2Start.boot_modes.
Proof.
  split; [by split_and!|by split; vm_compute|done|split; [done|vm_compute; lia]|split; [by vm_compute|left; by vm_compute]|exact Stage2Start.boot_vesa_ok].
Qed.
Lemma sample_contents : contents sample_hostfiles (files sample_builder ∪ bios_files) = sample_set.
Proof. apply (bool_decide_unpack _). by vm_compute. Qed.
Lemma sample_sizes : sizes_ok (contents sample_hostfiles (files sample_builder ∪ bios_files)).
Proof.
  rewrite sample_contents. split; [split_and!; by eexists|by vm_compute|by vm_compute|by vm_compute|].
  intros name. unfold loader_files. rewrite !elem_of_cons, elem_of_nil. by intros [->|[->|[->|[->|[->|[]]]]]].
Qed.
Lemma sample_fit : fits (Z.to_nat (padded (total sample_hostfiles (files sample_builder ∪ bios_files))))
  (in_order sample_hostfiles (files sample_builder ∪ bios_files)).
Proof.
  split; [apply (bool_decide_unpack _); by vm_compute|]. rewrite Z2Nat.id; by vm_compute.
Qed.

Lemma sample_label : FatFormat.label_ok (volume_label (files sample_builder ∪ bios_files)).
Proof.
  assert (volume_label (files sample_builder ∪ bios_files) = Logger.chars "kernel" ++ replicate 5 0) as -> by (by vm_compute).
  split_and!; [done|apply (bool_decide_unpack _); by vm_compute|done].
Qed.
Lemma sample_names : names_ok (built_files sample_builder sample_hostfiles).
Proof.
  unfold built_files. rewrite sample_contents. intros path [data H].
  assert (path ∈ ["boot-stage-3"; "boot-stage-4"; "kernel-x86_64"; "ramdisk"; "etc/motd"]) as Hp.
  { unfold sample_set in H. repeat (apply lookup_insert_Some in H as [[<- _]|[_ H]]; [by repeat constructor|]).
    apply lookup_singleton_Some in H as [<- _]. by repeat constructor. }
  clear H. revert path Hp. rewrite <- Forall_forall.
  assert (Forall (λ path, FatFormat.plain_path path ∧ Forall (λ name, FatFormat.root_name path = name ∨
    Stage2Start.chars name ∉ FatFormat.name_parts (FatFormat.root_name path)) loader_files)
    ["boot-stage-3"; "boot-stage-4"; "kernel-x86_64"; "ramdisk"; "etc/motd"]) as Hall by (apply (bool_decide_unpack _); by vm_compute).
  eapply Forall_impl; [exact Hall|]. intros path [H1 H2]. split; [exact H1|]. intros name Hin Hne. rewrite Forall_forall in H2.
  by destruct (H2 name Hin).
Qed.

Lemma sample_build_ok : build_ok sample_builder "bios.img" sample_hostfiles "/tmp/.fat".
Proof.
  split.
  - by repeat (apply map_disjoint_insert_r; split; [by vm_compute|]); apply map_disjoint_empty_r.
  - apply sample_readable.
  - split_and!; [by vm_compute|done|done].
  - by split; vm_compute.
  - split; [done|by vm_compute].
  - by vm_compute.
  - apply sample_label.
  - apply sample_names.
  - apply sample_fit.
  - apply sample_sizes.
Qed.
Lemma boots_booted image : 512 ≤ Z.of_nat (length image) < 2 ^ 41 →
  boots_from (HB := disk_of_laws image) Stage2Start.boot_buffer 0x80 image (booted image).
Proof.
  intros Hlen. split; [apply disk_of_holds|cbn; lia|]. unfold booted. rewrite mem_read_write by (rewrite ?length_take; lia).
  rewrite Z.sub_diag. change (drop (Z.to_nat 0) ?l) with l. by rewrite take_take.
Qed.
(** The image that the builder writes, on the disk of the machine. *)
Lemma built_image (Q : list Z → list Z → Prop) :
  (∀ img, returns (create_bios_image sample_builder "bios.img" sample_hostfiles) (λ h', ∃ image,
    h' = <["bios.img" := image]> sample_hostfiles ∧ 512 ≤ Z.of_nat (length image) < 2 ^ 41 ∧ Q img image)) →
  ∃ image, create_bios_image sample_builder "bios.img" sample_hostfiles = Ret (<["bios.img" := image]> sample_hostfiles) ∧
    512 ≤ Z.of_nat (length image) < 2 ^ 41 ∧ Q image image.
Proof.
  intros H. destruct (proj1 (returns_alt _ _) (H [])) as (h' & E & image & -> & _). exists image. split; [exact E|].
  specialize (H image). rewrite E in H. destruct H as (image' & Hh & Hl & HQ).
  assert (image' = image) as Hi; [|rewrite Hi in *; exact (conj Hl HQ)].
  apply (inj Some). clear - Hh. symmetry.
  rewrite <- (lookup_insert_eq sample_hostfiles "bios.img" image), Hh. by rewrite lookup_insert_eq.
Qed.

Lemma built_image_loads_witness : ∃ image,
  create_bios_image sample_builder "bios.img" sample_hostfiles = Ret (<["bios.img" := image]> sample_hostfiles) ∧
  returns (BootSector.first_stage (B := disk_of image) PARTITION_TABLE SECOND_STAGE_START 0x80 (booted image)) (λ '(j, mem1),
    ∃ bound, ∀ fuel, (bound ≤ fuel)%nat →
      returns (Stage2Start.start (B := disk_of image) sample_tmp Stage2Start.boot_buffer 0x9000 fuel 0x80 PARTITION_TABLE mem1) (λ '(info, mem2),
        mem_read mem2 (BiosCommon.start (BiosCommon.kernel info)) (BiosCommon.len (BiosCommon.kernel info)) = Logger.chars "ELF")).
Proof.
  destruct (built_image _ (λ img, built_image_loads (B := disk_of img) sample_tmp Stage2Start.boot_buffer 0x9000 sample_builder "bios.img"
    sample_hostfiles "/tmp/.fat" Stage2Start.boot_modes sample_build_ok loading_machine_ok)) as (image & E & Hlen & Hb).
  exists image. split; [exact E|]. eapply returns_mono; [exact (Hb 0x80 (booted image) (boots_booted image Hlen))|].
  intros [j mem1] (-> & _ & bound & Hs). cbn [BootSector.jump_disk_number BootSector.partition_table_start] in Hs.
  exists bound. intros fuel Hf. eapply returns_mono; [exact (Hs fuel Hf)|].
  intros [info mem2] (_ & _ & Hk & _). unfold holds_file, built_files in Hk. rewrite sample_contents in Hk. exact Hk.
Defined.
End ImageFilesSample.
