(* ===== verification/ImageChain.v ===== *)
(** * From the files of the host to the kernel loader

    All of the BIOS path: the builder of the host, the boot sector, the second
    stage, anything that keeps the files (the third stage), and the fourth stage
    up to the call of the kernel loader. *)
From stdpp Require Import gmap strings.
From S2P Require Import Prelude Memory X86 Paging PageTables Config Info Elf FrameAllocator.
From S2P Require Import Level4 LoadKernel SetUp SetUpProofs Fat FatProofs Disk BootSector Stage2.
From S2P Require Import E820 BiosCommon Vesa Framebuffer Logger Stage2Start Stage4 BootChain.
From S2P Require Import DiskImage DiskImageProofs ImageBoot ImageFiles.
Import Memory X86 Paging PageTables Disk Fat FatProofs Stage2 DiskImage DiskImageProofs ImageBoot ImageFiles.

Module ImageChain.

Section Chain.
Context `{HL : HostLaws} {MBR V : Type} `{HMM : MbrmanLaws MBR} `{HVF : FatFsLaws V} `{BB : Binaries}.
Context `{HM : Stage2Start.MbrLaws} `{HB : BiosLaws} `{HE : E820.E820Laws} `{HV : Vesa.VbeLaws}.
Context `{HX : X86Laws, HXB : X86BigLaws} {T : Type} `{HP : BigMapperLaws T, PO : !Stage4.OffsetTables T}.
Context `{EP : SetUp.ElfParser} `{J : Stage4.Json} `{RS : Stage4.RsdpSearch} `{HFO : Framebuffer.FontLaws} `{HU : Logger.UartLaws}.
Context `{HO : !Stage4.OffsetTablesLaws} `{HR : !Stage4.RsdpLaws}.
Context (TMP_BUF DISK_BUFFER : Buffer) (MEMORY_MAP : Z) `{HFF : !FatFormatLaws V}.

(** The end of the files in memory. *)
Definition files_end (m : gmap string (list Z)) : Z :=
  Stage2Start.KERNEL_DST + ((flen m KERNEL_FILE_NAME - 1) / 4096 + 1) * 4096 + flen m RAMDISK_FILE_NAME + flen m CONFIG_FILE_NAME.

(** What the fourth stage hands to the kernel loader: the kernel, the ramdisk and the configuration
    of the host, and frames that do not meet them. *)
Record handed_to_loader (m : gmap string (list Z)) (k : SetUp.Kernel) (p : Stage4.Prepared (M := T)) : Prop := {
  hl_kernel : Stage4.p_kernel p = k ∧
    mem_read (Stage4.p_memory p) Stage2Start.KERNEL_DST (flen m KERNEL_FILE_NAME) = default [] (m !! KERNEL_FILE_NAME);
  hl_ramdisk : match m !! RAMDISK_FILE_NAME with
    | Some bytes => ∃ a, SetUp.sys_ramdisk_addr (Stage4.p_system_info p) = Some a ∧
        SetUp.sys_ramdisk_len (Stage4.p_system_info p) = Z.of_nat (length bytes) ∧
        mem_read (Stage4.p_memory p) a (Z.of_nat (length bytes)) = bytes
    | None => SetUp.sys_ramdisk_addr (Stage4.p_system_info p) = None
    end;
  hl_config : Stage4.p_config p = Stage4.with_kernel_minimums (Stage4.load_config (m !! CONFIG_FILE_NAME)).1 (SetUp.config k);
  hl_frames : source_inv (Stage4.p_frames p) ∧ FrameAllocator.original (Stage4.p_frames p) ≡ₚ E820.reported E820.entries;
  hl_fresh y : fresh (Stage4.p_frames p) y ↔ FrameAllocator.usable_frame (E820.reported E820.entries) y ∧ files_end m ≤ y ∧
    y ≠ SetUp.kernel_level_4_frame (Stage4.p_tables p);
  hl_table : pages (SetUp.kernel (Stage4.p_tables p)) = ∅ ∧ big_pages (SetUp.kernel (Stage4.p_tables p)) = ∅;
}.

Lemma files_end_found d b ty table m kf r c : file_found TMP_BUF d b ty table DISK_BUFFER m KERNEL_FILE_NAME (Some kf) →
  file_found TMP_BUF d b ty table DISK_BUFFER m RAMDISK_FILE_NAME r → file_found TMP_BUF d b ty table DISK_BUFFER m CONFIG_FILE_NAME c →
  Stage2Start.config_place kf r + Stage2Start.o_len c = files_end m.
Proof.
  intros (_ & _ & Lk & _) (_ & _ & Lr & _) (_ & _ & Lc & _). unfold files_end, flen. rewrite <- Lk, <- Lr, <- Lc. done.
Qed.

Lemma chain_post_handed d b ty table m s3 s4 kf r c k p fuel limit : sizes_ok m →
  Stage2Start.files_ok (HS := disk_access_laws TMP_BUF) d b ty table DISK_BUFFER fuel limit s3 s4 kf r c →
  file_found TMP_BUF d b ty table DISK_BUFFER m KERNEL_FILE_NAME (Some kf) →
  file_found TMP_BUF d b ty table DISK_BUFFER m RAMDISK_FILE_NAME r → file_found TMP_BUF d b ty table DISK_BUFFER m CONFIG_FILE_NAME c →
  BootChain.chain_post TMP_BUF d b kf r c k p → handed_to_loader m k p.
Proof.
  intros Hs Hok Fk Fr Fc [[Hk1 Hk2] (Hr1 & Hr2 & Hr3) Hc Hframes Hfresh Htable].
  assert (∀ name o, file_found TMP_BUF d b ty table DISK_BUFFER m name o → Stage2Start.o_len o = flen m name) as Hlen
    by (intros name o (_ & _ & H & _); exact H).
  pose proof (Hlen _ _ Fk) as Lk. pose proof (Hlen _ _ Fr) as Lr. pose proof (Hlen _ _ Fc) as Lc.
  pose proof (found_in_memory TMP_BUF DISK_BUFFER _ _ _ _ _ _ _ _ _ Fk Hk2) as Mk.
  pose proof (found_in_memory TMP_BUF DISK_BUFFER _ _ _ _ _ _ _ _ _ Fr Hr1) as Mr.
  assert (∀ name x, name ∈ loader_files → m !! name = Some x → Z.of_nat (length x) ≠ 0) as Hne.
  { intros name x Hin Hx. pose proof (so_nonempty _ Hs name Hin) as H. rewrite Hx in H. destruct x; [done|cbn; lia]. }
  split.
  - by rewrite <- Lk.
  - rewrite Hr2, Hr3, Lr. rewrite Lr in Mr. unfold flen in *. destruct (m !! RAMDISK_FILE_NAME) as [bytes|] eqn:E.
    + cbn [default from_option] in *. rewrite (proj2 (Z.eqb_neq _ _)) by (eapply Hne; [|exact E]; by repeat constructor).
      eexists. by split_and!.
    + done.
  - rewrite Hc. destruct Fc as (_ & _ & _ & _ & _ & Ec). do 3 f_equal.
    transitivity (if Stage2Start.o_len c =? 0 then None else Some (default [] (m !! CONFIG_FILE_NAME))); [by rewrite <- Ec|].
    rewrite Lc. unfold flen. destruct (m !! CONFIG_FILE_NAME) as [bytes|] eqn:E; [|done].
    cbn [default from_option]. by rewrite (proj2 (Z.eqb_neq _ _)) by (eapply Hne; [|exact E]; by repeat constructor).
  - done.
  - intros y. by rewrite Hfresh, (files_end_found _ _ _ _ _ _ _ _ Fk Fr Fc).
  - done.
Qed.

(** The second and the fourth stage on the disk of an image. *)
Lemma image_handed fat m disk e table_addr mem modes text cr3 k : partition_found DISK_BUFFER disk table_addr mem m fat e →
  sizes_ok m → machine_ok TMP_BUF DISK_BUFFER MEMORY_MAP modes → BootChain.machine_ok (files_end m - 1) modes text →
  SetUp.Kernel_parse Stage2Start.KERNEL_DST (default [] (m !! KERNEL_FILE_NAME)) = Ret k →
  ∃ bound, ∀ fuel, (bound ≤ fuel)%nat →
    returns (Stage2Start.start TMP_BUF DISK_BUFFER MEMORY_MAP fuel disk table_addr mem) (λ '(info, mem1),
      ∀ mem2, BootChain.handed_over info mem1 mem2 →
        returns (Stage4.prepare cr3 Logger.log_start text info mem2) (handed_to_loader m k)).
Proof.
  intros [Him Hfound Hlba Hfat Hend Hds] Hsizes [Htmp Hbuf Hroot [He1 He2] Hmap Hvesa] Hma Hparse.
  destruct (image_on_disk TMP_BUF DISK_BUFFER fat m disk _ Him Hsizes Hbuf Hroot Htmp Hlba Hfat Hend Hds)
    as (b & ty & table & bound & Hb & Hv & Hr & Hf).
  exists (bound + length E820.entries + S (length modes))%nat. intros fuel Hfuel.
  destruct (Hf fuel) as (s3 & s4 & kf & r & c & Hok & F3 & F4 & Fk & Fr & Fc); [lia|].
  eapply returns_mono.
  { apply (BootChain.chain_found_spec TMP_BUF DISK_BUFFER MEMORY_MAP fuel disk table_addr mem e b ty table (2 ^ 32 - 1)
      s3 s4 kf r c modes k cr3 text); try (done || lia).
    - by rewrite (files_end_found _ _ _ _ _ _ _ _ Fk Fr Fc).
    - destruct Fk as (_ & _ & _ & _ & _ & Ek). rewrite <- Ek in Hparse. exact Hparse. }
  intros [info mem1] H mem2 Hh. eapply returns_mono; [by apply H|]. intros p Hp. by eapply chain_post_handed.
Qed.

(** C8: The BIOS path from the host to the kernel loader. [create_bios_image] writes an image and changes nothing
    else on the host. On a machine that boots from a disk that holds the image and at least
    [buf_len DISK_BUFFER] + 1536 bytes behind it (which the second stage reads), the boot sector loads the second
    stage and enters it; the second stage, with enough fuel for its loops, returns; and whatever comes
    in between, as long as it keeps the files and the memory map, the fourth stage prepares the
    kernel loader: the kernel is the parsed kernel file of the host, the ramdisk and the
    configuration are those of the host (or absent as they are there), the kernel's page table is
    empty, and the frames left are exactly the usable frames of the firmware's map behind the
    files, except that of the page table. As for the files in memory, the volume has less than 32 MiB, a label
    without spaces and no file name that the driver takes for another ([build_ok]), and fatfs writes
    the documented format. *)
Theorem built_image_reaches_loader self out h t modes text cr3 k : let m := built_files self h in
  build_ok self out h t → machine_ok TMP_BUF DISK_BUFFER MEMORY_MAP modes → BootChain.machine_ok (files_end m - 1) modes text →
  SetUp.Kernel_parse Stage2Start.KERNEL_DST (default [] (m !! KERNEL_FILE_NAME)) = Ret k →
  returns (create_bios_image self out h) (λ h', ∃ image, h' = <[out := image]> h ∧ 512 ≤ Z.of_nat (length image) < 2 ^ 41 ∧
    ∀ disk mem, boots_from DISK_BUFFER disk image mem →
      returns (BootSector.first_stage PARTITION_TABLE SECOND_STAGE_START disk mem) (λ '(j, mem1),
        BootSector.entry_point j = SECOND_STAGE_START ∧
        mem_read mem1 SECOND_STAGE_START (Z.of_nat (length BIOS_STAGE_2)) = BIOS_STAGE_2 ∧
        ∃ bound, ∀ fuel, (bound ≤ fuel)%nat →
          returns (Stage2Start.start TMP_BUF DISK_BUFFER MEMORY_MAP fuel (BootSector.jump_disk_number j)
                     (BootSector.partition_table_start j) mem1) (λ '(info, mem2),
            ∀ mem3, BootChain.handed_over info mem2 mem3 →
              returns (Stage4.prepare cr3 Logger.log_start text info mem3) (handed_to_loader m k)))).
Proof.
  intros m Hbu Hma Hm4 Hk. eapply returns_mono; [exact (built_image_boots DISK_BUFFER self out h t Hbu)|].
  intros h' (image & -> & Hlen & Hb). exists image.
  split_and!; [done|lia|lia|]. intros disk mem Hd. eapply returns_mono; [exact (Hb disk mem Hd)|].
  intros [j mem1] (-> & Hs2 & fat & e & Hp). split_and!; [done|done|].
  cbn [BootSector.jump_disk_number BootSector.partition_table_start].
  exact (image_handed fat m disk e PARTITION_TABLE mem1 modes text cr3 k Hp (bu_sizes _ _ _ _ Hbu) Hma Hm4 Hk).
Qed.
End Chain.
End ImageChain.
