(* ===== verification/ImageChainSample.v ===== *)
(** * From the files of the host to the kernel loader, on a concrete machine

    The image of [ImageFilesSample] on the machine of [BootChain]: the path from
    the builder to the kernel loader at one input. *)
From stdpp Require Import gmap strings.
From S2P Require Import Prelude Memory X86 Paging PageTables Config Info Elf FrameAllocator.
From S2P Require Import Level4 LoadKernel SetUp SetUpProofs Fat FatProofs Disk BootSector Stage2.
From S2P Require Import E820 BiosCommon Vesa Framebuffer Logger Stage2Start Stage4 BootChain.
From S2P Require Import DiskImage DiskImageProofs ImageBoot ImageFiles DiskImageSample ImageFilesSample ImageChain.
Import Memory X86 Paging PageTables Disk Fat FatProofs Stage2 DiskImage DiskImageProofs ImageBoot ImageFiles.
Import DiskImageSample ImageFilesSample ImageChain.

Module ImageChainSample.
#[local] Existing Instances sample_host sample_host_laws sample_mbrman sample_mbrman_laws sample_binaries
  fat12_writer fat12_writer_laws fat12_format_laws disk_of_laws.
#[local] Existing Instances Stage2Start.boot_mbr Stage2Start.boot_mbr_laws Stage2Start.boot_vbe Stage2Start.boot_vbe_laws
  E820.sample_bios E820.sample_laws.
#[local] Existing Instances Framebuffer.sample_font Logger.list_uart Logger.list_uart_laws
  BootChain.table_offset BootChain.table_offset_laws BootChain.no_json BootChain.no_rsdp BootChain.no_rsdp_laws BootChain.sample_parser.

(** The kernel of three bytes, as the parser reports it. *)
Definition host_kernel : SetUp.Kernel := SetUp.mkKernel BootChain.sample_elf BootChain.sample_config Stage2Start.KERNEL_DST 3.

Lemma host_machine : BootChain.machine_ok (files_end (built_files sample_builder sample_hostfiles) - 1) Stage2Start.boot_modes (Logger.chars "fb").
Proof.
  unfold built_files. rewrite sample_contents. change (files_end sample_set - 1) with 0x1001003.
  destruct BootChain.sample_machine as [Hmap (f & Hu & Hf) Hmodes Htext].
  split; [done|exists f; split; [done|lia]| |done]. intros m Hm Hs. destruct (Hmodes m Hm Hs) as (? & ? & ?). split_and!; (done || lia).
Qed.
Lemma host_kernel_parsed : SetUp.Kernel_parse Stage2Start.KERNEL_DST
  (default [] (built_files sample_builder sample_hostfiles !! KERNEL_FILE_NAME)) = Ret host_kernel.
Proof. unfold built_files. rewrite sample_contents. by vm_compute. Qed.

Lemma built_image_reaches_loader_witness : ∃ image,
  create_bios_image sample_builder "bios.img" sample_hostfiles = Ret (<["bios.img" := image]> sample_hostfiles) ∧
  returns (BootSector.first_stage (B := disk_of image) PARTITION_TABLE SECOND_STAGE_START 0x80 (booted image)) (λ '(j, mem1),
    ∃ bound, ∀ fuel, (bound ≤ fuel)%nat →
      returns (Stage2Start.start (B := disk_of image) sample_tmp Stage2Start.boot_buffer 0x9000 fuel (BootSector.jump_disk_number j)
                 (BootSector.partition_table_start j) mem1) (λ '(info, mem2),
        returns (Stage4.prepare (M := Table) 0x1000 Logger.log_start (Logger.chars "fb") info mem2) (λ p,
          Stage4.p_kernel p = host_kernel ∧ mem_read (Stage4.p_memory p) Stage2Start.KERNEL_DST 3 = Logger.chars "ELF" ∧
          SetUp.sys_ramdisk_len (Stage4.p_system_info p) = 4))).
Proof.
  destruct (built_image _ (λ img, built_image_reaches_loader (B := disk_of img) (T := Table) sample_tmp Stage2Start.boot_buffer 0x9000
    sample_builder "bios.img" sample_hostfiles "/tmp/.fat" Stage2Start.boot_modes (Logger.chars "fb") 0x1000 host_kernel
    sample_build_ok loading_machine_ok host_machine host_kernel_parsed)) as (image & E & Hlen & Hb).
  exists image. split; [exact E|]. eapply returns_mono; [exact (Hb 0x80 (booted image) (boots_booted image Hlen))|].
  intros [j mem1] (_ & _ & bound & Hs). exists bound. intros fuel Hf. eapply returns_mono; [exact (Hs fuel Hf)|].
  intros [info mem2] Hp. eapply returns_mono; [apply (Hp mem2); by intros x _|].
  intros p [[Hk Hm] Hr _ _ _ _]. unfold built_files in *. rewrite sample_contents in Hm, Hr.
  destruct Hr as (a & _ & Hr & _). split_and!; [exact Hk|exact Hm|exact Hr].
Defined.
End ImageChainSample.
